(* ===== verification/_CoqProject ===== *)
-Q . S2P
Prelude.v
CLib.v
FloatFacts.v
Vigor.v
Bytes.v
Data.v
DataFacts.v
Binf.v
BinfFacts.v
Core.v
CoreFacts.v
Windowed.v
Reactor.v
ReactorFacts.v
KernelFacts.v
Safety.v
Name.v
NameFacts.v
Pdu.v
PduFacts.v
Config.v
LexFacts.v
ConfigFacts.v
Subscriber.v
SubscriberFacts.v
Startup.v
StartupFacts.v
Dump.v
PrintFacts.v
DumpFacts.v
Threads.v
Cache.v
CacheFacts.v
Agent.v
AgentFacts.v
BeaconFacts.v
OpenTSDB.v
OpenTSDBFacts.v
Meta.v
Published.v
Rrd.v
RrdFacts.v
Pg.v
PgFacts.v
Slack.v
SlackFacts.v
Influx.v
InfluxFacts.v
Sqlite.v
SqliteFacts.v
Sinks.v
SinksFacts.v
Console.v
StatusFacts.v
ConsoleFacts.v
Query.v
QueryFacts.v
Tools.v
ToolsFacts.v
Spy.v
SpyFacts.v
Options.v
Programs.v
ProgramsFacts.v
ReceiverFacts.v
Nsca.v
NscaFacts.v
Tsdp.v
TsdpFacts.v
