(* ===== verification/Prelude.v ===== *)
(** * A verification library for bolo, the monitoring toolkit

    ** The program

    bolo aggregates monitoring data.  Agents send messages (PDUs) to the
    aggregator, whose kernel (src/core.c) keeps states, counters, samples,
    rates, events and keys in a database (src/bolo.h), groups the counters,
    samples and rates into time windows (src/data.c), watches that states
    stay fresh, broadcasts everything to subscribers, and answers requests
    on a management socket.  The database is configured from a file
    (src/config.c), saved to a binary file and restored from it (src/binf.c);
    the keys are kept in a text file of their own.  Messages are built by
    src/bolo_pdu.c, qualified names are handled by src/bolo_name.c.

    Around the aggregator: the agent (src/dbolo) runs commands and submits
    the lines they print; the OpenTSDB receiver (src/opentsdb2bolo) submits
    the lines its clients send; subscribers receive what the aggregator
    publishes and consist of threads over in-process sockets
    (src/bolo_subscriber.c), one of which reports metrics about the
    subscriber itself.  The subscribers keep the last messages
    (src/bolo/cmd_cache.c), or pass them on: to RRD files, PostgreSQL,
    SQLite, Redis, InfluxDB, Slack, a log file, a terminal, the standard
    output, or back to the aggregator (bolo2meta).  Commands query and change
    the aggregator (src/bolo).  bolo_nsca hands over the results of other
    monitoring systems; libtsdp (tsdp) is a binary protocol that the programs
    do not use yet.

    ** The files

    - [Prelude]: machine integers, the result type [res] with its faults, the
      monad [M] of stateful code with output, weakest preconditions, tactics
      and hint databases, and the walks over tables.
    - [CLib]: what the program uses of the C library: characters, strings,
      number scanning and printing, [fgets], [qsort], and IEEE binary64;
      [FloatFacts]: bounds on its sums and quotients, and on the digits of
      what is printed.
    - [Vigor]: libvigor (messages, tables, lists) and libpcre as classes of
      operations with classes of laws, and one instance of each.
    - [Bytes]: bytes, byte order, the bits of doubles, mapped files.
    - [Data], [DataFacts]: src/bolo.h and src/data.c.
    - [Binf], [BinfFacts]: src/binf.c.
    - [Core]: the kernel's state and src/core.c up to [buffer_event];
      [CoreFacts].
    - [Reactor]: [_kernel_reactor]; [Windowed] is the abstract specification
      of its aggregation (grouping a stream of observations by window), and
      [ReactorFacts] the refinement; [KernelFacts] the other handlers;
      [Safety] the invariant, the step relation and safety.
    - [Name], [NameFacts]: src/bolo_name.c.
    - [Pdu], [PduFacts]: src/bolo_pdu.c, up to its delivery to the kernel.
    - [Config]: src/config.c, the lexer and [configure]; [LexFacts] and
      [ConfigFacts].
    - [Subscriber], [SubscriberFacts]: the monitor of src/bolo_subscriber.c.
    - [Startup], [StartupFacts]: the start of the aggregator
      (src/bolo/cmd_aggregator.c, [core_kernel_thread]), the scheduler and
      the supervisor.
    - [Threads]: the threads of a subscriber and how they are connected
      (src/bolo_subscriber.c); [Cache] and [CacheFacts]: src/bolo/cmd_cache.c.
    - [Agent], [AgentFacts]: src/dbolo/main.c (the file of commands, the
      collection of output, the main loop); [BeaconFacts]: its beacon, with
      the rounding of binary32.
    - [OpenTSDB], [OpenTSDBFacts]: src/opentsdb2bolo/main.c.
    - [Meta]: src/bolo2meta/main.c; [Published]: the shapes of everything the
      kernel publishes.
    - [Rrd], [RrdFacts]: src/bolo2rrd/main.c.
    - [Pg], [PgFacts]: src/bolo2pg/main.c; [Slack], [SlackFacts]:
      src/bolo2slack/main.c; [Influx], [InfluxFacts]: src/bolo2influxdb/main.c;
      [Sqlite], [SqliteFacts]: src/bolo2sqlite/main.c, over an interface to
      SQLite with the constraints of examples/schema/sqlite3.sql, and an
      instance.
    - [Sinks], [SinksFacts]: the subscribers that write one line or command
      per message: bolo2log, bolo2redis and src/bolo/cmd_tail.c.
    - [Console]: src/bolo2console/main.c; [StatusFacts]: its status lines and
      how wide they get; [ConsoleFacts]: its rings, rows and safety.
    - [Query], [QueryFacts]: src/bolo/cmd_query.c; [Tools], [ToolsFacts]:
      src/bolo/main.c, cmd_send.c, cmd_forget.c and cmd_name.c; [Spy],
      [SpyFacts]: src/bolo/cmd_spy.c.
    - [Dump]: the aggregator's command line, the dump of its configuration
      and the whole of src/bolo/cmd_aggregator.c; [PrintFacts] the lexer as
      the inverse of printing, [DumpFacts] the round trip.
    - [Options]: the command lines of the programs that stay; [Programs]:
      their [main], from the options to the running threads or the loop;
      [ProgramsFacts], and [ReceiverFacts] for opentsdb2bolo as a whole.
    - [Nsca], [NscaFacts]: src/bolo_nsca/main.c.
    - [Tsdp], [TsdpFacts]: include/tsdp.h and tsdp, over a heap of frames.

    ** What the theorems show

    - Safety of the whole: an aggregator that has started from an accepted
      configuration keeps its invariant in every reachable state, and no
      message faults it but the listed exceptions ([aggregator_safe],
      [kernel_invariant], [kernel_safety]).
    - Aggregation: the kernel refines the grouping by windows for counters,
      samples and rates; no increment is lost; a tick publishes exactly what
      is due and is idempotent; the incremental statistics are the textbook
      ones.
    - Handlers: STATE, FORGET, the keys, freshness, events, broadcasts.
    - Round trips: the save file, its records, the keys file, names, keys,
      and the configuration that [bolo aggr -D] dumps.
    - Configuration: termination on every text file, and what an accepted
      file builds.
    - Subscribers: the median is the median, counts are submitted in full,
      the monitor is safe; bolo2meta reports how many messages of every kind
      were published, and bolo2rrd only updates metrics it has announced.
    - What is published: every reaction of the kernel only publishes messages
      of the documented shapes; a state reaches the cache, a metric its RRD
      file once that exists; the cache repeats the last message of every name
      that only one type uses; a signal stops every thread of a subscriber.
    - The agent: the complete lines of a command's output are submitted
      whatever pieces they arrive in; the file of commands is read as
      written; commands are started exactly when due and the system can, and
      never more often than their interval.
    - The OpenTSDB receiver, without a prefix: lines that are read whole are
      translated, one message each, and the program implements a bounded set
      of connections.
    - bolo_nsca: the records of one read are submitted in order, each when the
      one before it was answered.
    - libtsdp: fields that are set are read back.
    - The other subscribers: PostgreSQL gets the last status of every state
      although reports are skipped; the table of SQLite is a map from names
      to the last report that its constraints let through; Redis holds every
      key whose SET it accepted; a request to Slack, for values without
      backslashes, reads as the JSON object it is meant to be, in whatever
      pieces it is fetched; the console keeps the last 256 windows of every
      metric and, on a terminal wide enough for the names and the status
      lines, draws them in the order of time and stays within its arrays.
    - The commands: the query shell prints exactly the keys, events and states
      that are asked for; the command that forgets changes exactly the
      entries it names and reports it; the lines that are sent, the names
      that are edited, the boxes of the spy.
    - Round trips of text files: the commands of the agent, the map of
      bolo2rrd.
    - Where the code does not do what it means to, the theorem states what it
      does: truncation in the save file, unreadable records, roll-over of
      rates, empty windows, stale digits and unterminated files in the
      configuration, wildcards of names, events without description; the
      agent's beacon, long intervals and full buffer; split lines, stale
      newlines and addresses in the OpenTSDB receiver; names shared by
      several types in the cache, and names like types in the map of
      bolo2rrd; quotes and backslashes in the summaries sent to Slack, long lines to
      InfluxDB, narrow terminals and per cent signs on the console, lost log
      files, unknown codes in the spy, arguments of the query shell and its
      commands that are not answered; stale digits in a dumped configuration,
      later reads of bolo_nsca and the answers it does not get, and the
      memory, frames, opcodes and types of libtsdp.

    ** Conventions and bounds

    A C integer is a [Z] with its conversions written out ([u8] ... [s32]);
    signed overflow wraps.  A fault ([Fault]) is an execution the language
    leaves undefined, and ends the run.  The host is little-endian with
    glibc's merge-sort [qsort] and 4096-byte pages; memory from [vmalloc] and
    [calloc] is zero and allocation does not fail, except where a parameter
    says so; the clock does not change within one reaction.  [%li] with an
    [int] prints its value; the sign of a NaN and hexadecimal floating
    literals are not represented.  A line of the keys file that is blank is a
    fault, since the code reads past the terminator.  In the configuration
    the buffer ends in zeros; lines of 8191 characters, where the next bytes
    belong to another array, are outside the theorem on termination.

    A [float] expression is evaluated in [float]; the bytes of a pipe or a
    connection arrive in arbitrary pieces, which are arguments; so are the
    answers of the operating system, of 0MQ and of the clients of databases,
    and what an uninitialised variable or the stack holds.  ncurses is the
    list of what is printed, [long double] the 80-bit format.

    Fuel: [getline], [fgets_lines], the printers, [send_lines], [sink_loop]
    and [tags] use fuel that is computed from their input and is enough for
    it; [lines_loop] has one unit for every byte of its buffer.  The loops
    over the frames of a message ([redis_pairs], [print_frames],
    [print_from], [extend_words]) have one for every frame or byte, those of
    the console over a ring one for every slot and one more, and the query
    shell one for every byte of its input.  [configure] takes its fuel as an
    argument and distinguishes running out of it ([Out]) from a result;
    [configure_terminates] shows that the length of the file is enough and
    that more changes nothing.
    The walks over the frames of libtsdp have as much fuel as the heap has
    frames or the packet has octets, and [None] stands for a walk that does
    not end.

    ** Not modelled

    The NSCA gateway (src/nsca.c with src/util.c, which is left out of the
    build); the commands that print help and version, and the usage texts of
    the others; the release of memory ([deconfigure], [bolo_name_copy]'s
    sharing, what [main] frees before it returns); the child of the agent
    between fork and exec; the setup of the sockets of the commands that send
    one message; colours and the window-size signal of the console; the
    libraries that the programs call, among them [daemonize] and
    [getopt_long], whose results are arguments. *)

From Stdlib Require Export Lia.
From stdpp Require Export numbers strings sorting fin_maps gmap list.

(** ** Scope and notations *)

Declare Scope bolo_scope.
Delimit Scope bolo_scope with bolo.
Global Open Scope Z_scope.

(** ** Machine integers

    A C integer of width [w] is a [Z]; the conversions below are the
    conversions the language performs on assignment and argument passing
    (two's complement for the signed types). *)

Definition u8  (z : Z) : Z := z mod 2 ^ 8.
Definition u16 (z : Z) : Z := z mod 2 ^ 16.
Definition u32 (z : Z) : Z := z mod 2 ^ 32.
Definition u64 (z : Z) : Z := z mod 2 ^ 64.
Definition s16 (z : Z) : Z := (z + 2 ^ 15) mod 2 ^ 16 - 2 ^ 15.
Definition s32 (z : Z) : Z := (z + 2 ^ 31) mod 2 ^ 32 - 2 ^ 31.

Definition is_u8  (z : Z) : Prop := 0 ≤ z < 2 ^ 8.
Definition is_u16 (z : Z) : Prop := 0 ≤ z < 2 ^ 16.
Definition is_u32 (z : Z) : Prop := 0 ≤ z < 2 ^ 32.
Definition is_u64 (z : Z) : Prop := 0 ≤ z < 2 ^ 64.
Definition is_s32 (z : Z) : Prop := - 2 ^ 31 ≤ z < 2 ^ 31.

(** [lia] with division and remainder. *)
Ltac zlia := Z.div_mod_to_equations; lia.

(** [cint] unfolds the conversions and lets [lia] reason on the Euclidean
    division they stand for. *)
Ltac cint :=
  unfold u8, u16, u32, u64, s16, s32, is_u8, is_u16, is_u32, is_u64, is_s32 in *;
  try zlia.

Create HintDb cint.
Create Rewrite HintDb cint_rw.

Lemma u8_id z : is_u8 z → u8 z = z.
Proof. cint. Qed.

Lemma u16_id z : is_u16 z → u16 z = z.
Proof. cint. Qed.

Lemma u32_id z : is_u32 z → u32 z = z.
Proof. cint. Qed.

Lemma u64_id z : is_u64 z → u64 z = z.
Proof. cint. Qed.

Lemma s32_id z : is_s32 z → s32 z = z.
Proof. cint. Qed.

Lemma u8_range z : is_u8 (u8 z).
Proof. cint. Qed.

Lemma u16_range z : is_u16 (u16 z).
Proof. cint. Qed.

Lemma u32_range z : is_u32 (u32 z).
Proof. cint. Qed.

Lemma u64_range z : is_u64 (u64 z).
Proof. cint. Qed.

Lemma s32_range z : is_s32 (s32 z).
Proof. cint. Qed.

(** Going through the other signedness loses nothing. *)
Lemma s32_u32 z : s32 (u32 z) = s32 z.
Proof.
  unfold s32, u32. f_equal.
  rewrite Zplus_mod_idemp_l. reflexivity.
Qed.

Lemma u32_s32 z : u32 (s32 z) = u32 z.
Proof.
  unfold s32, u32.
  rewrite Zminus_mod_idemp_l. f_equal. lia.
Qed.

Lemma u64_add_idemp_l a b : u64 (u64 a + b) = u64 (a + b).
Proof. apply Zplus_mod_idemp_l. Qed.

Lemma u64_add_idemp_r a b : u64 (a + u64 b) = u64 (a + b).
Proof. apply Zplus_mod_idemp_r. Qed.

#[export] Hint Resolve u8_range u16_range u32_range u64_range s32_range : cint.
#[export] Hint Rewrite u8_id u16_id u32_id u64_id s32_id using (solve [eauto with cint]) : cint_rw.
#[export] Hint Rewrite s32_u32 u32_s32 u64_add_idemp_l u64_add_idemp_r : cint_rw.

(** ** Results

    [Fault] marks an execution the C standard leaves undefined: the program
    may crash there, and the model stops. *)

Inductive fault : Set :=
| NullPointer     (** a null pointer passed to a function that reads it *)
| DivByZero       (** the remainder by a zero window *)
| OutOfBounds     (** an access outside the object *)
| BadConversion   (** a floating-point value outside the integer type *)
| BadFree         (** [free] of a pointer that was not allocated *)
| BadFormat.      (** a format that asks for arguments that are not there *)

Inductive res (A : Type) : Type :=
| Ok (a : A)
| Fault (f : fault).
Arguments Ok {A} a.
Arguments Fault {A} f.

#[export] Instance fault_eq_dec : EqDecision fault.
Proof. solve_decision. Defined.

#[export] Instance res_ret : MRet res := λ A a, Ok a.
#[export] Instance res_bind : MBind res := λ A B f m,
  match m with Ok a => f a | Fault e => Fault e end.

(** Reading through a pointer that may be null. *)
Definition deref {A} (p : option A) : res A :=
  match p with Some a => Ok a | None => Fault NullPointer end.

Definition is_ok {A} (r : res A) : bool :=
  match r with Ok _ => true | Fault _ => false end.

Lemma Ok_bind {A B} (a : A) (f : A → res B) : Ok a ≫= f = f a.
Proof. done. Qed.

Lemma bind_Ok {A B} (m : res A) (f : A → res B) b :
  (m ≫= f) = Ok b ↔ ∃ a, m = Ok a ∧ f a = Ok b.
Proof.
  destruct m; cbn; split; [by eauto|by intros (? & [= ->] & ?)|done|by intros (? & ? & ?)].
Qed.

Lemma ret_Ok {A} (a b : A) : mret (M := res) a = Ok b → a = b.
Proof. by intros [= ->]. Qed.

Lemma deref_Ok {A} (p : option A) a : deref p = Ok a ↔ p = Some a.
Proof. destruct p; cbn; split; congruence. Qed.

(** ** State, output and failure

    The handlers of the program read and update a state [S], hand messages
    and file contents to the outside ([O]) and may reach a fault. *)

Definition M (S O A : Type) : Type := S → res (A * S * list O).

#[export] Instance M_ret {S O} : MRet (M S O) := λ A a s, Ok (a, s, []).
#[export] Instance M_bind {S O} : MBind (M S O) := λ A B f m s,
  match m s with
  | Ok (a, s1, o1) =>
      match f a s1 with
      | Ok (b, s2, o2) => Ok (b, s2, o1 ++ o2)
      | Fault e => Fault e
      end
  | Fault e => Fault e
  end.

Definition get {S O} : M S O S := λ s, Ok (s, s, []).
Definition put {S O} (s : S) : M S O () := λ _, Ok ((), s, []).
Definition modify {S O} (f : S → S) : M S O () := λ s, Ok ((), f s, []).
Definition emit {S O} (o : O) : M S O () := λ s, Ok ((), s, [o]).
Definition lift {S O A} (r : res A) : M S O A := λ s,
  match r with Ok a => Ok (a, s, []) | Fault e => Fault e end.

(** A loop whose body is run for its effects. *)
Fixpoint for_each_m {S O A} (body : A → M S O ()) (l : list A) : M S O () :=
  match l with
  | [] => mret ()
  | x :: l => body x ≫= λ _, for_each_m body l
  end.

Notation "'when' b 'do' m" := (if b then m else mret ())
  (at level 100, b at level 99, m at level 100) : bolo_scope.

(** The pure reading of a run: which state it leaves and what it sent. *)
Definition runs {S O} (m : M S O ()) (s s' : S) (o : list O) : Prop :=
  m s = Ok ((), s', o).

(** Prefixing the output of a run. *)
Definition out_app {S O A} (o : list O) (r : res (A * S * list O)) : res (A * S * list O) :=
  match r with Ok (a, s, o') => Ok (a, s, o ++ o') | Fault e => Fault e end.

Section monad_laws.
Context {S O : Type}.
Implicit Types s : S.

Lemma out_app_nil {A} (r : res (A * S * list O)) : out_app [] r = r.
Proof. by destruct r as [[[? ?] ?]|]. Qed.

Lemma M_ret_bind {A B} (a : A) (f : A → M S O B) s : (mret a ≫= f) s = f a s.
Proof. apply (out_app_nil (f a s)). Qed.

Lemma M_get_bind {B} (f : S → M S O B) s : (get ≫= f) s = f s s.
Proof. apply (out_app_nil (f s s)). Qed.

Lemma M_modify_bind {B} g (f : () → M S O B) s : (modify g ≫= f) s = f () (g s).
Proof. apply (out_app_nil (f () (g s))). Qed.

Lemma M_emit_bind {B} o (f : () → M S O B) s : (emit o ≫= f) s = out_app [o] (f () s).
Proof. done. Qed.

Lemma M_lift_bind {A B} (a : A) (f : A → M S O B) s : (lift (Ok a) ≫= f) s = f a s.
Proof. apply (out_app_nil (f a s)). Qed.

Lemma M_assoc {A B C} (m : M S O A) (f : A → M S O B) (g : B → M S O C) s :
  ((m ≫= f) ≫= g) s = (m ≫= λ a, f a ≫= g) s.
Proof.
  unfold mbind, M_bind. destruct (m s) as [[[a s1] o1]|]; [|done].
  destruct (f a s1) as [[[b s2] o2]|]; [|done].
  destruct (g b s2) as [[[c s3] o3]|]; [|done]. by rewrite app_assoc.
Qed.

(** A run that ends is a prefix of the next one. *)
Lemma M_run_bind {A B} (m : M S O A) (f : A → M S O B) s a s1 o1 :
  m s = Ok (a, s1, o1) → (m ≫= f) s = out_app o1 (f a s1).
Proof. intros H. unfold mbind, M_bind. by rewrite H. Qed.

Lemma out_app_app {A} o1 o2 (r : res (A * S * list O)) :
  out_app o1 (out_app o2 r) = out_app (o1 ++ o2) r.
Proof. destruct r as [[[? ?] ?]|]; cbn; [by rewrite app_assoc|done]. Qed.

Lemma M_fault_bind {A B} (m : M S O A) (f : A → M S O B) s e : m s = Fault e → (m ≫= f) s = Fault e.
Proof. intros H. unfold mbind, M_bind. by rewrite H. Qed.

Lemma for_each_m_app {A} (body : A → M S O ()) l1 l2 s :
  for_each_m body (l1 ++ l2) s = (for_each_m body l1 ≫= λ _, for_each_m body l2) s.
Proof.
  revert s. induction l1 as [|x l1 IH]; intros s; cbn [for_each_m app]; [by rewrite M_ret_bind|].
  rewrite M_assoc. unfold mbind, M_bind in *. destruct (body x s) as [[[[] s1] o1]|]; [by rewrite IH|done].
Qed.
End monad_laws.

Create Rewrite HintDb mstep.
#[export] Hint Rewrite @M_ret_bind @M_get_bind @M_modify_bind @M_emit_bind @M_lift_bind @M_assoc
  @out_app_nil @out_app_app : mstep.

(** Runs the monadic steps that are determined. *)
Ltac mstep := repeat progress (autorewrite with mstep; cbv beta).

(** ** Weakest preconditions

    [wp F m Q s]: run from [s], [m] ends in a state and with a result that
    satisfy [Q], or faults and [F] holds; [F] is [False] for total
    correctness and [True] for partial correctness. *)

Definition wp {S O A} (F : Prop) (m : M S O A) (Q : A → S → Prop) (s : S) : Prop :=
  match m s with Ok (a, s', _) => Q a s' | Fault _ => F end.

Section wp.
Context {S O : Type} (F : Prop).
Implicit Types s : S.

Lemma wp_ret {A} (a : A) Q s : Q a s → wp F (mret a : M S O A) Q s.
Proof. done. Qed.

Lemma wp_bind {A B} (m : M S O A) (f : A → M S O B) Q s :
  wp F m (λ a, wp F (f a) Q) s → wp F (m ≫= f) Q s.
Proof.
  unfold wp, mbind, M_bind. destruct (m s) as [[[a s1] o1]|]; [|done].
  by destruct (f a s1) as [[[b s2] o2]|].
Qed.

Lemma wp_get Q s : Q s s → wp F (get : M S O S) Q s.
Proof. done. Qed.

Lemma wp_modify g Q s : Q () (g s) → wp F (modify g : M S O ()) Q s.
Proof. done. Qed.

Lemma wp_emit (o : O) Q s : Q () s → wp F (emit o) Q s.
Proof. done. Qed.

Lemma wp_lift {A} (r : res A) Q s :
  (∀ a, r = Ok a → Q a s) → (∀ f, r = Fault f → F) → wp F (lift r : M S O A) Q s.
Proof. unfold wp, lift. destruct r; eauto. Qed.

Lemma wp_mono {A} (m : M S O A) (Q Q' : A → S → Prop) s :
  wp F m Q s → (∀ a s', Q a s' → Q' a s') → wp F m Q' s.
Proof. unfold wp. destruct (m s) as [[[a s1] o1]|]; auto. Qed.

Lemma wp_run {A} (m : M S O A) (Q : A → S → Prop) s a s' o :
  m s = Ok (a, s', o) → Q a s' → wp F m Q s.
Proof. unfold wp. by intros ->. Qed.

Lemma wp_for_each {A} (P : S → Prop) (body : A → M S O ()) l s :
  P s → (∀ x s, x ∈ l → P s → wp F (body x) (λ _, P) s) →
  wp F (for_each_m body l) (λ _, P) s.
Proof.
  revert s. induction l as [|x l IH]; intros s Hs Hbody; [by apply wp_ret|].
  cbn [for_each_m]. apply wp_bind. eapply wp_mono; [apply Hbody; [left|done]|].
  cbn. intros _ s' Hs'. apply IH; [done|]. intros. apply Hbody; [by right|done].
Qed.
End wp.

(** ** Runs as a relation

    [respects R m]: every run of [m] that ends relates the state it starts
    from, what it sends, and the state it leaves, by [R].  For a relation
    that holds of doing nothing and composes, this follows the structure of
    the code. *)

Class RunRelation {S O} (R : S → list O → S → Prop) : Prop := {
  run_rel_refl s : R s [] s;
  run_rel_trans s1 o1 s2 o2 s3 : R s1 o1 s2 → R s2 o2 s3 → R s1 (o1 ++ o2) s3;
}.

Definition respects {S O A} (R : S → list O → S → Prop) (m : M S O A) : Prop :=
  ∀ s a s' o, m s = Ok (a, s', o) → R s o s'.

Section respects.
Context {S O : Type} (R : S → list O → S → Prop) `{!RunRelation R}.

Lemma respects_ret {A} (a : A) : respects R (mret a).
Proof using All. intros s ? ? ? [= <- <- <-]. apply run_rel_refl. Qed.
Lemma respects_get : respects R get.
Proof using All. intros s ? ? ? [= <- <- <-]. apply run_rel_refl. Qed.
Lemma respects_lift {A} (r : res A) : respects R (lift r).
Proof using All. intros s ? ? ?. unfold lift. destruct r; [|done]. intros [= <- <- <-]. apply run_rel_refl. Qed.
Lemma respects_modify f : (∀ s, R s [] (f s)) → respects R (modify f).
Proof using. intros Hf s ? ? ? [= <- <- <-]. apply Hf. Qed.
Lemma respects_emit o : (∀ s, R s [o] s) → respects R (emit o).
Proof using. intros Ho s ? ? ? [= <- <- <-]. apply Ho. Qed.

Lemma respects_bind {A B} (m : M S O A) (f : A → M S O B) :
  respects R m → (∀ a, respects R (f a)) → respects R (m ≫= f).
Proof using All.
  intros Hm Hf s b s' o. unfold mbind, M_bind.
  destruct (m s) as [[[a s1] o1]|] eqn:E1; [|done].
  destruct (f a s1) as [[[b' s2] o2]|] eqn:E2; [|done]. intros [= <- <- <-].
  eapply run_rel_trans; [by eapply Hm|by eapply Hf].
Qed.

Lemma respects_for_each {A} (body : A → M S O ()) l :
  (∀ x, respects R (body x)) → respects R (for_each_m body l).
Proof using All. intros Hb. induction l as [|x l IH]; [apply respects_ret|]. cbn. by apply respects_bind. Qed.
End respects.

Create HintDb respects.
#[export] Hint Resolve respects_ret respects_get respects_lift : respects.

(** Follows the structure of a handler. *)
Ltac respects_step :=
  match goal with
  | |- respects _ (_ ≫= _) => apply respects_bind; [apply _| |intros ?]
  | |- respects _ (for_each_m _ _) => apply respects_for_each; [apply _|intros ?]
  | |- respects _ (if ?b then _ else _) => destruct b
  | |- respects _ (match ?x with _ => _ end) => destruct x
  | |- _ => solve [auto with respects typeclass_instances]
  end.

(** ** Tactics of the development *)

(** Case analysis on the test of the first [if] or [match] of the goal. *)
Ltac case_step :=
  match goal with
  | |- context [if ?b then _ else _] => destruct b eqn:?
  | |- context [match ?x with _ => _ end] => destruct x eqn:?
  end.

(** ** Lists and maps *)

(** Updating the own entry of every key of an enumeration: the loop body of
    the tables' walks. *)
Section own_entry.
Context {V : Type}.
Implicit Types (m : gmap string V) (l : list (string * V)).

(** [f k v] is the new value of the entry, [None] to leave it alone. *)
Definition update_step (f : string → V → option V) m (kv : string * V) : gmap string V :=
  match f kv.1 kv.2 with Some v' => <[kv.1 := v']> m | None => m end.

Definition update_all (f : string → V → option V) l m : gmap string V :=
  foldl (update_step f) m l.

Lemma update_all_cons f kv l m :
  update_all f (kv :: l) m = update_all f l (update_step f m kv).
Proof. done. Qed.

Lemma update_step_ne f m k v k' : k' ≠ k → update_step f m (k, v) !! k' = m !! k'.
Proof. intros Hne. unfold update_step. cbn. destruct (f k v); [by rewrite lookup_insert_ne|done]. Qed.

Lemma update_all_not_in f l m k :
  k ∉ l.*1 → update_all f l m !! k = m !! k.
Proof.
  revert m. induction l as [|[k' v] l IH]; intros m Hk; [done|].
  rewrite fmap_cons in Hk. apply not_elem_of_cons in Hk as [Hne Hk].
  rewrite update_all_cons, IH by done. by apply update_step_ne.
Qed.

Lemma update_all_in f l m k v :
  NoDup l.*1 → (k, v) ∈ l →
  update_all f l m !! k = match f k v with Some v' => Some v' | None => m !! k end.
Proof.
  revert m. induction l as [|[k' v'] l IH]; intros m Hnd Hin; [by apply elem_of_nil in Hin|].
  rewrite fmap_cons in Hnd. apply NoDup_cons in Hnd as [Hk' Hnd].
  rewrite update_all_cons.
  apply elem_of_cons in Hin as [[= -> ->]|Hin].
  - rewrite update_all_not_in by done. unfold update_step. cbn.
    destruct (f k' v'); cbn; [apply lookup_insert_eq|done].
  - rewrite IH by done. rewrite update_step_ne; [done|].
    intros ->. apply Hk'. apply list_elem_of_fmap. by exists (k', v).
Qed.

(** Whatever the order of the enumeration, the walk maps every entry. *)
Lemma update_all_enum f l m :
  l ≡ₚ map_to_list m →
  update_all f l m = map_imap (λ k v, Some (default v (f k v))) m.
Proof.
  intros Hl. apply map_eq. intros k. rewrite map_lookup_imap.
  assert (NoDup l.*1) as Hnd by (rewrite Hl; apply NoDup_fst_map_to_list).
  destruct (m !! k) as [v|] eqn:E; cbn.
  - rewrite (update_all_in _ _ _ _ v) by (done || rewrite Hl; by apply elem_of_map_to_list).
    rewrite E. by destruct (f k v).
  - rewrite update_all_not_in; [done|]. rewrite Hl.
    intros ([k' v] & -> & Hin)%list_elem_of_fmap.
    apply elem_of_map_to_list in Hin. cbn in *. congruence.
Qed.

End own_entry.

(** The general form of a walk over a table: a body that sends [out] and
    rewrites its own entry runs to the end, sends everything in the order of
    the walk, and updates the table as [update_all] does. *)
Lemma for_each_m_walk {S O V} (body : string * V → M S O ()) (l : list (string * V))
    (f : string → V → option V) (out : string → V → list O)
    (sel : S → gmap string V) (upd : gmap string V → S → S) s :
  (∀ s, upd (sel s) s = s) → (∀ m s, sel (upd m s) = m) →
  (∀ m m' s, upd m (upd m' s) = upd m s) →
  (∀ k v s, (k, v) ∈ l →
     body (k, v) s = Ok ((), upd (update_step f (sel s) (k, v)) s, out k v)) →
  for_each_m body l s =
    Ok ((), upd (update_all f l (sel s)) s, concat ((λ kv, out kv.1 kv.2) <$> l)).
Proof.
  intros Hid Hsel Hupd. revert s. induction l as [|[k v] l IH]; intros s Hbody.
  - cbn. by rewrite Hid.
  - cbn [for_each_m].
    rewrite (M_run_bind _ _ _ _ _ _ (Hbody k v s (list_elem_of_here _ _))).
    rewrite IH by (intros; apply Hbody; by right).
    by rewrite Hsel, Hupd.
Qed.
