(* ===== verification/CLib.v ===== *)
(** * The C language's library, as far as the program uses it

    Characters and strings ([<ctype.h>], [<string.h>]), number scanning and
    printing ([strtol], [strtoul], [atoi], [strtod] and the conversions of
    [printf]), line input ([fgets]), [qsort], and IEEE 754 binary64
    arithmetic for the type [double].

    A C string is a [string] whose characters are not NUL; a pointer into a
    buffer is the suffix of the buffer that it points to. *)

From S2P Require Import Prelude.
From Stdlib Require Import Ascii SpecFloat.
From Stdlib Require String.

(** ** Characters (the "C" locale) *)

Definition code (c : ascii) : Z := Z.of_N (N_of_ascii c).
Definition chr (z : Z) : ascii := ascii_of_N (Z.to_N z).

Definition isspace (c : ascii) : bool := (code c =? 32) || ((9 <=? code c) && (code c <=? 13)).
Definition isdigit (c : ascii) : bool := (48 <=? code c) && (code c <=? 57).
Definition isupper (c : ascii) : bool := (65 <=? code c) && (code c <=? 90).
Definition islower (c : ascii) : bool := (97 <=? code c) && (code c <=? 122).
Definition isalnum (c : ascii) : bool := isdigit c || isupper c || islower c.
Definition ispunct (c : ascii) : bool := (33 <=? code c) && (code c <=? 126) && negb (isalnum c).
Definition tolower (c : ascii) : ascii := if isupper c then chr (code c + 32) else c.

Definition NUL : ascii := chr 0.
Definition TAB : ascii := chr 9.
Definition LF : ascii := chr 10.
Definition CR : ascii := chr 13.
Definition QUOTE : ascii := chr 34.
Definition BACKSLASH : ascii := chr 92.

(** ** Strings *)

Definition str1 (c : ascii) : string := String c "".

(** [while (P( *s )) s++;] on a NUL-terminated string, for a test that fails
    on NUL: the pointer that is left, and what was passed over. *)
Fixpoint skip_while (p : ascii → bool) (s : string) : string :=
  match s with
  | EmptyString => EmptyString
  | String c s' => if p c then skip_while p s' else s
  end.

Fixpoint take_while (p : ascii → bool) (s : string) : string :=
  match s with
  | EmptyString => EmptyString
  | String c s' => if p c then String c (take_while p s') else EmptyString
  end.

Definition not_space (c : ascii) : bool := negb (isspace c).
Definition skip_space : string → string := skip_while isspace.
Definition is_char (c d : ascii) : bool := Ascii.eqb c d.
Definition is_not (c d : ascii) : bool := negb (Ascii.eqb c d).

(** The character at the pointer, NUL at the end of the string. *)
Definition head_char (s : string) : ascii :=
  match s with EmptyString => NUL | String c _ => c end.
Definition tail_str (s : string) : string :=
  match s with EmptyString => EmptyString | String _ s' => s' end.

Definition strlen (s : string) : Z := Z.of_nat (String.length s).
Definition strcmp (a b : string) : comparison := String.compare a b.
Definition streq (a b : string) : bool := String.eqb a b.

Fixpoint str_map (f : ascii → ascii) (s : string) : string :=
  match s with EmptyString => EmptyString | String c s' => String (f c) (str_map f s') end.
Definition strcaseeq (a b : string) : bool := String.eqb (str_map tolower a) (str_map tolower b).

(** [strrchr(s, c)] and cutting the string there: what precedes the last
    occurrence of [c]; the whole string when there is none. *)
Fixpoint has_char (c : ascii) (s : string) : bool :=
  match s with EmptyString => false | String d s' => Ascii.eqb c d || has_char c s' end.
Fixpoint cut_last (c : ascii) (s : string) : string :=
  match s with
  | EmptyString => EmptyString
  | String d s' =>
      if Ascii.eqb c d && negb (has_char c s') then EmptyString else String d (cut_last c s')
  end.

(** What follows the last [c]. *)
Fixpoint after_last (c : ascii) (s : string) : string :=
  match s with
  | EmptyString => EmptyString
  | String d s' => if Ascii.eqb c d && negb (has_char c s') then s' else after_last c s'
  end.

(** The C string at the start of a memory, and the first bytes of a memory
    and those that follow them. *)
Definition not_nul (c : ascii) : bool := is_not NUL c.
Definition cstr (m : string) : string := take_while not_nul m.

Fixpoint drop_str (n : nat) (s : string) : string :=
  match n, s with
  | S n', String _ s' => drop_str n' s'
  | _, _ => s
  end.
Fixpoint take_str (n : nat) (s : string) : string :=
  match n, s with
  | S n', String c s' => String c (take_str n' s')
  | _, _ => EmptyString
  end.

(** A block of memory is the string of its bytes: writing [src] at an offset,
    and the C string at an offset. *)
Definition mem_write (i : Z) (src mem : string) : res string :=
  if (0 <=? i) && (i + strlen src <=? strlen mem)
  then Ok (take_str (Z.to_nat i) mem +:+ src +:+ drop_str (Z.to_nat i + String.length src) mem)
  else Fault OutOfBounds.
Definition mem_string (i : Z) (mem : string) : res string :=
  let m := drop_str (Z.to_nat i) mem in
  if has_char NUL m then Ok (cstr m) else Fault OutOfBounds.
Fixpoint zeros (n : nat) : string := match n with O => EmptyString | S n' => String NUL (zeros n') end.

(** [fgets(buf, n, io)]: at most [n - 1] characters, up to and including the
    first newline; [None] at the end of the file. *)
Fixpoint fgets_aux (n : nat) (s : string) : string * string :=
  match n, s with
  | S n', String c s' =>
      if Ascii.eqb c LF then (String c EmptyString, s')
      else let (l, r) := fgets_aux n' s' in (String c l, r)
  | _, _ => (EmptyString, s)
  end.
Definition fgets (n : nat) (s : string) : option (string * string) :=
  match s with
  | EmptyString => None
  | _ => Some (fgets_aux (n - 1) s)
  end.

(** ** Scanning integers *)

Definition digit_val (c : ascii) : Z := code c - 48.

Fixpoint scan_digits (acc : Z) (s : string) : Z * string :=
  match s with
  | String c s' => if isdigit c then scan_digits (acc * 10 + digit_val c) s' else (acc, s)
  | EmptyString => (acc, s)
  end.

(** Optional white space and sign, then digits: the sign, the magnitude and
    the rest; [None] when there is no digit (then nothing is consumed). *)
Definition scan_int (s : string) : option (bool * Z * string) :=
  let t := skip_space s in
  let neg := Ascii.eqb (head_char t) "-" in
  let t := if neg || Ascii.eqb (head_char t) "+" then tail_str t else t in
  if isdigit (head_char t) then let (m, r) := scan_digits 0 t in Some (neg, m, r) else None.

Definition clamp (lo hi z : Z) : Z := Z.max lo (Z.min hi z).

Definition strtol (s : string) : Z :=
  match scan_int s with
  | Some (neg, m, _) => clamp (- 2 ^ 63) (2 ^ 63 - 1) (if neg then - m else m)
  | None => 0
  end.

(** [strtoul] and [strtoull] (both 64 bits wide), with the end pointer. *)
Definition strtoul_end (s : string) : Z * string :=
  match scan_int s with
  | Some (neg, m, r) => (if 2 ^ 64 - 1 <? m then 2 ^ 64 - 1 else if neg then u64 (- m) else m, r)
  | None => (0, s)
  end.
Definition strtoul (s : string) : Z := (strtoul_end s).1.

Definition atoi (s : string) : Z := s32 (strtol s).

(** ** Printing integers *)

Definition digit_chr (z : Z) : ascii := chr (48 + z).

Fixpoint dec_aux (fuel : nat) (n : Z) : string :=
  match fuel with
  | O => EmptyString
  | S f => (if n <? 10 then EmptyString else dec_aux f (n / 10)) +:+ str1 (digit_chr (n mod 10))
  end.

(** The decimal digits of a non-negative number; one unit of fuel per digit,
    and a number has no more decimal than binary digits. *)
Definition dec (n : Z) : string := dec_aux (S (Z.to_nat (Z.log2 n))) n.

(** [%i], [%li], [%u], [%lu] *)
Definition fmt_i (z : Z) : string := if z <? 0 then "-" +:+ dec (- z) else dec z.
Definition fmt_u (z : Z) : string := dec (u32 z).
Definition fmt_lu (z : Z) : string := dec (u64 z).

(** Padding to a width: on the right for [%-9s] and [%-*s], on the left for
    [%6.2Lf]. *)
Fixpoint blanks (n : nat) : string := match n with O => "" | S n' => " " +:+ blanks n' end.
Definition pad_right (w : Z) (s : string) : string := s +:+ blanks (Z.to_nat w - String.length s).
Definition pad_left (w : Z) (s : string) : string := blanks (Z.to_nat w - String.length s) +:+ s.

(** ** IEEE 754 binary64 *)

Abbreviation double := spec_float.
Definition prec : Z := 53.
Definition emax : Z := 1024.
Definition d_of_Z (z : Z) : double := binary_normalize prec emax z 0 false.
Definition dadd : double → double → double := SFadd prec emax.
Definition dsub : double → double → double := SFsub prec emax.
Definition dmul : double → double → double := SFmul prec emax.
Definition ddiv : double → double → double := SFdiv prec emax.
Definition dltb (a b : double) : bool := SFltb a b.
Definition deqb (a b : double) : bool := SFeqb a b.

(** The integer part, as the conversion to an integer type computes it. *)
Definition d_trunc (d : double) : option Z :=
  match d with
  | S754_zero _ => Some 0
  | S754_finite s m e =>
      let a := if 0 <=? e then Z.pos m * 2 ^ e else Z.pos m / 2 ^ (- e) in
      Some (if s then - a else a)
  | _ => None
  end.

(** [(uint32_t)d], undefined when the integer part is not representable. *)
Definition d_to_u32 (d : double) : res Z :=
  match d_trunc d with
  | Some z => if (0 <=? z) && (z <? 2 ^ 32) then Ok z else Fault BadConversion
  | None => Fault BadConversion
  end.

(** The correctly rounded value of [m * 10 ^ e] in a format of precision [pr]
    and largest exponent [em]; [nd] is the number of digits of [m], used to
    decide overflow and underflow first: [hi] and [lo] are decimal exponents
    beyond those of the format. *)
Definition f_of_decimal (pr em hi lo : Z) (neg : bool) (m e nd : Z) : spec_float :=
  if m =? 0 then S754_zero neg
  else if hi <? e + nd then S754_infinity neg
  else if e + nd <? lo then S754_zero neg
  else if 0 <=? e then
    let r := binary_normalize pr em (m * 10 ^ e) 0 false in if neg then SFopp r else r
  else
    let '(q, e', l) := SFdiv_core_binary pr em m 0 (10 ^ (- e)) 0 in
    binary_round_aux pr em neg q e' l.

Definition d_of_decimal : bool → Z → Z → Z → double := f_of_decimal prec emax 310 (-330).

Fixpoint scan_frac (acc nd : Z) (s : string) : Z * Z * string :=
  match s with
  | String c s' =>
      if isdigit c then scan_frac (acc * 10 + digit_val c) (nd + 1) s' else (acc, nd, s)
  | EmptyString => (acc, nd, s)
  end.

(** An exponent part is only consumed when it has digits. *)
Definition scan_exp (s : string) : Z * string :=
  if Ascii.eqb (tolower (head_char s)) "e" then
    let t := tail_str s in
    let neg := Ascii.eqb (head_char t) "-" in
    let t := if neg || Ascii.eqb (head_char t) "+" then tail_str t else t in
    if isdigit (head_char t) then
      let (m, r) := scan_digits 0 t in (if neg then - m else m, r)
    else (0, s)
  else (0, s).

Fixpoint strip_prefix_ci (p s : string) : option string :=
  match p, s with
  | EmptyString, _ => Some s
  | String a p', String b s' => if Ascii.eqb a (tolower b) then strip_prefix_ci p' s' else None
  | _, _ => None
  end.

(** The scan of [strtod] and [strtold] on decimal input, infinities and NaN
    (hexadecimal floating literals are not modelled): the value and the end
    pointer; [conv] converts the decimal number. *)
Definition scan_float (conv : bool → Z → Z → Z → spec_float) (s : string) : spec_float * string :=
  let t := skip_space s in
  let neg := Ascii.eqb (head_char t) "-" in
  let t := if neg || Ascii.eqb (head_char t) "+" then tail_str t else t in
  match strip_prefix_ci "infinity" t, strip_prefix_ci "inf" t, strip_prefix_ci "nan" t with
  | Some r, _, _ => (S754_infinity neg, r)
  | None, Some r, _ => (S754_infinity neg, r)
  | None, None, Some r => (S754_nan, r)
  | None, None, None =>
      let '(m1, n1, t1) := scan_frac 0 0 t in
      let '(m, n2, t2) :=
        if Ascii.eqb (head_char t1) "." then scan_frac m1 0 (tail_str t1) else (m1, 0, t1) in
      if n1 + n2 =? 0 then (S754_zero false, s)
      else let (e, r) := scan_exp t2 in (conv neg m (e - n2) (n1 + n2), r)
  end.

Definition strtod : string → double * string := scan_float d_of_decimal.

(** A finite non-zero magnitude as a fraction. *)
Definition d_fraction (m : positive) (e : Z) : Z * Z :=
  if 0 <=? e then (Z.pos m * 2 ^ e, 1) else (Z.pos m, 2 ^ (- e)).

(** Division rounded to nearest, ties to even. *)
Definition round_div (a b : Z) : Z :=
  let q := a / b in
  let r := 2 * (a mod b) in
  if b <? r then q + 1 else if r <? b then q else if Z.even q then q else q + 1.

Fixpoint pad_zeros (n : nat) (s : string) : string :=
  match n with O => s | S n' => "0" +:+ pad_zeros n' s end.
Definition dec_pad (w : nat) (z : Z) : string :=
  let s := dec z in pad_zeros (w - String.length s) s.

(** [num / den >= 10 ^ k] *)
Definition ge_pow10 (num den k : Z) : bool :=
  if 0 <=? k then 10 ^ k * den <=? num else den <=? num * 10 ^ (- k).

(** The decimal exponent, found from an estimate by the binary one. *)
Definition dec_exp (num den e2 : Z) : Z :=
  let k := e2 * 30103 / 100000 in
  if ge_pow10 num den (k + 1) then k + 1
  else if ge_pow10 num den k then k else k - 1.

Definition sign_str (neg : bool) : string := if neg then "-" else "".

(** [%e] *)
Definition fmt_e (d : double) : string :=
  match d with
  | S754_nan => "nan"
  | S754_infinity s => sign_str s +:+ "inf"
  | S754_zero s => sign_str s +:+ "0.000000e+00"
  | S754_finite s m e =>
      let (num, den) := d_fraction m e in
      let k := dec_exp num den (Z.log2 (Z.pos m) + e) in
      let q := if 6 <=? k then round_div num (den * 10 ^ (k - 6))
               else round_div (num * 10 ^ (6 - k)) den in
      let '(q, k) := if q =? 10 ^ 7 then (10 ^ 6, k + 1) else (q, k) in
      sign_str s +:+ dec (q / 10 ^ 6) +:+ "." +:+ dec_pad 6 (q mod 10 ^ 6) +:+ "e" +:+
        (if k <? 0 then "-" else "+") +:+ dec_pad 2 (Z.abs k)
  end.

(** [%.nf], with [n] digits after the point; [%lf] has six. *)
Definition fmt_fixed (n : nat) (d : spec_float) : string :=
  match d with
  | S754_nan => "nan"
  | S754_infinity s => sign_str s +:+ "inf"
  | S754_zero s => sign_str s +:+ "0." +:+ pad_zeros n ""
  | S754_finite s m e =>
      let (num, den) := d_fraction m e in
      let q := round_div (num * 10 ^ Z.of_nat n) den in
      sign_str s +:+ dec (q / 10 ^ Z.of_nat n) +:+ "." +:+ dec_pad n (q mod 10 ^ Z.of_nat n)
  end.
Definition fmt_f (d : double) : string := fmt_fixed 6 d.

(** ** [qsort]

    The merge sort of the C library: the two halves are sorted and merged,
    and the left element is taken when the comparison is not positive. *)
Section qsort.
Context {A : Type} (cmp : A → A → comparison).

Fixpoint merge_runs (l1 : list A) : list A → list A :=
  fix go (l2 : list A) : list A :=
    match l1, l2 with
    | [], _ => l2
    | _, [] => l1
    | x :: l1', y :: l2' =>
        match cmp x y with
        | Gt => y :: go l2'
        | _ => x :: merge_runs l1' l2
        end
    end.

Fixpoint qsort_aux (fuel : nat) (l : list A) : list A :=
  match fuel with
  | O => l
  | S f =>
      match l with
      | [] | [_] => l
      | _ => let n1 := Nat.div2 (length l) in
             merge_runs (qsort_aux f (take n1 l)) (qsort_aux f (drop n1 l))
      end
  end.

(** The recursion halves the length, so the length is fuel enough. *)
Definition qsort (l : list A) : list A := qsort_aux (length l) l.
End qsort.

Example fmt_e_ex : fmt_e (ddiv (d_of_Z 2) (d_of_Z 3)) = "6.666667e-01".
Proof. vm_compute. reflexivity. Qed.
Example fmt_f_ex : fmt_f (ddiv (d_of_Z (-7)) (d_of_Z 2)) = "-3.500000".
Proof. vm_compute. reflexivity. Qed.
Example strtod_ex : strtod "12.5e-1x" = (ddiv (d_of_Z 5) (d_of_Z 4), "x").
Proof. vm_compute. reflexivity. Qed.
Example strtod_big : fmt_e (strtod "9.9999999e307").1 = "1.000000e+308".
Proof. vm_compute. reflexivity. Qed.
Example strtod_tiny : fmt_e (strtod "0.1").1 = "1.000000e-01".
Proof. vm_compute. reflexivity. Qed.

(** ** Facts about strings *)

Lemma str_app_cons c s t : String c s +:+ t = String c (s +:+ t).
Proof. done. Qed.

Lemma str_app_nil_l t : "" +:+ t = t.
Proof. done. Qed.

Lemma str_app_nil_r s : s +:+ "" = s.
Proof. induction s as [|c s IH]; [done|]. by rewrite str_app_cons, IH. Qed.

Lemma str_app_assoc s1 s2 s3 : (s1 +:+ s2) +:+ s3 = s1 +:+ (s2 +:+ s3).
Proof. induction s1 as [|c s IH]; [done|]. by rewrite !str_app_cons, IH. Qed.

Lemma str_length_app a b : String.length (a +:+ b) = (String.length a + String.length b)%nat.
Proof. induction a as [|c a IH]; [done|]. rewrite str_app_cons. cbn. by rewrite IH. Qed.

Lemma strlen_nonneg s : 0 ≤ strlen s.
Proof. unfold strlen. lia. Qed.

Lemma strlen_app a b : strlen (a +:+ b) = strlen a + strlen b.
Proof. unfold strlen. rewrite str_length_app. lia. Qed.

Lemma take_skip_while p s : take_while p s +:+ skip_while p s = s.
Proof.
  induction s as [|c s IH]; [done|]. cbn.
  destruct (p c); [|done]. rewrite str_app_cons. by rewrite IH.
Qed.

(** All characters satisfy a test. *)
Fixpoint str_all (p : ascii → bool) (s : string) : bool :=
  match s with EmptyString => true | String c s' => p c && str_all p s' end.

Lemma take_while_all p s : str_all p (take_while p s) = true.
Proof. induction s as [|c s IH]; [done|]. cbn. destruct (p c) eqn:E; [cbn; by rewrite E|done]. Qed.

Lemma take_while_app p s t :
  str_all p s = true → (p (head_char t) = false ∨ t = "") → take_while p (s +:+ t) = s.
Proof.
  induction s as [|c s IH]; cbn; intros Hs Ht.
  - rewrite str_app_nil_l. destruct t as [|c t]; [done|]. cbn.
    destruct Ht as [Ht|]; [|done]. cbn in Ht. by rewrite Ht.
  - rewrite str_app_cons. apply andb_prop in Hs as [Hc Hs]. cbn. rewrite Hc. by rewrite IH.
Qed.

Lemma skip_while_app p s t :
  str_all p s = true → (p (head_char t) = false ∨ t = "") → skip_while p (s +:+ t) = t.
Proof.
  induction s as [|c s IH]; cbn; intros Hs Ht.
  - rewrite str_app_nil_l. destruct t as [|c t]; [done|]. cbn.
    destruct Ht as [Ht|]; [|done]. cbn in Ht. by rewrite Ht.
  - rewrite str_app_cons. apply andb_prop in Hs as [Hc Hs]. cbn. rewrite Hc. by rewrite IH.
Qed.

Lemma skip_while_head p s : p (head_char s) = false → skip_while p s = s.
Proof. destruct s; cbn; [done|]. by intros ->. Qed.

Lemma skip_while_length p s : (String.length (skip_while p s) ≤ String.length s)%nat.
Proof. pose proof (f_equal String.length (take_skip_while p s)) as H. rewrite str_length_app in H. lia. Qed.

Lemma str_all_imp (p q : ascii → bool) s :
  (∀ c, p c = true → q c = true) → str_all p s = true → str_all q s = true.
Proof.
  intros Hpq. induction s as [|c s IH]; [done|]. cbn [str_all]. intros [Hc Hs]%andb_prop.
  rewrite (Hpq _ Hc). by apply IH.
Qed.

Lemma has_char_app c a b : has_char c (a +:+ b) = has_char c a || has_char c b.
Proof. induction a as [|d a IH]; [done|]. rewrite str_app_cons. cbn [has_char]. by rewrite IH, orb_assoc. Qed.

Lemma has_char_none c s : str_all (is_not c) s = true → has_char c s = false.
Proof.
  induction s as [|d s IH]; [done|]. cbn [str_all has_char]. unfold is_not at 1.
  destruct (Ascii.eqb c d); [done|]. intros [_ Hs]%andb_prop. by apply IH.
Qed.

Lemma str_all_app p s t : str_all p (s +:+ t) = str_all p s && str_all p t.
Proof.
  induction s as [|c s IH]; [done|]. rewrite str_app_cons. cbn [str_all].
  by rewrite IH, andb_assoc.
Qed.

Definition lacks (c : ascii) (s : string) : Prop := str_all (is_not c) s = true.

Lemma lacks_app c a b : lacks c (a +:+ b) ↔ lacks c a ∧ lacks c b.
Proof. unfold lacks. rewrite str_all_app. apply andb_true_iff. Qed.

Lemma lacks_has c s : has_char c s = false → lacks c s.
Proof.
  induction s as [|d s IH]; [done|]. cbn [has_char]. intros [Hd Hs]%orb_false_iff.
  unfold lacks. cbn [str_all]. unfold is_not at 1. rewrite Hd. by apply IH.
Qed.

Lemma has_char_mid c a b : has_char c (a +:+ str1 c +:+ b) = true.
Proof.
  rewrite !has_char_app. cbn [has_char str1]. rewrite Ascii.eqb_refl. cbn [orb]. by rewrite orb_true_r.
Qed.

Lemma cut_last_mid c a b : lacks c b → cut_last c (a +:+ str1 c +:+ b) = a.
Proof.
  intros Hb. induction a as [|d a IH].
  - change ((EmptyString : string) +:+ str1 c +:+ b) with (String c b). cbn [cut_last].
    by rewrite Ascii.eqb_refl, has_char_none.
  - rewrite str_app_cons. cbn [cut_last]. rewrite has_char_mid, andb_false_r. by rewrite IH.
Qed.

Lemma after_last_mid c a b : lacks c b → after_last c (a +:+ str1 c +:+ b) = b.
Proof.
  intros Hb. induction a as [|d a IH].
  - change ((EmptyString : string) +:+ str1 c +:+ b) with (String c b). cbn [after_last].
    by rewrite Ascii.eqb_refl, has_char_none.
  - rewrite str_app_cons. cbn [after_last]. rewrite has_char_mid, andb_false_r. by rewrite IH.
Qed.

Lemma split_first c a b :
  lacks c a → take_while (is_not c) (a +:+ str1 c +:+ b) = a ∧
              tail_str (skip_while (is_not c) (a +:+ str1 c +:+ b)) = b.
Proof.
  intros Ha. assert (is_not c (head_char (str1 c +:+ b)) = false) as Hh.
  { unfold is_not. cbn. by rewrite Ascii.eqb_refl. }
  rewrite take_while_app, skip_while_app by auto. done.
Qed.

Lemma str_all_and p q s : str_all (λ c, p c && q c) s = str_all p s && str_all q s.
Proof.
  induction s as [|c s IH]; [done|]. cbn [str_all]. rewrite IH.
  by destruct (p c), (q c), (str_all p s), (str_all q s).
Qed.

Lemma cut_last_end c a : cut_last c (a +:+ str1 c) = a.
Proof. rewrite <- (str_app_nil_r (a +:+ str1 c)), str_app_assoc. by apply cut_last_mid. Qed.

Lemma cstr_all s : lacks NUL s → cstr s = s.
Proof. intros Hs. unfold cstr. rewrite <- (str_app_nil_r s) at 1. apply take_while_app; [done|by right]. Qed.

Lemma take_drop_str n s : take_str n s +:+ drop_str n s = s.
Proof.
  revert s. induction n as [|n IH]; intros [|c s]; try done. cbn [take_str drop_str].
  by rewrite str_app_cons, IH.
Qed.

Lemma take_str_length n s : String.length (take_str n s) = (n `min` String.length s)%nat.
Proof. revert s. induction n as [|n IH]; intros [|c s]; try done. cbn. by rewrite IH. Qed.

Lemma drop_str_length n s : String.length (drop_str n s) = (String.length s - n)%nat.
Proof. revert s. induction n as [|n IH]; intros [|c s]; try done. cbn. apply IH. Qed.

Lemma take_str_app a b : take_str (String.length a) (a +:+ b) = a.
Proof. induction a as [|c a IH]; [by destruct b|]. rewrite str_app_cons. cbn [String.length take_str]. by rewrite IH. Qed.

Lemma drop_str_app a b : drop_str (String.length a) (a +:+ b) = b.
Proof. induction a as [|c a IH]; [by destruct b|]. rewrite str_app_cons. cbn [String.length drop_str]. apply IH. Qed.

Lemma take_str_take n m s : take_str n s +:+ take_str m (drop_str n s) = take_str (n + m) s.
Proof.
  revert s. induction n as [|n IH]; intros s; [done|]. destruct s as [|c s]; [by destruct m|].
  cbn [take_str drop_str Nat.add]. rewrite str_app_cons. by rewrite IH.
Qed.

Lemma drop_str_drop n m s : drop_str m (drop_str n s) = drop_str (n + m) s.
Proof. revert s. induction n as [|n IH]; intros s; [done|]. destruct s as [|c s]; [by destruct m|]. cbn. apply IH. Qed.

Lemma drop_str_app_le n a b : (n ≤ String.length a)%nat → drop_str n (a +:+ b) = drop_str n a +:+ b.
Proof.
  revert a. induction n as [|n IH]; intros a Hn; [done|]. destruct a as [|c a]; [cbn in Hn; lia|].
  rewrite str_app_cons. cbn in *. apply IH. lia.
Qed.

Lemma take_str_app_le n a b : (n ≤ String.length a)%nat → take_str n (a +:+ b) = take_str n a.
Proof.
  revert a. induction n as [|n IH]; intros a Hn; [done|]. destruct a as [|c a]; [cbn in Hn; lia|].
  rewrite str_app_cons. cbn in *. rewrite IH by lia. done.
Qed.

Lemma take_str_ge n s : (String.length s ≤ n)%nat → take_str n s = s.
Proof. revert n. induction s as [|c s IH]; intros [|n] Hn; try done; cbn in *; [lia|]. by rewrite IH by lia. Qed.

Lemma mem_write_app pre src rest :
  (String.length src ≤ String.length rest)%nat →
  mem_write (strlen pre) src (pre +:+ rest) = Ok (pre +:+ src +:+ drop_str (String.length src) rest).
Proof.
  intros Hl. unfold mem_write, strlen. rewrite str_length_app, Nat2Z.id.
  destruct (Z.leb_spec 0 (Z.of_nat (String.length pre))); [|lia].
  destruct (Z.leb_spec (Z.of_nat (String.length pre) + Z.of_nat (String.length src))
              (Z.of_nat (String.length pre + String.length rest))); [|lia].
  cbn [andb]. rewrite take_str_app. do 2 f_equal.
  clear. f_equal. induction pre as [|c pre IH]; [done|]. rewrite str_app_cons. cbn [String.length drop_str Nat.add].
  exact IH.
Qed.

Lemma mem_write_length i src mem mem' :
  mem_write i src mem = Ok mem' → String.length mem' = String.length mem.
Proof.
  unfold mem_write, strlen. destruct (Z.leb_spec 0 i); [|done].
  destruct (Z.leb_spec (i + Z.of_nat (String.length src)) (Z.of_nat (String.length mem))); [|done].
  cbn [andb]. intros [= <-]. rewrite !str_length_app, take_str_length, drop_str_length. lia.
Qed.

Lemma zeros_length n : String.length (zeros n) = n.
Proof. induction n as [|n IH]; [done|]. cbn. by rewrite IH. Qed.

Lemma drop_zeros k n : drop_str k (zeros n) = zeros (n - k).
Proof. revert n. induction k as [|k IH]; intros [|n]; try done. cbn. apply IH. Qed.

Lemma streq_eq a b : streq a b = true ↔ a = b.
Proof. apply String.eqb_eq. Qed.

Lemma streq_neq a b : streq a b = false ↔ a ≠ b.
Proof. apply String.eqb_neq. Qed.

Lemma streq_refl a : streq a a = true.
Proof. apply String.eqb_refl. Qed.

(** ** Printing and scanning integers *)

Lemma code_chr z : is_u8 z → code (chr z) = z.
Proof.
  unfold is_u8, code, chr. intros Hz.
  rewrite N_ascii_embedding by (apply (Z2N.inj_lt z 256); lia). lia.
Qed.

Lemma digit_chr_spec z :
  0 ≤ z < 10 → isdigit (digit_chr z) = true ∧ digit_val (digit_chr z) = z.
Proof.
  intros Hz. unfold isdigit, digit_val, digit_chr.
  rewrite code_chr by (unfold is_u8; lia). split; [|lia].
  apply andb_true_intro. split; apply Z.leb_le; lia.
Qed.

Lemma scan_digits_app s acc t :
  str_all isdigit s = true →
  scan_digits acc (s +:+ t) = scan_digits (scan_digits acc s).1 t.
Proof.
  revert acc. induction s as [|c s IH]; intros acc Hs; [done|].
  rewrite str_app_cons. cbn in *. apply andb_prop in Hs as [-> Hs]. by apply IH.
Qed.

Lemma str_all_str1 p c : str_all p (str1 c) = p c.
Proof. unfold str1. cbn [str_all]. by rewrite andb_true_r. Qed.

Lemma dec_aux_digits fuel n : 0 ≤ n → str_all isdigit (dec_aux fuel n) = true.
Proof.
  revert n. induction fuel as [|f IH]; intros n Hn; [done|]. cbn [dec_aux].
  destruct (digit_chr_spec (n mod 10)) as [Hd _]; [zlia|].
  rewrite str_all_app, str_all_str1, Hd, andb_true_r.
  destruct (n <? 10); [done|]. apply IH. zlia.
Qed.

Lemma scan_digits_dec_aux fuel n :
  0 ≤ n < 2 ^ Z.of_nat fuel → (scan_digits 0 (dec_aux fuel n)).1 = n.
Proof.
  revert n. induction fuel as [|f IH]; intros n Hn; [cbn in *; lia|]. cbn [dec_aux].
  destruct (digit_chr_spec (n mod 10)) as [Hd Hv]; [zlia|].
  assert (0 ≤ n / 10 < 2 ^ Z.of_nat f ∨ n < 10) as Hq.
  { rewrite Nat2Z.inj_succ, Z.pow_succ_r in Hn by lia. zlia. }
  destruct (Z.ltb_spec n 10).
  - rewrite str_app_nil_l. unfold str1. cbn [scan_digits]. rewrite Hd, Hv. cbn [fst]. zlia.
  - rewrite scan_digits_app by (apply dec_aux_digits; zlia).
    rewrite IH by zlia. unfold str1. cbn [scan_digits]. rewrite Hd, Hv. cbn [fst]. zlia.
Qed.

Lemma dec_fuel_enough n : 0 ≤ n → 0 ≤ n < 2 ^ Z.of_nat (S (Z.to_nat (Z.log2 n))).
Proof.
  intros Hn. split; [done|]. rewrite Nat2Z.inj_succ, Z2Nat.id by apply Z.log2_nonneg.
  destruct (decide (n = 0)) as [->|]; [done|]. apply Z.log2_spec. lia.
Qed.

(** Printing a non-negative number and scanning it back, whatever follows,
    as long as it is not a digit. *)
Lemma scan_digits_dec n rest :
  0 ≤ n → isdigit (head_char rest) = false → scan_digits 0 (dec n +:+ rest) = (n, rest).
Proof.
  intros Hn Hr. unfold dec. rewrite scan_digits_app by by apply dec_aux_digits.
  rewrite scan_digits_dec_aux by by apply dec_fuel_enough.
  destruct rest; cbn in *; by rewrite ?Hr.
Qed.

Lemma dec_head_digit n rest : 0 ≤ n → isdigit (head_char (dec n +:+ rest)) = true.
Proof.
  intros Hn. unfold dec. cbn [dec_aux].
  destruct (digit_chr_spec (n mod 10)) as [Hd _]; [zlia|].
  destruct (n <? 10); [done|].
  pose proof (dec_aux_digits (Z.to_nat (Z.log2 n)) (n / 10)) as H.
  destruct (dec_aux _ _) as [|c s]; [done|]. cbn [str_all] in H.
  assert (0 ≤ n / 10) as H' by zlia. apply H in H'. by apply andb_prop in H' as [? _].
Qed.

Lemma digit_not_special c :
  isdigit c = true →
  isspace c = false ∧ Ascii.eqb c "-" = false ∧ Ascii.eqb c "+" = false.
Proof.
  unfold isdigit, isspace. intros [H1 H2]%andb_prop.
  apply Z.leb_le in H1, H2. split_and!.
  - apply orb_false_intro; [lia|]. apply andb_false_intro2. lia.
  - apply Ascii.eqb_neq. intros ->. by vm_compute in H1.
  - apply Ascii.eqb_neq. intros ->. by vm_compute in H1.
Qed.

Lemma scan_int_dec n rest :
  0 ≤ n → isdigit (head_char rest) = false → scan_int (dec n +:+ rest) = Some (false, n, rest).
Proof.
  intros Hn Hr. unfold scan_int, skip_space.
  pose proof (dec_head_digit n rest Hn) as Hd.
  destruct (digit_not_special _ Hd) as (Hs & Hm & Hp).
  rewrite skip_while_head by done. rewrite Hm, Hp. cbn [orb]. rewrite Hd.
  by rewrite scan_digits_dec.
Qed.

Lemma strtoul_end_dec n : is_u64 n → strtoul_end (dec n) = (n, "").
Proof.
  unfold is_u64, strtoul_end. intros Hn. rewrite <- (str_app_nil_r (dec n)).
  rewrite scan_int_dec by (done || lia). destruct (Z.ltb_spec (2 ^ 64 - 1) n); [lia|done].
Qed.

Lemma strtoul_dec n : is_u64 n → strtoul (dec n) = n.
Proof. intros Hn. unfold strtoul. by rewrite strtoul_end_dec. Qed.

Lemma scan_digits_nonneg s acc : 0 ≤ acc → 0 ≤ (scan_digits acc s).1.
Proof.
  revert acc. induction s as [|c s IH]; intros acc Ha; cbn; [done|].
  destruct (isdigit c) eqn:E; [|done]. apply IH. unfold isdigit, digit_val in *.
  apply andb_prop in E as [E _]. apply Z.leb_le in E. lia.
Qed.

Lemma strtoul_range s : is_u64 (strtoul s).
Proof.
  unfold strtoul, strtoul_end, scan_int. set (t := if _ || _ then _ else _).
  destruct (isdigit (head_char t)); [|unfold is_u64; cbn; lia].
  pose proof (scan_digits_nonneg t 0 ltac:(lia)) as Hm. destruct (scan_digits 0 t) as [m r]. cbn in *.
  destruct (Z.ltb_spec (2 ^ 64 - 1) m); [unfold is_u64; lia|].
  case_step; [apply u64_range|unfold is_u64; lia].
Qed.

Lemma strtoul_fmt_u n : strtoul (fmt_u n) = u32 n.
Proof. apply strtoul_dec. pose proof (u32_range n). unfold is_u32, is_u64 in *. lia. Qed.

Lemma strtoul_fmt_lu n : strtoul (fmt_lu n) = u64 n.
Proof. apply strtoul_dec. apply u64_range. Qed.

Lemma scan_int_neg n rest :
  0 ≤ n → isdigit (head_char rest) = false →
  scan_int (String "-" (dec n +:+ rest)) = Some (true, n, rest).
Proof.
  intros Hn Hr. unfold scan_int, skip_space. rewrite skip_while_head by done.
  cbn [head_char tail_str]. change (Ascii.eqb "-" "-") with true. cbn [orb].
  rewrite dec_head_digit by done. by rewrite scan_digits_dec.
Qed.

Lemma strtol_fmt_i n : is_s32 n → strtol (fmt_i n) = n.
Proof.
  unfold is_s32, strtol, fmt_i, clamp. intros Hn.
  destruct (Z.ltb_spec n 0).
  - rewrite str_app_cons, str_app_nil_l, <- (str_app_nil_r (dec (- n))).
    rewrite scan_int_neg by (done || lia). lia.
  - rewrite <- (str_app_nil_r (dec n)). rewrite scan_int_dec by (done || lia). lia.
Qed.

Lemma strtol_fmt_u n : strtol (fmt_u n) = u32 n.
Proof.
  unfold strtol, fmt_u, clamp. pose proof (u32_range n) as H. unfold is_u32 in H.
  rewrite <- (str_app_nil_r (dec _)). rewrite scan_int_dec by (done || lia). lia.
Qed.

Lemma strtoul_fmt_i n : 0 ≤ n < 2 ^ 31 → strtoul (fmt_i n) = n.
Proof.
  intros Hn. unfold fmt_i. destruct (Z.ltb_spec n 0); [lia|].
  apply strtoul_dec. unfold is_u64. lia.
Qed.

#[export] Hint Rewrite strtoul_fmt_u strtoul_fmt_lu strtol_fmt_u : cint_rw.

(** ** [qsort] permutes, and sorts for a consistent comparison *)

Section qsort_facts.
Context {A : Type} (cmp : A → A → comparison).

(** The order a comparison function stands for. *)
Definition cmp_le (x y : A) : Prop := cmp x y ≠ Gt.

Lemma merge_runs_nil_r l : merge_runs cmp l [] = l.
Proof. by destruct l. Qed.

Lemma merge_runs_cons x l1 y l2 :
  merge_runs cmp (x :: l1) (y :: l2) =
  match cmp x y with
  | Gt => y :: merge_runs cmp (x :: l1) l2
  | _ => x :: merge_runs cmp l1 (y :: l2)
  end.
Proof. done. Qed.

Lemma merge_runs_perm l1 l2 : merge_runs cmp l1 l2 ≡ₚ l1 ++ l2.
Proof.
  revert l2. induction l1 as [|x l1 IH1]; intros l2; [by destruct l2|].
  induction l2 as [|y l2 IH2]; [by rewrite merge_runs_nil_r, app_nil_r|].
  rewrite merge_runs_cons. destruct (cmp x y).
  - by rewrite IH1.
  - by rewrite IH1.
  - rewrite IH2. apply (Permutation_middle (x :: l1) l2 y).
Qed.

Lemma qsort_aux_perm fuel l : qsort_aux cmp fuel l ≡ₚ l.
Proof.
  revert l. induction fuel as [|f IH]; intros l; [done|]. cbn.
  destruct l as [|x [|y l]]; [done..|].
  rewrite merge_runs_perm, !IH. by rewrite take_drop.
Qed.

Lemma qsort_perm l : qsort cmp l ≡ₚ l.
Proof. apply qsort_aux_perm. Qed.

Context (cmp_total : ∀ x y, cmp_le x y ∨ cmp_le y x)
        (cmp_trans : ∀ x y z, cmp_le x y → cmp_le y z → cmp_le x z).

Lemma merge_runs_sorted l1 l2 :
  StronglySorted cmp_le l1 → StronglySorted cmp_le l2 →
  StronglySorted cmp_le (merge_runs cmp l1 l2).
Proof using cmp_total cmp_trans.
  revert l2. induction l1 as [|x l1 IH1]; intros l2 H1 H2; [by destruct l2|].
  induction l2 as [|y l2 IH2]; [by rewrite merge_runs_nil_r|].
  apply StronglySorted_inv in H1 as Hx. destruct Hx as [H1' Hx].
  apply StronglySorted_inv in H2 as Hy. destruct Hy as [H2' Hy].
  rewrite merge_runs_cons.
  assert (Hle : ∀ a b, cmp_le a b → ∀ l, Forall (cmp_le b) l → Forall (cmp_le a) l).
  { intros a b Hab l Hl. eapply Forall_impl; [done|]. intros z. by apply cmp_trans. }
  destruct (cmp x y) eqn:E.
  3: { constructor; [by apply IH2|]. rewrite merge_runs_perm.
       assert (cmp_le y x) by (destruct (cmp_total x y); [congruence|done]).
       apply Forall_app. split; [|done]. constructor; [done|]. by eapply Hle. }
  all: assert (cmp_le x y) by (unfold cmp_le; congruence);
    constructor; [by apply IH1|]; rewrite merge_runs_perm;
    apply Forall_app; split; [done|]; constructor; [done|]; by eapply Hle.
Qed.

Lemma qsort_aux_sorted fuel l :
  (length l ≤ fuel)%nat → StronglySorted cmp_le (qsort_aux cmp fuel l).
Proof using cmp_total cmp_trans.
  revert l. induction fuel as [|f IH]; intros l Hl.
  { destruct l; cbn in *; [constructor|lia]. }
  cbn [qsort_aux]. destruct l as [|x [|y l]]; [constructor|repeat constructor|].
  set (n := Nat.div2 (length (x :: y :: l))).
  assert (1 ≤ n < length (x :: y :: l))%nat.
  { subst n. rewrite Nat.div2_div. cbn [length]. split.
    - apply (Nat.div_le_lower_bound _ 2 1); lia.
    - apply Nat.div_lt; lia. }
  apply merge_runs_sorted; apply IH.
  - rewrite length_take. lia.
  - rewrite length_drop. lia.
Qed.

Lemma qsort_sorted l : StronglySorted cmp_le (qsort cmp l).
Proof using cmp_total cmp_trans. by apply qsort_aux_sorted. Qed.

End qsort_facts.

(** [strcmp] is a total order on strings. *)
Lemma strcmp_le a b : strcmp a b ≠ Gt ↔ String.le a b.
Proof.
  unfold strcmp, String.le, String.leb. destruct (String.compare a b); cbn; split; try done.
Qed.

Lemma strcmp_total a b : strcmp a b ≠ Gt ∨ strcmp b a ≠ Gt.
Proof. rewrite !strcmp_le. apply (total String.le). Qed.

Lemma strcmp_trans a b c : strcmp a b ≠ Gt → strcmp b c ≠ Gt → strcmp a c ≠ Gt.
Proof. rewrite !strcmp_le. apply (transitivity (R := String.le)). Qed.

(** ** Sorting what is in order, and sorting with blanks

    A list in order is left alone; and entries that compare equal to
    everything, when they are at the end, stay there. *)
Lemma merge_runs_le {A} (cmp : A → A → comparison) l1 l2 :
  (∀ x y, x ∈ l1 → y ∈ l2 → cmp x y ≠ Gt) → merge_runs cmp l1 l2 = l1 ++ l2.
Proof.
  induction l1 as [|x l1 IH]; intros Hle; [by destruct l2|].
  destruct l2 as [|y l2]; [by rewrite merge_runs_nil_r, app_nil_r|].
  rewrite merge_runs_cons. assert (cmp x y ≠ Gt) by (apply Hle; left).
  rewrite IH by (intros; apply Hle; [by right|done]). by destruct (cmp x y).
Qed.

Section qsort_more.
Context {A : Type} (cmp : A → A → comparison).

Lemma qsort_id l : StronglySorted (cmp_le cmp) l → qsort cmp l = l.
Proof.
  unfold qsort. generalize (length l). intros fuel. revert l.
  induction fuel as [|f IH]; intros l Hl; [done|]. cbn [qsort_aux].
  destruct l as [|x [|y l]]; [done..|]. set (n := Nat.div2 _). set (xs := x :: y :: l) in *.
  rewrite <- (take_drop n xs) in Hl. apply StronglySorted_app in Hl as (Hle & Ht & Hd).
  rewrite !IH by done. rewrite merge_runs_le by (intros; by apply Hle). apply take_drop.
Qed.

Definition opt_cmp (x y : option A) : comparison :=
  match x, y with Some a, Some b => cmp a b | _, _ => Eq end.

Definition padded (l : list A) (m : nat) : list (option A) := (Some <$> l) ++ replicate m None.

Lemma merge_padded l1 l2 m1 m2 :
  m1 = 0%nat ∨ l2 = [] →
  merge_runs opt_cmp (padded l1 m1) (padded l2 m2) = padded (merge_runs cmp l1 l2) (m1 + m2).
Proof.
  intros [-> | ->].
  - unfold padded. cbn [replicate Nat.add]. rewrite app_nil_r.
    revert l2. induction l1 as [|x l1 IH1]; intros l2; [by destruct l2, m2|].
    induction l2 as [|y l2 IH2].
    + rewrite merge_runs_nil_r. apply merge_runs_le.
      intros a b _ Hb. cbn in Hb. apply elem_of_replicate in Hb as [-> _]. by destruct a.
    + rewrite merge_runs_cons, !fmap_cons. cbn [app].
      rewrite merge_runs_cons. change (opt_cmp (Some x) (Some y)) with (cmp x y).
      destruct (cmp x y); rewrite fmap_cons; cbn [app]; f_equal.
      * apply (IH1 (y :: l2)).
      * apply (IH1 (y :: l2)).
      * exact IH2.
  - unfold padded. rewrite merge_runs_nil_r, merge_runs_le.
    + cbn. by rewrite <- app_assoc, <- replicate_add.
    + intros a b _ Hb. cbn in Hb. apply elem_of_replicate in Hb as [-> _]. by destruct a.
Qed.

Lemma qsort_padded l m :
  ∃ l', qsort opt_cmp (padded l m) = padded l' m ∧ l' ≡ₚ l ∧
        ((∀ x y, cmp_le cmp x y ∨ cmp_le cmp y x) →
         (∀ x y z, cmp_le cmp x y → cmp_le cmp y z → cmp_le cmp x z) →
         StronglySorted (cmp_le cmp) l').
Proof.
  unfold qsort. assert (length l + m ≤ length (padded l m))%nat as Hlen
    by (unfold padded; rewrite length_app, length_fmap, length_replicate; lia).
  revert Hlen. generalize (length (padded l m)). intros fuel. revert l m.
  induction fuel as [|f IH]; intros l m Hlen.
  - destruct l; cbn in Hlen; [|lia]. destruct m; [|lia].
    exists []. cbn. split_and!; [done|done|constructor].
  - cbn [qsort_aux].
    assert (∀ l0 : list A, (length l0 ≤ 1)%nat → StronglySorted (cmp_le cmp) l0) as Hone.
    { intros [|? [|? ?]]; cbn; [constructor|repeat constructor|lia]. }
    destruct (padded l m) as [|x [|y r]] eqn:E.
    + exists l. destruct l; [|done]. destruct m; [|done]. auto.
    + exists l. split_and!; [done|done|]. intros _ _. apply Hone.
      assert (length (padded l m) = 1%nat) as H1 by (by rewrite E).
      unfold padded in H1. rewrite length_app, length_fmap in H1. lia.
    + rewrite <- E. set (n := Nat.div2 (length (padded l m))).
      assert (1 ≤ n)%nat as Hn.
      { subst n. rewrite E, Nat.div2_div. apply (Nat.div_le_lower_bound _ 2 1); cbn [length]; lia. }
      assert (n < length l + m)%nat as Hn'.
      { assert (length (padded l m) = length l + m)%nat as <-
          by (unfold padded; rewrite length_app, length_fmap, length_replicate; lia).
        subst n. rewrite E, Nat.div2_div. apply Nat.div_lt; cbn [length]; lia. }
      destruct (decide (n ≤ length l)%nat) as [Hle|Hgt].
      * assert (take n (padded l m) = padded (take n l) 0) as ->.
        { unfold padded. rewrite take_app_le by (rewrite length_fmap; lia).
          rewrite <- fmap_take. cbn. by rewrite app_nil_r. }
        assert (drop n (padded l m) = padded (drop n l) m) as ->.
        { unfold padded. rewrite drop_app_le by (rewrite length_fmap; lia). by rewrite <- fmap_drop. }
        destruct (IH (take n l) 0%nat) as (l1 & -> & P1 & S1); [rewrite length_take; lia|].
        destruct (IH (drop n l) m) as (l2 & -> & P2 & S2); [rewrite length_drop; lia|].
        exists (merge_runs cmp l1 l2). split_and!; [by apply merge_padded; left| |].
        -- by rewrite merge_runs_perm, P1, P2, take_drop.
        -- intros Ht Htr. apply merge_runs_sorted; auto.
      * assert (take n (padded l m) = padded l (n - length l)) as ->.
        { unfold padded. rewrite take_app, length_fmap. f_equal.
          - apply take_ge. rewrite length_fmap. lia.
          - rewrite take_replicate. f_equal. lia. }
        assert (drop n (padded l m) = padded [] (m - (n - length l))) as ->.
        { unfold padded. rewrite drop_app, length_fmap, drop_replicate.
          rewrite drop_ge by (rewrite length_fmap; lia). done. }
        destruct (IH l (n - length l)%nat) as (l1 & -> & P1 & S1); [lia|].
        destruct (IH [] (m - (n - length l))%nat) as (l2 & -> & P2 & S2); [cbn; lia|].
        apply Permutation_nil_r in P2 as ->.
        exists l1. split_and!; [|done|done].
        rewrite merge_padded by (by right). rewrite merge_runs_nil_r. f_equal. lia.
Qed.
End qsort_more.
