(* ===== verification/FloatFacts.v ===== *)
(** * Bounds on floating-point results

    How large the result of a computation on doubles can be: that it is a
    finite number that is not negative, and below which power of two, so that
    its conversion to an integer is defined. *)

From S2P Require Import Prelude CLib.
From Stdlib Require Import SpecFloat.

(** ** Digits and shifts *)

Lemma digits2_pos_bounds p : 2 ^ (Z.pos (digits2_pos p) - 1) ≤ Z.pos p < 2 ^ Z.pos (digits2_pos p).
Proof.
  induction p as [p IH|p IH|]; cbn [digits2_pos]; [| |done];
    rewrite Pos2Z.inj_succ, Z.pow_succ_r by lia;
    replace (Z.succ (Z.pos (digits2_pos p)) - 1) with (Z.succ (Z.pos (digits2_pos p) - 1)) by lia;
    rewrite Z.pow_succ_r by lia; lia.
Qed.

Lemma Zdigits2_unique m n : 0 < n → 2 ^ (n - 1) ≤ m < 2 ^ n → Zdigits2 m = n.
Proof.
  intros Hn Hm. assert (0 < 2 ^ (n - 1)) by (apply Z.pow_pos_nonneg; lia).
  destruct m as [|p|p]; [lia| |lia]. cbn [Zdigits2]. pose proof (digits2_pos_bounds p) as Hp.
  assert (n - 1 < Z.pos (digits2_pos p)) by (apply (Z.pow_lt_mono_r_iff 2); lia).
  assert (Z.pos (digits2_pos p) - 1 < n) by (apply (Z.pow_lt_mono_r_iff 2); lia).
  lia.
Qed.

Lemma shr_1_half r : 0 ≤ shr_m r → shr_m (shr_1 r) = shr_m r / 2.
Proof.
  destruct r as [m r s]. cbn [shr_m]. intros Hm. destruct m as [|[p|p|]|p]; cbn [shr_1 shr_m]; try lia; zlia.
Qed.

Lemma iter_shr p r : 0 ≤ shr_m r → shr_m (iter_pos shr_1 p r) = shr_m r / 2 ^ Z.pos p.
Proof.
  assert (∀ q a, 0 ≤ a → 0 ≤ a / 2 ^ Z.pos q) as Hpos by (intros; apply Z.div_pos; lia).
  revert r. induction p as [p IH|p IH|]; intros r Hr; cbn [iter_pos].
  - assert (shr_m (shr_1 r) = shr_m r / 2) as H1 by by apply shr_1_half.
    assert (shr_m (iter_pos shr_1 p (shr_1 r)) = shr_m r / 2 / 2 ^ Z.pos p) as H2.
    { rewrite IH, H1; [done|]. rewrite H1. zlia. }
    rewrite IH, H2; [|rewrite H2; apply Hpos; zlia]. rewrite !Z.div_div by lia. f_equal.
    rewrite (Pos2Z.inj_xI p), Z.pow_add_r, Z.pow_twice_r by lia. lia.
  - assert (shr_m (iter_pos shr_1 p r) = shr_m r / 2 ^ Z.pos p) as H2 by by apply IH.
    rewrite IH, H2; [|rewrite H2; by apply Hpos]. rewrite Z.div_div by lia. f_equal.
    rewrite (Pos2Z.inj_xO p), Z.pow_twice_r. lia.
  - by apply shr_1_half.
Qed.

Lemma round_nearest_even_bounds m l : m ≤ round_nearest_even m l ≤ m + 1.
Proof. destruct l as [|[]]; cbn; try lia. destruct (Z.even m); lia. Qed.

(** ** Numbers below a power of two *)

(** [m * 2 ^ e] is at most [2 ^ k]. *)
Definition under (m e k : Z) : Prop := e ≤ k ∧ 0 ≤ m ≤ 2 ^ (k - e).

(** A double that is finite, not negative, and at most [2 ^ k]. *)
Definition small (d : double) (k : Z) : Prop :=
  match d with
  | S754_zero false => True
  | S754_finite false m e => under (Z.pos m) e k
  | _ => False
  end.

Lemma digits2_upper m j : 0 ≤ j → 0 ≤ m ≤ 2 ^ j → 0 ≤ Zdigits2 m ≤ j + 1.
Proof.
  intros Hj Hm. destruct m as [|p|p]; cbn [Zdigits2]; [lia| |lia]. split; [lia|].
  pose proof (digits2_pos_bounds p) as [Hp _].
  assert (Z.pos (digits2_pos p) - 1 ≤ j); [|lia]. apply (Z.pow_le_mono_r_iff 2); lia.
Qed.

Lemma under_mono m e k k' : k ≤ k' → under m e k → under m e k'.
Proof. intros Hk [He Hm]. split; [lia|]. pose proof (Z.pow_le_mono_r 2 (k - e) (k' - e)). lia. Qed.

Lemma shr_under m e l k r e' :
  0 ≤ k → under m e k → shr_fexp prec emax m e l = (r, e') → under (shr_m r) e' k ∧ e ≤ e'.
Proof.
  intros Hk [He Hm]. unfold shr_fexp. set (n := fexp prec emax (Zdigits2 m + e) - e).
  pose proof (digits2_upper m (k - e) ltac:(lia) Hm) as Hd.
  assert (e + n ≤ k) as Hn by (unfold n, fexp, emin, prec, emax; lia).
  assert (shr_m (shr_record_of_loc m l) = m) as Hl by (by destruct l as [|[]]).
  destruct n as [|p|p] eqn:En; cbn [shr]; intros [= <- <-].
  - rewrite Hl. split; [by split|lia].
  - split; [|lia]. split; [done|]. rewrite iter_shr by (rewrite Hl; lia). rewrite Hl.
    split; [apply Z.div_pos; lia|]. apply Z.div_le_upper_bound; [lia|]. rewrite <- Z.pow_add_r by lia.
    etrans; [apply Hm|]. apply Z.pow_le_mono_r; lia.
  - rewrite Hl. split; [by split|lia].
Qed.

(** Rounding adds at most one to the exponent of the bound. *)
Lemma round_small m e l k :
  0 ≤ k ≤ 900 → under m e k → small (binary_round_aux prec emax false m e l) (k + 1).
Proof.
  intros Hk Hu. unfold binary_round_aux. destruct (shr_fexp prec emax m e l) as [r1 e1] eqn:E1.
  apply (shr_under _ _ _ k) in E1 as [[He1 Hm1] _]; [|lia|done].
  destruct (shr_fexp prec emax (round_nearest_even _ _) e1 loc_Exact) as [r2 e2] eqn:E2.
  apply (shr_under _ _ _ (k + 1)) in E2 as [[He2 Hm2] _]; [|lia|].
  - destruct (shr_m r2) as [|p|p]; [done| |lia]. rewrite (proj2 (Z.leb_le _ _)) by (unfold emax, prec; lia). by split.
  - pose proof (round_nearest_even_bounds (shr_m r1) (loc_of_shr_record r1)). split; [lia|].
    replace (k + 1 - e1) with (Z.succ (k - e1)) by lia. rewrite Z.pow_succ_r by lia. lia.
Qed.

Lemma shift_xO p d : Z.pos (Pos.iter xO p d) = Z.pos p * 2 ^ Z.pos d.
Proof.
  induction d as [|d IH] using Pos.peano_ind; [change (2 ^ 1) with 2; cbn; lia|].
  rewrite Pos.iter_succ, Pos2Z.inj_succ, Z.pow_succ_r by lia. rewrite Pos2Z.inj_xO, IH. lia.
Qed.

Lemma align_under m e e' k : under (Z.pos m) e k →
  under (Z.pos (shl_align m e e').1) (shl_align m e e').2 k ∧ (shl_align m e e').2 = Z.min e e'.
Proof.
  intros [He Hm]. unfold shl_align. destruct (e' - e) as [|d|d] eqn:E; cbn [fst snd]; [split; [by split|lia]..|].
  split; [|lia]. split; [lia|]. rewrite shift_xO. split; [lia|].
  replace (k - e') with (k - e + Z.pos d) by lia. rewrite Z.pow_add_r by lia. nia.
Qed.

Lemma normalize_small m e k : 0 ≤ k ≤ 900 → under m e k → small (binary_normalize prec emax m e false) (k + 1).
Proof.
  intros Hk Hu. destruct m as [|p|p]; cbn [binary_normalize]; [done| |by destruct Hu; lia].
  unfold binary_round. pose proof (align_under p e (fexp prec emax (Z.pos (digits2_pos p) + e)) k Hu) as [Ha _].
  destruct (shl_align _ _ _) as [mz ez]. by apply round_small.
Qed.

(** ** The operations *)

Lemma small_mono d k k' : k ≤ k' → small d k → small d k'.
Proof. destruct d as [[]|?| |[] m e]; cbn; try done. apply under_mono. Qed.

Lemma d_of_Z_small z k : 0 ≤ k ≤ 900 → 0 ≤ z ≤ 2 ^ k → small (d_of_Z z) (k + 1).
Proof. intros Hk Hz. apply normalize_small; [done|]. split; [lia|]. by rewrite Z.sub_0_r. Qed.

Lemma dadd_small x y k : 0 ≤ k ≤ 800 → small x k → small y k → small (dadd x y) (k + 2).
Proof.
  intros Hk Hx Hy. destruct x as [[]|?| |[] mx ex], y as [[]|?| |[] my ey]; try done;
    [eapply (small_mono _ k); [lia|done]..|].
  unfold dadd, SFadd. cbn [cond_Zopp]. replace (k + 2) with (k + 1 + 1) by lia. apply normalize_small; [lia|].
  destruct (align_under mx ex (Z.min ex ey) k Hx) as [[H1 H2] E1].
  destruct (align_under my ey (Z.min ex ey) k Hy) as [[H3 H4] E2].
  replace (Z.min ex (Z.min ex ey)) with (Z.min ex ey) in E1 by lia.
  replace (Z.min ey (Z.min ex ey)) with (Z.min ex ey) in E2 by lia. rewrite E1 in *. rewrite E2 in *.
  split; [lia|]. replace (k + 1 - Z.min ex ey) with (Z.succ (k - Z.min ex ey)) by lia.
  rewrite Z.pow_succ_r by lia. lia.
Qed.

Lemma dmul_small x y k k' : 0 ≤ k ≤ 400 → 0 ≤ k' ≤ 400 → small x k → small y k' → small (dmul x y) (k + k' + 1).
Proof.
  intros Hk Hk' Hx Hy. destruct x as [[]|?| |[] mx ex], y as [[]|?| |[] my ey]; try done.
  unfold dmul, SFmul. cbn [xorb]. apply round_small; [lia|]. destruct Hx as [? ?], Hy as [? ?]. split; [lia|].
  rewrite Pos2Z.inj_mul. replace (k + k' - (ex + ey)) with (k - ex + (k' - ey)) by lia. rewrite Z.pow_add_r by lia. nia.
Qed.

(** A quotient by a number that is at least one. *)
Definition at_least_one (d : double) : Prop :=
  match d with S754_finite false m e => e ≤ 0 ∧ 2 ^ (- e) ≤ Z.pos m | _ => False end.

Lemma ddiv_small x y k : 0 ≤ k ≤ 800 → small x k → at_least_one y → small (ddiv x y) (k + 1).
Proof.
  intros Hk Hx Hy. destruct y as [|?| |[] my ey]; try done. destruct x as [[]|?| |[] mx ex]; try done.
  unfold ddiv, SFdiv. cbn [xorb]. destruct Hx as [Hex Hmx], Hy as [Hey Hmy]. unfold SFdiv_core_binary.
  set (e' := Z.min _ (ex - ey)). assert (e' ≤ ex - ey) as He' by (unfold e'; lia).
  assert (e' ≤ k) as Hk'.
  { pose proof (digits2_upper (Z.pos mx) (k - ex) ltac:(lia) ltac:(lia)) as Hd1.
    assert (1 ≤ Zdigits2 (Z.pos my) + ey) as Hd2.
    { cbn [Zdigits2]. pose proof (digits2_pos_bounds my) as [_ Hb].
      assert (- ey < Z.pos (digits2_pos my)); [|lia]. apply (Z.pow_lt_mono_r_iff 2); lia. }
    unfold e', fexp, emin, prec, emax. lia. }
  clearbody e'. remember (match ex - ey - e' with Z0 => _ | _ => _ end) as m' eqn:Em.
  assert (m' = Z.pos mx * 2 ^ (ex - ey - e')) as ->.
  { subst m'. destruct (ex - ey - e') eqn:E; [cbn; lia| |lia]. rewrite Z.shiftl_mul_pow2 by lia. done. }
  pose proof (Z_div_mod (Z.pos mx * 2 ^ (ex - ey - e')) (Z.pos my) ltac:(lia)) as Hq.
  destruct (Z.div_eucl _ _) as [q r]. destruct Hq as [Hq Hr]. apply round_small; [lia|]. split; [done|].
  assert (0 < 2 ^ (ex - ey - e')) by (apply Z.pow_pos_nonneg; lia). assert (0 < 2 ^ (- ey)) by (apply Z.pow_pos_nonneg; lia).
  assert (0 < 2 ^ (k - e')) by (apply Z.pow_pos_nonneg; lia).
  assert (Z.pos mx * 2 ^ (ex - ey - e') ≤ 2 ^ (k - e') * 2 ^ (- ey)) as Hle.
  { rewrite <- Z.pow_add_r by lia. replace (k - e' + - ey) with (k - ex + (ex - ey - e')) by lia.
    rewrite Z.pow_add_r by lia. nia. }
  split; nia.
Qed.

(** Small integers are converted exactly. *)
Lemma d_of_Z_one z : 1 ≤ z < 2 ^ 53 → at_least_one (d_of_Z z).
Proof.
  intros Hz. destruct z as [|p|p]; [lia| |lia]. pose proof (digits2_pos_bounds p) as Hp.
  set (n := Z.pos (digits2_pos p)) in *.
  assert (n ≤ 53) as Hn. { assert (n - 1 < 53); [|lia]. apply (Z.pow_lt_mono_r_iff 2); lia. }
  assert (1 ≤ n) by (unfold n; lia).
  unfold d_of_Z, binary_normalize, binary_round. fold n.
  assert (fexp prec emax (n + 0) = n - 53) as -> by (unfold fexp, emin, prec, emax; lia).
  destruct (shl_align p 0 (n - 53)) as [mz ez] eqn:Ea.
  assert (Z.pos mz = Z.pos p * 2 ^ (53 - n) ∧ ez = n - 53) as [Hm ->].
  { unfold shl_align in Ea. rewrite Z.sub_0_r in Ea. destruct (n - 53) as [|d|d] eqn:E; [|lia|]; injection Ea as <- <-.
    - replace (53 - n) with 0 by lia. lia.
    - split; [|done]. rewrite shift_xO. do 2 f_equal. lia. }
  assert (2 ^ (53 - 1) ≤ Z.pos mz < 2 ^ 53) as Hb.
  { assert (0 < 2 ^ (53 - n)) by (apply Z.pow_pos_nonneg; lia).
    replace (53 - 1) with (n - 1 + (53 - n)) by lia. replace 53 with (n + (53 - n)) at 2 by lia.
    rewrite !Z.pow_add_r by lia. rewrite Hm. split; nia. }
  unfold binary_round_aux, shr_fexp. cbn [shr_record_of_loc]. rewrite (Zdigits2_unique (Z.pos mz) 53) by lia.
  assert (fexp prec emax (53 + (n - 53)) - (n - 53) = 0) as -> by (unfold fexp, emin, prec, emax; lia).
  cbn [shr shr_m loc_of_shr_record round_nearest_even]. rewrite (Zdigits2_unique (Z.pos mz) 53) by lia.
  assert (fexp prec emax (53 + (n - 53)) - (n - 53) = 0) as -> by (unfold fexp, emin, prec, emax; lia).
  cbn [shr shr_m]. rewrite (proj2 (Z.leb_le _ _)) by (unfold emax, prec; lia). cbn.
  split; [lia|]. rewrite Hm. replace (- (n - 53)) with (53 - n) by lia.
  assert (0 < 2 ^ (53 - n)) by (apply Z.pow_pos_nonneg; lia). nia.
Qed.

Lemma d_trunc_small d k : 0 ≤ k → small d k → ∃ z, d_trunc d = Some z ∧ 0 ≤ z ≤ 2 ^ k.
Proof.
  intros Hk. assert (0 < 2 ^ k) by (apply Z.pow_pos_nonneg; lia).
  destruct d as [[]|?| |[] m e]; cbn [small]; try done; [exists 0; split; [done|lia]|]. intros [He Hm]. cbn [d_trunc].
  eexists. split; [reflexivity|]. cbn iota. destruct (Z.leb_spec 0 e).
  - replace k with (k - e + e) by lia. rewrite Z.pow_add_r by lia. assert (0 < 2 ^ e) by (apply Z.pow_pos_nonneg; lia). nia.
  - split; [apply Z.div_pos; [lia|apply Z.pow_pos_nonneg; lia]|].
    apply Z.div_le_upper_bound; [apply Z.pow_pos_nonneg; lia|]. rewrite <- Z.pow_add_r by lia.
    etrans; [apply Hm|]. apply Z.pow_le_mono_r; lia.
Qed.
