(* ===== verification/Vigor.v ===== *)
(** * The libraries the program is built on, as interfaces

    bolo calls libvigor (messages, hash tables, linked lists, string lists)
    and libpcre; neither is part of the repository.  Both are parameters of
    the model: a class of operations, a class of the laws the program relies
    on, and one concrete instance on which the theorems are evaluated. *)

From S2P Require Import Prelude CLib.
From Stdlib Require Import Ascii.
From Stdlib Require String.

(** ** libvigor *)

(** A PDU is a sequence of frames; frame 0 is its type.  [pdu_extend p s] is
    [pdu_extendf] with its format already applied; [pdu_dup p] is
    [pdu_dup(p, NULL)] and [pdu_dup_as p t] the same with a type.  [pdu_string] answers
    [None] where the library answers NULL (no such frame).

    A hash table is a [gmap]; [for_each] is the order in which
    [for_each_key_value] visits it, and [for_each_unset h p] the entries that
    are visited when the loop body unsets the current entry whenever [p]
    holds of its key. *)
Class Vigor := {
  pdu_t : Type;
  pdu_frames : pdu_t → list string;
  pdu_make : string → list string → pdu_t;
  pdu_reply : pdu_t → string → list string → pdu_t;
  pdu_extend : pdu_t → string → pdu_t;
  pdu_dup : pdu_t → pdu_t;
  pdu_dup_as : pdu_t → string → pdu_t;
  pdu_type : pdu_t → string;
  pdu_size : pdu_t → Z;
  pdu_string : pdu_t → Z → option string;
  list_push : ∀ {A : Type}, list A → A → list A;
  for_each : ∀ {V : Type}, gmap string V → list (string * V);
  for_each_unset : ∀ {V : Type}, gmap string V → (string → bool) → list (string * V);
  strings_join : list string → string → string;
  strings_split : string → string → list string;
}.

(** A word: neither empty nor broken by a blank. *)
Definition is_word (w : string) : Prop := w ≠ "" ∧ has_char " " w = false.

Class VigorLaws (V : Vigor) : Prop := {
  frames_make t fs : pdu_frames (pdu_make t fs) = t :: fs;
  frames_reply p t fs : pdu_frames (pdu_reply p t fs) = t :: fs;
  frames_extend p s : pdu_frames (pdu_extend p s) = pdu_frames p ++ [s];
  frames_dup p : pdu_frames (pdu_dup p) = pdu_frames p;
  frames_dup_as p t : pdu_frames (pdu_dup_as p t) = t :: tail (pdu_frames p);
  type_frames p : Some (pdu_type p) = head (pdu_frames p);
  size_frames p : pdu_size p = Z.of_nat (length (pdu_frames p));
  string_frames p i : 0 ≤ i → pdu_string p i = pdu_frames p !! Z.to_nat i;
  list_push_app {A} (l : list A) x : list_push l x = l ++ [x];
  for_each_perm {A} (m : gmap string A) : for_each m ≡ₚ map_to_list m;
  for_each_unset_in {A} (m : gmap string A) p k v :
    (k, v) ∈ for_each_unset m p → m !! k = Some v;
  strings_join_concat l sep : strings_join l sep = String.concat sep l;
  strings_split_words l : l ≠ [] → Forall is_word l → strings_split (String.concat " " l) " " = l;
}.

(** Extending a message one frame at a time. *)
Definition pdu_extend_all `{Vigor} (p : pdu_t) (fs : list string) : pdu_t :=
  foldl pdu_extend p fs.

(** ** libpcre *)

(** [pcre_exec] answers 0 for a match when no output vector is passed, and a
    negative number otherwise. *)
Class Pcre := {
  pcre : Type;
  pcre_extra : Type;
  pcre_compile : string → pcre + string;
  pcre_study : pcre → pcre_extra;
  pcre_exec : pcre → pcre_extra → string → Z;
}.

(** ** Consequences of the laws *)

Create Rewrite HintDb vigor.

Section laws.
Context `{VL : VigorLaws}.

Lemma frames_extend_all p fs : pdu_frames (pdu_extend_all p fs) = pdu_frames p ++ fs.
Proof using VL.
  revert p. unfold pdu_extend_all. induction fs as [|f fs IH]; intros p; cbn.
  - by rewrite app_nil_r.
  - by rewrite IH, frames_extend, <- app_assoc.
Qed.

(** A message is determined, for the program, by its frames. *)
Lemma pdu_type_of p t fs : pdu_frames p = t :: fs → pdu_type p = t.
Proof using VL. intros H. pose proof (type_frames p) as T. rewrite H in T. by injection T. Qed.

Lemma pdu_size_pos p : 0 ≤ pdu_size p.
Proof using VL. rewrite size_frames. lia. Qed.

Lemma pdu_string_Some p i : 0 ≤ i < pdu_size p → is_Some (pdu_string p i).
Proof using VL.
  rewrite size_frames. intros Hi. rewrite string_frames by lia. apply lookup_lt_is_Some. lia.
Qed.

Lemma pdu_string_None p i : pdu_size p ≤ i → pdu_string p i = None.
Proof using VL.
  intros Hi. pose proof (pdu_size_pos p). rewrite string_frames by lia.
  rewrite size_frames in Hi. apply lookup_ge_None. lia.
Qed.

Lemma for_each_NoDup {A} (m : gmap string A) : NoDup (for_each m).*1.
Proof using VL. rewrite for_each_perm. apply NoDup_fst_map_to_list. Qed.

Lemma elem_of_for_each {A} (m : gmap string A) k v : (k, v) ∈ for_each m ↔ m !! k = Some v.
Proof using VL. rewrite for_each_perm. apply elem_of_map_to_list. Qed.

(** The walk that rewrites every entry does not depend on its order. *)
Lemma for_each_update {A} (f : string → A → option A) (m : gmap string A) :
  update_all f (for_each m) m = map_imap (λ k v, Some (default v (f k v))) m.
Proof using VL. apply update_all_enum, for_each_perm. Qed.

End laws.

(** ** A concrete instance

    Messages are lists of frames, tables are visited in the order of their
    internal representation, and splitting is at every blank. *)

Fixpoint split_at (sep : ascii) (cur s : string) : list string :=
  match s with
  | EmptyString => [cur]
  | String c s' =>
      if Ascii.eqb c sep then cur :: split_at sep "" s' else split_at sep (cur +:+ str1 c) s'
  end.

Definition ref_vigor : Vigor := {|
  pdu_t := string * list string;
  pdu_frames p := p.1 :: p.2;
  pdu_make t fs := (t, fs);
  pdu_reply _ t fs := (t, fs);
  pdu_extend p s := (p.1, p.2 ++ [s]);
  pdu_dup p := p;
  pdu_dup_as p t := (t, p.2);
  pdu_type p := p.1;
  pdu_size p := Z.of_nat (S (length p.2));
  pdu_string p i := (p.1 :: p.2) !! Z.to_nat i;
  list_push A l x := l ++ [x];
  for_each V m := map_to_list m;
  for_each_unset V m _ := map_to_list m;
  strings_join l sep := String.concat sep l;
  strings_split s sep := split_at (head_char sep) "" s;
|}.

Lemma split_at_word w cur rest :
  has_char " " w = false →
  split_at " " cur (w +:+ rest) = split_at " " (cur +:+ w) rest.
Proof.
  revert cur. induction w as [|c w IH]; intros cur H; [by rewrite str_app_nil_r|].
  rewrite str_app_cons. cbn [has_char split_at] in *.
  apply orb_false_elim in H as [H1 H2]. rewrite Ascii.eqb_sym, H1.
  rewrite IH by done. rewrite str_app_assoc. done.
Qed.

Lemma split_at_concat l :
  l ≠ [] → Forall is_word l → split_at " " "" (String.concat " " l) = l.
Proof.
  induction l as [|w l IH]; intros Hne Hl; [done|]. inversion_clear Hl as [|? ? [Hw Hc] Hl'].
  destruct l as [|w' l].
  - cbn. rewrite <- (str_app_nil_r w). rewrite split_at_word by done.
    cbn. by rewrite str_app_nil_l, str_app_nil_r.
  - change (String.concat " " (w :: w' :: l))
      with (w +:+ (" " +:+ String.concat " " (w' :: l))).
    rewrite split_at_word by done.
    rewrite str_app_cons, !str_app_nil_l. cbn [split_at].
    change (Ascii.eqb " " " ") with true. cbn iota.
    by rewrite IH.
Qed.

Lemma ref_vigor_laws : VigorLaws ref_vigor.
Proof.
  split; cbn; try done.
  - intros A m p k v. apply elem_of_map_to_list.
  - intros l. apply split_at_concat.
Qed.

(** Patterns as literal texts: a subject matches when it contains one. *)
Fixpoint contains (p s : string) : bool :=
  String.prefix p s || match s with EmptyString => false | String _ s' => contains p s' end.

Definition ref_pcre : Pcre := {|
  pcre := string;
  pcre_extra := unit;
  pcre_compile p := if streq p "(" then inr "missing )" else inl p;
  pcre_study _ := tt;
  pcre_exec re _ s := if contains re s then 0 else -1;
|}.
