(* ===== verification/Bytes.v ===== *)
(** * Bytes in memory

    The representation of integers and doubles as bytes on a little-endian
    host, the network-order conversions of [<arpa/inet.h>], C strings as
    bytes, and the mapped files that hold them. *)

From S2P Require Import Prelude CLib.
From Stdlib Require Import SpecFloat.
From Stdlib Require Strings.Byte String.

Abbreviation byte := Byte.byte.

Definition byte_Z (b : byte) : Z := Z.of_N (Byte.to_N b).
Definition Z_byte (z : Z) : byte :=
  match Byte.of_N (Z.to_N (u8 z)) with Some b => b | None => Byte.x00 end.

(** ** Integers *)

(** The [n] low bytes of an integer, least significant first, and back. *)
Fixpoint le_bytes (n : nat) (z : Z) : list byte :=
  match n with
  | O => []
  | S n' => Z_byte z :: le_bytes n' (z / 2 ^ 8)
  end.

Fixpoint le_value (l : list byte) : Z :=
  match l with
  | [] => 0
  | b :: l' => byte_Z b + 2 ^ 8 * le_value l'
  end.

(** [htons], [htonl] and their inverses exchange the order of the bytes. *)
Definition bswap (n : nat) (z : Z) : Z := le_value (reverse (le_bytes n z)).
Definition htons (z : Z) : Z := bswap 2 z.
Definition htonl (z : Z) : Z := bswap 4 z.
Definition ntohs (z : Z) : Z := bswap 2 z.
Definition ntohl (z : Z) : Z := bswap 4 z.

(** ** Doubles *)

Definition bits_of_double (d : double) : Z :=
  let sign (s : bool) := if s then 2 ^ 63 else 0 in
  match d with
  | S754_zero s => sign s
  | S754_infinity s => sign s + 2047 * 2 ^ 52
  | S754_nan => 2047 * 2 ^ 52 + 2 ^ 51
  | S754_finite s m e =>
      sign s + (if Z.pos m <? 2 ^ 52 then Z.pos m
                else (e + 1075) * 2 ^ 52 + (Z.pos m - 2 ^ 52))
  end.

Definition double_of_bits (z : Z) : double :=
  let s := 2 ^ 63 <=? z in
  let ex := (z / 2 ^ 52) mod 2 ^ 11 in
  let fr := z mod 2 ^ 52 in
  if ex =? 2047 then (if fr =? 0 then S754_infinity s else S754_nan)
  else if ex =? 0 then
    match fr with Z.pos m => S754_finite s m (-1074) | _ => S754_zero s end
  else
    match fr + 2 ^ 52 with Z.pos m => S754_finite s m (ex - 1075) | _ => S754_zero s end.

(** ** C strings *)

Definition str_bytes (s : string) : list byte := String.list_byte_of_string s.
Definition bytes_str (l : list byte) : string := String.string_of_list_byte l.

(** [strlen(s) + 1] bytes: the characters and the terminator. *)
Definition cstr_bytes (s : string) : list byte := str_bytes s ++ [Byte.x00].

Definition is_nul (b : byte) : bool := byte_Z b =? 0.

(** The bytes before the first NUL. *)
Fixpoint until_nul (l : list byte) : list byte :=
  match l with
  | [] => []
  | b :: l' => if is_nul b then [] else b :: until_nul l'
  end.

(** A string a C program can hold. *)
Definition no_nul (s : string) : bool := forallb (λ b, negb (is_nul b)) (str_bytes s).

(** ** Files and their mappings *)

(** A file of [fsize] bytes; those after [fdata] are zero. *)
Record file := mk_file { fdata : list byte; fsize : Z }.

(** [memcpy(dst, addr + off, n)] from a mapping of the file. *)
Definition read_at (f : file) (lim off n : Z) : res (list byte) :=
  if (0 <=? n) && (off + n <=? Z.min (fsize f) lim) then
    let l := take (Z.to_nat n) (drop (Z.to_nat off) (fdata f)) in
    Ok (l ++ replicate (Z.to_nat n - length l) Byte.x00)
  else Fault OutOfBounds.

(** [memcpy(addr + off, src, n)] where [off] is what has been written so
    far, into a mapping of [lim] bytes. *)
Definition write_at (lim : Z) (buf src : list byte) : res (list byte) :=
  if Z.of_nat (length buf) + Z.of_nat (length src) <=? lim then Ok (buf ++ src)
  else Fault OutOfBounds.

(** ** Facts *)

Lemma byte_Z_range b : is_u8 (byte_Z b).
Proof.
  unfold is_u8, byte_Z. pose proof (Byte.to_N_bounded b). lia.
Qed.

Lemma byte_Z_byte z : byte_Z (Z_byte z) = u8 z.
Proof.
  unfold Z_byte. pose proof (u8_range z) as H. unfold is_u8 in H.
  destruct (Byte.of_N (Z.to_N (u8 z))) as [b|] eqn:E.
  - apply Byte.to_of_N in E. unfold byte_Z. rewrite E. lia.
  - apply Byte.of_N_None_iff in E. lia.
Qed.

Lemma byte_Z_inj a b : byte_Z a = byte_Z b → a = b.
Proof.
  unfold byte_Z. intros H%N2Z.inj.
  pose proof (Byte.of_to_N a) as Ha. pose proof (Byte.of_to_N b) as Hb. congruence.
Qed.

Lemma Z_byte_Z b : Z_byte (byte_Z b) = b.
Proof. apply byte_Z_inj. rewrite byte_Z_byte. apply u8_id, byte_Z_range. Qed.

Lemma length_le_bytes n z : length (le_bytes n z) = n.
Proof. revert z. induction n as [|n IH]; intros z; cbn; [done|]. by rewrite IH. Qed.

Lemma le_value_bytes n z : le_value (le_bytes n z) = z mod 2 ^ (8 * Z.of_nat n).
Proof.
  revert z. induction n as [|n IH]; intros z.
  - cbn. by rewrite Z.mod_1_r.
  - cbn [le_bytes le_value]. rewrite IH, byte_Z_byte. unfold u8.
    replace (8 * Z.of_nat (S n)) with (8 + 8 * Z.of_nat n) by lia.
    rewrite Z.pow_add_r by lia. rewrite Z.rem_mul_r by lia. lia.
Qed.

Lemma le_bytes_value l : le_bytes (length l) (le_value l) = l.
Proof.
  induction l as [|b l IH]; [done|]. cbn [length le_value le_bytes].
  pose proof (byte_Z_range b) as H. unfold is_u8 in H.
  f_equal.
  - apply byte_Z_inj. rewrite byte_Z_byte. unfold u8. zlia.
  - etrans; [|exact IH]. f_equal. zlia.
Qed.

Lemma le_value_range l : 0 ≤ le_value l < 2 ^ (8 * Z.of_nat (length l)).
Proof.
  rewrite <- (le_bytes_value l), le_value_bytes, length_le_bytes.
  apply Z.mod_pos_bound. lia.
Qed.

(** Swapping twice gives the integer back. *)
Lemma bswap_bswap n z : bswap n (bswap n z) = z mod 2 ^ (8 * Z.of_nat n).
Proof.
  unfold bswap.
  pose proof (le_bytes_value (reverse (le_bytes n z))) as H.
  rewrite length_reverse, length_le_bytes in H. rewrite H, reverse_involutive.
  apply le_value_bytes.
Qed.

Lemma bswap_range n z : 0 ≤ bswap n z < 2 ^ (8 * Z.of_nat n).
Proof.
  unfold bswap. pose proof (le_value_range (reverse (le_bytes n z))) as H.
  by rewrite length_reverse, length_le_bytes in H.
Qed.

Lemma ntohl_htonl z : ntohl (htonl z) = u32 z.
Proof. apply (bswap_bswap 4). Qed.

Lemma ntohs_htons z : ntohs (htons z) = u16 z.
Proof. apply (bswap_bswap 2). Qed.

Lemma htonl_range z : is_u32 (htonl z).
Proof. apply (bswap_range 4). Qed.

Lemma htons_range z : is_u16 (htons z).
Proof. apply (bswap_range 2). Qed.

#[export] Hint Resolve htonl_range htons_range byte_Z_range : cint.
#[export] Hint Rewrite ntohl_htonl ntohs_htons byte_Z_byte length_le_bytes : cint_rw.

Lemma bytes_str_bytes s : bytes_str (str_bytes s) = s.
Proof. apply String.string_of_list_byte_of_string. Qed.

Lemma length_str_bytes s : Z.of_nat (length (str_bytes s)) = strlen s.
Proof.
  unfold str_bytes, strlen, String.list_byte_of_string. rewrite length_map. f_equal.
  induction s as [|c s IH]; [done|]. cbn. by rewrite IH.
Qed.

Lemma length_cstr_bytes s : Z.of_nat (length (cstr_bytes s)) = strlen s + 1.
Proof. unfold cstr_bytes. rewrite length_app. cbn. rewrite <- length_str_bytes. lia. Qed.

Lemma until_nul_cstr l rest :
  forallb (λ b, negb (is_nul b)) l = true → until_nul (l ++ Byte.x00 :: rest) = l.
Proof.
  induction l as [|b l IH]; cbn; [done|].
  intros [Hb Hl]%andb_prop. destruct (is_nul b); [done|]. by rewrite IH.
Qed.

Lemma until_nul_str s rest : no_nul s = true → until_nul (str_bytes s ++ Byte.x00 :: rest) = str_bytes s.
Proof. apply until_nul_cstr. Qed.

(** Reading back what a prefix of the file's data holds. *)
Lemma read_at_data f lim pre mid post :
  fdata f = pre ++ mid ++ post →
  Z.of_nat (length pre) + Z.of_nat (length mid) ≤ Z.min (fsize f) lim →
  read_at f lim (Z.of_nat (length pre)) (Z.of_nat (length mid)) = Ok mid.
Proof.
  intros Hf Hlen. unfold read_at.
  destruct (Z.leb_spec 0 (Z.of_nat (length mid))); [|lia].
  destruct (Z.leb_spec (Z.of_nat (length pre) + Z.of_nat (length mid)) (Z.min (fsize f) lim)); [|lia].
  cbn [andb]. rewrite !Nat2Z.id, Hf, drop_app_length, take_app_length.
  rewrite Nat.sub_diag. cbn. by rewrite app_nil_r.
Qed.

Lemma write_at_Ok lim buf src buf' :
  write_at lim buf src = Ok buf' ↔
  buf' = buf ++ src ∧ Z.of_nat (length buf) + Z.of_nat (length src) ≤ lim.
Proof.
  unfold write_at.
  destruct (Z.leb_spec (Z.of_nat (length buf) + Z.of_nat (length src)) lim).
  - split; [by intros [= <-]|by intros [-> _]].
  - split; [done|]. lia.
Qed.

(** ** Small integers as doubles

    An unsigned 32-bit integer is represented exactly, and survives the
    trip through the bytes of a double. *)

Lemma digits2_bounds p :
  2 ^ (Z.pos (digits2_pos p) - 1) ≤ Z.pos p < 2 ^ Z.pos (digits2_pos p).
Proof.
  induction p as [p IH|p IH|]; cbn [digits2_pos]; [| |done].
  all: rewrite Pos2Z.inj_succ.
  all: replace (Z.succ (Z.pos (digits2_pos p)) - 1) with (Z.succ (Z.pos (digits2_pos p) - 1)) by lia.
  all: rewrite !Z.pow_succ_r by lia; lia.
Qed.

Lemma digits2_unique p d : 0 ≤ d → 2 ^ (d - 1) ≤ Z.pos p < 2 ^ d → Z.pos (digits2_pos p) = d.
Proof.
  intros H0 [H1 H2]. pose proof (digits2_bounds p) as [H3 H4].
  assert (d - 1 < Z.pos (digits2_pos p)) by (apply (Z.pow_lt_mono_r_iff 2); lia).
  assert (Z.pos (digits2_pos p) - 1 < d) by (apply (Z.pow_lt_mono_r_iff 2); lia).
  lia.
Qed.

Lemma iter_xO p d : Z.pos (Pos.iter xO p d) = Z.pos p * 2 ^ Z.pos d.
Proof.
  induction d as [|d IH] using Pos.peano_ind; [cbn; lia|].
  rewrite Pos.iter_succ, Pos2Z.inj_xO, IH, Pos2Z.inj_succ, Z.pow_succ_r; lia.
Qed.

Lemma d_of_Z_pos p (d := Z.pos (digits2_pos p)) :
  Z.pos p < 2 ^ 32 →
  ∃ q, d_of_Z (Z.pos p) = S754_finite false q (d - 53) ∧ Z.pos q = Z.pos p * 2 ^ (53 - d)
       ∧ 2 ^ 52 ≤ Z.pos q < 2 ^ 53 ∧ 1 ≤ d ≤ 32.
Proof.
  intros Hp. pose proof (digits2_bounds p) as Hd. fold d in Hd.
  assert (1 ≤ d ≤ 32) as Hd32.
  { split; [lia|]. assert (d - 1 < 32); [apply (Z.pow_lt_mono_r_iff 2); lia|lia]. }
  exists (Pos.iter xO p (Z.to_pos (53 - d))).
  assert (Z.pos (Pos.iter xO p (Z.to_pos (53 - d))) = Z.pos p * 2 ^ (53 - d)) as Hq.
  { rewrite iter_xO, Z2Pos.id; lia. }
  assert (2 ^ 52 ≤ Z.pos (Pos.iter xO p (Z.to_pos (53 - d))) < 2 ^ 53) as Hr.
  { assert (2 ^ 52 = 2 ^ (d - 1) * 2 ^ (53 - d)) as -> by (rewrite <- Z.pow_add_r by lia; f_equal; lia).
    assert (2 ^ 53 = 2 ^ d * 2 ^ (53 - d)) as -> by (rewrite <- Z.pow_add_r by lia; f_equal; lia).
    rewrite Hq. split; [apply Z.mul_le_mono_nonneg_r|apply Z.mul_lt_mono_pos_r]; lia. }
  split; [|by eauto].
  unfold d_of_Z, binary_normalize, binary_round, shl_align. fold d.
  replace (fexp prec emax (d + 0)) with (d - 53) by (unfold fexp, emin, prec, emax; lia).
  destruct (d - 53 - 0) as [|k|k] eqn:E; [lia|lia|].
  replace k with (Z.to_pos (53 - d)) by lia.
  set (q := Pos.iter xO p (Z.to_pos (53 - d))) in *.
  unfold binary_round_aux, shr_fexp. cbn [Zdigits2].
  rewrite (digits2_unique q 53) by lia.
  replace (fexp prec emax (53 + (d - 53)) - (d - 53)) with 0 by (unfold fexp, emin, prec, emax; lia).
  cbn [shr shr_record_of_loc loc_of_shr_record shr_m round_nearest_even Zdigits2].
  rewrite (digits2_unique q 53) by lia.
  replace (fexp prec emax (53 + (d - 53)) - (d - 53)) with 0 by (unfold fexp, emin, prec, emax; lia).
  cbn [shr shr_record_of_loc shr_m].
  destruct (Z.leb_spec (d - 53) (emax - prec)); [done|]. unfold emax, prec in *. lia.
Qed.

Lemma double_bits_u32 z :
  is_u32 z → double_of_bits (bits_of_double (d_of_Z z) mod 2 ^ 64) = d_of_Z z.
Proof.
  intros Hz. destruct z as [|p|p]; [done| |unfold is_u32 in Hz; lia].
  destruct (d_of_Z_pos p) as (q & -> & _ & Hq & Hd); [unfold is_u32 in Hz; lia|].
  set (d := Z.pos (digits2_pos p)) in *. cbn [bits_of_double].
  destruct (Z.ltb_spec (Z.pos q) (2 ^ 52)); [lia|].
  set (b := (0 + _) mod 2 ^ 64).
  assert (b = (d + 1022) * 2 ^ 52 + (Z.pos q - 2 ^ 52)) as Eb.
  { unfold b. rewrite Z.mod_small; lia. }
  unfold double_of_bits. rewrite Eb. clearbody b. clear Eb.
  assert (((d + 1022) * 2 ^ 52 + (Z.pos q - 2 ^ 52)) / 2 ^ 52 = d + 1022) as -> by zlia.
  assert (((d + 1022) * 2 ^ 52 + (Z.pos q - 2 ^ 52)) mod 2 ^ 52 = Z.pos q - 2 ^ 52) as -> by zlia.
  rewrite (Z.mod_small (d + 1022)) by lia.
  destruct (Z.leb_spec (2 ^ 63) ((d + 1022) * 2 ^ 52 + (Z.pos q - 2 ^ 52))); [lia|].
  destruct (Z.eqb_spec (d + 1022) 2047); [lia|]. destruct (Z.eqb_spec (d + 1022) 0); [lia|].
  replace (Z.pos q - 2 ^ 52 + 2 ^ 52) with (Z.pos q) by lia. f_equal. lia.
Qed.

Lemma d_to_u32_of_Z z : is_u32 z → d_to_u32 (d_of_Z z) = Ok z.
Proof.
  intros Hz. destruct z as [|p|p]; [done| |unfold is_u32 in Hz; lia].
  destruct (d_of_Z_pos p) as (q & -> & Hq & _ & Hd); [unfold is_u32 in Hz; lia|].
  set (d := Z.pos (digits2_pos p)) in *. unfold d_to_u32, d_trunc.
  destruct (Z.leb_spec 0 (d - 53)); [lia|].
  replace (- (d - 53)) with (53 - d) by lia.
  rewrite Hq, Z.div_mul by lia.
  unfold is_u32 in Hz. destruct (Z.leb_spec 0 (Z.pos p)); [|lia].
  destruct (Z.ltb_spec (Z.pos p) (2 ^ 32)); [done|lia].
Qed.

Lemma d_to_u32_range d z : d_to_u32 d = Ok z → is_u32 z.
Proof.
  unfold d_to_u32, is_u32. destruct (d_trunc d) as [t|]; [|done].
  destruct (Z.leb_spec 0 t), (Z.ltb_spec t (2 ^ 32)); cbn; intros; simplify_eq; lia.
Qed.
