(* ===== verification/Data.v ===== *)
(** * The data model: src/bolo.h and src/data.c

    The structures of [src/bolo.h] as records (pointers to types and windows
    are shared but never written after configuration, so they are values
    here), the arithmetic of [src/data.c] on samples, counters and rates, and
    the four [find_*] lookups that create entries from the configured
    patterns.  The sample arithmetic is written once, for any type of
    numbers: the program uses it at [double], the reference at the
    rationals. *)

From S2P Require Import Prelude CLib Vigor.
From Stdlib Require Import SpecFloat QArith Qcanon.
Local Open Scope Z_scope.

(** ** Constants *)

Definition OK : Z := 0.
Definition WARNING : Z := 1.
Definition CRITICAL : Z := 2.
Definition UNKNOWN : Z := 3.
Definition PENDING : Z := 4.

Definition PAYLOAD_STATE : Z := 0x0001.
Definition PAYLOAD_COUNTER : Z := 0x0002.
Definition PAYLOAD_RATE : Z := 0x0004.
Definition PAYLOAD_SAMPLE : Z := 0x0008.
Definition PAYLOAD_EVENT : Z := 0x0010.
Definition PAYLOAD_FACT : Z := 0x0020.
Definition PAYLOAD_RESERVED : Z := 0xFF70.
Definition PAYLOAD_ALL : Z := 0xFFFF.

Definition EVENTS_KEEP_NUMBER : Z := 0.
Definition EVENTS_KEEP_TIME : Z := 1.

(** ** Numbers *)

(** What [sample_data] needs of its number type; [nof_Z] is the conversion
    of an integer operand. *)
Class Num (D : Type) := {
  nof_Z : Z → D;
  nadd : D → D → D;
  nsub : D → D → D;
  nmul : D → D → D;
  ndiv : D → D → D;
  nltb : D → D → bool;
}.

#[export] Instance double_num : Num double := {|
  nof_Z := d_of_Z; nadd := dadd; nsub := dsub; nmul := dmul; ndiv := ddiv; nltb := dltb;
|}.

(** Exact arithmetic. *)
Definition Qc_ltb (a b : Qc) : bool := match (a ?= b)%Qc with Lt => true | _ => false end.
#[export] Instance Qc_num : Num Qc := {|
  nof_Z z := Qc_of_Z z; nadd := Qcplus; nsub := Qcminus; nmul := Qcmult; ndiv := Qcdiv;
  nltb := Qc_ltb;
|}.

(** ** Structures *)

Record type_t := mk_type {
  type_name : string;
  type_freshness : Z;             (* uint16_t *)
  type_status : Z;                (* uint8_t *)
  type_summary : option string;   (* NULL until the definition is complete *)
}.

Record window_t := mk_window {
  window_name : option string;    (* NULL for an anonymous window *)
  window_time : Z;                (* int32_t *)
}.

Record state_t := mk_state {
  state_type : type_t;
  state_name : string;
  state_last_seen : Z;            (* int32_t *)
  state_expiry : Z;               (* int32_t *)
  state_status : Z;               (* uint8_t *)
  state_summary : string;
  state_stale : Z;                (* uint8_t *)
  state_ignore : Z;               (* uint8_t *)
}.

Record counter_t := mk_counter {
  counter_window : window_t;
  counter_name : string;
  counter_last_seen : Z;          (* int32_t *)
  counter_value : Z;              (* uint64_t *)
  counter_ignore : Z;             (* uint8_t *)
}.

Record sample_t (D : Type) := mk_sample {
  sample_window : window_t;
  sample_name : string;
  sample_last_seen : Z;           (* int32_t *)
  sample_n : Z;                   (* uint64_t *)
  sample_min : D;
  sample_max : D;
  sample_sum : D;
  sample_mean : D;
  sample_mean_ : D;
  sample_var : D;
  sample_var_ : D;
  sample_ignore : Z;              (* uint8_t *)
}.
Arguments mk_sample {D}.
Arguments sample_window {D}.
Arguments sample_name {D}.
Arguments sample_last_seen {D}.
Arguments sample_n {D}.
Arguments sample_min {D}.
Arguments sample_max {D}.
Arguments sample_sum {D}.
Arguments sample_mean {D}.
Arguments sample_mean_ {D}.
Arguments sample_var {D}.
Arguments sample_var_ {D}.
Arguments sample_ignore {D}.

Record rate_t := mk_rate {
  rate_window : window_t;
  rate_name : string;
  rate_first_seen : Z;            (* int32_t *)
  rate_last_seen : Z;             (* int32_t *)
  rate_first : Z;                 (* uint64_t *)
  rate_last : Z;                  (* uint64_t *)
  rate_ignore : Z;                (* uint8_t *)
}.

Record event_t := mk_event {
  event_timestamp : Z;            (* int32_t *)
  event_name : string;
  event_extra : string;
}.

(** A pattern rule: what [re_state_t] ([T] a type) and [re_counter_t],
    [re_sample_t], [re_rate_t] ([T] a window) share. *)
Record rule `{Pcre} (T : Type) := mk_rule {
  rule_re : pcre;
  rule_extra : pcre_extra;
  rule_target : T;
}.
Arguments mk_rule {_ T}.
Arguments rule_re {_ T}.
Arguments rule_extra {_ T}.
Arguments rule_target {_ T}.

Definition re_state_t `{Pcre} : Type := rule type_t.
Definition re_counter_t `{Pcre} : Type := rule window_t.
Definition re_sample_t `{Pcre} : Type := rule window_t.
Definition re_rate_t `{Pcre} : Type := rule window_t.

Record db_t `{Pcre} := mk_db {
  states : gmap string state_t;
  counters : gmap string counter_t;
  samples : gmap string (sample_t double);
  rates : gmap string rate_t;
  events : list event_t;
  events_count : Z;               (* int *)
  state_matches : list re_state_t;
  counter_matches : list re_counter_t;
  sample_matches : list re_sample_t;
  rate_matches : list re_rate_t;
  types : gmap string type_t;
  windows : gmap string window_t;
  anon_windows : list window_t;
}.

Section db_setters.
Context `{Pcre}.

Definition set_states (m : gmap string state_t) (d : db_t) : db_t :=
  mk_db _ m (counters d) (samples d) (rates d) (events d) (events_count d)
    (state_matches d) (counter_matches d) (sample_matches d) (rate_matches d)
    (types d) (windows d) (anon_windows d).
Definition set_counters (m : gmap string counter_t) (d : db_t) : db_t :=
  mk_db _ (states d) m (samples d) (rates d) (events d) (events_count d)
    (state_matches d) (counter_matches d) (sample_matches d) (rate_matches d)
    (types d) (windows d) (anon_windows d).
Definition set_samples (m : gmap string (sample_t double)) (d : db_t) : db_t :=
  mk_db _ (states d) (counters d) m (rates d) (events d) (events_count d)
    (state_matches d) (counter_matches d) (sample_matches d) (rate_matches d)
    (types d) (windows d) (anon_windows d).
Definition set_rates (m : gmap string rate_t) (d : db_t) : db_t :=
  mk_db _ (states d) (counters d) (samples d) m (events d) (events_count d)
    (state_matches d) (counter_matches d) (sample_matches d) (rate_matches d)
    (types d) (windows d) (anon_windows d).
Definition set_events (l : list event_t) (n : Z) (d : db_t) : db_t :=
  mk_db _ (states d) (counters d) (samples d) (rates d) l n
    (state_matches d) (counter_matches d) (sample_matches d) (rate_matches d)
    (types d) (windows d) (anon_windows d).

Definition put_state (name : string) (x : state_t) (d : db_t) : db_t :=
  set_states (<[name := x]> (states d)) d.
Definition put_counter (name : string) (x : counter_t) (d : db_t) : db_t :=
  set_counters (<[name := x]> (counters d)) d.
Definition put_sample (name : string) (x : sample_t double) (d : db_t) : db_t :=
  set_samples (<[name := x]> (samples d)) d.
Definition put_rate (name : string) (x : rate_t) (d : db_t) : db_t :=
  set_rates (<[name := x]> (rates d)) d.
End db_setters.

(** ** The server *)

Record config_t := mk_config {
  cfg_listener : option string;
  cfg_controller : option string;
  cfg_broadcast : option string;
  cfg_beacon : option string;
  cfg_nsca_port : Z;              (* uint16_t *)
  cfg_log_level : option string;
  cfg_log_facility : option string;
  cfg_pidfile : option string;
  cfg_runas_user : option string;
  cfg_runas_group : option string;
  cfg_savefile : option string;
  cfg_keysfile : option string;
  cfg_save_size : Z;              (* int *)
  cfg_interval : Z;               (* int; never read *)
  cfg_events_max : Z;             (* int *)
  cfg_events_keep : Z;            (* int *)
  cfg_grace_period : Z;           (* int *)
}.

Record interval_t := mk_interval {
  int_tick : Z;                   (* uint16_t, ms *)
  int_freshness : Z;              (* uint16_t *)
  int_sweep : Z;                  (* uint16_t *)
  int_savestate : Z;              (* uint16_t *)
}.

(** A key that was deleted stays in the table with a NULL value. *)
Record server_t `{Pcre} := mk_server {
  srv_db : db_t;
  srv_keys : gmap string (option string);
  srv_config : config_t;
  srv_interval : interval_t;
}.

(** ** Samples *)

Section sample.
Context {D : Type} `{Num D}.

Definition sample_reset (s : sample_t D) : sample_t D :=
  let z := nof_Z 0 in
  mk_sample (sample_window s) (sample_name s) 0 0 z z z z z z z (sample_ignore s).

Definition sample_data (s : sample_t D) (v : D) : Z * sample_t D :=
  let '(mn, mx) :=
    if sample_n s =? 0 then (v, v)
    else (if nltb v (sample_min s) then v else sample_min s,
          if nltb (sample_max s) v then v else sample_max s) in
  let sum := nadd (sample_sum s) v in
  let n := u64 (sample_n s + 1) in
  let mean_ := sample_mean s in
  let mean := nadd mean_ (ndiv (nsub v mean_) (nof_Z n)) in
  let var_ := sample_var s in
  let var := ndiv (nadd (nmul (nof_Z (u64 (n - 1))) var_)
                        (nmul (nsub v mean_) (nsub v mean))) (nof_Z n) in
  (0, mk_sample (sample_window s) (sample_name s) (sample_last_seen s) n mn mx sum
        mean mean_ var var_ (sample_ignore s)).

(** The values of one PDU, one after the other. *)
Definition sample_feed (s : sample_t D) (vs : list D) : sample_t D :=
  foldl (λ s v, (sample_data s v).2) s vs.
End sample.

(** ** Counters and rates *)

Definition counter_reset (c : counter_t) : counter_t :=
  mk_counter (counter_window c) (counter_name c) 0 0 (counter_ignore c).

Definition rate_reset (r : rate_t) : rate_t :=
  mk_rate (rate_window r) (rate_name r) 0 0 0 0 (rate_ignore r).

Definition rate_data (r : rate_t) (v : Z) : Z * rate_t :=
  (0, mk_rate (rate_window r) (rate_name r) (rate_first_seen r) (rate_last_seen r)
        (if rate_last_seen r =? 0 then v else rate_first r) v (rate_ignore r)).

(** The difference [rate_calc] divides, in 64-bit arithmetic. *)
Definition rate_diff (r : rate_t) : Z :=
  if rate_first r <=? rate_last r then u64 (rate_last r - rate_first r)
  else if rate_first r <? 0xffff then u64 (0xffff - rate_first r + rate_last r)
  else u64 (0xffffffff - rate_first r + rate_last r).

Definition rate_calc (r : rate_t) (span : Z) : double :=
  if rate_last_seen r =? 0 then d_of_Z 0
  else dmul (ddiv (dmul (d_of_Z (rate_diff r)) (d_of_Z 1))
                  (d_of_Z (s32 (rate_last_seen r - rate_first_seen r))))
            (d_of_Z span).

(** ** Lookups *)

Section find.
Context `{Pcre}.

(** [for_each_object] over the rules, stopping at the first whose pattern
    matches. *)
Fixpoint first_match {T} (rules : list (rule T)) (name : string) : option (rule T) :=
  match rules with
  | [] => None
  | r :: rs =>
      if pcre_exec (rule_re r) (rule_extra r) name =? 0 then Some r else first_match rs name
  end.

Definition pending_summary : string := "(state is pending results)".

Definition new_state (now : Z) (name : string) (t : type_t) : state_t :=
  mk_state t name 0 (s32 (type_freshness t + now)) PENDING pending_summary 0 0.

Definition find_state (now : Z) (db : db_t) (name : string) : option state_t * db_t :=
  match states db !! name with
  | Some x => (Some x, db)
  | None =>
      match first_match (state_matches db) name with
      | Some re =>
          let x := new_state now name (rule_target re) in
          (Some x, put_state name x db)
      | None => (None, db)
      end
  end.

Definition new_counter (name : string) (w : window_t) : counter_t := mk_counter w name 0 0 0.

Definition find_counter (db : db_t) (name : string) : option counter_t * db_t :=
  match counters db !! name with
  | Some x => (Some x, db)
  | None =>
      match first_match (counter_matches db) name with
      | Some re =>
          let x := new_counter name (rule_target re) in
          (Some x, put_counter name x db)
      | None => (None, db)
      end
  end.

Definition new_sample (name : string) (w : window_t) : sample_t double :=
  let z := S754_zero false in mk_sample w name 0 0 z z z z z z z 0.

Definition find_sample (db : db_t) (name : string) : option (sample_t double) * db_t :=
  match samples db !! name with
  | Some x => (Some x, db)
  | None =>
      match first_match (sample_matches db) name with
      | Some re =>
          let x := new_sample name (rule_target re) in
          (Some x, put_sample name x db)
      | None => (None, db)
      end
  end.

Definition new_rate (name : string) (w : window_t) : rate_t := mk_rate w name 0 0 0 0 0.

Definition find_rate (db : db_t) (name : string) : option rate_t * db_t :=
  match rates db !! name with
  | Some x => (Some x, db)
  | None =>
      match first_match (rate_matches db) name with
      | Some re =>
          let x := new_rate name (rule_target re) in
          (Some x, put_rate name x db)
      | None => (None, db)
      end
  end.
End find.
