(* ===== verification/DataFacts.v ===== *)
(** * Theorems on src/data.c

    The sample statistics (the recurrences are Welford's: over exact
    arithmetic they are the mean and the population variance; on doubles the
    extremes are extremes), the rate difference, and what the four lookups
    promise to their callers. *)

From S2P Require Import Prelude CLib Vigor Data.
From Stdlib Require Import SpecFloat QArith Qcanon.
Local Open Scope Z_scope.

(** ** Exact statistics *)

Section exact.
Local Open Scope Qc_scope.
Implicit Types (v : Qc) (vs : list Qc).

Definition qsum vs : Qc := foldr Qcplus 0 vs.

(** The sum of the squared distances to [c]. *)
Definition sqdist (c : Qc) vs : Qc := foldr (λ v acc, (v - c) * (v - c) + acc) 0 vs.

Definition qlen vs : Qc := Qc_of_Z (Z.of_nat (length vs)).

(** The reference: what a sample of [vs] should report. *)
Definition mean_of vs : Qc := qsum vs / qlen vs.
Definition variance_of vs : Qc := sqdist (mean_of vs) vs / qlen vs.

Lemma qsum_snoc vs v : qsum (vs ++ [v]) = qsum vs + v.
Proof. induction vs as [|x vs IH]; cbn; [ring|]. unfold qsum in IH. rewrite IH. ring. Qed.

Lemma qlen_nil : qlen [] = 0.
Proof. apply Z2Qc_inj_0. Qed.

Lemma qlen_snoc vs v : qlen (vs ++ [v]) = qlen vs + 1.
Proof.
  unfold qlen. rewrite length_app. cbn [length].
  rewrite Nat2Z.inj_add, Z2Qc_inj_add. reflexivity.
Qed.

Lemma sqdist_snoc c vs v : sqdist c (vs ++ [v]) = sqdist c vs + (v - c) * (v - c).
Proof. induction vs as [|x vs IH]; cbn; [ring|]. unfold sqdist in IH. rewrite IH. ring. Qed.

(** Moving the centre (the parallel axis theorem). *)
Lemma sqdist_expand c d vs :
  sqdist c vs = sqdist d vs + (d - c) * ((1 + 1) * (qsum vs - qlen vs * d) + qlen vs * (d - c)).
Proof.
  induction vs as [|x vs IH].
  - rewrite qlen_nil. cbn. ring.
  - unfold qlen in *. cbn [length]. rewrite Nat2Z.inj_succ, <- Z.add_1_r, Z2Qc_inj_add, Z2Qc_inj_1.
    unfold qsum, sqdist in *. cbn [foldr]. rewrite IH. ring.
Qed.

Lemma qlen_succ_pos vs : qlen vs + 1 ≠ 0.
Proof.
  unfold qlen. rewrite <- Z2Qc_inj_1, <- Z2Qc_inj_add, <- Z2Qc_inj_0.
  intros H%Z2Qc_inj. lia.
Qed.

(** What a sample knows after the values [vs]. *)
Record summarises (s : sample_t Qc) vs : Prop := {
  sum_n : sample_n s = Z.of_nat (length vs);
  sum_sum : sample_sum s = qsum vs;
  sum_mean : qlen vs * sample_mean s = qsum vs;
  sum_var : qlen vs * sample_var s = sqdist (sample_mean s) vs;
}.

Lemma summarises_step s vs v :
  (Z.of_nat (length vs) < 2 ^ 64 - 1)%Z →
  summarises s vs → summarises (sample_data s v).2 (vs ++ [v]).
Proof.
  intros Hlen [Hn Hs Hm Hv]. unfold sample_data.
  destruct (if (sample_n s =? 0)%Z then _ else _) as [mn mx]. cbn -[Z.pow].
  assert (u64 (sample_n s + 1) = Z.of_nat (length vs) + 1)%Z as En
    by (rewrite Hn; apply u64_id; unfold is_u64; lia).
  assert (u64 (sample_n s + 1 - 1) = Z.of_nat (length vs))%Z as En1
    by (rewrite Hn; rewrite u64_id; unfold is_u64; lia).
  pose proof (qlen_succ_pos vs) as Hne.
  set (x := sample_mean s) in *.
  assert (Hx : x + (v - x) / Qc_of_Z (u64 (sample_n s + 1)) = (qsum vs + v) / (qlen vs + 1)).
  { rewrite En, Z2Qc_inj_add. fold (qlen vs). rewrite Z2Qc_inj_1. rewrite <- Hm. by field. }
  split; cbn -[Z.pow].
  - rewrite En, length_app. cbn. lia.
  - by rewrite Hs, qsum_snoc.
  - rewrite Hx, qlen_snoc, qsum_snoc. by field.
  - rewrite Hx, qlen_snoc, sqdist_snoc.
    rewrite (sqdist_expand _ x), <- Hv, <- Hm.
    replace (u64 (u64 (sample_n s + 1) - 1)) with (Z.of_nat (length vs))
      by (rewrite En; symmetry; rewrite u64_id; unfold is_u64; lia).
    rewrite En, Z2Qc_inj_add. fold (qlen vs). rewrite Z2Qc_inj_1. by field.
Qed.

Lemma summarises_feed s ws vs :
  (Z.of_nat (length ws + length vs) < 2 ^ 64)%Z →
  summarises s ws → summarises (sample_feed s vs) (ws ++ vs).
Proof.
  revert s ws. induction vs as [|v vs IH]; intros s ws Hlen Hs.
  - by rewrite app_nil_r.
  - cbn [length] in Hlen. change (sample_feed s (v :: vs)) with (sample_feed (sample_data s v).2 vs).
    rewrite (cons_middle v ws vs), app_assoc.
    apply IH; [rewrite length_app; cbn [length]; lia|]. apply summarises_step; [lia|done].
Qed.

Lemma summarises_reset s : summarises (sample_reset s) [].
Proof. split; rewrite ?qlen_nil; cbn; rewrite ?Z2Qc_inj_0; done || ring. Qed.

(** C34: after a reset, feeding any values to [sample_data] leaves, in exact
    arithmetic, their number, their sum, their mean and their population
    variance: the incremental updates of data.c agree with the textbook
    definitions, whatever the order and the number of the values. *)
Theorem sample_data_statistics (s : sample_t Qc) vs :
  vs ≠ [] → (Z.of_nat (length vs) < 2 ^ 64)%Z →
  let s' := sample_feed (sample_reset s) vs in
  sample_n s' = Z.of_nat (length vs) ∧ sample_sum s' = qsum vs ∧
  sample_mean s' = mean_of vs ∧ sample_var s' = variance_of vs.
Proof.
  intros Hne Hlen s'.
  destruct (summarises_feed _ [] vs Hlen (summarises_reset s)) as [Hn Hs Hm Hv].
  rewrite app_nil_l in *.
  assert (qlen vs ≠ 0) as H0.
  { unfold qlen. rewrite <- Z2Qc_inj_0. intros H%Z2Qc_inj. destruct vs; cbn in *; [done|lia]. }
  assert (sample_mean s' = mean_of vs) as Em.
  { unfold mean_of. rewrite <- Hm. fold s'. by field. }
  split_and!; [done..|]. unfold variance_of. fold s' in Hv. rewrite <- Em, <- Hv. by field.
Qed.
End exact.

Lemma sample_data_statistics_witness :
  let s := sample_feed (sample_reset (mk_sample (mk_window None 60) "cpu" 0 0 0 0 0 0 0 0 0 0)%Qc)
             [Qc_of_Z 2; Qc_of_Z 4; Qc_of_Z 9] in
  sample_n s = 3 ∧ sample_sum s = Qc_of_Z 15 ∧ sample_mean s = Qc_of_Z 5 ∧
  sample_var s = (Qc_of_Z 26 / Qc_of_Z 3)%Qc.
Proof.
  destruct (sample_data_statistics (mk_sample (mk_window None 60) "cpu" 0 0 0 0 0 0 0 0 0 0)%Qc
              [Qc_of_Z 2; Qc_of_Z 4; Qc_of_Z 9]) as (H1 & H2 & H3 & H4); [done|cbn; lia|].
  split_and!.
  - exact H1.
  - etrans; [exact H2|]. by apply Qc_is_canon.
  - etrans; [exact H3|]. by apply Qc_is_canon.
  - etrans; [exact H4|]. by apply Qc_is_canon.
Defined.

(** ** The extremes, on doubles *)

Definition not_nan (d : double) : Prop := d ≠ S754_nan.

(** The position of a double on the line: its class, then exponent and
    mantissa, negated below zero. *)
Definition d_rank (d : double) : Z * Z * Z :=
  match d with
  | S754_infinity true => (-2, 0, 0)
  | S754_finite true m e => (-1, - e, - Z.pos m)
  | S754_zero _ | S754_nan => (0, 0, 0)
  | S754_finite false m e => (1, e, Z.pos m)
  | S754_infinity false => (2, 0, 0)
  end.

Definition rank_lt (a b : Z * Z * Z) : Prop :=
  a.1.1 < b.1.1 ∨ (a.1.1 = b.1.1 ∧ (a.1.2 < b.1.2 ∨ (a.1.2 = b.1.2 ∧ a.2 < b.2))).

Ltac rank_cases :=
  first [split; [done|intros; exfalso; lia] | split; [intros _; lia|done]].

Lemma dltb_rank a b : not_nan a → not_nan b → dltb a b = true ↔ rank_lt (d_rank a) (d_rank b).
Proof.
  unfold not_nan, dltb, SFltb, rank_lt. intros Ha Hb.
  destruct a as [sa|sa| |sa ma ea], b as [sb|sb| |sb mb eb]; try done;
    repeat match goal with s : bool |- _ => destruct s end; cbn; try rank_cases.
  all: destruct (Z.compare_spec ea eb); cbn; try rank_cases.
  all: change (Pos.compare_cont Eq ma mb) with (Pos.compare ma mb).
  all: destruct (Pos.compare_spec ma mb); cbn; rank_cases.
Qed.

Lemma dltb_irrefl a : dltb a a = false.
Proof.
  destruct a as [s|s| |s m e]; try (by destruct s); [done|].
  unfold dltb, SFltb. destruct s; cbn; by rewrite Z.compare_refl, Pos.compare_refl.
Qed.

(** [<=] on doubles that are numbers. *)
Definition d_le (a b : double) : Prop := dltb b a = false.

Lemma d_le_trans a b c : not_nan a → not_nan b → not_nan c → d_le a b → d_le b c → d_le a c.
Proof.
  unfold d_le. rewrite <- !not_true_iff_false. intros Ha Hb Hc. rewrite !dltb_rank by done.
  unfold rank_lt. lia.
Qed.

Lemma d_lt_le a b : not_nan a → not_nan b → dltb a b = true → d_le a b.
Proof.
  unfold d_le. rewrite <- not_true_iff_false. intros Ha Hb. rewrite !dltb_rank by done.
  unfold rank_lt. lia.
Qed.

(** The sample's extremes are extremes of the values it has seen. *)
Definition extremes (s : sample_t double) (vs : list double) : Prop :=
  (sample_n s = 0 ↔ vs = []) ∧ 0 ≤ sample_n s ∧
  (vs ≠ [] → sample_min s ∈ vs ∧ sample_max s ∈ vs ∧
   Forall (λ v, d_le (sample_min s) v ∧ d_le v (sample_max s)) vs).

Lemma extremes_step s vs v :
  Forall not_nan vs → not_nan v → sample_n s < 2 ^ 64 - 1 →
  extremes s vs → extremes (sample_data s v).2 (vs ++ [v]).
Proof.
  intros Hvs Hv Hlt (Hz & H0 & Hex). unfold sample_data, extremes.
  destruct (Z.eqb_spec (sample_n s) 0) as [E|E]; cbn -[Z.pow].
  - apply Hz in E as ->. rewrite (u64_id (sample_n s + 1)) by (unfold is_u64; lia).
    split_and!; [split; [lia|done]|lia|]. intros _. cbn. unfold d_le.
    split_and!; [by left..|]. repeat constructor; by rewrite dltb_irrefl.
  - destruct Hex as (Hmn & Hmx & Hall); [by rewrite <- Hz|].
    pose proof (proj1 (Forall_forall _ _) Hvs) as Hnn.
    rewrite (u64_id (sample_n s + 1)) by (unfold is_u64; lia).
    split_and!; [split; [lia|by destruct vs]|lia|]. intros _. split_and!.
    + apply elem_of_app. case_step; [right; by left|by left].
    + apply elem_of_app. case_step; [right; by left|by left].
    + change (@nltb double double_num) with dltb.
      apply Forall_app. split; [|constructor; [|done]].
      * eapply Forall_impl; [apply Forall_and; split; [exact Hvs|exact Hall]|].
        intros x (Hx & Hx1 & Hx2). split; case_step; try done.
        -- eapply (d_le_trans _ (sample_min s)); auto using d_lt_le.
        -- eapply (d_le_trans _ (sample_max s)); auto using d_lt_le.
      * unfold d_le. split; case_step; auto using dltb_irrefl.
Qed.

Lemma extremes_feed s ws vs :
  Forall not_nan ws → Forall not_nan vs →
  sample_n s + Z.of_nat (length vs) < 2 ^ 64 →
  extremes s ws → extremes (sample_feed s vs) (ws ++ vs).
Proof.
  revert s ws. induction vs as [|v vs IH]; intros s ws Hw Hv Hlen Hs; [by rewrite app_nil_r|].
  inversion_clear Hv as [|? ? Hv1 Hv2]. cbn [length] in Hlen.
  change (sample_feed s (v :: vs)) with (sample_feed (sample_data s v).2 vs).
  rewrite (cons_middle v ws vs), app_assoc. apply IH; [by apply Forall_app; auto|done| |].
  - unfold sample_data. destruct (if sample_n s =? 0 then _ else _). cbn -[Z.pow].
    destruct Hs as (_ & H0 & _). rewrite u64_id; unfold is_u64; lia.
  - apply extremes_step; [done..|lia|done].
Qed.

(** On doubles, the minimum and maximum a sample reports after a reset
    are two of the values it was given, and no value given lies outside
    them, as long as none of the values is a NaN. *)
Theorem sample_data_extremes s vs :
  vs ≠ [] → Forall not_nan vs → Z.of_nat (length vs) < 2 ^ 64 →
  let s' := sample_feed (sample_reset s) vs in
  sample_min s' ∈ vs ∧ sample_max s' ∈ vs ∧
  Forall (λ v, dltb v (sample_min s') = false ∧ dltb (sample_max s') v = false) vs.
Proof.
  intros Hne Hvs Hlen s'.
  destruct (extremes_feed (sample_reset s) [] vs) as (_ & _ & H); cbn -[Z.pow]; [done..|lia| |auto].
  split; [done|split; [cbn; lia|done]].
Qed.

Lemma sample_data_extremes_witness :
  let s' := sample_feed (sample_reset (new_sample "cpu" (mk_window None 60)))
              [d_of_Z 7; d_of_Z (-3); d_of_Z 40] in
  sample_min s' ∈ [d_of_Z 7; d_of_Z (-3); d_of_Z 40].
Proof.
  apply (sample_data_extremes (new_sample "cpu" (mk_window None 60))
           [d_of_Z 7; d_of_Z (-3); d_of_Z 40]); [done| |cbn; lia].
  repeat constructor; by vm_compute.
Defined.

(** ** Rates *)

(** The difference [rate_calc] works with, for readings of 32 bits (the fields
    have 64).  A value that grew gives its increase; for a 32-bit counter that wrapped (its first value at least
    0xffff) the result is one less than the increase modulo 2^32; and a
    counter that wrapped from below 0xffff is treated as a 16-bit one, also
    one short. *)
Theorem rate_diff_rollover (r : rate_t) :
  is_u32 (rate_first r) → is_u32 (rate_last r) →
  rate_diff r =
    if rate_first r <=? rate_last r then rate_last r - rate_first r
    else if rate_first r <? 0xffff then (rate_last r - rate_first r) mod 2 ^ 16 - 1
    else (rate_last r - rate_first r) mod 2 ^ 32 - 1.
Proof.
  intros H1 H2. unfold rate_diff.
  destruct (Z.leb_spec (rate_first r) (rate_last r)); [cint|].
  destruct (Z.ltb_spec (rate_first r) 0xffff); cint.
Qed.

Lemma rate_diff_rollover_witness :
  rate_diff (mk_rate (mk_window None 60) "if.eth0.in" 100 160 (2 ^ 32 - 10) 5 0) = 14.
Proof.
  rewrite (rate_diff_rollover (mk_rate (mk_window None 60) "if.eth0.in" 100 160 (2 ^ 32 - 10) 5 0));
    [reflexivity|cbn; cint..].
Defined.

(** ** Lookups *)

Section lookup.
Context `{Pcre}.

Lemma first_match_in {T} (rules : list (rule T)) name re :
  first_match rules name = Some re →
  re ∈ rules ∧ pcre_exec (rule_re re) (rule_extra re) name = 0.
Proof.
  induction rules as [|r rs IH]; cbn; [done|].
  destruct (Z.eqb_spec (pcre_exec (rule_re r) (rule_extra r) name) 0).
  - intros [= ->]. split; [left|done].
  - intros ?%IH. destruct_and!. split; [by right|done].
Qed.

Lemma first_match_None {T} (rules : list (rule T)) name :
  first_match rules name = None ↔
  Forall (λ r, pcre_exec (rule_re r) (rule_extra r) name ≠ 0) rules.
Proof.
  induction rules as [|r rs IH]; cbn; [by split|].
  destruct (Z.eqb_spec (pcre_exec (rule_re r) (rule_extra r) name) 0).
  - split; [done|]. by inversion 1.
  - rewrite IH. split; [by constructor|by inversion 1].
Qed.

Lemma set_states_id d : set_states (states d) d = d.
Proof. by destruct d. Qed.
Lemma set_counters_id d : set_counters (counters d) d = d.
Proof. by destruct d. Qed.
Lemma set_samples_id d : set_samples (samples d) d = d.
Proof. by destruct d. Qed.
Lemma set_rates_id d : set_rates (rates d) d = d.
Proof. by destruct d. Qed.

(** The lookup the four [find_*] functions share: the entry that is there,
    or one made from the target of the first matching rule. *)
Definition find_in {V T} (m : gmap string V) (rules : list (rule T)) (mk : T → V)
    (name : string) : option V * gmap string V :=
  match m !! name with
  | Some x => (Some x, m)
  | None =>
      match first_match rules name with
      | Some re => (Some (mk (rule_target re)), <[name := mk (rule_target re)]> m)
      | None => (None, m)
      end
  end.

(** What it promises to its callers. *)
Lemma find_in_contract {V T} (m : gmap string V) (rules : list (rule T)) mk name r m' :
  find_in m rules mk name = (r, m') →
  m' !! name = r ∧ (∀ k, k ≠ name → m' !! k = m !! k) ∧
  (∀ x, m !! name = Some x → r = Some x ∧ m' = m) ∧
  (r = None ↔ m !! name = None ∧ Forall (λ re, pcre_exec (rule_re re) (rule_extra re) name ≠ 0) rules) ∧
  (m !! name = None → ∀ x, r = Some x → ∃ re, re ∈ rules ∧ x = mk (rule_target re) ∧
     pcre_exec (rule_re re) (rule_extra re) name = 0).
Proof.
  unfold find_in. rewrite <- first_match_None.
  destruct (m !! name) as [x|] eqn:E; [|destruct (first_match rules name) as [re|] eqn:F];
    intros [= <- <-].
  - split_and!; [done|done|naive_solver|naive_solver|done].
  - split_and!; [apply lookup_insert_eq|intros; by apply lookup_insert_ne|done|naive_solver|].
    intros _ ? [= <-]. apply first_match_in in F as [? ?]. eauto.
  - split_and!; [done|done|done|naive_solver|done].
Qed.

Lemma find_state_in now db name :
  find_state now db name =
  let '(r, m) := find_in (states db) (state_matches db) (new_state now name) name in
  (r, set_states m db).
Proof.
  unfold find_state, find_in, put_state. pose proof (set_states_id db).
  repeat case_step; congruence.
Qed.

Lemma find_counter_in db name :
  find_counter db name =
  let '(r, m) := find_in (counters db) (counter_matches db) (new_counter name) name in
  (r, set_counters m db).
Proof.
  unfold find_counter, find_in, put_counter. pose proof (set_counters_id db).
  repeat case_step; congruence.
Qed.

Lemma find_sample_in db name :
  find_sample db name =
  let '(r, m) := find_in (samples db) (sample_matches db) (new_sample name) name in
  (r, set_samples m db).
Proof.
  unfold find_sample, find_in, put_sample. pose proof (set_samples_id db).
  repeat case_step; congruence.
Qed.

Lemma find_rate_in db name :
  find_rate db name =
  let '(r, m) := find_in (rates db) (rate_matches db) (new_rate name) name in
  (r, set_rates m db).
Proof.
  unfold find_rate, find_in, put_rate. pose proof (set_rates_id db).
  repeat case_step; congruence.
Qed.

(** Looking a state up answers the entry of the table afterwards, leaves
    every other entry alone, answers nothing exactly when the name is new
    and no pattern matches it, and is idempotent: a second lookup, at any
    later time, finds the same entry and changes nothing. *)
Theorem find_state_idempotent now now' db name r db' :
  find_state now db name = (r, db') →
  states db' !! name = r ∧ (∀ k, k ≠ name → states db' !! k = states db !! k) ∧
  counters db' = counters db ∧ samples db' = samples db ∧ rates db' = rates db ∧
  (r = None ↔ states db !! name = None ∧
     Forall (λ re, pcre_exec (rule_re re) (rule_extra re) name ≠ 0) (state_matches db)) ∧
  find_state now' db' name = (r, db').
Proof.
  rewrite find_state_in.
  destruct (find_in _ _ _ _) as [r' m] eqn:E. intros [= <- <-].
  destruct (find_in_contract _ _ _ _ _ _ E) as (H1 & H2 & _ & H4 & _).
  split_and!; try done. unfold find_state. cbn [states set_states state_matches].
  rewrite H1. destruct r' as [x|]; [done|].
  apply proj1 in H4. destruct (H4 eq_refl) as [_ ->%first_match_None]. done.
Qed.
End lookup.

(** A database with one rule per table, for the examples: names that contain
    "host" are watched over windows of a minute. *)
Module Example1.
Definition minute : window_t := mk_window (Some "minute") 60.
Definition local : type_t := mk_type "local" 300 WARNING (Some "no results received").
Definition host_rule {T} (t : T) : @rule ref_pcre T := mk_rule (H := ref_pcre) "host" tt t.
Definition db : @db_t ref_pcre :=
  mk_db ref_pcre ∅ ∅ ∅ ∅ [] 0 [host_rule local] [host_rule minute] [host_rule minute]
    [host_rule minute] ∅ ∅ [].
End Example1.

Lemma find_state_idempotent_witness :
  let '(r, db') := find_state (H := ref_pcre) 1000 Example1.db "host.cpu" in
  r = Some (new_state 1000 "host.cpu" Example1.local) ∧
  find_state (H := ref_pcre) 2000 db' "host.cpu" = (r, db').
Proof.
  destruct (find_state (H := ref_pcre) 1000 Example1.db "host.cpu") as [r db'] eqn:E.
  split; [|by apply (find_state_idempotent (H := ref_pcre) 1000 2000 _ _ _ _ E)].
  by injection E as <- <-.
Defined.
