(* ===== verification/Binf.v ===== *)
(** * The save file: src/binf.c

    The packed records of the binary state database, the writer and the
    reader of one record ([s_write_record], [s_read_record]), and the whole
    file ([binf_write], [binf_read], [binf_sync]).  The mapping is written
    front to back, so the writer's position is the length of what it has
    written; an access outside the mapping is a fault. *)

From S2P Require Import Prelude CLib Vigor Bytes Data.
From Stdlib Require Import SpecFloat.
From Stdlib Require Strings.Byte.

#[export] Instance byte_eq_dec : EqDecision byte := Byte.byte_eq_dec.

Definition RECORD_TYPE_MASK : Z := 0x000f.
Definition RECORD_TYPE_STATE : Z := 0x1.
Definition RECORD_TYPE_COUNTER : Z := 0x2.
Definition RECORD_TYPE_SAMPLE : Z := 0x3.
Definition RECORD_TYPE_EVENT : Z := 0x4.
Definition RECORD_TYPE_RATE : Z := 0x5.

(** ** 64-bit network order *)

(** Both functions go through the two 32-bit halves of a union. *)
Definition htonll (x : Z) : Z :=
  let h0 := u32 x in let h1 := u32 (x / 2 ^ 32) in
  let n0 := htonl h1 in let n1 := htonl h0 in
  n0 + 2 ^ 32 * n1.

Definition ntohll (x : Z) : Z :=
  let n0 := u32 x in let n1 := u32 (x / 2 ^ 32) in
  let h0 := ntohl n1 in let h1 := ntohl n0 in
  h0 + 2 ^ 32 * h1.

(** ** Records *)

(** The packed structures. *)
Definition sizeof_header : Z := 16.
Definition sizeof_record : Z := 4.
Definition sizeof_state : Z := 7.
Definition sizeof_counter : Z := 13.
Definition sizeof_sample : Z := 69.
Definition sizeof_event : Z := 4.
Definition sizeof_rate : Z := 25.

(** What the writer is given. *)
Inductive payload :=
| PState (s : state_t)
| PCounter (c : counter_t)
| PSample (s : sample_t double)
| PEvent (e : event_t)
| PRate (r : rate_t).

Definition payload_type (p : payload) : Z :=
  match p with
  | PState _ => RECORD_TYPE_STATE
  | PCounter _ => RECORD_TYPE_COUNTER
  | PSample _ => RECORD_TYPE_SAMPLE
  | PEvent _ => RECORD_TYPE_EVENT
  | PRate _ => RECORD_TYPE_RATE
  end.

(** [record.len], a [uint16_t]. *)
Definition record_len (p : payload) : Z :=
  match p with
  | PState s =>
      u16 (u16 (u16 (sizeof_record + sizeof_state) + (strlen (state_name s) + 1))
           + (strlen (state_summary s) + 1))
  | PCounter c => u16 (u16 (sizeof_record + sizeof_counter) + (strlen (counter_name c) + 1))
  | PSample s => u16 (u16 (sizeof_record + sizeof_sample) + (strlen (sample_name s) + 1))
  | PEvent e =>
      u16 (u16 (u16 (sizeof_record + sizeof_event) + (strlen (event_name e) + 1))
           + (strlen (event_extra e) + 1))
  | PRate r => u16 (u16 (sizeof_record + sizeof_rate) + (strlen (rate_name r) + 1))
  end.

(** [body.sample.x = htonl(payload.sample->x)]: the double is converted to
    an unsigned integer, swapped, and the result stored as a double. *)
Definition double_field (d : double) : res (list byte) :=
  z ← d_to_u32 d; mret (le_bytes 8 (bits_of_double (d_of_Z (htonl z)))).

Definition double_fields (ds : list double) : res (list byte) :=
  foldr (λ d acc, l ← double_field d; r ← acc; mret (l ++ r)) (mret []) ds.

(** The body structure of a record. *)
Definition record_body (p : payload) : res (list byte) :=
  match p with
  | PState s =>
      mret (le_bytes 4 (htonl (u32 (state_last_seen s))) ++
            le_bytes 1 (state_status s) ++ le_bytes 1 (state_stale s) ++
            le_bytes 1 (state_ignore s))
  | PCounter c =>
      mret (le_bytes 4 (htonl (u32 (counter_last_seen c))) ++
            le_bytes 8 (htonll (counter_value c)) ++ le_bytes 1 (counter_ignore c))
  | PSample s =>
      ds ← double_fields [sample_min s; sample_max s; sample_sum s; sample_mean s;
                          sample_mean_ s; sample_var s; sample_var_ s];
      mret (le_bytes 4 (htonl (u32 (sample_last_seen s))) ++
            le_bytes 8 (htonll (sample_n s)) ++ ds ++ le_bytes 1 (sample_ignore s))
  | PEvent e => mret (le_bytes 4 (htonl (u32 (event_timestamp e))))
  | PRate r =>
      mret (le_bytes 4 (htonl (u32 (rate_first_seen r))) ++
            le_bytes 4 (htonl (u32 (rate_last_seen r))) ++
            le_bytes 8 (htonll (rate_first r)) ++ le_bytes 8 (htonll (rate_last r)) ++
            le_bytes 1 (rate_ignore r))
  end.

(** The strings that follow the body. *)
Definition record_strings (p : payload) : list string :=
  match p with
  | PState s => [state_name s; state_summary s]
  | PCounter c => [counter_name c]
  | PSample s => [sample_name s]
  | PEvent e => [event_name e; event_extra e]
  | PRate r => [rate_name r]
  end.

Fixpoint write_strings (lim : Z) (buf : list byte) (ss : list string) : res (list byte) :=
  match ss with
  | [] => mret buf
  | s :: ss' => buf ← write_at lim buf (cstr_bytes s); write_strings lim buf ss'
  end.

Definition s_write_record (lim : Z) (buf : list byte) (p : payload) : res (list byte) :=
  buf ← write_at lim buf (le_bytes 2 (htons (record_len p)) ++ le_bytes 2 (htons (payload_type p)));
  body ← record_body p;
  buf ← write_at lim buf body;
  write_strings lim buf (record_strings p).

(** What the reader finds; the type or window of the object is not in the
    file. *)
Inductive saved :=
| SState (name summary : string) (last_seen status stale ignore : Z)
| SCounter (name : string) (last_seen value ignore : Z)
| SSample (name : string) (last_seen n : Z) (ds : list double) (ignore : Z)
| SEvent (timestamp : Z) (name extra : string)
| SRate (name : string) (first_seen last_seen first last ignore : Z).

(** Cutting the fields out of a body that was copied whole. *)
Definition field (l : list byte) (off n : nat) : Z := le_value (take n (drop off l)).

(** [payload.sample->x = ntohl(body.sample.x)] *)
Definition read_double (l : list byte) (off : nat) : res double :=
  z ← d_to_u32 (double_of_bits (field l off 8)); mret (d_of_Z (ntohl z)).

Definition read_doubles (l : list byte) (offs : list nat) : res (list double) :=
  foldr (λ o acc, d ← read_double l o; r ← acc; mret (d :: r)) (mret []) offs.

(** The bytes after the body, [want] of them, and a terminator. *)
Definition read_tail (f : file) (lim len off body : Z) : res (list byte * Z) :=
  let want := len - sizeof_record - body in
  l ← read_at f lim off want;
  mret (l ++ [Byte.x00], off + want).

(** [for (p = buf; *p++; );] then [strdup(p)]: the second string, when [p]
    is still inside the buffer. *)
Definition second_string (buf : list byte) : res string :=
  let p := S (length (until_nul buf)) in
  if (p <? length buf)%nat then Ok (bytes_str (until_nul (drop p buf))) else Fault OutOfBounds.

(** [p - buf + 1 == want] *)
Definition short_tail (buf : list byte) : bool :=
  (length (until_nul buf) + 2 =? length buf - 1)%nat.

Definition first_string (buf : list byte) : string := bytes_str (until_nul buf).

(** [None] stands for the return value 1. *)
Definition s_read_record (f : file) (lim off : Z) : res (option (saved * Z)) :=
  hd ← read_at f lim off sizeof_record;
  let off := off + sizeof_record in
  let len := ntohs (field hd 0 2) in
  let type := Z.land (ntohs (field hd 2 2)) RECORD_TYPE_MASK in
  if type =? RECORD_TYPE_STATE then
    b ← read_at f lim off sizeof_state;
    '(buf, off) ← read_tail f lim len (off + sizeof_state) sizeof_state;
    if short_tail buf then mret None
    else
      summary ← second_string buf;
      mret (Some (SState (first_string buf) summary (s32 (ntohl (field b 0 4)))
                    (field b 4 1) (field b 5 1) (field b 6 1), off))
  else if type =? RECORD_TYPE_COUNTER then
    b ← read_at f lim off sizeof_counter;
    '(buf, off) ← read_tail f lim len (off + sizeof_counter) sizeof_counter;
    mret (Some (SCounter (first_string buf) (s32 (ntohl (field b 0 4)))
                  (ntohll (field b 4 8)) (field b 12 1), off))
  else if type =? RECORD_TYPE_SAMPLE then
    b ← read_at f lim off sizeof_sample;
    ds ← read_doubles b [12; 20; 28; 36; 44; 52; 60]%nat;
    '(buf, off) ← read_tail f lim len (off + sizeof_sample) sizeof_sample;
    mret (Some (SSample (first_string buf) (s32 (ntohl (field b 0 4)))
                  (ntohll (field b 4 8)) ds (field b 68 1), off))
  else if type =? RECORD_TYPE_EVENT then
    b ← read_at f lim off sizeof_event;
    '(buf, off) ← read_tail f lim len (off + sizeof_event) sizeof_event;
    if short_tail buf then mret None
    else
      extra ← second_string buf;
      mret (Some (SEvent (s32 (ntohl (field b 0 4))) (first_string buf) extra, off))
  else if type =? RECORD_TYPE_RATE then
    b ← read_at f lim off sizeof_rate;
    '(buf, off) ← read_tail f lim len (off + sizeof_rate) sizeof_rate;
    if short_tail buf then mret None
    else
      mret (Some (SRate (first_string buf) (s32 (ntohl (field b 0 4))) (s32 (ntohl (field b 4 4)))
                    (ntohll (field b 8 8)) (ntohll (field b 16 8)) (field b 24 1), off))
  else mret None.

(** ** The file *)

(** Which system calls succeed. *)
Record sys_ok := mk_sys { open_ok : bool; lseek_ok : bool; ftruncate_ok : bool; mmap_ok : bool; msync_ok : bool }.
Definition all_ok : sys_ok := mk_sys true true true true true.

(** [db_size * 1024 * 1024], an [int]. *)
Definition map_size (db_size : Z) : Z := s32 (db_size * 1024 * 1024).

Definition magic : list byte := str_bytes "BOLO".

Section file.
Context `{Vigor} `{Pcre}.

(** The objects in the order they are written. *)
Definition db_payloads (db : db_t) : list payload :=
  ((λ kv, PState kv.2) <$> for_each (states db)) ++
  ((λ kv, PCounter kv.2) <$> for_each (counters db)) ++
  ((λ kv, PSample kv.2) <$> for_each (samples db)) ++
  (PEvent <$> events db) ++
  ((λ kv, PRate kv.2) <$> for_each (rates db)).

(** [header.count], incremented once per object. *)
Definition header_count (db : db_t) : Z :=
  u32 (Z.of_nat (length (for_each (states db)) + length (for_each (counters db))
                 + length (for_each (samples db)) + length (events db)
                 + length (for_each (rates db)))).

Definition header_bytes (now : Z) (db : db_t) : list byte :=
  magic ++ le_bytes 2 (htons 1) ++ le_bytes 2 0 ++
  le_bytes 4 (htonl (u32 now)) ++ le_bytes 4 (htonl (header_count db)).

Fixpoint write_records (lim : Z) (buf : list byte) (ps : list payload) : res (list byte) :=
  match ps with
  | [] => mret buf
  | p :: ps' => buf ← s_write_record lim buf p; write_records lim buf ps'
  end.

(** The content of the mapping after all the writes. *)
Definition binf_image (lim now : Z) (db : db_t) : res (list byte) :=
  buf ← write_at lim [] (header_bytes now db);
  buf ← write_records lim buf (db_payloads db);
  write_at lim buf [Byte.x00; Byte.x00].

(** The return value, and the file as it is left ([None] when it could not
    be opened; opening truncates it). *)
Definition binf_write (sys : sys_ok) (now : Z) (db : db_t) (db_size : Z)
    : res (Z * option file) :=
  let lim := map_size db_size in
  if negb (open_ok sys) then mret (-1, None)
  else if negb (lseek_ok sys) then mret (-1, Some (mk_file [] 0))
  else if negb (ftruncate_ok sys) then mret (-1, Some (mk_file [] 0))
  else if negb (mmap_ok sys) then mret (-1, Some (mk_file [] lim))
  else
    buf ← binf_image lim now db;
    mret (0, Some (mk_file buf lim)).

(** One record of the file, merged into the database. *)
Definition merge_record (now : Z) (db : db_t) (r : saved) : db_t :=
  match r with
  | SState name summary last_seen status stale ignore =>
      match find_state now db name with
      | (Some x, db) =>
          put_state name (mk_state (state_type x) (state_name x) last_seen (state_expiry x)
                            status summary stale ignore) db
      | (None, db) => db
      end
  | SCounter name last_seen value ignore =>
      match find_counter db name with
      | (Some x, db) =>
          put_counter name (mk_counter (counter_window x) (counter_name x) last_seen value ignore) db
      | (None, db) => db
      end
  | SSample name last_seen n ds ignore =>
      match find_sample db name, ds with
      | (Some x, db), [mn; mx; sum; mean; mean_; var; var_] =>
          put_sample name (mk_sample (sample_window x) (sample_name x) last_seen n
                             mn mx sum mean mean_ var var_ ignore) db
      | (_, db), _ => db
      end
  | SEvent timestamp name extra =>
      set_events (list_push (events db) (mk_event timestamp name extra)) (events_count db) db
  | SRate name first_seen last_seen first last ignore =>
      match find_rate db name with
      | (Some x, db) =>
          put_rate name (mk_rate (rate_window x) (rate_name x) first_seen last_seen
                           first last ignore) db
      | (None, db) => db
      end
  end.

(** The loop over [header.count] records: [inl] when a record cannot be
    read, with the database as it is then. *)
Fixpoint read_records (f : file) (lim now : Z) (count : nat) (off : Z) (db : db_t)
    : res (db_t + db_t * Z) :=
  match count with
  | O => mret (inr (db, off))
  | S c =>
      r ← s_read_record f lim off;
      match r with
      | None => mret (inl db)
      | Some (rec, off) => read_records f lim now c off (merge_record now db rec)
      end
  end.

(** The return value and the database; [f] is [None] when the file cannot be
    opened or mapped. *)
Definition binf_read (now : Z) (db : db_t) (f : option file) (db_size : Z) : res (Z * db_t) :=
  match f with
  | None => mret (-1, db)
  | Some f =>
      let lim := map_size db_size in
      h ← read_at f lim 0 sizeof_header;
      if negb (bool_decide (take 4 h = magic)) then mret (-1, db)
      else if negb (ntohs (field h 4 2) =? 1) then mret (-1, db)
      else
        r ← read_records f lim now (Z.to_nat (ntohl (field h 12 4))) sizeof_header db;
        match r with
        | inl db => mret (-1, db)
        | inr (db, off) =>
            t ← read_at f lim off 2;
            if bool_decide (t = [Byte.x00; Byte.x00]) then mret (0, db) else mret (1, db)
        end
  end.

(** [binf_sync] asks the kernel to flush the mapping; it does not change the
    content. *)
Definition binf_sync (sys : sys_ok) : Z :=
  if negb (open_ok sys) then -1
  else if negb (mmap_ok sys) then -1
  else if negb (msync_ok sys) then -1 else 0.
End file.
