(* ===== verification/BinfFacts.v ===== *)
(** * Theorems on src/binf.c

    The byte order conversions, the size and the round trip of every kind of
    record, the round trip of the whole file, and the inputs on which the
    format loses or refuses what was written. *)

From S2P Require Import Prelude CLib Vigor Bytes Data DataFacts Binf.
From Stdlib Require Import SpecFloat.
From Stdlib Require Strings.Byte.

(** ** 64-bit network order *)

Lemma ntohll_htonll x : ntohll (htonll x) = u64 x.
Proof.
  unfold ntohll, htonll.
  pose proof (htonl_range (u32 x)) as H0. pose proof (htonl_range (u32 (x / 2 ^ 32))) as H1.
  set (a := htonl (u32 (x / 2 ^ 32))) in *. set (b := htonl (u32 x)) in *.
  assert (u32 (a + 2 ^ 32 * b) = a) as -> by cint.
  assert (u32 ((a + 2 ^ 32 * b) / 2 ^ 32) = b) as -> by cint.
  unfold a, b. rewrite !ntohl_htonl. cint.
Qed.

Lemma htonll_range x : is_u64 (htonll x).
Proof.
  unfold htonll. pose proof (htonl_range (u32 x)). pose proof (htonl_range (u32 (x / 2 ^ 32))). cint.
Qed.

(** ** Fields *)

Lemma field_skip n z r k m : field (le_bytes n z ++ r) (n + k) m = field r k m.
Proof.
  unfold field. rewrite drop_app, length_le_bytes.
  rewrite drop_ge by (rewrite length_le_bytes; lia). cbn [app].
  do 3 f_equal. lia.
Qed.

Lemma field_hit n z r : field (le_bytes n z ++ r) 0 n = z mod 2 ^ (8 * Z.of_nat n).
Proof.
  unfold field. rewrite drop_0, take_app_length'; [|by rewrite length_le_bytes].
  apply le_value_bytes.
Qed.

Lemma field_last n z : field (le_bytes n z) 0 n = z mod 2 ^ (8 * Z.of_nat n).
Proof. rewrite <- (app_nil_r (le_bytes n z)). apply field_hit. Qed.

(** Computes the fields of a body built from [le_bytes]. *)
Ltac fields :=
  repeat first
    [ rewrite field_hit | rewrite field_last
    | match goal with
      | |- context [field (le_bytes ?n ?z ++ ?r) ?off ?m] =>
          let k := eval cbv in (off - n)%nat in
          let z0 := eval cbv in (Nat.leb 1 off) in
          match z0 with true =>
            change (field (le_bytes n z ++ r) off m) with (field (le_bytes n z ++ r) (n + k) m);
            rewrite field_skip
          end
      end ].

Lemma u32_field z : is_u32 z → z mod 2 ^ (8 * Z.of_nat 4) = z.
Proof. intros H. by apply u32_id. Qed.
Lemma u16_field z : is_u16 z → z mod 2 ^ (8 * Z.of_nat 2) = z.
Proof. intros H. by apply u16_id. Qed.
Lemma u64_field z : is_u64 z → z mod 2 ^ (8 * Z.of_nat 8) = z.
Proof. intros H. by apply u64_id. Qed.
Lemma u8_field z : is_u8 z → z mod 2 ^ (8 * Z.of_nat 1) = z.
Proof. intros H. by apply u8_id. Qed.

#[export] Hint Resolve htonll_range : cint.
#[export] Hint Rewrite u8_field u16_field u32_field u64_field using (solve [eauto with cint]) : cint_rw.
#[export] Hint Rewrite ntohll_htonll : cint_rw.

(** ** Writing *)

(** The bytes of one record. *)
Definition record_bytes (p : payload) (body : list byte) : list byte :=
  (le_bytes 2 (htons (record_len p)) ++ le_bytes 2 (htons (payload_type p)))
  ++ body ++ concat (cstr_bytes <$> record_strings p).

Definition record_image (p : payload) : res (list byte) :=
  body ← record_body p; mret (record_bytes p body).

Lemma write_strings_Ok lim buf ss buf' :
  Z.of_nat (length buf) ≤ lim →
  write_strings lim buf ss = Ok buf' ↔
  buf' = buf ++ concat (cstr_bytes <$> ss) ∧ Z.of_nat (length buf') ≤ lim.
Proof.
  revert buf. induction ss as [|s ss IH]; intros buf Hb; cbn [write_strings fmap list_fmap concat].
  - rewrite app_nil_r. split; [by intros [= <-]|by intros [-> _]].
  - rewrite bind_Ok. setoid_rewrite write_at_Ok. split.
    + intros (b1 & (-> & Hl) & H2). apply IH in H2 as [-> H2]; [|by rewrite length_app; lia].
      by rewrite <- app_assoc in *.
    + intros (-> & Hl). exists (buf ++ cstr_bytes s). rewrite !length_app in Hl.
      split; [split; [done|lia]|]. apply IH; [rewrite length_app; lia|].
      rewrite <- app_assoc, !length_app. split; [done|lia].
Qed.

Lemma s_write_record_Ok lim buf p buf' :
  s_write_record lim buf p = Ok buf' ↔
  ∃ img, record_image p = Ok img ∧ buf' = buf ++ img ∧ Z.of_nat (length buf') ≤ lim.
Proof.
  unfold s_write_record, record_image. rewrite bind_Ok. setoid_rewrite bind_Ok.
  setoid_rewrite bind_Ok. setoid_rewrite write_at_Ok. split.
  - intros (b0 & (-> & H0) & body & Hbody & b1 & (-> & H1) & H2).
    apply write_strings_Ok in H2 as [-> H2]; [|by rewrite length_app; lia].
    eexists. split; [eauto|]. unfold record_bytes. rewrite <- !app_assoc in *. done.
  - intros (img & (body & Hbody & [= <-]) & -> & Hl). unfold record_bytes in *.
    rewrite !length_app in Hl.
    eexists. split; [split; [done|rewrite length_app; lia]|].
    exists body. split; [done|]. eexists.
    split; [split; [done|rewrite !length_app; lia]|].
    apply write_strings_Ok; [rewrite !length_app; lia|].
    rewrite <- !app_assoc, !length_app. split; [done|lia].
Qed.

(** ** Reading back *)

Definition sample_fields (s : sample_t double) : list double :=
  [sample_min s; sample_max s; sample_sum s; sample_mean s; sample_mean_ s; sample_var s;
   sample_var_ s].

(** What is left of a double: its integer part. *)
Definition d_int (d : double) : double :=
  match d_to_u32 d with Ok z => d_of_Z z | Fault _ => S754_nan end.

(** The part of an object that its record holds. *)
Definition saved_of (p : payload) : saved :=
  match p with
  | PState s => SState (state_name s) (state_summary s) (state_last_seen s) (state_status s)
                  (state_stale s) (state_ignore s)
  | PCounter c => SCounter (counter_name c) (counter_last_seen c) (counter_value c) (counter_ignore c)
  | PSample s => SSample (sample_name s) (sample_last_seen s) (sample_n s)
                   (d_int <$> sample_fields s) (sample_ignore s)
  | PEvent e => SEvent (event_timestamp e) (event_name e) (event_extra e)
  | PRate r => SRate (rate_name r) (rate_first_seen r) (rate_last_seen r) (rate_first r) (rate_last r)
                 (rate_ignore r)
  end.

Definition body_size (p : payload) : Z :=
  match p with
  | PState _ => sizeof_state | PCounter _ => sizeof_counter | PSample _ => sizeof_sample
  | PEvent _ => sizeof_event | PRate _ => sizeof_rate
  end.

(** The size of a record, before [record.len] truncates it. *)
Definition payload_size (p : payload) : Z :=
  sizeof_record + body_size p + foldr (λ s n, strlen s + 1 + n) 0 (record_strings p).

(** The values a C object of each type can have, with the two conditions the
    reader adds: the size fits its field, and a second string is not empty. *)
Definition wf_payload (p : payload) : Prop :=
  payload_size p < 2 ^ 16 ∧ Forall (λ s, no_nul s = true) (record_strings p) ∧
  Forall (λ s, s ≠ "") (drop 1 (record_strings p)) ∧
  match p with
  | PState s => is_s32 (state_last_seen s) ∧ is_u8 (state_status s) ∧ is_u8 (state_stale s)
                ∧ is_u8 (state_ignore s)
  | PCounter c => is_s32 (counter_last_seen c) ∧ is_u64 (counter_value c) ∧ is_u8 (counter_ignore c)
  | PSample s => is_s32 (sample_last_seen s) ∧ is_u64 (sample_n s) ∧ is_u8 (sample_ignore s)
  | PEvent e => is_s32 (event_timestamp e)
  | PRate r => is_s32 (rate_first_seen r) ∧ is_s32 (rate_last_seen r) ∧ is_u64 (rate_first r)
               ∧ is_u64 (rate_last r) ∧ is_u8 (rate_ignore r)
  end.

Lemma length_strings ss :
  Z.of_nat (length (concat (cstr_bytes <$> ss))) = foldr (λ s n, strlen s + 1 + n) 0 ss.
Proof.
  induction ss as [|s ss IH]; [done|]. rewrite fmap_cons. cbn [concat foldr].
  rewrite length_app, Nat2Z.inj_add, length_cstr_bytes. lia.
Qed.

Lemma record_len_id p : payload_size p < 2 ^ 16 → record_len p = payload_size p.
Proof.
  unfold payload_size, record_len, sizeof_record.
  destruct p; cbn -[Z.pow]; unfold sizeof_state, sizeof_counter, sizeof_sample, sizeof_event, sizeof_rate;
    repeat match goal with |- context [strlen ?s] => lazymatch goal with
      | _ : 0 ≤ strlen s |- _ => fail | _ => pose proof (strlen_nonneg s) end end;
    cint.
Qed.

Lemma double_fields_Ok ds l :
  double_fields ds = Ok l →
  ∃ zs, Forall2 (λ d z, d_to_u32 d = Ok z) ds zs ∧
        l = concat ((λ z, le_bytes 8 (bits_of_double (d_of_Z (htonl z)))) <$> zs).
Proof.
  revert l. induction ds as [|d ds IH]; intros l; cbn [double_fields foldr].
  - intros [= <-]. by exists [].
  - unfold double_field. rewrite !bind_Ok.
    intros (x & (z & Hz & [= <-])%bind_Ok & (r & Hr & [= <-])%bind_Ok).
    apply IH in Hr as (zs & Hzs & ->). exists (z :: zs). split; [by constructor|done].
Qed.

Lemma read_doubles_Ok l offs zs :
  Forall2 (λ o z, is_u32 z ∧
    field l o 8 = bits_of_double (d_of_Z (htonl z)) mod 2 ^ (8 * Z.of_nat 8)) offs zs →
  read_doubles l offs = Ok (d_of_Z <$> zs).
Proof.
  induction 1 as [|o z offs zs [Hz Hf] _ IH]; [done|]. cbn [read_doubles foldr].
  unfold read_doubles in IH. rewrite IH. unfold read_double. rewrite Hf.
  change (8 * Z.of_nat 8) with 64. rewrite double_bits_u32, d_to_u32_of_Z by eauto with cint.
  cbn [mbind res_bind mret res_ret]. by rewrite ntohl_htonl, u32_id.
Qed.

Lemma d_int_fields ds zs :
  Forall2 (λ d z, d_to_u32 d = Ok z) ds zs → d_int <$> ds = d_of_Z <$> zs.
Proof. induction 1 as [|d z ds zs Hd _ IH]; [done|]. cbn. unfold d_int at 1. rewrite Hd. by f_equal. Qed.

Lemma body_length p body : record_body p = Ok body → Z.of_nat (length body) = body_size p.
Proof.
  destruct p; cbn [record_body body_size]; try (by intros [= <-]).
  intros (l & Hl & [= <-])%bind_Ok.
  apply double_fields_Ok in Hl as (zs & Hzs & ->).
  do 7 (inversion Hzs as [|? ? ? ? _ Hzs' E1 E2]; subst; clear Hzs; rename Hzs' into Hzs).
  inversion Hzs; subst. done.
Qed.

Lemma record_image_length p img :
  record_image p = Ok img → Z.of_nat (length img) = payload_size p.
Proof.
  intros (body & Hb & [= <-])%bind_Ok. unfold record_bytes, payload_size.
  rewrite !length_app, !Nat2Z.inj_add, !length_le_bytes, (body_length _ _ Hb), length_strings.
  unfold sizeof_record. lia.
Qed.

(** A segment at a position given as a [Z]. *)
Lemma read_at_seg f lim off n pre mid post :
  fdata f = pre ++ mid ++ post → off = Z.of_nat (length pre) → n = Z.of_nat (length mid) →
  off + n ≤ Z.min (fsize f) lim → read_at f lim off n = Ok mid.
Proof. intros Hf -> -> Hl. by eapply read_at_data. Qed.

(** The three parts of a record in the file. *)
Lemma read_parts f lim pre hd body tl post :
  fdata f = pre ++ (hd ++ body ++ tl) ++ post →
  Z.of_nat (length pre + length hd + length body + length tl) ≤ Z.min (fsize f) lim →
  let off := Z.of_nat (length pre) in
  read_at f lim off (Z.of_nat (length hd)) = Ok hd ∧
  read_at f lim (off + Z.of_nat (length hd)) (Z.of_nat (length body)) = Ok body ∧
  read_at f lim (off + Z.of_nat (length hd) + Z.of_nat (length body)) (Z.of_nat (length tl)) = Ok tl.
Proof.
  intros Hf Hl off. unfold off. split_and!.
  - eapply (read_at_seg _ _ _ _ pre hd (body ++ tl ++ post)); [|done|done|lia].
    by rewrite Hf, <- !app_assoc.
  - eapply (read_at_seg _ _ _ _ (pre ++ hd) body (tl ++ post));
      [|rewrite length_app; lia|done|lia].
    by rewrite Hf, <- !app_assoc.
  - eapply (read_at_seg _ _ _ _ (pre ++ hd ++ body) tl post);
      [|rewrite !length_app; lia|done|lia].
    by rewrite Hf, <- !app_assoc.
Qed.

Lemma first_string_cstr s rest : no_nul s = true → first_string (cstr_bytes s ++ rest) = s.
Proof.
  intros Hs. unfold first_string, cstr_bytes. rewrite <- app_assoc. cbn [app].
  rewrite until_nul_str by done. apply bytes_str_bytes.
Qed.

Lemma until_nul_length s rest :
  no_nul s = true → length (until_nul (cstr_bytes s ++ rest)) = String.length s.
Proof.
  intros Hs. unfold cstr_bytes. rewrite <- app_assoc. cbn [app]. rewrite until_nul_str by done.
  pose proof (length_str_bytes s). unfold strlen in *. lia.
Qed.

Lemma second_string_cstr a b rest :
  no_nul a = true → no_nul b = true → second_string (cstr_bytes a ++ cstr_bytes b ++ rest) = Ok b.
Proof.
  intros Ha Hb. unfold second_string. rewrite until_nul_length by done.
  pose proof (length_cstr_bytes a). pose proof (length_cstr_bytes b). unfold strlen in *.
  destruct (Nat.ltb_spec (S (String.length a)) (length (cstr_bytes a ++ cstr_bytes b ++ rest)));
    [|rewrite !length_app in *; lia].
  replace (S (String.length a)) with (length (cstr_bytes a)) by lia.
  rewrite drop_app_length. unfold cstr_bytes at 1. rewrite <- app_assoc. cbn [app].
  by rewrite until_nul_str, bytes_str_bytes.
Qed.

(** The reader's "nothing left" test: it fires exactly when the second
    string is empty. *)
Lemma short_tail_two a b :
  no_nul a = true →
  short_tail (cstr_bytes a ++ cstr_bytes b ++ [Byte.x00]) = bool_decide (b = "").
Proof.
  intros Ha. unfold short_tail. rewrite until_nul_length by done.
  pose proof (length_cstr_bytes a). pose proof (length_cstr_bytes b). unfold strlen in *.
  rewrite !length_app. cbn [length].
  destruct b as [|c b]; cbn [String.length] in *; case_bool_decide; try done.
  - apply Nat.eqb_eq. lia.
  - apply Nat.eqb_neq. lia.
Qed.

Lemma short_tail_one a : no_nul a = true → short_tail (cstr_bytes a ++ [Byte.x00]) = false.
Proof.
  intros Ha. unfold short_tail. rewrite until_nul_length by done.
  pose proof (length_cstr_bytes a). unfold strlen in *. rewrite !length_app. cbn [length].
  apply Nat.eqb_neq. lia.
Qed.

Lemma record_header p rest :
  payload_size p < 2 ^ 16 →
  let hd := le_bytes 2 (htons (record_len p)) ++ le_bytes 2 (htons (payload_type p)) in
  ntohs (field hd 0 2) = payload_size p ∧ ntohs (field hd 2 2) = payload_type p ∧
  length (hd ++ rest) = (4 + length rest)%nat.
Proof.
  intros Hs hd. unfold hd. fields. autorewrite with cint_rw.
  rewrite (record_len_id p) by done.
  assert (0 ≤ payload_size p).
  { unfold payload_size, sizeof_record. pose proof (length_strings (record_strings p)).
    destruct p; cbn [body_size]; unfold sizeof_state, sizeof_counter, sizeof_sample, sizeof_event, sizeof_rate; lia. }
  split_and!; [apply u16_id; unfold is_u16; lia|by destruct p|done].
Qed.

Lemma s32_saved z : is_s32 z → s32 (u32 (u32 z)) = z.
Proof. intros H. rewrite (u32_id (u32 z)) by eauto with cint. rewrite s32_u32. by apply s32_id. Qed.

#[export] Hint Rewrite s32_saved using done : cint_rw.

Lemma sample_body_fields s ds l zs :
  Forall2 (λ d z, d_to_u32 d = Ok z) (sample_fields s) zs →
  ds = concat ((λ z, le_bytes 8 (bits_of_double (d_of_Z (htonl z)))) <$> zs) →
  l = le_bytes 4 (htonl (u32 (sample_last_seen s))) ++ le_bytes 8 (htonll (sample_n s)) ++ ds
      ++ le_bytes 1 (sample_ignore s) →
  read_doubles l [12; 20; 28; 36; 44; 52; 60]%nat = Ok (d_int <$> sample_fields s) ∧
  field l 0 4 = htonl (u32 (sample_last_seen s)) ∧ field l 4 8 = htonll (sample_n s) ∧
  field l 68 1 = u8 (sample_ignore s).
Proof.
  intros Hzs -> ->. rewrite (d_int_fields _ _ Hzs).
  assert (Forall is_u32 zs) as Hu.
  { clear -Hzs. induction Hzs; constructor; eauto using d_to_u32_range. }
  apply Forall2_length in Hzs. cbn [length sample_fields] in Hzs.
  destruct zs as [|a [|b [|c [|d [|e [|g [|h [|? ?]]]]]]]]; try discriminate.
  rewrite !fmap_cons. cbn [fmap list_fmap concat]. rewrite app_nil_r, <- !app_assoc.
  split_and!.
  - apply (read_doubles_Ok _ _ [a; b; c; d; e; g; h]). rewrite !Forall_cons in Hu. destruct_and!.
    repeat (apply Forall2_cons; split; [split; [done|by fields]|]). constructor.
  - fields. by autorewrite with cint_rw.
  - fields. by autorewrite with cint_rw.
  - by fields.
Qed.

Lemma one_string a : concat (cstr_bytes <$> [a]) ++ [Byte.x00] = cstr_bytes a ++ [Byte.x00].
Proof. cbn [fmap list_fmap concat]. by rewrite app_nil_r. Qed.

Lemma two_strings a b :
  concat (cstr_bytes <$> [a; b]) ++ [Byte.x00] = cstr_bytes a ++ cstr_bytes b ++ [Byte.x00].
Proof. cbn [fmap list_fmap concat]. by rewrite app_nil_r, <- app_assoc. Qed.

(** Decides the tests on a record type that is known. *)
Ltac select_type :=
  repeat match goal with
  | |- context [if Z.land ?a RECORD_TYPE_MASK =? ?b then _ else _] =>
      let v := eval vm_compute in (Z.land a RECORD_TYPE_MASK =? b) in
      change (Z.land a RECORD_TYPE_MASK =? b) with v; cbn iota
  end.

(** What the reader sees of a record, whatever its type. *)
Lemma record_parts f lim pre p img post (off := Z.of_nat (length pre)) :
  payload_size p < 2 ^ 16 → record_image p = Ok img → fdata f = pre ++ img ++ post →
  off + Z.of_nat (length img) ≤ Z.min (fsize f) lim →
  ∃ hd body, record_body p = Ok body ∧
    read_at f lim off sizeof_record = Ok hd ∧
    ntohs (field hd 0 2) = payload_size p ∧ ntohs (field hd 2 2) = payload_type p ∧
    read_at f lim (off + sizeof_record) (body_size p) = Ok body ∧
    read_tail f lim (payload_size p) (off + sizeof_record + body_size p) (body_size p) =
      Ok (concat (cstr_bytes <$> record_strings p) ++ [Byte.x00], off + Z.of_nat (length img)).
Proof.
  intros Hsize Himg Hf Hl. pose proof (record_image_length _ _ Himg) as Hlen.
  apply bind_Ok in Himg as (body & Hbody & Himg%ret_Ok). subst img.
  pose proof (body_length _ _ Hbody) as Hbl.
  destruct (record_header p [] Hsize) as (H1 & H2 & H3).
  pose proof (length_strings (record_strings p)) as Htl.
  unfold record_bytes in *. set (hd := le_bytes 2 _ ++ le_bytes 2 _) in *.
  set (tl := concat _) in *. rewrite app_nil_r in H3. cbn [length] in H3.
  destruct (read_parts f lim pre hd body tl post) as (R1 & R2 & R3);
    [done|rewrite !length_app in Hl; lia|].
  rewrite H3 in R1, R2, R3. change (Z.of_nat (4 + 0)) with sizeof_record in *. rewrite Hbl in *.
  exists hd, body. split_and!; try done. unfold read_tail.
  replace (payload_size p - sizeof_record - body_size p) with (Z.of_nat (length tl))
    by (unfold payload_size; lia).
  fold off in R3. rewrite R3. cbn [mbind res_bind mret res_ret]. do 2 f_equal. rewrite Hlen. unfold payload_size. lia.
Qed.

Lemma s_read_record_image f lim pre p img post :
  wf_payload p → record_image p = Ok img → fdata f = pre ++ img ++ post →
  Z.of_nat (length pre) + Z.of_nat (length img) ≤ Z.min (fsize f) lim →
  s_read_record f lim (Z.of_nat (length pre)) =
    Ok (Some (saved_of p, Z.of_nat (length pre) + Z.of_nat (length img))).
Proof.
  intros (Hsize & Hnul & Hne & Hp) Himg Hf Hl.
  destruct (record_parts f lim pre p img post) as (hd & body & Hbody & R1 & H1 & H2 & R2 & R3);
    [done..|].
  unfold s_read_record. rewrite R1. cbn [mbind res_bind]. rewrite H1, H2.
  destruct p as [s|c|s|e|r]; cbn [payload_type body_size record_body record_strings] in *;
    select_type; rewrite R2; cbn [mbind res_bind]; rewrite R3;
    cbn [mbind res_bind mret res_ret]; rewrite ?two_strings, ?one_string;
    rewrite !Forall_cons in Hnul; destruct Hnul as (Ha & Hnul).
  - destruct Hnul as [Hb _]. apply Forall_cons in Hne as [Hne _].
    rewrite short_tail_two, second_string_cstr, first_string_cstr, bool_decide_false by done.
    apply ret_Ok in Hbody as <-. destruct Hp as (? & ? & ? & ?).
    cbn [mbind res_bind mret res_ret saved_of]. fields. by autorewrite with cint_rw.
  - rewrite first_string_cstr by done. apply ret_Ok in Hbody as <-. destruct Hp as (? & ? & ?).
    fields. by autorewrite with cint_rw.
  - rewrite first_string_cstr by done. apply bind_Ok in Hbody as (ds & Hds & Hbody%ret_Ok).
    apply double_fields_Ok in Hds as (zs & Hzs & Hds).
    destruct (sample_body_fields s ds body zs Hzs Hds (eq_sym Hbody)) as (-> & -> & -> & ->).
    destruct Hp as (? & ? & ?). cbn [mbind res_bind saved_of]. by autorewrite with cint_rw.
  - destruct Hnul as [Hb _]. apply Forall_cons in Hne as [Hne _].
    rewrite short_tail_two, second_string_cstr, first_string_cstr, bool_decide_false by done.
    apply ret_Ok in Hbody as <-. cbn [mbind res_bind mret res_ret saved_of]. fields.
    by autorewrite with cint_rw.
  - rewrite short_tail_one, first_string_cstr by done. apply ret_Ok in Hbody as <-.
    destruct Hp as (? & ? & ? & ? & ?). fields. by autorewrite with cint_rw.
Qed.

(** A record that [s_write_record] wrote is read back by [s_read_record]
    at the same offset, as the same object, and the reader then stands
    where the writer stopped; whatever precedes and follows it in the file.
    The doubles of a sample come back as their integer parts. *)
Theorem record_roundtrip lim buf p buf' f post :
  wf_payload p → s_write_record lim buf p = Ok buf' →
  fdata f = buf' ++ post → Z.of_nat (length buf') ≤ fsize f →
  s_read_record f lim (Z.of_nat (length buf)) = Ok (Some (saved_of p, Z.of_nat (length buf'))).
Proof.
  intros Hp (img & Himg & -> & Hl)%s_write_record_Ok Hf Hs.
  rewrite length_app in *. rewrite <- app_assoc in Hf. rewrite Nat2Z.inj_add in *.
  apply s_read_record_image with (post := post); [done..|lia].
Qed.

Module BinfExample.
Definition ev : event_t := mk_event 1417386000 "deploy" "v1.2".
Definition buf : list byte := [Byte.x42].
Definition buf' : list byte :=
  match s_write_record 100 buf (PEvent ev) with Ok b => b | Fault _ => [] end.
End BinfExample.

Lemma record_roundtrip_witness :
  s_read_record (mk_file (BinfExample.buf' ++ [Byte.x00]) 4096) 100 1
  = Ok (Some (SEvent 1417386000 "deploy" "v1.2", 21)).
Proof.
  apply (record_roundtrip 100 BinfExample.buf (PEvent BinfExample.ev) BinfExample.buf'
           (mk_file (BinfExample.buf' ++ [Byte.x00]) 4096) [Byte.x00]).
  - split_and!; [vm_compute; done|repeat constructor|repeat constructor; done|vm_compute; split; done].
  - reflexivity.
  - reflexivity.
  - vm_compute. done.
Defined.

(** The fields of a sample are converted to unsigned 32-bit integers on
    the way to the file, so a sample of the single value 2.5 is read back
    with the minimum, the maximum, the sum and the mean 2. *)
Theorem sample_record_truncates :
  let s := (sample_data (new_sample "cpu" (mk_window None 60)) (strtod "2.5").1).2 in
  ∃ buf, s_write_record 4096 [] (PSample s) = Ok buf ∧
         s_read_record (mk_file buf 4096) 4096 0 =
           Ok (Some (SSample "cpu" 0 1 (d_of_Z <$> [2; 2; 2; 2; 0; 0; 0]) 0, 77)) ∧
         sample_mean s = (strtod "2.5").1.
Proof. eexists. split_and!; [vm_compute; reflexivity|vm_compute; reflexivity|reflexivity]. Qed.

(** A state or an event whose summary or description is the empty string
    is written, but the reader takes it for a truncated record and gives up;
    [binf_read] then fails, and ignores every record after it. *)
Theorem empty_second_string_unreadable lim buf buf' f post p name :
  record_strings p = [name; ""] → no_nul name = true → strlen name < 2 ^ 16 - 16 →
  s_write_record lim buf p = Ok buf' →
  fdata f = buf' ++ post → Z.of_nat (length buf') ≤ fsize f →
  s_read_record f lim (Z.of_nat (length buf)) = Ok None.
Proof.
  intros Hstr Hnul Hlen (img & Himg & -> & Hl)%s_write_record_Ok Hf Hs.
  rewrite length_app in Hl, Hs. rewrite <- app_assoc in Hf.
  assert (payload_size p < 2 ^ 16) as Hsize.
  { unfold payload_size, sizeof_record. rewrite Hstr. cbn [foldr].
    change (strlen EmptyString) with 0.
    destruct p; try discriminate Hstr; cbn [body_size]; unfold sizeof_state, sizeof_event; lia. }
  destruct (record_parts f lim buf p img post) as (hd & body & _ & R1 & H1 & H2 & R2 & R3);
    [done..|lia|].
  unfold s_read_record. rewrite R1. cbn [mbind res_bind]. rewrite H1, H2.
  rewrite Hstr, two_strings in R3.
  destruct p; try discriminate Hstr; cbn [payload_type body_size] in *;
    select_type; rewrite R2; cbn [mbind res_bind]; rewrite R3; cbn [mbind res_bind];
    by rewrite short_tail_two, bool_decide_true.
Qed.

Lemma empty_second_string_unreadable_witness :
  ∃ b, s_write_record 100 [] (PEvent (mk_event 5 "reboot" EmptyString)) = Ok b ∧
       s_read_record (mk_file b 4096) 100 0 = Ok None.
Proof.
  destruct (s_write_record 100 [] (PEvent (mk_event 5 "reboot" EmptyString))) as [b|] eqn:E;
    [|discriminate].
  exists b. split; [done|].
  apply (empty_second_string_unreadable 100 [] b (mk_file b 4096) [] (PEvent (mk_event 5 "reboot" EmptyString))
           "reboot"); [done|done|done|done|by rewrite app_nil_r|].
  injection E as <-. done.
Defined.

(** ** The whole file *)

Section file.
Context `{VL : VigorLaws} `{Pcre}.

Lemma write_records_Ok lim buf ps buf' :
  Z.of_nat (length buf) ≤ lim →
  write_records lim buf ps = Ok buf' →
  ∃ imgs, Forall2 (λ p i, record_image p = Ok i) ps imgs ∧ buf' = buf ++ concat imgs
          ∧ Z.of_nat (length buf') ≤ lim.
Proof.
  revert buf. induction ps as [|p ps IH]; intros buf Hb; cbn [write_records].
  - intros <-%ret_Ok. exists []. cbn. by rewrite app_nil_r.
  - rewrite bind_Ok. intros (b & (img & Hi & -> & Hl)%s_write_record_Ok & Hw).
    apply IH in Hw as (imgs & Hf & -> & Hl'); [|done].
    exists (img :: imgs). cbn. rewrite <- app_assoc in *. auto.
Qed.

Lemma read_records_image f lim now ps imgs pre post db :
  Forall wf_payload ps → Forall2 (λ p i, record_image p = Ok i) ps imgs →
  fdata f = pre ++ concat imgs ++ post →
  Z.of_nat (length pre) + Z.of_nat (length (concat imgs)) ≤ Z.min (fsize f) lim →
  read_records f lim now (length ps) (Z.of_nat (length pre)) db =
    Ok (inr (foldl (merge_record now) db (saved_of <$> ps),
             Z.of_nat (length pre) + Z.of_nat (length (concat imgs)))).
Proof.
  intros Hwf Hi. revert pre db Hwf.
  induction Hi as [|p i ps imgs Hp _ IH]; intros pre db Hwf Hf Hl.
  - cbn. by rewrite Z.add_0_r.
  - apply Forall_cons in Hwf as [Hwp Hwf]. cbn [concat] in *. rewrite length_app in *.
    cbn [length read_records].
    rewrite (s_read_record_image f lim pre p i (concat imgs ++ post) Hwp Hp);
      [|by rewrite Hf, <- !app_assoc|lia].
    cbn [mbind res_bind]. rewrite <- Nat2Z.inj_add, <- length_app.
    rewrite IH; [|done|by rewrite Hf, <- !app_assoc|rewrite length_app; lia].
    rewrite fmap_cons. cbn [foldl]. rewrite length_app. do 3 f_equal. lia.
Qed.

Lemma header_fields now db :
  let h := header_bytes now db in
  length h = 16%nat ∧ take 4 h = magic ∧ ntohs (field h 4 2) = 1 ∧
  ntohl (field h 12 4) = header_count db.
Proof.
  intros h. unfold h, header_bytes. split_and!; [done|done| |].
  - change magic with (le_bytes 4 (le_value magic)). fields. by autorewrite with cint_rw.
  - change magic with (le_bytes 4 (le_value magic)). fields. by autorewrite with cint_rw.
Qed.

Lemma length_db_payloads db :
  header_count db = u32 (Z.of_nat (length (db_payloads db))).
Proof.
  unfold header_count, db_payloads. rewrite !length_app, !length_fmap. do 2 f_equal. lia.
Qed.

(** The reader replays, on its own database, exactly the objects that were
    written. *)
Lemma binf_read_write now now' db db0 size f :
  Forall wf_payload (db_payloads db) → Z.of_nat (length (db_payloads db)) < 2 ^ 32 →
  binf_write all_ok now db size = Ok (0, Some f) →
  binf_read now' db0 (Some f) size =
    Ok (0, foldl (merge_record now') db0 (saved_of <$> db_payloads db)).
Proof.
  intros Hwf Hn. unfold binf_write. cbn [negb open_ok lseek_ok ftruncate_ok mmap_ok all_ok].
  intros (img & Himg & Hf%ret_Ok)%bind_Ok. injection Hf as <-.
  apply bind_Ok in Himg as (b0 & (-> & Hl0)%write_at_Ok & Himg).
  apply bind_Ok in Himg as (b1 & Hw & (-> & Hl1)%write_at_Ok).
  rewrite app_nil_l in *. cbn [length] in Hl0, Hl1.
  destruct (header_fields now db) as (Hh & Hm & Hv & Hc).
  apply write_records_Ok in Hw as (imgs & Hi & -> & Hl); [|lia].
  set (h := header_bytes now db) in *. rewrite length_app in Hl1, Hl.
  unfold binf_read. set (f := mk_file _ _).
  assert (fdata f = [] ++ h ++ concat imgs ++ [Byte.x00; Byte.x00]) as Hf
    by (unfold f; cbn [fdata]; by rewrite <- app_assoc).
  rewrite (read_at_seg f _ 0 sizeof_header [] h _ Hf); [|done|by rewrite Hh|cbn; unfold sizeof_header; lia].
  cbn [mbind res_bind]. rewrite Hm, bool_decide_true, Hv by done. cbn [negb Z.eqb Pos.eqb].
  rewrite Hc, length_db_payloads, u32_id, Nat2Z.id by (unfold is_u32; lia).
  change sizeof_header with 16. replace 16 with (Z.of_nat (length h)) by lia.
  rewrite (read_records_image f _ now' _ imgs h [Byte.x00; Byte.x00] db0 Hwf Hi);
    [|by rewrite Hf|cbn [fsize f]; lia].
  cbn [mbind res_bind].
  rewrite (read_at_seg f _ _ 2 (h ++ concat imgs) [Byte.x00; Byte.x00] []);
    [|by rewrite Hf, app_nil_r, <- app_assoc|rewrite length_app; lia|done|cbn [fsize f]; lia].
  cbn [mbind res_bind]. by rewrite bool_decide_true.
Qed.

(** *** Restoring one table *)

(** One record of a table: find or make the entry, then overwrite its saved
    fields. *)
Definition restore_step {A T} (rules : list (rule T)) (mk : string → T → A) (upd : A → A → A)
    (m : gmap string A) (kv : string * A) : gmap string A :=
  match find_in m rules (mk kv.1) kv.1 with
  | (Some x, m') => <[kv.1 := upd x kv.2]> m'
  | (None, m') => m'
  end.

Lemma restore_step_ne {A T} (rules : list (rule T)) (mk : string → T → A) upd m k v k' :
  k' ≠ k → restore_step rules mk upd m (k, v) !! k' = m !! k'.
Proof.
  intros Hne. unfold restore_step. cbn [fst snd].
  destruct (find_in m rules (mk k) k) as [r m'] eqn:E.
  apply find_in_contract in E as (_ & Hm & _).
  destruct r; [rewrite lookup_insert_ne by done|]; by apply Hm.
Qed.

(** When every key is new and is matched by a rule, the table is rebuilt. *)
Lemma restore_table {A T} (rules : list (rule T)) (mk : string → T → A) upd (g : A → A) l m :
  NoDup l.*1 → (∀ k v, (k, v) ∈ l → m !! k = None ∧
     ∃ re, first_match rules k = Some re ∧ upd (mk k (rule_target re)) v = g v) →
  foldl (restore_step rules mk upd) m l = (g <$> list_to_map l) ∪ m.
Proof.
  revert m. induction l as [|[k v] l IH]; intros m Hnd Hl; cbn [foldl].
  - cbn. by rewrite fmap_empty, map_empty_union.
  - rewrite fmap_cons in Hnd. apply NoDup_cons in Hnd as [Hk Hnd]. cbn in Hk.
    destruct (Hl k v) as (Hm & re & Hre & Hg); [left|].
    rewrite IH; [|done|].
    + cbn [list_to_map foldr]. rewrite fmap_insert, <- insert_union_l.
      rewrite insert_union_r by (rewrite lookup_fmap, not_elem_of_list_to_map_1; done).
      f_equal. unfold restore_step, find_in. cbn [fst snd]. rewrite Hm, Hre, Hg.
      by rewrite insert_insert_eq.
    + intros k' v' Hin. destruct (Hl k' v') as (Hm' & ?); [by right|]. split; [|done].
      rewrite restore_step_ne; [done|]. intros ->. apply Hk, list_elem_of_fmap. by exists (k, v').
Qed.
(** Replaying the records of one table changes that table only. *)
Lemma merge_section {A T} now (rec : string * A → saved) (rules_of : db_t → list (rule T))
    (mk : string → T → A) upd (sel : db_t → gmap string A) (set : gmap string A → db_t → db_t) l db :
  (∀ d, set (sel d) d = d) → (∀ m d, sel (set m d) = m) →
  (∀ m m' d, set m (set m' d) = set m d) → (∀ m d, rules_of (set m d) = rules_of d) →
  (∀ d kv, kv ∈ l → merge_record now d (rec kv) =
                    set (restore_step (rules_of d) mk upd (sel d) kv) d) →
  foldl (merge_record now) db (rec <$> l) =
  set (foldl (restore_step (rules_of db) mk upd) (sel db) l) db.
Proof.
  intros Hid Hsel Hset Hrules. revert db. induction l as [|kv l IH]; intros db Hl; [by cbn|].
  rewrite fmap_cons. cbn [foldl]. rewrite Hl by left.
  rewrite IH by (intros; apply Hl; by right). by rewrite Hset, Hsel, Hrules.
Qed.

Definition upd_state (x s : state_t) : state_t :=
  mk_state (state_type x) (state_name x) (state_last_seen s) (state_expiry x) (state_status s)
    (state_summary s) (state_stale s) (state_ignore s).
Definition upd_counter (x c : counter_t) : counter_t :=
  mk_counter (counter_window x) (counter_name x) (counter_last_seen c) (counter_value c)
    (counter_ignore c).
Definition upd_sample (x s : sample_t double) : sample_t double :=
  mk_sample (sample_window x) (sample_name x) (sample_last_seen s) (sample_n s)
    (d_int (sample_min s)) (d_int (sample_max s)) (d_int (sample_sum s)) (d_int (sample_mean s))
    (d_int (sample_mean_ s)) (d_int (sample_var s)) (d_int (sample_var_ s)) (sample_ignore s).
Definition upd_rate (x r : rate_t) : rate_t :=
  mk_rate (rate_window x) (rate_name x) (rate_first_seen r) (rate_last_seen r) (rate_first r)
    (rate_last r) (rate_ignore r).

Ltac merge_one find_in_lemma :=
  unfold merge_record, saved_of, restore_step; cbn [fst snd]; rewrite find_in_lemma;
  destruct (find_in _ _ _ _) as [[?|] ?]; done.

Lemma merge_states now db l :
  Forall (λ kv, state_name kv.2 = kv.1) l →
  foldl (merge_record now) db ((λ kv, saved_of (PState kv.2)) <$> l) =
  set_states (foldl (restore_step (state_matches db) (new_state now) upd_state) (states db) l) db.
Proof.
  intros Hl. apply (merge_section now (λ kv, saved_of (PState kv.2)) state_matches); try done;
    [apply set_states_id|].
  intros d [k s] Hin. rewrite Forall_forall in Hl. specialize (Hl _ Hin). cbn in Hl. subst k.
  merge_one find_state_in.
Qed.

Lemma merge_counters now db l :
  Forall (λ kv, counter_name kv.2 = kv.1) l →
  foldl (merge_record now) db ((λ kv, saved_of (PCounter kv.2)) <$> l) =
  set_counters (foldl (restore_step (counter_matches db) new_counter upd_counter) (counters db) l) db.
Proof.
  intros Hl. apply (merge_section now (λ kv, saved_of (PCounter kv.2)) counter_matches); try done;
    [apply set_counters_id|].
  intros d [k s] Hin. rewrite Forall_forall in Hl. specialize (Hl _ Hin). cbn in Hl. subst k.
  merge_one find_counter_in.
Qed.

Lemma merge_samples now db l :
  Forall (λ kv, sample_name kv.2 = kv.1) l →
  foldl (merge_record now) db ((λ kv, saved_of (PSample kv.2)) <$> l) =
  set_samples (foldl (restore_step (sample_matches db) new_sample upd_sample) (samples db) l) db.
Proof.
  intros Hl. apply (merge_section now (λ kv, saved_of (PSample kv.2)) sample_matches); try done;
    [apply set_samples_id|].
  intros d [k s] Hin. rewrite Forall_forall in Hl. specialize (Hl _ Hin). cbn in Hl. subst k.
  merge_one find_sample_in.
Qed.

Lemma merge_rates now db l :
  Forall (λ kv, rate_name kv.2 = kv.1) l →
  foldl (merge_record now) db ((λ kv, saved_of (PRate kv.2)) <$> l) =
  set_rates (foldl (restore_step (rate_matches db) new_rate upd_rate) (rates db) l) db.
Proof.
  intros Hl. apply (merge_section now (λ kv, saved_of (PRate kv.2)) rate_matches); try done;
    [apply set_rates_id|].
  intros d [k s] Hin. rewrite Forall_forall in Hl. specialize (Hl _ Hin). cbn in Hl. subst k.
  merge_one find_rate_in.
Qed.

Lemma merge_events now db l :
  foldl (merge_record now) db ((λ e, saved_of (PEvent e)) <$> l) =
  set_events (events db ++ l) (events_count db) db.
Proof using VL.
  revert db. induction l as [|e l IH]; intros db; [cbn; rewrite app_nil_r; by destruct db|].
  rewrite fmap_cons. cbn [foldl]. rewrite IH. cbn. rewrite list_push_app, <- app_assoc.
  by destruct e.
Qed.
(** The entries of a table that a fresh start can make again: each is stored
    under its name, and the first rule that matches the name has its type
    or window. *)
Definition restorable {A T} (name_of : A → string) (target_of : A → T) (rules : list (rule T))
    (m : gmap string A) : Prop :=
  map_Forall (λ k v, name_of v = k ∧
    ∃ re, first_match rules k = Some re ∧ rule_target re = target_of v) m.

Lemma restore_all {A T} (name_of : A → string) (target_of : A → T) rules mk upd (g : A → A) m :
  restorable name_of target_of rules m →
  (∀ k v t, name_of v = k → t = target_of v → upd (mk k t) v = g v) →
  foldl (restore_step rules mk upd) ∅ (for_each m) = g <$> m.
Proof using VL.
  intros Hm Hg. rewrite (restore_table rules mk upd g).
  - rewrite map_union_empty. f_equal. rewrite (list_to_map_proper _ (map_to_list m)).
    + apply list_to_map_to_list.
    + apply for_each_NoDup.
    + apply for_each_perm.
  - apply for_each_NoDup.
  - intros k v Hin%elem_of_for_each. split; [apply lookup_empty|].
    destruct (Hm k v Hin) as (Hk & re & Hre & Ht). eauto.
Qed.

Lemma restorable_names {A T} (name_of : A → string) (target_of : A → T) rules m :
  restorable name_of target_of rules m → Forall (λ kv, name_of kv.2 = kv.1) (for_each m).
Proof using VL.
  intros Hm. apply Forall_forall. intros [k v] Hin%elem_of_for_each. by apply (Hm k v Hin).
Qed.

(** A state after the restart: its deadline starts afresh. *)
Definition restored_state (now : Z) (s : state_t) : state_t :=
  mk_state (state_type s) (state_name s) (state_last_seen s)
    (s32 (type_freshness (state_type s) + now)) (state_status s) (state_summary s)
    (state_stale s) (state_ignore s).

(** A sample after the restart: integers are left of its statistics. *)
Definition truncated_sample (s : sample_t double) : sample_t double := upd_sample s s.

Record fresh_start (db db0 : db_t) : Prop := {
  fs_states : states db0 = ∅; fs_counters : counters db0 = ∅; fs_samples : samples db0 = ∅;
  fs_rates : rates db0 = ∅; fs_events : events db0 = [];
  fs_state_rules : restorable state_name state_type (state_matches db0) (states db);
  fs_counter_rules : restorable counter_name counter_window (counter_matches db0) (counters db);
  fs_sample_rules : restorable sample_name sample_window (sample_matches db0) (samples db);
  fs_rate_rules : restorable rate_name rate_window (rate_matches db0) (rates db);
}.

(** C8: the save file restores the database.  When the server is started
    again with the rules that made its entries and reads the file
    [binf_write] left, the counters, the rates and the events are exactly
    what they were, the states differ only in their deadline, which starts
    afresh, and the samples keep the integer parts of their statistics; but
    [events_count] is not set. *)
Theorem binf_roundtrip now now' db db0 size f :
  Forall wf_payload (db_payloads db) → Z.of_nat (length (db_payloads db)) < 2 ^ 32 →
  fresh_start db db0 →
  binf_write all_ok now db size = Ok (0, Some f) →
  ∃ db1, binf_read now' db0 (Some f) size = Ok (0, db1) ∧
    counters db1 = counters db ∧ rates db1 = rates db ∧ events db1 = events db ∧
    states db1 = restored_state now' <$> states db ∧
    samples db1 = truncated_sample <$> samples db ∧
    events_count db1 = events_count db0.
Proof using VL.
  intros Hwf Hn [E1 E2 E3 E4 E5 R1 R2 R3 R4] Hw.
  rewrite (binf_read_write now now' db db0 size f Hwf Hn Hw). eexists. split; [done|].
  unfold db_payloads. rewrite !fmap_app, !foldl_app, <- !list_fmap_compose.
  unfold compose. rewrite merge_states by (by eapply restorable_names).
  rewrite merge_counters by (by eapply restorable_names).
  rewrite merge_samples by (by eapply restorable_names). rewrite merge_events.
  rewrite merge_rates by (by eapply restorable_names). cbn.
  rewrite E1, E2, E3, E4, E5. split_and!; [| |done| | |done].
  - rewrite (restore_all _ _ _ _ _ id _ R2); [by rewrite map_fmap_id|].
    intros k [] t <- ->. done.
  - rewrite (restore_all _ _ _ _ _ id _ R4); [by rewrite map_fmap_id|].
    intros k [] t <- ->. done.
  - apply (restore_all _ _ _ _ _ _ _ R1). intros k [] t <- ->. done.
  - apply (restore_all _ _ _ _ _ _ _ R3). intros k [] t <- ->. done.
Qed.

(** A file that does not begin with the magic number, or whose version
    is not 1, is refused and the database is left as it was. *)
Theorem binf_read_rejects now db f size h :
  read_at f (map_size size) 0 sizeof_header = Ok h →
  take 4 h ≠ magic ∨ ntohs (field h 4 2) ≠ 1 →
  binf_read now db (Some f) size = Ok (-1, db).
Proof.
  intros Hh Hbad. unfold binf_read. rewrite Hh. cbn [mbind res_bind].
  case_bool_decide; cbn [negb]; [|done]. destruct Hbad as [|Hv]; [done|].
  by apply Z.eqb_neq in Hv as ->.
Qed.
End file.

Module BinfFile.
Definition db : @db_t ref_pcre :=
  let d := Example1.db in
  let d := put_state (H := ref_pcre) "host.cpu"
             (mk_state Example1.local "host.cpu" 990 1290 WARNING "load is 7" 0 0) d in
  let d := put_counter (H := ref_pcre) "host.logins" (mk_counter Example1.minute "host.logins" 991 42 0) d in
  let d := put_sample (H := ref_pcre) "host.mem"
             ((sample_data (new_sample "host.mem" Example1.minute) (strtod "2.5").1).2) d in
  let d := put_rate (H := ref_pcre) "host.net" (mk_rate Example1.minute "host.net" 980 990 7 9000 0) d in
  set_events (H := ref_pcre) [mk_event 900 "deploy" "v1.2"] 1 d.
Definition saved_file : file :=
  match binf_write (H := ref_vigor) (H0 := ref_pcre) all_ok 1000 db 1 with
  | Ok (_, Some f) => f | _ => mk_file [] 0
  end.
End BinfFile.

Lemma binf_fresh : fresh_start (H := ref_pcre) BinfFile.db Example1.db.
Proof.
  split; try reflexivity; apply map_Forall_to_list; vm_compute map_to_list;
    (apply Forall_cons; split; [|by apply Forall_nil]);
    (split; [reflexivity|eexists; split; reflexivity]).
Qed.

Lemma binf_payloads_wf :
  Forall wf_payload (db_payloads (H := ref_vigor) (H0 := ref_pcre) BinfFile.db).
Proof.
  apply Forall_forall. intros p Hp. vm_compute in Hp.
  repeat (apply elem_of_cons in Hp as [->|Hp];
    [split_and!; [vm_compute; done|repeat constructor|repeat constructor; done|vm_compute; done..]|]).
  by apply elem_of_nil in Hp.
Qed.

Lemma binf_roundtrip_witness :
  ∃ db1, binf_read (H := ref_vigor) (H0 := ref_pcre) 2000 Example1.db (Some BinfFile.saved_file) 1
         = Ok (0, db1) ∧ counters db1 = counters BinfFile.db.
Proof.
  destruct (binf_roundtrip (VL := ref_vigor_laws) (H := ref_pcre) 1000 2000 BinfFile.db Example1.db 1
              BinfFile.saved_file) as (db1 & H1 & H2 & _).
  - apply binf_payloads_wf.
  - vm_compute. done.
  - apply binf_fresh.
  - vm_compute. reflexivity.
  - eauto.
Defined.

Lemma binf_read_rejects_witness :
  binf_read (H := ref_vigor) (H0 := ref_pcre) 2000 Example1.db
    (Some (mk_file (str_bytes "BOLO" ++ le_bytes 2 (htons 2)) 1048576)) 1 = Ok (-1, Example1.db).
Proof.
  apply (binf_read_rejects (V := ref_vigor) (H := ref_pcre) 2000 Example1.db
    (mk_file (str_bytes "BOLO" ++ le_bytes 2 (htons 2)) 1048576) 1
    (str_bytes "BOLO" ++ le_bytes 2 (htons 2) ++ replicate 10 Byte.x00)).
  - vm_compute. reflexivity.
  - right. vm_compute. discriminate.
Defined.
