(* ===== verification/Core.v ===== *)
(** * The aggregator: src/core.c

    The kernel thread's state and its reactor: the broadcasts, the key and
    event stores, freshness checking, and one handler per PDU of the
    listener and management sockets, composed by [_kernel_reactor] as the
    program composes them.  A handler runs in [K]: it updates the kernel,
    emits what it passes to [pdu_send_and_free] and the files it writes, and
    may fault.  The clock does not advance while a handler runs. *)

From S2P Require Import Prelude CLib Vigor Bytes Data Binf.
From Stdlib Require Import Ascii.

(** ** The kernel *)

Inductive socket := Control | Tock | Listener | Broadcast | Management | Beacon.

#[export] Instance socket_eq_dec : EqDecision socket.
Proof. solve_decision. Defined.

Inductive reaction := Continue | Halt.

(** What a handler hands to the outside. *)
Inductive output `{Vigor} :=
| Send (s : socket) (p : pdu_t)
| SaveDb (path : option string) (rc : Z) (f : option file)
| SyncDb (path : option string) (rc : Z)
| SaveKeys (path : option string) (text : string).

(** The clock and the outcome of the system calls, for one reaction. *)
Record env := mk_env {
  time_s : Z;                     (* int32_t *)
  time_ms : Z;
  env_sys : sys_ok;
  keysfile_ok : bool;             (* fopen of the keys file *)
  tmpfile_ok : bool;
  dump_ok : bool;                 (* mmap of the temporary file *)
  env_errno : string;             (* strerror(errno) *)
}.

Record timer := mk_timer { timer_last : Z; timer_interval : Z }.   (* int32_t, int16_t *)

Record kernel_t `{Pcre} := mk_kernel {
  k_server : server_t;
  k_beacon : bool;                (* whether the beacon socket is bound *)
  k_freshness : timer;
  k_savestate : timer;
  k_tick : timer;
  k_sweep : timer;
}.

Section core.
Context `{Vigor} `{Pcre}.

Abbreviation K := (M kernel_t output).

Definition k_db (k : kernel_t) : db_t := srv_db (k_server k).
Definition k_keys (k : kernel_t) : gmap string (option string) := srv_keys (k_server k).
Definition k_config (k : kernel_t) : config_t := srv_config (k_server k).

Definition set_server (s : server_t) (k : kernel_t) : kernel_t :=
  mk_kernel _ s (k_beacon k) (k_freshness k) (k_savestate k) (k_tick k) (k_sweep k).
Definition set_db (d : db_t) (k : kernel_t) : kernel_t :=
  set_server (mk_server _ d (k_keys k) (k_config k) (srv_interval (k_server k))) k.
Definition set_keys (m : gmap string (option string)) (k : kernel_t) : kernel_t :=
  set_server (mk_server _ (k_db k) m (k_config k) (srv_interval (k_server k))) k.
Definition set_tick (t : timer) (k : kernel_t) : kernel_t :=
  mk_kernel _ (k_server k) (k_beacon k) (k_freshness k) (k_savestate k) t (k_sweep k).
Definition set_sweep (t : timer) (k : kernel_t) : kernel_t :=
  mk_kernel _ (k_server k) (k_beacon k) (k_freshness k) (k_savestate k) (k_tick k) t.
Definition set_freshness (t : timer) (k : kernel_t) : kernel_t :=
  mk_kernel _ (k_server k) (k_beacon k) t (k_savestate k) (k_tick k) (k_sweep k).
Definition set_savestate (t : timer) (k : kernel_t) : kernel_t :=
  mk_kernel _ (k_server k) (k_beacon k) (k_freshness k) t (k_tick k) (k_sweep k).

Definition modify_db (f : db_t → db_t) : K () := modify (λ k, set_db (f (k_db k)) k).
Definition get_db : K db_t := k ← get; mret (k_db k).
Definition send (s : socket) (p : pdu_t) : K () := emit (Send s p).

(** ** Windows *)

(** [t % w] on [int]: undefined for a zero divisor, and for the one quotient
    that does not fit. *)
Definition c_rem (t w : Z) : res Z :=
  if (w =? 0) || ((w =? -1) && (t =? - 2 ^ 31)) then Fault DivByZero else Ok (Z.rem t w).

(** [winstart(x, t)] with [t] an [int32_t] *)
Definition winstart (w : window_t) (t : Z) : res Z :=
  r ← c_rem t (window_time w); mret (s32 (t - r)).

(** [winstart(x, t)] with [t] a [uint32_t]: the arithmetic is unsigned *)
Definition winstart_u (w : window_t) (t : Z) : res Z :=
  let d := u32 (window_time w) in
  if d =? 0 then Fault DivByZero else Ok (u32 (t - t mod d)).

Definition winend (w : window_t) (t : Z) : res Z :=
  s ← winstart w t; mret (s32 (s + window_time w)).

(** The test for window closure of the three aggregates; the comparison of
    an [int32_t] with a [uint32_t] is unsigned. *)
Definition rollover (w : window_t) (last_seen ts : Z) : res bool :=
  if (0 <? last_seen) && negb (u32 last_seen =? ts) then
    a ← winstart w last_seen;
    b ← winstart_u w ts;
    mret (negb (u32 a =? b))
  else mret false.

Definition payload_is (payload type : Z) : bool := 0 <? Z.land payload type.

(** ** Broadcasts *)

Definition statstr (s : Z) : string :=
  match (if 3 <? s then 3 else s) with
  | 0 => "OK" | 1 => "WARNING" | 2 => "CRITICAL" | _ => "UNKNOWN"
  end.

Definition stale_str (s : state_t) : string :=
  if negb (state_stale s =? 0) then "stale" else "fresh".

(** The frames that follow the name in the STATE and TRANSITION PDUs. *)
Definition state_frames (s : state_t) : list string :=
  [fmt_i (state_last_seen s); stale_str s; statstr (state_status s); state_summary s].

Definition broadcast_state (s : state_t) : K () :=
  send Broadcast (pdu_extend_all (pdu_make "STATE" [state_name s]) (state_frames s)).

Definition broadcast_transition (s : state_t) : K () :=
  send Broadcast (pdu_extend_all (pdu_make "TRANSITION" [state_name s]) (state_frames s)).

(** The body of the loop: the PDU under construction and its pairs so far. *)
Definition setkeys_step (acc : pdu_t * Z) (kv : string * option string) : K (pdu_t * Z) :=
  match kv.2 with
  | None => mret acc
  | Some value =>
      let pdu := pdu_extend (pdu_extend acc.1 kv.1) value in
      let n := acc.2 + 1 in
      if n =? 30 then
        send Broadcast pdu ≫= λ _, mret (pdu_make "SET.KEYS" [], 0)
      else mret (pdu, n)
  end.

Fixpoint setkeys_loop (acc : pdu_t * Z) (l : list (string * option string)) : K (pdu_t * Z) :=
  match l with
  | [] => mret acc
  | kv :: l' => acc ← setkeys_step acc kv; setkeys_loop acc l'
  end.

Definition broadcast_setkeys : K () :=
  k ← get;
  '(pdu, n) ← setkeys_loop (pdu_make "SET.KEYS" [], 0) (for_each (k_keys k));
  if 0 <? n then send Broadcast pdu else mret ().

Definition broadcast_event (ev : event_t) : K () :=
  send Broadcast (pdu_extend_all (pdu_make "EVENT" [])
    [fmt_i (event_timestamp ev); event_name ev; event_extra ev]).

Definition broadcast_counter (c : counter_t) : K () :=
  ts ← lift (winstart (counter_window c) (counter_last_seen c));
  send Broadcast (pdu_extend_all (pdu_make "COUNTER" [])
    [fmt_u ts; counter_name c; fmt_lu (counter_value c)]).

Definition broadcast_sample (s : sample_t double) : K () :=
  ts ← lift (winstart (sample_window s) (sample_last_seen s));
  send Broadcast (pdu_extend_all (pdu_make "SAMPLE" [])
    [fmt_u ts; sample_name s; fmt_u (sample_n s); fmt_e (sample_min s); fmt_e (sample_max s);
     fmt_e (sample_sum s); fmt_e (sample_mean s); fmt_e (sample_var s)]).

Definition broadcast_rate (r : rate_t) : K () :=
  ts ← lift (winstart (rate_window r) (rate_last_seen r));
  let value := rate_calc r (window_time (rate_window r)) in
  send Broadcast (pdu_extend_all (pdu_make "RATE" [])
    [fmt_u ts; rate_name r; fmt_i (window_time (rate_window r)); fmt_e value]).

(** [interval * 1000] is an [int] printed as [%lu]. *)
Definition beacon_sweep (e : env) (interval : Z) : K () :=
  send Beacon (pdu_extend_all (pdu_make "BEACON" [])
    [fmt_lu (time_ms e); fmt_lu (u16 interval * 1000)]).

(** ** The keys file *)

Definition nl : string := str1 LF.

(** One line per key that has a value. *)
Definition keys_lines (l : list (string * option string)) : list string :=
  omap (λ kv, v ← kv.2; Some (kv.1 +:+ " = " +:+ v +:+ nl)) l.

Definition keys_text (e : env) (keys : gmap string (option string)) : string :=
  let ls := keys_lines (for_each keys) in
  "# generated " +:+ fmt_lu (time_ms e) +:+ nl
  +:+ String.concat "" ls
  +:+ "# " +:+ fmt_lu (Z.of_nat (length ls)) +:+ " keys" +:+ nl.

(** The return value and, when the file could be opened, its new text. *)
Definition save_keys (e : env) (path : option string) (keys : gmap string (option string))
    : Z * option string :=
  match path with
  | Some _ => if keysfile_ok e then (0, Some (keys_text e keys)) else (-1, None)
  | None => (-1, None)
  end.

Definition LINE_BUF : nat := Z.to_nat 8192.

(** The lines [fgets] returns, one after the other; every one of them has a
    character, so the length of the text is fuel enough. *)
Fixpoint fgets_lines (fuel n : nat) (text : string) : list string :=
  match fuel with
  | O => []
  | S f => match fgets n text with
           | None => []
           | Some (l, rest) => l :: fgets_lines f n rest
           end
  end.

(** One line of the keys file.  After a key that runs to the end of the
    line the code reads past the terminator. *)
Definition read_keys_line (keys : gmap string (option string)) (buf : string)
    : res (gmap string (option string)) :=
  let key := skip_space buf in
  if Ascii.eqb (head_char key) "#" then mret keys
  else
    let value := skip_while not_space key in
    let key := take_while not_space key in
    match value with
    | EmptyString => Fault OutOfBounds
    | String _ value =>
        let value := skip_space value in
        if negb (Ascii.eqb (head_char value) "=") then mret keys
        else
          let value := skip_space (tail_str value) in
          let value := take_while (is_not LF) value in
          mret (<[key := Some value]> keys)
    end.

Fixpoint read_keys_lines (keys : gmap string (option string)) (ls : list string)
    : res (gmap string (option string)) :=
  match ls with
  | [] => mret keys
  | l :: ls' => keys ← read_keys_line keys l; read_keys_lines keys ls'
  end.

Definition read_keys (keys : gmap string (option string)) (text : option string)
    : res (Z * gmap string (option string)) :=
  match text with
  | None => mret (-1, keys)
  | Some t =>
      keys ← read_keys_lines keys (fgets_lines (String.length t) LINE_BUF t);
      mret (0, keys)
  end.

(** ** Freshness *)

Definition mark_stale (now : Z) (summary : string) (s : state_t) : state_t :=
  mk_state (state_type s) (state_name s) (state_last_seen s)
    (s32 (now + type_freshness (state_type s))) (type_status (state_type s)) summary 1
    (state_ignore s).

Definition freshness_step (now : Z) (kv : string * state_t) : K () :=
  let '(key, s) := kv in
  if (now <? state_expiry s) || negb (state_ignore s =? 0) then mret ()
  else
    let transition := (state_stale s =? 0)
                      || negb (state_status s =? type_status (state_type s)) in
    summary ← lift (deref (type_summary (state_type s)));
    let s := mark_stale now summary s in
    modify_db (put_state key s) ≫= λ _,
    (if transition then broadcast_transition s else mret ()) ≫= λ _,
    broadcast_state s.

Definition check_freshness (e : env) : K () :=
  db ← get_db;
  for_each_m (freshness_step (time_s e)) (for_each (states db)).

(** ** The event buffer *)

(** [while (db->events_count > max)]: the loop ends because the count goes
    down; it frees the head, which must exist. *)
Fixpoint drop_number (fuel : nat) (max : Z) (l : list event_t) (n : Z) : res (list event_t * Z) :=
  match fuel with
  | O => mret (l, n)
  | S f => if max <? n then
             match l with
             | [] => Fault OutOfBounds
             | _ :: l' => drop_number f max l' (n - 1)
             end
           else mret (l, n)
  end.

(** [for (;;)] over the head of the list. *)
Fixpoint drop_time (limit : Z) (l : list event_t) (n : Z) : res (list event_t * Z) :=
  match l with
  | [] => Fault OutOfBounds
  | ev :: l' => if limit <? event_timestamp ev then mret (l, n) else drop_time limit l' (n - 1)
  end.

Definition buffer_event (db : db_t) (ev : event_t) (max keep : Z) : res db_t :=
  if 0 <? max then
    let l := list_push (events db) ev in
    let n := events_count db + 1 in
    '(l, n) ← (if keep =? EVENTS_KEEP_NUMBER
               then drop_number (Z.to_nat n) max l n
               else drop_time (s32 (event_timestamp ev - max)) l n);
    mret (set_events l n db)
  else mret db.
End core.
