(* ===== verification/CoreFacts.v ===== *)
(** * Theorems on the services of src/core.c

    Windows and their closure, the event buffer, freshness checking, the
    broadcast of the keys and the keys file. *)

From S2P Require Import Prelude CLib Vigor Bytes Data DataFacts Binf Core.
From Stdlib Require Import Ascii.
From Stdlib Require String.

(** ** Windows *)

Definition wf_window (w : window_t) : Prop := 0 < window_time w < 2 ^ 31.

Lemma win_bounds t T :
  0 < T → 0 ≤ t →
  t = T * (t / T) + t mod T ∧ 0 ≤ t mod T < T ∧ 0 ≤ T * (t / T) ≤ t ∧ 0 ≤ t / T.
Proof.
  intros HT Ht. pose proof (Z.div_mod t T ltac:(lia)). pose proof (Z.mod_pos_bound t T HT).
  pose proof (Z.div_pos t T Ht HT). nia.
Qed.

(** The start of the window of [t], as the kernel computes it; for the times
    that are not negative it is the multiple of the window below. *)
Definition win_of (w : window_t) (t : Z) : Z := s32 (t - Z.rem t (window_time w)).

Lemma winstart_run w t : wf_window w → winstart w t = Ok (win_of w t).
Proof.
  unfold wf_window, winstart, c_rem. intros Hw.
  destruct (Z.eqb_spec (window_time w) 0); [lia|].
  by destruct (Z.eqb_spec (window_time w) (-1)); [lia|].
Qed.

Lemma win_of_spec w t :
  wf_window w → 0 ≤ t < 2 ^ 31 → win_of w t = window_time w * (t / window_time w).
Proof.
  unfold wf_window, win_of. intros Hw Ht. rewrite Z.rem_mod_nonneg by lia.
  destruct (win_bounds t (window_time w)) as (Ht1 & Ht2 & Ht3 & _); [lia..|].
  rewrite s32_id by (unfold is_s32; lia). lia.
Qed.

Lemma winstart_u_spec w t :
  wf_window w → is_u32 t → winstart_u w t = Ok (window_time w * (t / window_time w)).
Proof.
  unfold wf_window, winstart_u, is_u32. intros Hw Ht. rewrite (u32_id (window_time w)) by (unfold is_u32; lia).
  destruct (Z.eqb_spec (window_time w) 0); [lia|].
  destruct (win_bounds t (window_time w)) as (Ht1 & Ht2 & Ht3 & _); [lia..|].
  rewrite u32_id by (unfold is_u32; lia). f_equal. lia.
Qed.

Lemma winend_run w t : wf_window w → winend w t = Ok (s32 (win_of w t + window_time w)).
Proof. intros Hw. unfold winend. by rewrite winstart_run. Qed.

(** The closure test compares window numbers. *)
Lemma rollover_spec w l ts :
  wf_window w → is_s32 l → is_u32 ts →
  rollover w l ts = Ok (bool_decide (0 < l ∧ l / window_time w ≠ ts / window_time w)).
Proof.
  intros Hw Hl Hts. unfold rollover.
  destruct (Z.ltb_spec 0 l); cbn [andb]; [|by rewrite bool_decide_false by lia].
  rewrite (u32_id l) by (unfold is_u32, is_s32 in *; lia).
  destruct (Z.eqb_spec l ts) as [->|Hne]; cbn [negb]; [by rewrite bool_decide_false by lia|].
  rewrite winstart_run, winstart_u_spec, win_of_spec by (done || unfold is_s32 in *; lia).
  cbn [mbind res_bind mret res_ret]. f_equal.
  unfold wf_window, is_s32, is_u32 in *.
  destruct (win_bounds l (window_time w)) as (_ & _ & Hl3 & _); [lia..|].
  rewrite u32_id by (unfold is_u32; lia).
  destruct (Z.eqb_spec (window_time w * (l / window_time w)) (window_time w * (ts / window_time w)))
    as [E|E]; cbn [negb]; symmetry.
  - apply bool_decide_false. intros [_ H']. apply H'. nia.
  - apply bool_decide_true. split; [done|]. congruence.
Qed.

Lemma rollover_total w l ts : wf_window w → is_s32 l → is_u32 ts → ∃ b, rollover w l ts = Ok b.
Proof. intros. rewrite rollover_spec by done. eauto. Qed.

(** A window of zero seconds, which the configuration accepts, makes the
    first counter update that looks for a closed window divide by zero. *)
Theorem zero_window_faults name ts l v :
  is_u32 ts → 0 < l < 2 ^ 31 → l ≠ ts →
  rollover (counter_window (mk_counter (mk_window name 0) "" l v 0)) l ts = Fault DivByZero.
Proof.
  intros Hts Hl Hne. unfold rollover. destruct (Z.ltb_spec 0 l); [|lia].
  rewrite (u32_id l) by (unfold is_u32; lia). by destruct (Z.eqb_spec l ts).
Qed.

Lemma zero_window_faults_witness :
  rollover (counter_window (mk_counter (mk_window None 0) "" 100 1 0)) 100 101 = Fault DivByZero.
Proof. apply (zero_window_faults None 101 100 1); [unfold is_u32; lia|lia|lia]. Defined.

(** ** The event buffer *)

Lemma drop_number_spec fuel max l n :
  0 ≤ max → n ≤ Z.of_nat (length l) → n ≤ Z.of_nat fuel →
  drop_number fuel max l n = Ok (drop (Z.to_nat (n - max)) l, Z.min n max) .
Proof.
  intros Hmax. revert l n. induction fuel as [|f IH]; intros l n Hl Hf; cbn [drop_number].
  - replace (Z.to_nat (n - max)) with O by lia. rewrite drop_0. do 2 f_equal. lia.
  - destruct (Z.ltb_spec max n).
    + destruct l as [|x l]; [cbn in Hl; lia|]. cbn [length] in Hl.
      rewrite IH by lia. replace (Z.to_nat (n - max)) with (S (Z.to_nat (n - 1 - max))) by lia.
      rewrite skipn_cons. do 2 f_equal. lia.
    + replace (Z.to_nat (n - max)) with O by lia. rewrite drop_0. do 2 f_equal. lia.
Qed.

(** The entries that are old, from the front. *)
Fixpoint drop_old (limit : Z) (l : list event_t) : list event_t :=
  match l with
  | [] => []
  | ev :: l' => if limit <? event_timestamp ev then l else drop_old limit l'
  end.

Lemma drop_old_length limit l : (length (drop_old limit l) ≤ length l)%nat.
Proof. induction l as [|ev l IH]; cbn; [done|]. case_step; cbn; lia. Qed.

Lemma drop_time_spec limit l ev n :
  limit < event_timestamp ev →
  drop_time limit (l ++ [ev]) n =
  Ok (drop_old limit (l ++ [ev]),
      n - Z.of_nat (length (l ++ [ev])) + Z.of_nat (length (drop_old limit (l ++ [ev])))).
Proof.
  intros Hev. revert n. induction l as [|x l IH]; intros n; cbn [app drop_time drop_old].
  - destruct (Z.ltb_spec limit (event_timestamp ev)); [|lia]. cbn. do 2 f_equal. lia.
  - case_step; cbn [mret res_ret length].
    + unfold mret, res_ret. do 2 f_equal. lia.
    + rewrite IH. do 2 f_equal. lia.
Qed.

Section events.
Context `{VL : VigorLaws} `{Pcre}.

(** The event buffer by number: the new event goes to the end and the
    oldest ones go until at most [events.max] are left; the count stays the
    length of the list. *)
Theorem buffer_event_number db ev max :
  0 < max → events_count db = Z.of_nat (length (events db)) →
  let l := events db ++ [ev] in
  buffer_event db ev max EVENTS_KEEP_NUMBER =
    Ok (set_events (drop (length l - Z.to_nat max) l) (Z.min (Z.of_nat (length l)) max) db) ∧
  Z.of_nat (length (drop (length l - Z.to_nat max) l)) = Z.min (Z.of_nat (length l)) max.
Proof using VL.
  intros Hmax Hn l. unfold buffer_event. destruct (Z.ltb_spec 0 max); [|lia].
  rewrite list_push_app. change (EVENTS_KEEP_NUMBER =? EVENTS_KEEP_NUMBER) with true. cbn iota.
  fold l. assert (events_count db + 1 = Z.of_nat (length l)) as ->
    by (unfold l; rewrite length_app; cbn; lia).
  rewrite drop_number_spec by lia. cbn [mbind res_bind mret res_ret].
  replace (Z.to_nat (Z.of_nat (length l) - max)) with (length l - Z.to_nat max)%nat by lia.
  split; [done|]. rewrite length_drop. lia.
Qed.

(** The event buffer by age: when the new event's timestamp is not within
    [events.max] of the smallest 32-bit integer, the events from the front
    that are older than [events.max] seconds, relative to the new event, are
    dropped, and the new event is kept at the end. *)
Theorem buffer_event_time db ev max :
  0 < max → is_s32 (event_timestamp ev) → - 2 ^ 31 ≤ event_timestamp ev - max →
  events_count db = Z.of_nat (length (events db)) →
  let l := drop_old (event_timestamp ev - max) (events db ++ [ev]) in
  buffer_event db ev max EVENTS_KEEP_TIME = Ok (set_events l (Z.of_nat (length l)) db) ∧
  last l = Some ev.
Proof using VL.
  intros Hmax Hts Hlow Hn l. unfold buffer_event. destruct (Z.ltb_spec 0 max); [|lia].
  rewrite list_push_app. change (EVENTS_KEEP_TIME =? EVENTS_KEEP_NUMBER) with false. cbn iota.
  unfold is_s32 in *. rewrite s32_id by (unfold is_s32; lia).
  rewrite drop_time_spec by lia. cbn [mbind res_bind mret res_ret]. fold l.
  replace (events_count db + 1 - Z.of_nat (length (events db ++ [ev])) + Z.of_nat (length l))
    with (Z.of_nat (length l)) by (rewrite length_app; cbn [length]; lia).
  split; [done|]. unfold l. clear -Hmax Hts.
  induction (events db) as [|x r IH]; cbn [app drop_old].
  - destruct (Z.ltb_spec (event_timestamp ev - max) (event_timestamp ev)); [done|lia].
  - case_step; [|done]. change (x :: r ++ [ev]) with ((x :: r) ++ [ev]). apply last_snoc.
Qed.

(** An event whose timestamp is too close to the smallest 32-bit integer
    makes the age limit wrap around: the loop drops every event, the new one
    included, and then reads the head of the empty list. *)
Theorem buffer_event_time_overflow db ev max :
  0 < max < 2 ^ 31 → is_s32 (event_timestamp ev) → event_timestamp ev - max < - 2 ^ 31 →
  Forall (λ x, event_timestamp x ≤ event_timestamp ev - max + 2 ^ 32) (events db) →
  buffer_event db ev max EVENTS_KEEP_TIME = Fault OutOfBounds.
Proof using VL.
  intros Hmax Hts Hlow Hold. unfold buffer_event. destruct (Z.ltb_spec 0 max); [|lia].
  rewrite list_push_app. change (EVENTS_KEEP_TIME =? EVENTS_KEEP_NUMBER) with false. cbn iota.
  assert (s32 (event_timestamp ev - max) = event_timestamp ev - max + 2 ^ 32) as ->
    by (unfold is_s32 in Hts; cint).
  assert (Forall (λ x, event_timestamp x ≤ event_timestamp ev - max + 2 ^ 32) (events db ++ [ev])) as Hall
    by (apply Forall_app; split; [done|constructor; [lia|done]]).
  set (limit := event_timestamp ev - max + 2 ^ 32) in *. clearbody limit.
  set (n := events_count db + 1). clearbody n. revert n.
  assert (∀ l n, Forall (λ x, event_timestamp x ≤ limit) l → drop_time limit l n = Fault OutOfBounds) as Hd.
  { induction l as [|x l IH]; intros n Hl; [done|]. inversion_clear Hl as [|? ? Hx Hl'].
    cbn [drop_time]. destruct (Z.ltb_spec limit (event_timestamp x)); [lia|]. by apply IH. }
  intros n. by rewrite Hd.
Qed.
End events.

Module EventsExample.
Definition ev (ts : Z) : event_t := mk_event ts "tick" "x".
Definition db : @db_t ref_pcre := set_events (H := ref_pcre) [ev 100; ev 200; ev 300] 3 Example1.db.
End EventsExample.

Lemma buffer_event_number_witness :
  buffer_event (H := ref_vigor) (H0 := ref_pcre) EventsExample.db (EventsExample.ev 400) 2
    EVENTS_KEEP_NUMBER =
  Ok (set_events (H := ref_pcre) [EventsExample.ev 300; EventsExample.ev 400] 2 EventsExample.db).
Proof.
  apply (buffer_event_number (VL := ref_vigor_laws) (H := ref_pcre) EventsExample.db
           (EventsExample.ev 400) 2); [lia|reflexivity].
Defined.

Lemma buffer_event_time_witness :
  buffer_event (H := ref_vigor) (H0 := ref_pcre) EventsExample.db (EventsExample.ev 400) 150
    EVENTS_KEEP_TIME =
  Ok (set_events (H := ref_pcre) [EventsExample.ev 300; EventsExample.ev 400] 2 EventsExample.db).
Proof.
  apply (buffer_event_time (VL := ref_vigor_laws) (H := ref_pcre) EventsExample.db
           (EventsExample.ev 400) 150); [lia|unfold is_s32; cbn; lia|cbn; lia|reflexivity].
Defined.

Lemma buffer_event_time_overflow_witness :
  buffer_event (H := ref_vigor) (H0 := ref_pcre) EventsExample.db (EventsExample.ev (- 2 ^ 31)) 60
    EVENTS_KEEP_TIME = Fault OutOfBounds.
Proof.
  apply (buffer_event_time_overflow (VL := ref_vigor_laws) (H := ref_pcre) EventsExample.db
           (EventsExample.ev (- 2 ^ 31)) 60); [lia|unfold is_s32; cbn; lia|cbn; lia|].
  repeat constructor; cbn; lia.
Defined.

(** ** Running the kernel's steps *)

Section steps.
Context `{Vigor} `{Pcre}.
Abbreviation K := (M kernel_t output).

Lemma get_db_bind {B} (f : db_t → K B) k : (get_db ≫= f) k = f (k_db k) k.
Proof. unfold get_db. by mstep. Qed.

Lemma modify_db_bind {B} g (f : () → K B) k : (modify_db g ≫= f) k = f () (set_db (g (k_db k)) k).
Proof. unfold modify_db. by mstep. Qed.

Lemma send_bind {B} s p (f : () → K B) k : (send s p ≫= f) k = out_app [Send s p] (f () k).
Proof. done. Qed.

Lemma k_db_set_db d k : k_db (set_db d k) = d.
Proof. done. Qed.

Lemma k_keys_set_db d k : k_keys (set_db d k) = k_keys k.
Proof. done. Qed.

Lemma k_config_set_db d k : k_config (set_db d k) = k_config k.
Proof. done. Qed.

Lemma set_db_set_db d d' k : set_db d (set_db d' k) = set_db d k.
Proof. done. Qed.

Lemma set_db_id k : set_db (k_db k) k = k.
Proof. by destruct k as [[] ? ? ? ? ?]. Qed.
End steps.

#[export] Hint Rewrite @get_db_bind @modify_db_bind @send_bind @k_db_set_db @k_keys_set_db
  @k_config_set_db @set_db_set_db @set_db_id : mstep.

(** ** Freshness *)

Section freshness.
Context `{VL : VigorLaws} `{Pcre}.

Definition wf_type (t : type_t) : Prop := is_Some (type_summary t) ∧ is_u8 (type_status t) ∧ is_u16 (type_freshness t).

(** Whether a state is overdue and, when it is, what it becomes. *)
Definition overdue (now : Z) (s : state_t) : bool :=
  negb (now <? state_expiry s) && (state_ignore s =? 0).

Definition expired (now : Z) (s : state_t) : state_t :=
  mark_stale now (default EmptyString (type_summary (state_type s))) s.

(** Whether expiring is news. *)
Definition becomes_stale (s : state_t) : bool :=
  (state_stale s =? 0) || negb (state_status s =? type_status (state_type s)).

Definition state_pdu (type : string) (s : state_t) : pdu_t :=
  pdu_extend_all (pdu_make type [state_name s]) (state_frames s).

Definition expiry_sends (now : Z) (s : state_t) : list output :=
  if overdue now s then
    (if becomes_stale s then [Send Broadcast (state_pdu "TRANSITION" (expired now s))] else [])
    ++ [Send Broadcast (state_pdu "STATE" (expired now s))]
  else [].

Lemma freshness_step_spec now name s k :
  is_Some (type_summary (state_type s)) →
  freshness_step now (name, s) k =
  Ok ((), set_db (set_states (update_step (λ _ s, if overdue now s then Some (expired now s) else None)
                                (states (k_db k)) (name, s)) (k_db k)) k,
      expiry_sends now s).
Proof.
  intros [summary Hs]. unfold freshness_step, update_step, expiry_sends, overdue. cbn [fst snd].
  destruct (now <? state_expiry s); cbn [orb negb andb];
    [by rewrite set_states_id; mstep|].
  destruct (state_ignore s =? 0) eqn:Hig; cbn [negb]; [|by rewrite set_states_id; mstep].
  rewrite Hs. mstep. fold (becomes_stale s). unfold expired. rewrite Hs. cbn [default deref].
  mstep. destruct (becomes_stale s); by mstep.
Qed.

Lemma check_freshness_run e k :
  map_Forall (λ _ s, is_Some (type_summary (state_type s))) (states (k_db k)) →
  let now := time_s e in
  check_freshness e k =
  Ok ((),
      set_db (set_states ((λ s, if overdue now s then expired now s else s) <$> states (k_db k))
                         (k_db k)) k,
      concat ((λ kv, expiry_sends now kv.2) <$> for_each (states (k_db k)))).
Proof using VL.
  intros Hwf now. unfold check_freshness. mstep.
  rewrite (for_each_m_walk _ _ (λ _ s, if overdue now s then Some (expired now s) else None)
             (λ _ s, expiry_sends now s) (λ k, states (k_db k))
             (λ m k, set_db (set_states m (k_db k)) k)); [|by intros; rewrite set_states_id; mstep|done..|].
  - rewrite for_each_update. do 5 f_equal. apply map_eq. intros n.
    rewrite map_lookup_imap, lookup_fmap. destruct (states (k_db k) !! n) as [s|]; [|done].
    cbn. by destruct (overdue now s).
  - intros n s k' Hin%elem_of_for_each. apply freshness_step_spec. by apply (Hwf n).
Qed.

(** C28: a freshness check marks exactly the states whose deadline has passed
    and that are not ignored: each takes the status and the summary of its
    type, becomes stale and gets a new deadline; no other state and no other
    table changes.  It broadcasts, for each of them and for no other, the
    new state, preceded by a transition unless the state was already stale
    with that status. *)
Theorem check_freshness_spec e k :
  map_Forall (λ _ s, is_Some (type_summary (state_type s))) (states (k_db k)) →
  let now := time_s e in
  check_freshness e k =
  Ok ((),
      set_db (set_states ((λ s, if overdue now s then expired now s else s) <$> states (k_db k))
                         (k_db k)) k,
      concat ((λ kv, expiry_sends now kv.2) <$> for_each (states (k_db k)))).
Proof using VL. apply check_freshness_run. Qed.
End freshness.

(** ** Broadcasting the keys *)

Section setkeys.
Context `{VL : VigorLaws} `{Pcre}.

(** The keys that have a value. *)
Definition live (l : list (string * option string)) : list (string * string) :=
  omap (λ kv, v ← kv.2; Some (kv.1, v)) l.

Definition pair_frames (c : list (string * string)) : list string :=
  concat ((λ kv, [kv.1; kv.2]) <$> c).

Definition setkeys_pdu (c : list (string * string)) : pdu_t :=
  pdu_extend_all (pdu_make "SET.KEYS" []) (pair_frames c).

Lemma setkeys_pdu_snoc c k v :
  pdu_extend (pdu_extend (setkeys_pdu c) k) v = setkeys_pdu (c ++ [(k, v)]).
Proof.
  unfold setkeys_pdu, pair_frames, pdu_extend_all.
  by rewrite fmap_app, concat_app, foldl_app.
Qed.

Lemma setkeys_loop_spec l c k :
  (length c < 30)%nat →
  ∃ chunks c',
    setkeys_loop (setkeys_pdu c, Z.of_nat (length c)) l k =
      Ok ((setkeys_pdu c', Z.of_nat (length c')), k,
          (λ x, Send Broadcast (setkeys_pdu x)) <$> chunks) ∧
    concat chunks ++ c' = c ++ live l ∧ Forall (λ x, length x = 30%nat) chunks ∧ (length c' < 30)%nat.
Proof.
  revert c. induction l as [|[key [v|]] l IH]; intros c Hc; cbn [setkeys_loop].
  - exists [], c. cbn. by rewrite app_nil_r.
  - unfold setkeys_step. cbn [fst snd].
    rewrite setkeys_pdu_snoc.
    destruct (Z.eqb_spec (Z.of_nat (length c) + 1) 30).
    + destruct (IH []) as (chunks & c' & E & Hcat & Hall & Hc'); [cbn; lia|].
      exists ((c ++ [(key, v)]) :: chunks), c'. split_and!; [|cbn [concat]..|done].
      * mstep. change (pdu_make "SET.KEYS" [], 0) with (setkeys_pdu [], Z.of_nat (length (@nil (string * string)))).
        by rewrite E.
      * rewrite <- app_assoc, Hcat. cbn. by rewrite <- app_assoc.
      * constructor; [rewrite length_app; cbn; lia|done].
    + destruct (IH (c ++ [(key, v)])) as (chunks & c' & E & Hcat & Hall & Hc');
        [rewrite length_app; cbn; lia|].
      exists chunks, c'. split_and!; [|by rewrite Hcat, <- app_assoc|done|done].
      mstep. rewrite length_app, Nat2Z.inj_add in E. apply E.
  - unfold setkeys_step. cbn [fst snd]. mstep. by apply IH.
Qed.

(** The broadcast of the keys sends every key that has a value exactly
    once, with its value, in SET.KEYS messages of at most thirty pairs, all
    of them full but the last; it sends no empty message and changes
    nothing. *)
Theorem broadcast_setkeys_chunks k :
  ∃ chunks,
    broadcast_setkeys k = Ok ((), k, (λ c, Send Broadcast (setkeys_pdu c)) <$> chunks) ∧
    concat chunks = live (for_each (k_keys k)) ∧
    Forall (λ c, pdu_frames (setkeys_pdu c) = "SET.KEYS" :: pair_frames c ∧ c ≠ []) chunks ∧
    ∃ full rest, chunks = full ++ rest ∧ (length rest ≤ 1)%nat ∧
      Forall (λ c, length c = 30%nat) full ∧ Forall (λ c, (length c < 30)%nat) rest.
Proof using VL.
  unfold broadcast_setkeys. mstep.
  destruct (setkeys_loop_spec (for_each (k_keys k)) [] k) as (chunks & c' & E & Hcat & Hall & Hc');
    [cbn; lia|].
  assert (∀ c, pdu_frames (setkeys_pdu c) = "SET.KEYS" :: pair_frames c) as Hfr.
  { intros c. unfold setkeys_pdu. by rewrite frames_extend_all, frames_make. }
  assert (∀ cs, Forall (λ c : list (string * string), c ≠ []) cs →
     Forall (λ c, pdu_frames (setkeys_pdu c) = "SET.KEYS" :: pair_frames c ∧ c ≠ []) cs) as Hne.
  { intros cs Hcs. eapply Forall_impl; [exact Hcs|]. auto. }
  assert (Forall (λ c : list (string * string), c ≠ []) chunks) as Hne30.
  { eapply Forall_impl; [exact Hall|]. intros [|]; cbn; [lia|done]. }
  change (pdu_make "SET.KEYS" [], 0) with (setkeys_pdu [], Z.of_nat (length (@nil (string * string)))).
  rewrite (M_run_bind _ _ _ _ _ _ E).
  destruct c' as [|x c'].
  - exists chunks. rewrite app_nil_r in Hcat. split_and!; [|done|by apply Hne|].
    + change (0 <? Z.of_nat (length [])) with false. cbn iota. unfold out_app, mret, M_ret.
      by rewrite app_nil_r.
    + exists chunks, []. rewrite app_nil_r. cbn. auto.
  - exists (chunks ++ [x :: c']). rewrite fmap_app, concat_app. cbn [concat]. rewrite app_nil_r.
    split_and!; [|done|apply Hne, Forall_app; auto|].
    + destruct (Z.ltb_spec 0 (Z.of_nat (length (x :: c')))); [done|cbn in *; lia].
    + exists chunks, [x :: c']. split_and!; auto.
Qed.
End setkeys.

(** ** The keys file *)

Section lines.

Lemma str_concat_cons a l : String.concat EmptyString (a :: l) = a +:+ String.concat EmptyString l.
Proof. destruct l as [|b l]; [cbn; by rewrite str_app_nil_r|done]. Qed.

Lemma str_concat_app l1 l2 :
  String.concat EmptyString (l1 ++ l2) = String.concat EmptyString l1 +:+ String.concat EmptyString l2.
Proof.
  induction l1 as [|a l1 IH]; [done|]. cbn [app]. by rewrite !str_concat_cons, IH, str_app_assoc.
Qed.

(** A line that [fgets] returns whole. *)
Definition is_line (n : nat) (s : string) : Prop :=
  ∃ body, s = body +:+ nl ∧ str_all (is_not LF) body = true ∧ (S (String.length body) < n)%nat.

Lemma fgets_aux_line n body rest :
  str_all (is_not LF) body = true → (String.length body < n)%nat →
  fgets_aux n ((body +:+ nl) +:+ rest) = (body +:+ nl, rest).
Proof.
  revert n. induction body as [|c body IH]; intros [|n] Hall Hn; cbn in Hn; try lia; [done|].
  cbn [str_all] in Hall. apply andb_prop in Hall as [Hc Hall].
  rewrite !str_app_cons. cbn [fgets_aux].
  unfold is_not in Hc. rewrite Ascii.eqb_sym. destruct (Ascii.eqb LF c); [done|].
  by rewrite IH by (done || lia).
Qed.

Lemma fgets_line n body rest :
  lacks LF body → (S (String.length body) < n)%nat →
  fgets n ((body +:+ nl) +:+ rest) = Some (body +:+ nl, rest).
Proof.
  intros Hb Hn. assert (fgets n ((body +:+ nl) +:+ rest) = Some (fgets_aux (n - 1) ((body +:+ nl) +:+ rest))) as ->
    by (by destruct body).
  by rewrite fgets_aux_line by (done || lia).
Qed.

Lemma fgets_lines_concat n ls fuel :
  Forall (is_line n) ls → (length ls ≤ fuel)%nat →
  fgets_lines fuel n (String.concat EmptyString ls) = ls.
Proof.
  revert fuel. induction ls as [|l ls IH]; intros fuel Hl Hf; [by destruct fuel|].
  apply Forall_cons in Hl as [(body & -> & Hb & Hn) Hl]. destruct fuel as [|fuel]; [cbn in Hf; lia|].
  rewrite str_concat_cons. cbn [fgets_lines].
  assert (fgets n ((body +:+ nl) +:+ String.concat EmptyString ls)
          = Some (fgets_aux (n - 1) ((body +:+ nl) +:+ String.concat EmptyString ls))) as ->
    by (by destruct body).
  rewrite fgets_aux_line by (done || lia). rewrite IH by (cbn in Hf; done || lia). done.
Qed.

Lemma concat_lines_length n ls :
  Forall (is_line n) ls → (length ls ≤ String.length (String.concat EmptyString ls))%nat.
Proof.
  induction 1 as [|l ls (body & -> & _) _ IH]; [done|].
  rewrite str_concat_cons. cbn [length].
  rewrite !str_length_app. cbn. lia.
Qed.
End lines.

Section keysfile.
Context `{VL : VigorLaws}.

(** The keys and values the file format can hold: a key is a word and does
    not begin with the comment sign, a value is one line and does not begin
    with a blank; together they fit the line buffer. *)
Definition storable (key value : string) : Prop :=
  key ≠ EmptyString ∧ str_all not_space key = true ∧ head_char key ≠ "#"%char ∧
  isspace (head_char value) = false ∧ str_all (is_not LF) value = true ∧
  strlen key + strlen value < 8187.

Definition key_line (kv : string * string) : string := kv.1 +:+ " = " +:+ kv.2 +:+ nl.

Lemma not_space_not_LF s : str_all not_space s = true → str_all (is_not LF) s = true.
Proof.
  induction s as [|c s IH]; [done|]. cbn [str_all]. intros [Hc Hs]%andb_prop. rewrite IH by done.
  unfold not_space in Hc. destruct (is_not LF c) eqn:E; [done|].
  unfold is_not in E. apply negb_false_iff, Ascii.eqb_eq in E. by subst c.
Qed.

Lemma key_line_is_line key value : storable key value → is_line LINE_BUF (key_line (key, value)).
Proof.
  intros (_ & Hk & _ & _ & Hv & Hlen). exists (key +:+ " = " +:+ value). split_and!.
  - unfold key_line. cbn [fst snd]. by rewrite !str_app_assoc.
  - rewrite !str_all_app, Hv, (not_space_not_LF key) by done. done.
  - rewrite !str_length_app. cbn [String.length]. unfold LINE_BUF, strlen in *. lia.
Qed.

Lemma read_key_line m key value :
  storable key value → read_keys_line m (key_line (key, value)) = Ok (<[key := Some value]> m).
Proof.
  intros (Hne & Hk & Hh & Hsp & Hv & _). unfold key_line, read_keys_line, skip_space. cbn [fst snd].
  assert (isspace (head_char (key +:+ " = " +:+ value +:+ nl)) = false ∧
          head_char (key +:+ " = " +:+ value +:+ nl) = head_char key) as [Hs1 Hs2].
  { destruct key as [|c key]; [done|]. rewrite str_app_cons. cbn in *. split; [|done].
    apply andb_prop in Hk as [Hc _]. by apply negb_true_iff in Hc. }
  rewrite (skip_while_head isspace) by done. rewrite Hs2.
  destruct (Ascii.eqb_spec (head_char key) "#"%char); [done|].
  rewrite skip_while_app, take_while_app by (done || (left; reflexivity)).
  rewrite !str_app_cons, !str_app_nil_l. cbn iota.
  change (skip_while isspace (String "=" (String " " (value +:+ nl))))
    with (String "=" (String " " (value +:+ nl))).
  cbn [head_char tail_str skip_while]. change (Ascii.eqb "=" "=") with true.
  change (isspace " ") with true. cbn [negb].
  assert (value = EmptyString ∨ skip_while isspace (value +:+ nl) = value +:+ nl) as [-> | ->].
  { destruct value as [|c value]; [by left|right]. apply skip_while_head. done. }
  - done.
  - by rewrite take_while_app by (done || (left; reflexivity)).
Qed.

Lemma read_comment m s : read_keys_line m ("# " +:+ s) = Ok m.
Proof. by rewrite !str_app_cons. Qed.

Lemma read_keys_lines_app m l1 l2 :
  read_keys_lines m (l1 ++ l2) = m1 ← read_keys_lines m l1; read_keys_lines m1 l2.
Proof.
  revert m. induction l1 as [|x l1 IH]; intros m; [done|]. cbn [app read_keys_lines].
  destruct (read_keys_line m x); [|done]. cbn [mbind res_bind]. apply IH.
Qed.

(** Reading the lines of a table inserts its entries. *)
Lemma read_live_lines l m :
  Forall (λ kv, ∀ v, kv.2 = Some v → storable kv.1 v) l →
  read_keys_lines m (key_line <$> live l) = Ok (update_all (λ _ (v : option string), Some <$> v) l m).
Proof.
  revert m. induction l as [|[k [v|]] l IH]; intros m Hl; [done| |];
    apply Forall_cons in Hl as [Hkv Hl]; rewrite update_all_cons.
  - change (live ((k, Some v) :: l)) with ((k, v) :: live l). rewrite fmap_cons.
    cbn [read_keys_lines]. rewrite read_key_line by (by apply Hkv). cbn [mbind res_bind].
    by rewrite IH.
  - change (live ((k, None) :: l)) with (live l). by rewrite IH.
Qed.

Lemma keys_lines_live l : keys_lines l = key_line <$> live l.
Proof.
  induction l as [|[k [v|]] l IH]; [done| |].
  - change (keys_lines ((k, Some v) :: l)) with (key_line (k, v) :: keys_lines l). by rewrite IH.
  - exact IH.
Qed.
End keysfile.

Section keysfile_roundtrip.
Context `{VL : VigorLaws}.

Lemma header_line_is_line s : str_all isdigit s = true → strlen s < 8000 →
  is_line LINE_BUF ("# generated " +:+ s +:+ nl) ∧ is_line LINE_BUF ("# " +:+ s +:+ " keys" +:+ nl).
Proof.
  intros Hs Hl.
  assert (str_all (is_not LF) s = true) as HLF.
  { clear Hl. induction s as [|c s IH]; [done|]. cbn [str_all] in *. apply andb_prop in Hs as [Hc Hs].
    rewrite IH by done. unfold is_not. destruct (Ascii.eqb_spec LF c) as [<-|]; done. }
  split.
  - exists ("# generated " +:+ s). split_and!; [by rewrite str_app_assoc|by rewrite str_all_app, HLF|].
    rewrite str_length_app. cbn [String.length]. unfold LINE_BUF, strlen in *. lia.
  - exists ("# " +:+ s +:+ " keys").
    split_and!; [by rewrite !str_app_assoc|by rewrite !str_all_app, HLF|].
    rewrite !str_length_app. cbn [String.length]. unfold LINE_BUF, strlen in *. lia.
Qed.

Lemma dec_aux_length fuel n : (String.length (dec_aux fuel n) ≤ fuel)%nat.
Proof.
  revert n. induction fuel as [|f IH]; intros n; cbn [dec_aux]; [done|].
  rewrite str_length_app. cbn [str1 String.length]. specialize (IH (n / 10)).
  case_step; cbn [String.length]; lia.
Qed.

Lemma fmt_lu_short z : str_all isdigit (fmt_lu z) = true ∧ strlen (fmt_lu z) < 8000.
Proof.
  unfold fmt_lu, dec. pose proof (u64_range z) as Hz. unfold is_u64 in Hz. split.
  - apply dec_aux_digits. lia.
  - unfold strlen. pose proof (dec_aux_length (S (Z.to_nat (Z.log2 (u64 z)))) (u64 z)).
    assert (Z.log2 (u64 z) ≤ 64); [|lia].
    transitivity (Z.log2 (2 ^ 64)); [apply Z.log2_le_mono; lia|done].
Qed.

End keysfile_roundtrip.

(** ** Examples *)

Module CoreExample.
Definition config : config_t :=
  mk_config None None None None 0 None None None None None (Some "/var/lib/bolo/save.db")
    (Some "/var/lib/bolo/keys.db") 1 0 10 EVENTS_KEEP_NUMBER 15.
Definition cpu : state_t := mk_state Example1.local "host.cpu" 990 1290 OK "load is 1" 0 0.
Definition disk : state_t := mk_state Example1.local "host.disk" 1990 2290 OK "half full" 0 0.
Definition db : @db_t ref_pcre :=
  set_states (H := ref_pcre) {["host.cpu" := cpu; "host.disk" := disk]} Example1.db.
Definition keys : gmap string (option string) :=
  {["dc" := Some "east 1"; "gone" := None; "role" := Some "web"]}.
Definition k : @kernel_t ref_pcre :=
  mk_kernel ref_pcre (mk_server ref_pcre db keys config (mk_interval 1000 2 60 15)) true
    (mk_timer 0 2) (mk_timer 0 15) (mk_timer 0 0) (mk_timer 0 60).
Definition e : env := mk_env 2000 2000000 all_ok true true true "no such file".
End CoreExample.

Lemma check_freshness_spec_witness :
  check_freshness (H := ref_vigor) (H0 := ref_pcre) CoreExample.e CoreExample.k =
  Ok ((),
      set_db (H0 := ref_pcre) (put_state (H := ref_pcre) "host.cpu"
        (mk_state Example1.local "host.cpu" 990 2300 WARNING "no results received" 1 0) CoreExample.db)
        CoreExample.k,
      [Send Broadcast (("TRANSITION", ["host.cpu"; "990"; "stale"; "WARNING"; "no results received"])
                       : @pdu_t ref_vigor);
       Send Broadcast (("STATE", ["host.cpu"; "990"; "stale"; "WARNING"; "no results received"])
                       : @pdu_t ref_vigor)]).
Proof.
  etrans; [apply (check_freshness_spec (VL := ref_vigor_laws) (H := ref_pcre) CoreExample.e CoreExample.k)|].
  - apply map_Forall_to_list. vm_compute map_to_list. repeat constructor; by eexists.
  - vm_compute. reflexivity.
Defined.

Lemma broadcast_setkeys_chunks_witness :
  ∃ chunks, broadcast_setkeys (H := ref_vigor) (H0 := ref_pcre) CoreExample.k =
    Ok ((), CoreExample.k, (λ c, Send Broadcast (setkeys_pdu (V := ref_vigor) c)) <$> chunks).
Proof.
  destruct (broadcast_setkeys_chunks (VL := ref_vigor_laws) (H := ref_pcre) CoreExample.k)
    as (chunks & E & _). by exists chunks.
Defined.

