(* ===== verification/Windowed.v ===== *)
(** * Windowed aggregation, abstractly

    The counters, samples and rates of the kernel follow one protocol: an
    observation that falls in another window than the last one closes the
    aggregate, which is published and reset, and is then added to it.  This
    file states the protocol's specification, the grouping of a stream of
    observations into runs of the same window, as a function on lists, and
    proves that any aggregate with the operations of [Aggregate] implements
    it. *)

From S2P Require Import Prelude.

Section grouping.
Context {X : Type}.
Implicit Types (x : Z * X) (g : list (Z * X)).

(** The number of the window of the group's last observation. *)
Definition group_window (T : Z) g : option Z := (λ x, x.1 / T) <$> last g.

(** One observation: the open group, and the group it closes, if any. *)
Definition group_step (T : Z) g x : list (Z * X) * list (list (Z * X)) :=
  match group_window T g with
  | None => ([x], [])
  | Some w => if w =? x.1 / T then (g ++ [x], []) else ([x], [g])
  end.

(** A stream of observations: the group left open and the groups closed. *)
Fixpoint group_run (T : Z) g (xs : list (Z * X)) : list (Z * X) * list (list (Z * X)) :=
  match xs with
  | [] => (g, [])
  | x :: xs =>
      let '(g1, c1) := group_step T g x in
      let '(g2, c2) := group_run T g1 xs in (g2, c1 ++ c2)
  end.

(** A run of one window. *)
Definition one_window (T : Z) g : Prop := ∃ w, Forall (λ x, x.1 / T = w) g.

Lemma group_window_Some T g w :
  group_window T g = Some w ↔ ∃ g' x, g = g' ++ [x] ∧ x.1 / T = w.
Proof.
  unfold group_window. split.
  - destruct g as [|x g' _] using rev_ind; [done|]. rewrite last_snoc. intros [= <-]. eauto.
  - intros (g' & x & -> & <-). by rewrite last_snoc.
Qed.

Lemma group_window_None T g : group_window T g = None ↔ g = [].
Proof.
  unfold group_window. rewrite fmap_None. apply last_None.
Qed.

(** Nothing is lost, duplicated or reordered; every closed group is a
    non-empty run of one window. *)
Lemma group_run_spec T g xs g' cs :
  one_window T g → group_run T g xs = (g', cs) →
  concat cs ++ g' = g ++ xs ∧ one_window T g' ∧ Forall (λ c, c ≠ [] ∧ one_window T c) cs.
Proof.
  revert g g' cs. induction xs as [|x xs IH]; intros g g' cs Hg; cbn [group_run].
  - intros [= <- <-]. rewrite app_nil_r. cbn. auto.
  - destruct (group_step T g x) as [g1 c1] eqn:E1. destruct (group_run T g1 xs) as [g2 c2] eqn:E2.
    intros [= <- <-].
    assert (one_window T g1 ∧ concat c1 ++ g1 = g ++ [x] ∧ Forall (λ c, c ≠ [] ∧ one_window T c) c1)
      as (Hg1 & Hc1 & Hf1).
    { unfold group_step in E1. destruct (group_window T g) as [w|] eqn:Ew.
      - apply group_window_Some in Ew as (g0 & y & -> & Hy).
        destruct (Z.eqb_spec w (x.1 / T)) as [Hw|Hw]; injection E1 as <- <-.
        + split_and!; [|done|done]. destruct Hg as [v Hv]. exists v.
          rewrite !Forall_app, !Forall_singleton in *. destruct Hv as [Hv0 Hv1].
          split_and!; [done|done|congruence].
        + split_and!; [exists (x.1 / T); by apply Forall_singleton|cbn; by rewrite app_nil_r|].
          apply Forall_singleton. split; [by destruct g0|done].
      - apply group_window_None in Ew as ->. injection E1 as <- <-.
        split_and!; [exists (x.1 / T); by apply Forall_singleton|done|done]. }
    destruct (IH _ _ _ Hg1 E2) as (Hc & Hg2 & Hf2).
    rewrite concat_app, <- app_assoc, Hc, app_assoc, Hc1, <- app_assoc. cbn.
    split_and!; [done|done|by apply Forall_app].
Qed.

(** What holds of every observation holds in every group. *)
Lemma group_run_all (P : Z * X → Prop) T xs g cs :
  Forall P xs → group_run T [] xs = (g, cs) → Forall P g ∧ Forall (Forall P) cs.
Proof.
  intros Hxs E. destruct (group_run_spec T [] xs g cs) as (Hc & _ & _); [by exists 0|done|].
  cbn in Hc. rewrite <- Hc, Forall_app in Hxs. destruct Hxs as [Hcs Hg]. split; [done|].
  clear -Hcs. induction cs as [|c cs IH]; [done|]. cbn [concat] in Hcs.
  rewrite Forall_app in Hcs. destruct Hcs. constructor; auto.
Qed.
End grouping.

(** ** Aggregates *)

(** What the kernel does with an aggregate [A] of observations [X]: when it
    was last seen, how it is reset and how an observation is added. *)
Class Aggregate (A X : Type) := {
  agg_last : A → Z;
  agg_reset : A → A;
  agg_feed : Z → X → A → A;
}.

Class AggregateLaws (A X : Type) `{Aggregate A X} : Prop := {
  agg_last_feed ts x a : agg_last (agg_feed ts x a) = s32 ts;
  agg_reset_feed ts x a : agg_reset (agg_feed ts x a) = agg_reset a;
  agg_reset_reset a : agg_reset (agg_reset a) = agg_reset a;
  agg_last_reset a : agg_last (agg_reset a) = 0;
}.

Section aggregates.
Context {A X : Type} `{AggregateLaws A X}.
Implicit Types (a : A) (g : list (Z * X)).

(** The handler's protocol: close the window if the observation is in
    another one, then add it. *)
Definition agg_put (T : Z) (ts : Z) (x : X) (a : A) : A * list A :=
  if bool_decide (0 < agg_last a ∧ agg_last a / T ≠ ts / T)
  then (agg_feed ts x (agg_reset a), [a])
  else (agg_feed ts x a, []).

Fixpoint agg_run (T : Z) (a : A) (xs : list (Z * X)) : A * list A :=
  match xs with
  | [] => (a, [])
  | (ts, x) :: xs =>
      let '(a1, o1) := agg_put T ts x a in
      let '(a2, o2) := agg_run T a1 xs in (a2, o1 ++ o2)
  end.

(** The aggregate of a group, from an empty one. *)
Definition agg_of (a0 : A) g : A := foldl (λ a x, agg_feed x.1 x.2 a) a0 g.

Lemma agg_of_snoc a0 g x : agg_of a0 (g ++ [x]) = agg_feed x.1 x.2 (agg_of a0 g).
Proof. unfold agg_of. by rewrite foldl_app. Qed.

Lemma agg_reset_of a0 g : agg_reset a0 = a0 → agg_reset (agg_of a0 g) = a0.
Proof using H0.
  intros H1. induction g as [|x g IH] using rev_ind; [done|]. by rewrite agg_of_snoc, agg_reset_feed.
Qed.

Definition in_range (x : Z * X) : Prop := 0 < x.1 < 2 ^ 31.

Lemma agg_put_step T a0 g x :
  agg_reset a0 = a0 → Forall in_range g → in_range x →
  agg_put T x.1 x.2 (agg_of a0 g) =
  let '(g', cs) := group_step T g x in (agg_of a0 g', agg_of a0 <$> cs).
Proof using H0.
  intros H1 Hg Hx. unfold agg_put, group_step.
  destruct g as [|y g _] using rev_ind.
  - change (agg_of a0 []) with a0. rewrite <- H1, agg_last_reset.
    rewrite bool_decide_false by lia. cbn. done.
  - rewrite Forall_app, Forall_singleton in Hg. destruct Hg as [_ Hy]. unfold in_range in Hy.
    unfold group_window. rewrite last_snoc. cbn [fmap option_fmap option_map].
    assert (agg_last (agg_of a0 (g ++ [y])) = y.1) as Hl.
    { rewrite agg_of_snoc, agg_last_feed. apply s32_id. unfold is_s32. lia. }
    rewrite Hl, agg_reset_of by done.
    destruct (Z.eqb_spec (y.1 / T) (x.1 / T)).
    + rewrite bool_decide_false by lia. by rewrite <- agg_of_snoc.
    + rewrite bool_decide_true by (split; [lia|done]). done.
Qed.

(** The protocol implements the grouping: what is published is the aggregate
    of each closed group, in order, and what is left is the aggregate of the
    open one. *)
Lemma agg_run_refines T a0 g xs :
  agg_reset a0 = a0 → Forall in_range g → Forall in_range xs →
  agg_run T (agg_of a0 g) xs =
  let '(g', cs) := group_run T g xs in (agg_of a0 g', agg_of a0 <$> cs).
Proof using H0.
  intros H1. revert g. induction xs as [|[ts x] xs IH]; intros g Hg Hxs; [done|].
  apply Forall_cons in Hxs as [Hx Hxs]. cbn [agg_run group_run].
  pose proof (agg_put_step T a0 g (ts, x) H1 Hg Hx) as Hput. cbn [fst snd] in Hput. rewrite Hput.
  assert (Forall in_range (group_step T g (ts, x)).1) as Hg1.
  { unfold group_step. case_step; [case_step|]; cbn [fst];
      rewrite ?Forall_app, ?Forall_singleton; auto. }
  destruct (group_step T g (ts, x)) as [g1 c1]. cbn [fst] in Hg1.
  rewrite IH by done. destruct (group_run T g1 xs) as [g2 c2]. by rewrite fmap_app.
Qed.
End aggregates.

(** ** Streams *)

(** A handler that follows the protocol on an aggregate kept in a larger
    state [S], run on a stream of observations. *)
Section stream.
Context {A X S O : Type} `{AggregateLaws A X}.
Context (handle : Z * X → M S O ()) (sel : S → option A) (store : A → S → S) (publish : A → O).
Context (T : Z) (a0 : A) (ok : X → Prop).
Hypothesis empty : agg_reset a0 = a0.
Hypothesis sel_store : ∀ a s, sel (store a s) = Some a.
Hypothesis store_store : ∀ a a' s, store a (store a' s) = store a s.
Hypothesis store_sel : ∀ a s, sel s = Some a → store a s = s.
Hypothesis follows : ∀ g x s,
  Forall in_range g → in_range x → ok x.2 → sel s = Some (agg_of a0 g) →
  handle x s = let '(a', closed) := agg_put T x.1 x.2 (agg_of a0 g) in
               Ok ((), store a' s, publish <$> closed).

Lemma stream_refines g xs s :
  Forall in_range g → Forall (λ x, in_range x ∧ ok x.2) xs → sel s = Some (agg_of a0 g) →
  for_each_m handle xs s =
  let '(g', cs) := group_run T g xs in
  Ok ((), store (agg_of a0 g') s, (λ g, publish (agg_of a0 g)) <$> cs).
Proof using All.
  revert g s. induction xs as [|x xs IH]; intros g s Hg Hxs Hs; cbn [for_each_m group_run].
  - unfold mret, M_ret. by rewrite store_sel.
  - apply Forall_cons in Hxs as [[Hx Hok] Hxs].
    assert (Forall in_range (group_step T g x).1) as Hg1.
    { unfold group_step. case_step; [case_step|]; cbn [fst];
        rewrite ?Forall_app, ?Forall_singleton; auto. }
    pose proof (follows g x s Hg Hx Hok Hs) as Hstep.
    rewrite (agg_put_step T a0 g x empty Hg Hx) in Hstep.
    destruct (group_step T g x) as [g1 c1]. cbn [fst] in Hg1.
    rewrite (M_run_bind _ _ _ _ _ _ Hstep), (IH g1) by (done || apply sel_store).
    destruct (group_run T g1 xs) as [g2 c2]. cbn [out_app].
    by rewrite store_store, <- list_fmap_compose, fmap_app.
Qed.
End stream.
