(* ===== verification/Reactor.v ===== *)
(** * The kernel reactor: the handlers of src/core.c

    One definition per PDU the listener and the management sockets accept,
    the periodic work of the tick, and [_kernel_reactor], which dispatches
    on the socket and the PDU type in the order of the source. *)

From S2P Require Import Prelude CLib Vigor Bytes Data Binf Core.
From Stdlib Require Import Ascii.

Section reactor.
Context `{Vigor} `{Pcre}.

Abbreviation K := (M kernel_t output).

Definition _pdu_is (p : pdu_t) (type : string) (min max : Z) : bool :=
  if negb (min =? 0) && (pdu_size p <? min) then false
  else if negb (max =? 0) && (max <? pdu_size p) then false
  else streq (pdu_type p) type.

(** A frame as a C string that is then read. *)
Definition frame (p : pdu_t) (i : Z) : K string := lift (deref (pdu_string p i)).

Definition non_empty (s : option string) : bool :=
  match s with Some (String _ _) => true | _ => false end.

(** ** The tick *)

Definition tick_counter (ts : Z) (kv : string * counter_t) : K () :=
  let '(name, c) := kv in
  if negb (counter_ignore c =? 0) || (counter_last_seen c =? 0) then mret ()
  else
    e ← lift (winend (counter_window c) (counter_last_seen c));
    if ts <=? e then mret ()
    else broadcast_counter c ≫= λ _, modify_db (put_counter name (counter_reset c)).

Definition tick_sample (ts : Z) (kv : string * sample_t double) : K () :=
  let '(name, s) := kv in
  if negb (sample_ignore s =? 0) || (sample_last_seen s =? 0) then mret ()
  else
    e ← lift (winend (sample_window s) (sample_last_seen s));
    if ts <=? e then mret ()
    else broadcast_sample s ≫= λ _, modify_db (put_sample name (sample_reset s)).

Definition tick_rate (ts : Z) (kv : string * rate_t) : K () :=
  let '(name, r) := kv in
  if negb (rate_ignore r =? 0) || (rate_last_seen r =? 0) then mret ()
  else
    e ← lift (winend (rate_window r) (rate_last_seen r));
    if ts <=? e then mret ()
    else broadcast_rate r ≫= λ _, modify_db (put_rate name (rate_reset r)).

Definition tick_aggregates (ts : Z) : K () :=
  db ← get_db;
  for_each_m (tick_counter ts) (for_each (counters db)) ≫= λ _,
  db ← get_db;
  for_each_m (tick_sample ts) (for_each (samples db)) ≫= λ _,
  db ← get_db;
  for_each_m (tick_rate ts) (for_each (rates db)).

(** [binf_write] and [save_keys] as the kernel calls them: the return values
    are not looked at. *)
Definition do_binf_write (e : env) : K () :=
  k ← get;
  let path := cfg_savefile (k_config k) in
  let sys := env_sys e in
  let sys := match path with
             | Some _ => sys
             | None => mk_sys false (lseek_ok sys) (ftruncate_ok sys) (mmap_ok sys) (msync_ok sys)
             end in
  '(rc, f) ← lift (binf_write sys (time_s e) (k_db k) (cfg_save_size (k_config k)));
  emit (SaveDb path rc f).

Definition do_binf_sync (e : env) : K () :=
  k ← get;
  emit (SyncDb (cfg_savefile (k_config k)) (binf_sync (env_sys e))).

Definition do_save_keys (e : env) : K () :=
  k ← get;
  match save_keys e (cfg_keysfile (k_config k)) (k_keys k) with
  | (_, Some text) => emit (SaveKeys (cfg_keysfile (k_config k)) text)
  | (_, None) => mret ()
  end.

Definition due (t : timer) (now : Z) : bool := s32 (timer_last t + timer_interval t) <? now.

Definition on_tock (e : env) : K reaction :=
  let now := time_s e in
  k ← get;
  (if due (k_tick k) now then
     modify (set_tick (mk_timer now (timer_interval (k_tick k)))) ≫= λ _,
     tick_aggregates (s32 (now - cfg_grace_period (k_config k)))
   else mret ()) ≫= λ _,
  (if k_beacon k && due (k_sweep k) now then
     modify (set_sweep (mk_timer now (timer_interval (k_sweep k)))) ≫= λ _,
     beacon_sweep e (timer_interval (k_sweep k))
   else mret ()) ≫= λ _,
  (if due (k_freshness k) now then
     modify (set_freshness (mk_timer now (timer_interval (k_freshness k)))) ≫= λ _,
     check_freshness e
   else mret ()) ≫= λ _,
  (if due (k_savestate k) now then
     modify (set_savestate (mk_timer now (timer_interval (k_savestate k)))) ≫= λ _,
     broadcast_setkeys ≫= λ _,
     do_binf_write e ≫= λ _,
     do_save_keys e
   else mret ()) ≫= λ _,
  mret Continue.

(** ** The management port *)

(** [ STATE | name ] *)
Definition mgmt_state (p : pdu_t) : K () :=
  name ← frame p 1;
  db ← get_db;
  match states db !! name with
  | None => send Management (pdu_reply p "ERROR" ["State Not Found"])
  | Some s => send Management (pdu_extend_all (pdu_reply p "STATE" [name]) (state_frames s))
  end.

(** The text is mapped from a temporary file and passed on as a C string:
    when it fills its last page there is no terminator behind it. *)
Definition page_size : Z := 4096.
Definition mapped_text (t : string) : res string :=
  if strlen t mod page_size =? 0 then Fault OutOfBounds else Ok t.

Definition dump_head : string := "---" +:+ nl +:+ "# generated by bolo" +:+ nl.

Definition dump_entry (kv : string * state_t) : string :=
  let '(name, s) := kv in
  name +:+ ":" +:+ nl +:+
  "  status:    " +:+ statstr (state_status s) +:+ nl +:+
  "  message:   " +:+ state_summary s +:+ nl +:+
  "  last_seen: " +:+ fmt_i (state_last_seen s) +:+ nl +:+
  "  fresh:     " +:+ (if negb (state_stale s =? 0) then "no" else "yes") +:+ nl.

(** [ DUMP ] *)
Definition mgmt_dump (e : env) (p : pdu_t) : K () :=
  if negb (tmpfile_ok e) then send Management (pdu_reply p "ERROR" ["Internal error"])
  else
    db ← get_db;
    let text := dump_head +:+ String.concat "" (dump_entry <$> for_each (states db)) in
    if negb (dump_ok e) then send Management (pdu_reply p "ERROR" [env_errno e])
    else
      data ← lift (mapped_text text);
      send Management (pdu_reply p "DUMP" [data]).

(** The frames from index 1 on, as [for (i = 1; i < pdu_size(pdu); i++)]
    reads them. *)
Definition arg_indices (p : pdu_t) : list Z := seqZ 1 (pdu_size p - 1).

(** [ GET.KEYS | name+ ] *)
Fixpoint get_keys_loop (p : pdu_t) (ixs : list Z) (a : pdu_t) : K pdu_t :=
  match ixs with
  | [] => mret a
  | i :: ixs' =>
      key ← frame p i;
      k ← get;
      let a := match k_keys k !! key with
               | Some (Some value) => pdu_extend (pdu_extend a key) value
               | _ => a
               end in
      get_keys_loop p ixs' a
  end.

Definition mgmt_get_keys (p : pdu_t) : K () :=
  a ← get_keys_loop p (arg_indices p) (pdu_reply p "VALUES" []);
  send Management a.

(** [ DEL.KEYS | name+ ] *)
Definition mgmt_del_keys (p : pdu_t) : K () :=
  for_each_m (λ i,
    key ← frame p i;
    modify (λ k, set_keys (<[key := None]> (k_keys k)) k)) (arg_indices p) ≫= λ _,
  send Management (pdu_reply p "OK" []).

(** [ SEARCH.KEYS | pattern ] *)
Definition mgmt_search_keys (p : pdu_t) : K () :=
  pattern ← frame p 1;
  match pcre_compile pattern with
  | inr err => send Management (pdu_reply p "ERROR" [err])
  | inl re =>
      k ← get;
      let extra := pcre_study re in
      let hits := filter (λ key, pcre_exec re extra key = 0) (for_each (k_keys k)).*1 in
      send Management (pdu_extend_all (pdu_reply p "KEYS" []) hits)
  end.

Definition event_entry (ev : event_t) : string :=
  "- name:  " +:+ event_name ev +:+ nl +:+
  "  when:  " +:+ fmt_i (event_timestamp ev) +:+ nl +:+
  "  extra: " +:+ event_extra ev +:+ nl.

(** [ GET.EVENTS | since ] *)
Definition mgmt_get_events (e : env) (p : pdu_t) : K () :=
  s ← frame p 1;
  let since := s32 (strtol s) in
  if negb (tmpfile_ok e) then send Management (pdu_reply p "ERROR" ["Internal error"])
  else
    db ← get_db;
    let evs := filter (λ ev, since ≤ event_timestamp ev) (events db) in
    let text := dump_head +:+ String.concat "" (event_entry <$> evs) in
    if negb (dump_ok e) then send Management (pdu_reply p "ERROR" ["Internal error"])
    else
      data ← lift (mapped_text text);
      send Management (pdu_reply p "EVENTS" [data]).

(** [ SAVESTATE ] *)
Definition mgmt_savestate (e : env) (p : pdu_t) : K () :=
  do_binf_write e ≫= λ _,
  do_binf_sync e ≫= λ _,
  do_save_keys e ≫= λ _,
  send Management (pdu_reply p "OK" []).

(** One of the four loops of FORGET, on any table: with [ignore], the
    matching entries are flagged; without, they are unset as the loop goes. *)
Definition forget_table {V} (set_ignore : V → V) (m : gmap string V)
    (hit : string → bool) (ignore : bool) : gmap string V :=
  if ignore then
    foldl (λ m kv, if hit kv.1 then <[kv.1 := set_ignore kv.2]> m else m) m (for_each m)
  else
    foldl (λ m kv, if hit kv.1 then delete kv.1 m else m) m (for_each_unset m hit).

Definition ignore_state (s : state_t) : state_t :=
  mk_state (state_type s) (state_name s) (state_last_seen s) (state_expiry s) (state_status s)
    (state_summary s) (state_stale s) 1.
Definition ignore_counter (c : counter_t) : counter_t :=
  mk_counter (counter_window c) (counter_name c) (counter_last_seen c) (counter_value c) 1.
Definition ignore_sample (s : sample_t double) : sample_t double :=
  mk_sample (sample_window s) (sample_name s) (sample_last_seen s) (sample_n s) (sample_min s)
    (sample_max s) (sample_sum s) (sample_mean s) (sample_mean_ s) (sample_var s) (sample_var_ s) 1.
Definition ignore_rate (r : rate_t) : rate_t :=
  mk_rate (rate_window r) (rate_name r) (rate_first_seen r) (rate_last_seen r) (rate_first r)
    (rate_last r) 1.

Definition forget_states (payload : Z) (hit : string → bool) (ig : bool) (d : db_t) : db_t :=
  if payload_is payload PAYLOAD_STATE
  then set_states (forget_table ignore_state (states d) hit ig) d else d.
Definition forget_counters (payload : Z) (hit : string → bool) (ig : bool) (d : db_t) : db_t :=
  if payload_is payload PAYLOAD_COUNTER
  then set_counters (forget_table ignore_counter (counters d) hit ig) d else d.
Definition forget_samples (payload : Z) (hit : string → bool) (ig : bool) (d : db_t) : db_t :=
  if payload_is payload PAYLOAD_SAMPLE
  then set_samples (forget_table ignore_sample (samples d) hit ig) d else d.
Definition forget_rates (payload : Z) (hit : string → bool) (ig : bool) (d : db_t) : db_t :=
  if payload_is payload PAYLOAD_RATE
  then set_rates (forget_table ignore_rate (rates d) hit ig) d else d.

(** [ FORGET | type | pattern | ig ] *)
Definition mgmt_forget (p : pdu_t) : K () :=
  s ← frame p 1;
  let payload := u16 (strtoul s) in
  s ← frame p 3;
  let ignore := negb (u8 (strtoul s) =? 0) in
  pattern ← frame p 2;
  match pcre_compile pattern with
  | inr err => send Management (pdu_reply p "ERROR" [err])
  | inl re =>
      let extra := pcre_study re in
      let hit name := pcre_exec re extra name =? 0 in
      modify_db (forget_states payload hit ignore) ≫= λ _,
      modify_db (forget_counters payload hit ignore) ≫= λ _,
      modify_db (forget_samples payload hit ignore) ≫= λ _,
      modify_db (forget_rates payload hit ignore) ≫= λ _,
      send Management (pdu_reply p "OK" [])
  end.

Definition on_management (e : env) (p : pdu_t) : K reaction :=
  (if _pdu_is p "STATE" 2 2 then mgmt_state p
   else if _pdu_is p "DUMP" 1 1 then mgmt_dump e p
   else if _pdu_is p "GET.KEYS" 2 0 then mgmt_get_keys p
   else if _pdu_is p "DEL.KEYS" 2 0 then mgmt_del_keys p
   else if _pdu_is p "SEARCH.KEYS" 2 2 then mgmt_search_keys p
   else if _pdu_is p "GET.EVENTS" 2 2 then mgmt_get_events e p
   else if _pdu_is p "SAVESTATE" 1 1 then mgmt_savestate e p
   else if _pdu_is p "FORGET" 4 4 then mgmt_forget p
   else mret ()) ≫= λ _,
  mret Continue.

(** ** The listener port *)

Definition update_state (code ts : Z) (msg : string) (s : state_t) : state_t :=
  mk_state (state_type s) (state_name s) (s32 ts) (s32 (ts + type_freshness (state_type s)))
    code msg 0 (state_ignore s).

(** [ STATE | ts | name | code | message ] *)
Definition put_state_pdu (e : env) (p : pdu_t) : K () :=
  s ← frame p 1;
  let ts := u32 (strtoul s) in
  s ← frame p 3;
  let code := u8 (atoi s) in
  match pdu_string p 2, pdu_string p 4 with
  | Some (String _ _ as name), Some (String _ _ as msg) =>
      db ← get_db;
      let '(found, db) := find_state (time_s e) db name in
      modify_db (λ _, db) ≫= λ _,
      match found with
      | Some s =>
          if state_ignore s =? 0 then
            let transition := negb (state_stale s =? 0) || negb (state_status s =? code) in
            let s := update_state code ts msg s in
            modify_db (put_state name s) ≫= λ _,
            (if transition then broadcast_transition s else mret ()) ≫= λ _,
            broadcast_state s
          else mret ()
      | None => mret ()
      end
  | _, _ => mret ()
  end.

(** [ COUNTER | ts | name | increment ] *)
Definition put_counter_pdu (p : pdu_t) : K () :=
  s ← frame p 1;
  let ts := u32 (strtoul s) in
  s ← frame p 3;
  let incr := s32 (strtol s) in
  match pdu_string p 2 with
  | Some (String _ _ as name) =>
      db ← get_db;
      let '(found, db) := find_counter db name in
      modify_db (λ _, db) ≫= λ _,
      match found with
      | Some c =>
          if counter_ignore c =? 0 then
            roll ← lift (rollover (counter_window c) (counter_last_seen c) ts);
            c ← (if roll : bool then broadcast_counter c ≫= λ _, mret (counter_reset c)
                 else mret c);
            modify_db (put_counter name
              (mk_counter (counter_window c) (counter_name c) (s32 ts)
                 (u64 (counter_value c + incr)) (counter_ignore c)))
          else mret ()
      | None => mret ()
      end
  | _ => mret ()
  end.

(** The values of a SAMPLE PDU: [sample->last_seen] is set after each value
    that was taken. *)
Definition sample_seen (ts : Z) (s : sample_t double) : sample_t double :=
  mk_sample (sample_window s) (sample_name s) (s32 ts) (sample_n s) (sample_min s) (sample_max s)
    (sample_sum s) (sample_mean s) (sample_mean_ s) (sample_var s) (sample_var_ s) (sample_ignore s).

Fixpoint sample_values (ts : Z) (p : pdu_t) (ixs : list Z) (s : sample_t double)
    : K (sample_t double) :=
  match ixs with
  | [] => mret s
  | i :: ixs' =>
      t ← frame p i;
      let v := (strtod t).1 in
      let '(rc, s') := sample_data s v in
      sample_values ts p ixs' (if negb (rc =? 0) then s' else sample_seen ts s')
  end.

(** [ SAMPLE | ts | name | value+ ] *)
Definition put_sample_pdu (p : pdu_t) : K () :=
  s ← frame p 1;
  let ts := u32 (strtoul s) in
  match pdu_string p 2 with
  | Some (String _ _ as name) =>
      db ← get_db;
      let '(found, db) := find_sample db name in
      modify_db (λ _, db) ≫= λ _,
      match found with
      | Some s =>
          if sample_ignore s =? 0 then
            roll ← lift (rollover (sample_window s) (sample_last_seen s) ts);
            s ← (if roll : bool then broadcast_sample s ≫= λ _, mret (sample_reset s)
                 else mret s);
            s ← sample_values ts p (seqZ 3 (pdu_size p - 3)) s;
            modify_db (put_sample name s)
          else mret ()
      | None => mret ()
      end
  | _ => mret ()
  end.

Definition rate_begin (ts : Z) (r : rate_t) : rate_t :=
  mk_rate (rate_window r) (rate_name r)
    (if rate_first_seen r =? 0 then s32 ts else rate_first_seen r)
    (rate_last_seen r) (rate_first r) (rate_last r) (rate_ignore r).

Definition rate_seen (ts : Z) (r : rate_t) : rate_t :=
  mk_rate (rate_window r) (rate_name r) (rate_first_seen r) (s32 ts) (rate_first r) (rate_last r)
    (rate_ignore r).

(** [ RATE | ts | name | value ] *)
Definition put_rate_pdu (p : pdu_t) : K () :=
  s ← frame p 1;
  let ts := u32 (strtoul s) in
  s ← frame p 3;
  let v := strtoul s in
  match pdu_string p 2 with
  | Some (String _ _ as name) =>
      db ← get_db;
      let '(found, db) := find_rate db name in
      modify_db (λ _, db) ≫= λ _,
      match found with
      | Some r =>
          if rate_ignore r =? 0 then
            roll ← lift (rollover (rate_window r) (rate_last_seen r) ts);
            r ← (if roll : bool then broadcast_rate r ≫= λ _, mret (rate_reset r) else mret r);
            let r := rate_begin ts r in
            let '(rc, r) := rate_data r v in
            modify_db (put_rate name (if negb (rc =? 0) then r else rate_seen ts r))
          else mret ()
      | None => mret ()
      end
  | _ => mret ()
  end.

(** [ EVENT | ts | name | description ] *)
Definition put_event_pdu (p : pdu_t) : K () :=
  s ← frame p 1;
  name ← frame p 2;
  extra ← frame p 3;
  let ev := mk_event (s32 (strtol s)) name extra in
  broadcast_event ev ≫= λ _,
  k ← get;
  db ← lift (buffer_event (k_db k) ev (cfg_events_max (k_config k)) (cfg_events_keep (k_config k)));
  modify_db (λ _, db).

(** [for (i = 1; i < pdu_size(pdu); i += 2)] *)
Fixpoint set_keys_loop (p : pdu_t) (n : nat) (i : Z) : K () :=
  match n with
  | O => mret ()
  | S n' =>
      if i <? pdu_size p then
        key ← frame p i;
        value ← frame p (i + 1);
        modify (λ k, set_keys (<[key := Some value]> (k_keys k)) k) ≫= λ _,
        set_keys_loop p n' (i + 2)
      else mret ()
  end.

(** [ SET.KEYS | (key|value)+ ] *)
Definition set_keys_pdu (p : pdu_t) : K () := set_keys_loop p (Z.to_nat (pdu_size p)) 1.

Definition on_listener (e : env) (p : pdu_t) : K reaction :=
  (if _pdu_is p "STATE" 5 5 then put_state_pdu e p
   else if _pdu_is p "COUNTER" 4 4 then put_counter_pdu p
   else if _pdu_is p "SAMPLE" 4 0 then put_sample_pdu p
   else if _pdu_is p "RATE" 4 4 then put_rate_pdu p
   else if _pdu_is p "EVENT" 4 4 then put_event_pdu p
   else if _pdu_is p "SET.KEYS" 3 0 && (Z.rem (pdu_size p - 1) 2 =? 0) then set_keys_pdu p
   else mret ()) ≫= λ _,
  mret Continue.

(** ** Dispatch *)

Definition _kernel_reactor (e : env) (s : socket) (p : pdu_t) : K reaction :=
  match s with
  | Control => mret Halt
  | Tock => on_tock e
  | Management => on_management e p
  | Listener => on_listener e p
  | _ => mret Halt
  end.
End reactor.
