(* ===== verification/ReactorFacts.v ===== *)
(** * Theorems on the kernel reactor

    What each PDU does, on every branch; the refinement of the counters,
    samples and rates to the windowed grouping of [Windowed]; the tick. *)

From S2P Require Import Prelude CLib Vigor Bytes Data DataFacts Binf Core CoreFacts Windowed Reactor.

(** ** Frames and dispatch *)

Section frames.
Context `{VL : VigorLaws} `{Pcre}.
Abbreviation K := (M kernel_t output).

Lemma frame_bind {B} p i s (f : string → K B) k :
  0 ≤ i → pdu_frames p !! Z.to_nat i = Some s → (frame p i ≫= f) k = f s k.
Proof using VL. intros Hi Hs. unfold frame. rewrite string_frames, Hs by done. cbn [deref]. by mstep. Qed.

Lemma pdu_string_eq p i s :
  0 ≤ i → pdu_frames p !! Z.to_nat i = Some s → pdu_string p i = Some s.
Proof using VL. intros Hi Hs. by rewrite string_frames, Hs. Qed.

(** [_pdu_is] on a message whose frames are known. *)
Lemma pdu_is_frames p t fs type min max :
  pdu_frames p = t :: fs →
  _pdu_is p type min max =
  ((min =? 0) || (min <=? Z.of_nat (S (length fs)))) &&
  ((max =? 0) || (Z.of_nat (S (length fs)) <=? max)) && streq t type.
Proof using VL.
  intros Hp. unfold _pdu_is. rewrite size_frames, (pdu_type_of p t fs Hp), Hp. cbn [length].
  destruct (Z.eqb_spec min 0), (Z.eqb_spec max 0); cbn [negb andb orb].
  - done.
  - rewrite Z.leb_antisym. by case_step.
  - rewrite Z.leb_antisym. by case_step.
  - rewrite !Z.leb_antisym. repeat case_step; done.
Qed.
End frames.

(** Reads the frames of a message given as a list. *)
Ltac read_frames Hp :=
  repeat first
    [ progress mstep
    | erewrite frame_bind; [|lia|rewrite Hp; reflexivity]; cbv beta
    | erewrite pdu_string_eq; [|lia|rewrite Hp; reflexivity] ].

(** Decides the dispatch on a message given as a list. *)
Ltac dispatch Hp :=
  repeat (rewrite (pdu_is_frames _ _ _ _ _ _ Hp); cbn [length];
          match goal with |- context [?a && streq ?x ?y] =>
            let v := eval vm_compute in (a && streq x y) in change (a && streq x y) with v
          end; cbn iota).

(** ** The three aggregates *)

#[export] Instance counter_agg : Aggregate counter_t Z := {|
  agg_last := counter_last_seen;
  agg_reset := counter_reset;
  agg_feed ts incr c := mk_counter (counter_window c) (counter_name c) (s32 ts)
                          (u64 (counter_value c + incr)) (counter_ignore c);
|}.

#[export] Instance counter_agg_laws : AggregateLaws counter_t Z.
Proof. split; done. Qed.

(** What the frames of a SAMPLE message stand for. *)
Definition values_of (vs : list string) : list double := (λ t, (strtod t).1) <$> vs.

#[export] Instance sample_agg : Aggregate (sample_t double) (list string) := {|
  agg_last := sample_last_seen;
  agg_reset := sample_reset;
  agg_feed ts vs s := sample_seen ts (sample_feed s (values_of vs));
|}.

Lemma sample_reset_data s v : sample_reset (sample_data s v).2 = sample_reset (D := double) s.
Proof. unfold sample_data. by destruct (if sample_n s =? 0 then _ else _). Qed.

#[export] Instance sample_agg_laws : AggregateLaws (sample_t double) (list string).
Proof.
  split; try done. intros ts vs s. cbn [agg_reset agg_feed sample_agg].
  generalize (values_of vs). clear vs. intros vs.
  change (sample_reset (sample_seen ts (sample_feed s vs))) with (sample_reset (sample_feed s vs)).
  revert s. induction vs as [|v vs IH]; intros s; [done|].
  change (sample_feed s (v :: vs)) with (sample_feed (sample_data s v).2 vs).
  by rewrite IH, sample_reset_data.
Qed.

#[export] Instance rate_agg : Aggregate rate_t Z := {|
  agg_last := rate_last_seen;
  agg_reset := rate_reset;
  agg_feed ts v r := rate_seen ts (rate_data (rate_begin ts r) v).2;
|}.

#[export] Instance rate_agg_laws : AggregateLaws rate_t Z.
Proof. split; done. Qed.

Section aggregates.
Context `{VL : VigorLaws} `{Pcre}.
Abbreviation K := (M kernel_t output).

Definition counter_pdu (c : counter_t) : pdu_t :=
  pdu_extend_all (pdu_make "COUNTER" [])
    [fmt_u (win_of (counter_window c) (counter_last_seen c)); counter_name c; fmt_lu (counter_value c)].

Definition sample_pdu (s : sample_t double) : pdu_t :=
  pdu_extend_all (pdu_make "SAMPLE" [])
    [fmt_u (win_of (sample_window s) (sample_last_seen s)); sample_name s; fmt_u (sample_n s);
     fmt_e (sample_min s); fmt_e (sample_max s); fmt_e (sample_sum s); fmt_e (sample_mean s);
     fmt_e (sample_var s)].

Definition rate_pdu (r : rate_t) : pdu_t :=
  pdu_extend_all (pdu_make "RATE" [])
    [fmt_u (win_of (rate_window r) (rate_last_seen r)); rate_name r;
     fmt_i (window_time (rate_window r)); fmt_e (rate_calc r (window_time (rate_window r)))].

Lemma broadcast_counter_run c k :
  wf_window (counter_window c) →
  broadcast_counter c k = Ok ((), k, [Send Broadcast (counter_pdu c)]).
Proof. intros Hw. unfold broadcast_counter. rewrite winstart_run by done. by mstep. Qed.

Lemma broadcast_sample_run s k :
  wf_window (sample_window s) →
  broadcast_sample s k = Ok ((), k, [Send Broadcast (sample_pdu s)]).
Proof. intros Hw. unfold broadcast_sample. rewrite winstart_run by done. by mstep. Qed.

Lemma broadcast_rate_run r k :
  wf_window (rate_window r) →
  broadcast_rate r k = Ok ((), k, [Send Broadcast (rate_pdu r)]).
Proof. intros Hw. unfold broadcast_rate. rewrite winstart_run by done. by mstep. Qed.

(** A COUNTER message for a counter that is known or matched. *)
Lemma put_counter_run p k t ts name v c db' :
  pdu_frames p = [t; ts; name; v] → name ≠ EmptyString →
  find_counter (k_db k) name = (Some c, db') → counter_ignore c = 0 →
  wf_window (counter_window c) → is_s32 (counter_last_seen c) →
  put_counter_pdu p k =
  let '(c', closed) := agg_put (window_time (counter_window c)) (u32 (strtoul ts)) (s32 (strtol v)) c in
  Ok ((), set_db (put_counter name c' db') k, (λ c, Send Broadcast (counter_pdu c)) <$> closed).
Proof using VL.
  intros Hp Hne Hfind Hig Hw Hl. unfold put_counter_pdu. read_frames Hp.
  destruct name as [|ch name]; [done|]. mstep. rewrite Hfind. mstep. rewrite Hig. cbn [Z.eqb].
  rewrite rollover_spec by (done || apply u32_range). mstep.
  unfold agg_put. cbn [agg_last counter_agg].
  case_bool_decide as Hb; mstep.
  - rewrite (M_run_bind _ _ _ _ _ _ (broadcast_counter_run c _ Hw)).
    mstep. unfold modify_db, modify. mstep. done.
  - unfold modify_db, modify. mstep. done.
Qed.

(** The frames from some index on, one by one. *)
Lemma frames_from p l vs :
  pdu_frames p = l ++ vs →
  Forall2 (λ i s, 0 ≤ i ∧ pdu_frames p !! Z.to_nat i = Some s)
    (seqZ (Z.of_nat (length l)) (Z.of_nat (length vs))) vs.
Proof.
  intros Hp. rewrite Hp. clear Hp. revert l. induction vs as [|v vs IH]; intros l; [done|].
  rewrite seqZ_cons by (cbn; lia). constructor.
  - split; [lia|]. rewrite Nat2Z.id, list_lookup_middle; done.
  - specialize (IH (l ++ [v])). rewrite length_app, <- app_assoc in IH. cbn [app length] in *.
    replace (Z.succ (Z.of_nat (length l))) with (Z.of_nat (length l + 1)) by lia.
    replace (Z.pred (Z.of_nat (S (length vs)))) with (Z.of_nat (length vs)) by lia. done.
Qed.

Lemma sample_data_rc (s : sample_t double) v : (sample_data s v).1 = 0.
Proof. unfold sample_data. by destruct (if sample_n s =? 0 then _ else _). Qed.

Lemma sample_values_run ts p ixs vs s k :
  Forall2 (λ i s, 0 ≤ i ∧ pdu_frames p !! Z.to_nat i = Some s) ixs vs →
  sample_values ts p ixs s k =
    Ok (foldl (λ s v, sample_seen ts (sample_data s v).2) s (values_of vs), k, []).
Proof using VL.
  intros Hvs. revert s. induction Hvs as [|i t ixs vs [Hi Ht] _ IH]; intros s; [done|].
  cbn [sample_values]. erewrite frame_bind by done.
  rewrite (surjective_pairing (sample_data s (strtod t).1)), sample_data_rc.
  cbn [Z.eqb negb]. by rewrite IH.
Qed.

Lemma sample_data_seen ts s v :
  (sample_data (sample_seen ts s) v).2 = sample_seen ts (sample_data s v).2.
Proof. unfold sample_data. cbn. by destruct (if sample_n s =? 0 then _ else _). Qed.

Lemma sample_seen_feed ts s vs :
  vs ≠ [] → foldl (λ s v, sample_seen ts (sample_data s v).2) s vs = sample_seen ts (sample_feed s vs).
Proof.
  intros Hne. destruct vs as [|v vs]; [done|]. clear Hne. cbn [foldl].
  change (sample_feed s (v :: vs)) with (sample_feed (sample_data s v).2 vs).
  generalize (sample_data s v).2. clear s v. induction vs as [|v vs IH]; intros s; [done|].
  cbn [foldl]. rewrite sample_data_seen.
  change (sample_seen ts (sample_seen ts (sample_data s v).2)) with (sample_seen ts (sample_data s v).2).
  apply IH.
Qed.

(** A SAMPLE message for a sample that is known or matched. *)
Lemma put_sample_run p k t ts name vs s db' :
  pdu_frames p = t :: ts :: name :: vs → vs ≠ [] → name ≠ EmptyString →
  find_sample (k_db k) name = (Some s, db') → sample_ignore s = 0 →
  wf_window (sample_window s) → is_s32 (sample_last_seen s) →
  put_sample_pdu p k =
  let '(s', closed) := agg_put (window_time (sample_window s)) (u32 (strtoul ts)) vs s in
  Ok ((), set_db (put_sample name s' db') k, (λ s, Send Broadcast (sample_pdu s)) <$> closed).
Proof using VL.
  intros Hp Hvs Hne Hfind Hig Hw Hl. unfold put_sample_pdu. read_frames Hp.
  destruct name as [|ch name]; [done|]. mstep. rewrite Hfind. mstep. rewrite Hig. cbn [Z.eqb].
  rewrite rollover_spec by (done || apply u32_range). mstep.
  assert (seqZ 3 (pdu_size p - 3) = seqZ (Z.of_nat (length [t; ts; String ch name])) (Z.of_nat (length vs)))
    as Hix by (rewrite size_frames, Hp; cbn [length]; f_equal; lia).
  pose proof (frames_from p [t; ts; String ch name] vs Hp) as Hfr. rewrite <- Hix in Hfr.
  assert (values_of vs ≠ []) as Hvs' by (by destruct vs).
  unfold agg_put. cbn [agg_last agg_feed agg_reset sample_agg].
  case_bool_decide as Hb; mstep.
  - rewrite (M_run_bind _ _ _ _ _ _ (broadcast_sample_run s _ Hw)).
    mstep. rewrite (M_run_bind _ _ _ _ _ _ (sample_values_run _ _ _ _ _ _ Hfr)).
    rewrite sample_seen_feed by done. unfold modify_db, modify. mstep. done.
  - rewrite (M_run_bind _ _ _ _ _ _ (sample_values_run _ _ _ _ _ _ Hfr)).
    rewrite sample_seen_feed by done. unfold modify_db, modify. mstep. done.
Qed.

(** A RATE message for a rate that is known or matched. *)
Lemma put_rate_run p k t ts name v r db' :
  pdu_frames p = [t; ts; name; v] → name ≠ EmptyString →
  find_rate (k_db k) name = (Some r, db') → rate_ignore r = 0 →
  wf_window (rate_window r) → is_s32 (rate_last_seen r) →
  put_rate_pdu p k =
  let '(r', closed) := agg_put (window_time (rate_window r)) (u32 (strtoul ts)) (strtoul v) r in
  Ok ((), set_db (put_rate name r' db') k, (λ r, Send Broadcast (rate_pdu r)) <$> closed).
Proof using VL.
  intros Hp Hne Hfind Hig Hw Hl. unfold put_rate_pdu. read_frames Hp.
  destruct name as [|ch name]; [done|]. mstep. rewrite Hfind. mstep. rewrite Hig. cbn [Z.eqb].
  rewrite rollover_spec by (done || apply u32_range). mstep.
  unfold agg_put. cbn [agg_last agg_feed agg_reset rate_agg].
  case_bool_decide as Hb; mstep.
  - rewrite (M_run_bind _ _ _ _ _ _ (broadcast_rate_run r _ Hw)).
    mstep. unfold modify_db, modify. mstep. done.
  - unfold modify_db, modify. mstep. done.
Qed.
End aggregates.

(** ** Streams of messages *)

Section streams.
Context `{VL : VigorLaws} `{Pcre}.
Abbreviation K := (M kernel_t output).

(** The reactor on a message of the listener socket. *)
Definition listen (e : env) (p : pdu_t) : K () := _kernel_reactor e Listener p ≫= λ _, mret ().

(** The messages the agents send (bolo_pdu.c writes the numbers this way). *)
Definition counter_msg (name : string) (x : Z * Z) : pdu_t :=
  pdu_make "COUNTER" [fmt_u x.1; name; fmt_i x.2].
Definition sample_msg (name : string) (x : Z * list string) : pdu_t :=
  pdu_make "SAMPLE" (fmt_u x.1 :: name :: x.2).
Definition rate_msg (name : string) (x : Z * Z) : pdu_t :=
  pdu_make "RATE" [fmt_u x.1; name; fmt_lu x.2].

Lemma listen_counter e name x k :
  listen e (counter_msg name x) k = (put_counter_pdu (counter_msg name x) ≫= λ _, mret ()) k.
Proof using VL.
  unfold listen, _kernel_reactor, on_listener.
  assert (pdu_frames (counter_msg name x) = ["COUNTER"; fmt_u x.1; name; fmt_i x.2]) as Hp
    by apply frames_make.
  dispatch Hp. by mstep.
Qed.

Lemma listen_rate e name x k :
  listen e (rate_msg name x) k = (put_rate_pdu (rate_msg name x) ≫= λ _, mret ()) k.
Proof using VL.
  unfold listen, _kernel_reactor, on_listener.
  assert (pdu_frames (rate_msg name x) = ["RATE"; fmt_u x.1; name; fmt_lu x.2]) as Hp
    by apply frames_make.
  dispatch Hp. by mstep.
Qed.

Lemma listen_sample e name x k :
  x.2 ≠ [] → listen e (sample_msg name x) k = (put_sample_pdu (sample_msg name x) ≫= λ _, mret ()) k.
Proof using VL.
  intros Hne. unfold listen, _kernel_reactor, on_listener.
  assert (pdu_frames (sample_msg name x) = "SAMPLE" :: fmt_u x.1 :: name :: x.2) as Hp
    by apply frames_make.
  rewrite !(pdu_is_frames _ _ _ _ _ _ Hp). cbn [length].
  change (streq "SAMPLE" "STATE") with false. change (streq "SAMPLE" "COUNTER") with false.
  change (streq "SAMPLE" "SAMPLE") with true. rewrite !andb_false_r. change (0 =? 0) with true.
  destruct x as [ts [|v vs]]; [done|]. cbn [snd length] in *.
  destruct (Z.leb_spec 4 (Z.of_nat (S (S (S (S (length vs))))))); [|lia].
  cbn [orb andb Z.eqb]. by mstep.
Qed.

(** The increments of a group. *)
Definition increments (g : list (Z * Z)) : Z := foldr (λ x n, x.2 + n) 0 g.

(** The counter of a group, and what is published when it closes. *)
Definition counter_total (w : window_t) (name : string) (g : list (Z * Z)) : counter_t :=
  match last g with
  | None => new_counter name w
  | Some x => mk_counter w name x.1 (u64 (increments g)) 0
  end.

Lemma increments_snoc g x : increments (g ++ [x]) = increments g + x.2.
Proof. unfold increments. rewrite foldr_app. cbn. induction g as [|y g IH]; cbn; lia. Qed.

Lemma counter_agg_of w name g :
  Forall in_range g → agg_of (new_counter name w) g = counter_total w name g.
Proof.
  intros Hg. induction g as [|x g IH] using rev_ind; [done|].
  rewrite Forall_app, Forall_singleton in Hg. destruct Hg as [Hg Hx].
  rewrite agg_of_snoc, IH by done. unfold counter_total. rewrite last_snoc, increments_snoc.
  cbn. unfold in_range in Hx. rewrite s32_id by (unfold is_s32; lia).
  destruct g as [|y g _] using rev_ind; [cbn; done|]. rewrite last_snoc. cbn.
  f_equal. by rewrite u64_add_idemp_l.
Qed.

Lemma counter_total_window w name g : counter_window (counter_total w name g) = w.
Proof. unfold counter_total. by destruct (last g). Qed.

Lemma counter_total_ignore w name g : counter_ignore (counter_total w name g) = 0.
Proof. unfold counter_total. by destruct (last g). Qed.

Lemma last_in_range {X} (g : list (Z * X)) x : Forall in_range g → last g = Some x → 0 < x.1 < 2 ^ 31.
Proof.
  intros Hg Hx. rewrite Forall_forall in Hg. apply (Hg x). by apply last_Some_elem_of.
Qed.

Lemma counter_total_last w name g :
  Forall in_range g → is_s32 (counter_last_seen (counter_total w name g)).
Proof.
  intros Hg. unfold counter_total. destruct (last g) as [x|] eqn:E; [|done].
  pose proof (last_in_range g x Hg E). cbn. unfold is_s32. lia.
Qed.

Lemma put_counter_twice name c c' d : put_counter name c (put_counter name c' d) = put_counter name c d.
Proof. unfold put_counter. cbn [counters set_counters]. by rewrite insert_insert_eq. Qed.

Lemma counter_stream_run e k name w xs :
  name ≠ EmptyString → wf_window w →
  counters (k_db k) !! name = Some (new_counter name w) →
  Forall (λ x, in_range x ∧ is_s32 x.2) xs →
  let '(g, closed) := group_run (window_time w) [] xs in
  for_each_m (λ x, listen e (counter_msg name x)) xs k =
  Ok ((), set_db (put_counter name (counter_total w name g) (k_db k)) k,
      (λ c, Send Broadcast (counter_pdu (counter_total w name c))) <$> closed).
Proof using VL.
  intros Hname Hw Hk Hxs.
  assert (Forall in_range xs) as Hxr by (eapply Forall_impl; [exact Hxs|]; by intros ? []).
  rewrite (stream_refines (λ x, listen e (counter_msg name x)) (λ k, counters (k_db k) !! name)
    (λ c k, set_db (put_counter name c (k_db k)) k) (λ c, Send Broadcast (counter_pdu c))
    (window_time w) (new_counter name w) is_s32) with (g := []).
  - destruct (group_run (window_time w) [] xs) as [g cs] eqn:E.
    destruct (group_run_all in_range _ _ _ _ Hxr E) as [Hg Hcs].
    rewrite counter_agg_of by done. do 2 f_equal. clear E. induction Hcs as [|c cs Hc _ IH]; [done|].
    rewrite !fmap_cons. by rewrite IH, counter_agg_of.
  - done.
  - intros. apply lookup_insert_eq.
  - intros. mstep. by rewrite put_counter_twice.
  - intros c k' Hc. unfold put_counter. rewrite insert_id, set_counters_id by done. by mstep.
  - intros g x k' Hg Hx Hok Hsel. rewrite listen_counter. rewrite counter_agg_of in * by done.
    pose proof (put_counter_run (counter_msg name x) k' _ _ _ _ (counter_total w name g) (k_db k')
      (frames_make _ _) Hname) as Hrun.
    rewrite strtoul_fmt_u, strtol_fmt_i in Hrun by done.
    unfold in_range in Hx. rewrite (u32_id (u32 x.1)), u32_id, s32_id in Hrun
      by (done || apply u32_range || (unfold is_u32; lia)).
    rewrite counter_total_window in Hrun.
    destruct (agg_put (window_time w) x.1 x.2 (counter_total w name g)) as [c' cl].
    rewrite (M_run_bind _ _ _ _ _ _ (Hrun ltac:(unfold find_counter; by rewrite Hsel)
      (counter_total_ignore _ _ _) Hw (counter_total_last _ _ _ Hg))).
    mstep. unfold out_app, mret, M_ret. by rewrite app_nil_r.
  - done.
  - done.
  - done.
Qed.

(** C4: a stream of COUNTER messages for one name implements the grouping of
    its increments by window: the kernel publishes, for every window that an
    observation of another window closes, one COUNTER message with the start
    of that window and the sum of its increments modulo 2^64, in order, and
    keeps the sum of the last window; no other entry, table or key changes. *)
Theorem counter_stream_refines e k name w xs :
  name ≠ EmptyString → wf_window w →
  counters (k_db k) !! name = Some (new_counter name w) →
  Forall (λ x, in_range x ∧ is_s32 x.2) xs →
  let '(g, closed) := group_run (window_time w) [] xs in
  for_each_m (λ x, listen e (counter_msg name x)) xs k =
  Ok ((), set_db (put_counter name (counter_total w name g) (k_db k)) k,
      (λ c, Send Broadcast (counter_pdu (counter_total w name c))) <$> closed).
Proof using VL. apply counter_stream_run. Qed.

(** The sample of a group: all its values, in order. *)
Definition sample_total (w : window_t) (name : string) (g : list (Z * list string)) : sample_t double :=
  match last g with
  | None => new_sample name w
  | Some x => sample_seen x.1 (sample_feed (new_sample name w) (values_of (concat g.*2)))
  end.

Lemma sample_feed_seen ts s vs : sample_feed (sample_seen ts s) vs = sample_seen ts (sample_feed s vs).
Proof.
  revert s. induction vs as [|v vs IH]; intros s; [done|].
  change (sample_feed ?s (v :: vs)) with (sample_feed (sample_data s v).2 vs).
  by rewrite sample_data_seen, IH.
Qed.

Lemma sample_feed_app s vs ws : sample_feed (D := double) s (vs ++ ws) = sample_feed (sample_feed s vs) ws.
Proof. apply foldl_app. Qed.

Lemma sample_agg_of w name g :
  agg_of (new_sample name w) g = sample_total w name g.
Proof.
  induction g as [|x g IH] using rev_ind; [done|].
  rewrite agg_of_snoc, IH. unfold sample_total. rewrite last_snoc.
  rewrite fmap_app, concat_app. cbn [fmap list_fmap concat]. rewrite app_nil_r.
  unfold values_of at 2. rewrite fmap_app, sample_feed_app. cbn [agg_feed sample_agg].
  destruct g as [|y g _] using rev_ind; [done|]. rewrite last_snoc, sample_feed_seen. done.
Qed.

Lemma sample_data_frame (s : sample_t double) v :
  sample_window (sample_data s v).2 = sample_window s ∧ sample_name (sample_data s v).2 = sample_name s ∧
  sample_ignore (sample_data s v).2 = sample_ignore s ∧
  sample_last_seen (sample_data s v).2 = sample_last_seen s.
Proof. unfold sample_data. by destruct (if sample_n s =? 0 then _ else _). Qed.

Lemma sample_feed_frame (s : sample_t double) vs :
  sample_window (sample_feed s vs) = sample_window s ∧ sample_name (sample_feed s vs) = sample_name s ∧
  sample_ignore (sample_feed s vs) = sample_ignore s ∧
  sample_last_seen (sample_feed s vs) = sample_last_seen s.
Proof.
  revert s. induction vs as [|v vs IH]; intros s; [done|].
  change (sample_feed s (v :: vs)) with (sample_feed (sample_data s v).2 vs).
  destruct (IH (sample_data s v).2) as (-> & -> & -> & ->). apply sample_data_frame.
Qed.

Lemma sample_total_frame w name g :
  Forall in_range g →
  sample_window (sample_total w name g) = w ∧ sample_ignore (sample_total w name g) = 0 ∧
  is_s32 (sample_last_seen (sample_total w name g)).
Proof.
  intros Hg. unfold sample_total. destruct (last g) as [x|] eqn:E; [|done].
  destruct (sample_feed_frame (new_sample name w) (values_of (concat g.*2))) as (H1 & _ & H2 & _).
  pose proof (last_in_range g x Hg E).
  cbn [sample_window sample_ignore sample_last_seen sample_seen]. rewrite H1, H2.
  split_and!; [done|done|apply s32_range].
Qed.

Lemma put_sample_twice name c c' d : put_sample name c (put_sample name c' d) = put_sample name c d.
Proof. unfold put_sample. cbn [samples set_samples]. by rewrite insert_insert_eq. Qed.

(** C6: a stream of SAMPLE messages for one name implements the grouping of
    its values by window: one SAMPLE message per closed window, in order,
    with the statistics [sample_data] computes of exactly the values of that
    window; the values of the open window are kept. *)
Theorem sample_stream_refines e k name w xs :
  name ≠ EmptyString → wf_window w →
  samples (k_db k) !! name = Some (new_sample name w) →
  Forall (λ x, in_range x ∧ x.2 ≠ []) xs →
  let '(g, closed) := group_run (window_time w) [] xs in
  for_each_m (λ x, listen e (sample_msg name x)) xs k =
  Ok ((), set_db (put_sample name (sample_total w name g) (k_db k)) k,
      (λ c, Send Broadcast (sample_pdu (sample_total w name c))) <$> closed).
Proof using VL.
  intros Hname Hw Hk Hxs.
  rewrite (stream_refines (λ x, listen e (sample_msg name x)) (λ k, samples (k_db k) !! name)
    (λ c k, set_db (put_sample name c (k_db k)) k) (λ c, Send Broadcast (sample_pdu c))
    (window_time w) (new_sample name w) (λ vs, vs ≠ [])) with (g := []).
  - destruct (group_run (window_time w) [] xs) as [g cs]. rewrite sample_agg_of. do 2 f_equal.
    apply list_fmap_ext. intros _ c _. by rewrite sample_agg_of.
  - done.
  - intros. apply lookup_insert_eq.
  - intros. mstep. by rewrite put_sample_twice.
  - intros c k' Hc. unfold put_sample. rewrite insert_id, set_samples_id by done. by mstep.
  - intros g x k' Hg Hx Hok Hsel. rewrite listen_sample by done. rewrite sample_agg_of in *.
    destruct (sample_total_frame w name g Hg) as (Ew & Eig & El).
    pose proof (put_sample_run (sample_msg name x) k' _ _ _ _ (sample_total w name g) (k_db k')
      (frames_make _ _) Hok Hname) as Hrun.
    unfold in_range in Hx. rewrite strtoul_fmt_u, (u32_id (u32 x.1)), u32_id, Ew in Hrun
      by (done || apply u32_range || (unfold is_u32; lia)).
    destruct (agg_put (window_time w) x.1 x.2 (sample_total w name g)) as [c' cl].
    rewrite (M_run_bind _ _ _ _ _ _ (Hrun ltac:(unfold find_sample; by rewrite Hsel) Eig Hw El)).
    mstep. unfold out_app, mret, M_ret. by rewrite app_nil_r.
  - done.
  - done.
  - done.
Qed.

(** The rate of a group: its first and last observations. *)
Definition rate_total (w : window_t) (name : string) (g : list (Z * Z)) : rate_t :=
  match head g, last g with
  | Some x, Some y => mk_rate w name x.1 y.1 x.2 y.2 0
  | _, _ => new_rate name w
  end.

Lemma rate_total_snoc w name g x :
  rate_total w name (g ++ [x]) =
  mk_rate w name (match head g with Some y => y.1 | None => x.1 end) x.1
    (match head g with Some y => y.2 | None => x.2 end) x.2 0.
Proof. unfold rate_total. rewrite last_snoc. by destruct g. Qed.

Lemma rate_agg_of w name g :
  Forall in_range g → agg_of (new_rate name w) g = rate_total w name g.
Proof.
  intros Hg. induction g as [|x g IH] using rev_ind; [done|].
  rewrite Forall_app, Forall_singleton in Hg. destruct Hg as [Hg Hx]. unfold in_range in Hx.
  rewrite agg_of_snoc, IH, rate_total_snoc by done.
  destruct g as [|y g _] using rev_ind.
  - cbn. unfold rate_seen, rate_begin. cbn. by rewrite s32_id by (unfold is_s32; lia).
  - rewrite Forall_app, Forall_singleton in Hg. destruct Hg as [Hg Hy]. unfold in_range in Hy.
    assert (∃ h, head (g ++ [y]) = Some h ∧ 0 < h.1) as (h & Hh & Hpos).
    { destruct g as [|h g]; [exists y|exists h]; (split; [done|]); [lia|].
      apply Forall_cons in Hg as [Hh _]. unfold in_range in Hh. lia. }
    unfold rate_total. rewrite Hh, last_snoc. cbn. unfold rate_seen, rate_begin, rate_data. cbn.
    destruct (Z.eqb_spec h.1 0); [lia|]. destruct (Z.eqb_spec y.1 0); [lia|].
    by rewrite s32_id by (unfold is_s32; lia).
Qed.

Lemma rate_total_frame w name g :
  Forall in_range g →
  rate_window (rate_total w name g) = w ∧ rate_ignore (rate_total w name g) = 0 ∧
  is_s32 (rate_last_seen (rate_total w name g)).
Proof.
  intros Hg. unfold rate_total. destruct (head g); [|done]. destruct (last g) as [y|] eqn:E; [|done].
  pose proof (last_in_range g y Hg E). cbn. unfold is_s32. split_and!; done || lia.
Qed.

Lemma put_rate_twice name c c' d : put_rate name c (put_rate name c' d) = put_rate name c d.
Proof. unfold put_rate. cbn [rates set_rates]. by rewrite insert_insert_eq. Qed.

(** C7: a stream of RATE messages for one name implements the grouping of its
    readings by window: one RATE message per closed window, in order, of
    which the rate is computed from the first and the last reading of that
    window and their timestamps. *)
Theorem rate_stream_refines e k name w xs :
  name ≠ EmptyString → wf_window w →
  rates (k_db k) !! name = Some (new_rate name w) →
  Forall (λ x, in_range x ∧ is_u64 x.2) xs →
  let '(g, closed) := group_run (window_time w) [] xs in
  for_each_m (λ x, listen e (rate_msg name x)) xs k =
  Ok ((), set_db (put_rate name (rate_total w name g) (k_db k)) k,
      (λ c, Send Broadcast (rate_pdu (rate_total w name c))) <$> closed).
Proof using VL.
  intros Hname Hw Hk Hxs.
  assert (Forall in_range xs) as Hxr by (eapply Forall_impl; [exact Hxs|]; by intros ? []).
  rewrite (stream_refines (λ x, listen e (rate_msg name x)) (λ k, rates (k_db k) !! name)
    (λ c k, set_db (put_rate name c (k_db k)) k) (λ c, Send Broadcast (rate_pdu c))
    (window_time w) (new_rate name w) is_u64) with (g := []).
  - destruct (group_run (window_time w) [] xs) as [g cs] eqn:E.
    destruct (group_run_all in_range _ _ _ _ Hxr E) as [Hg Hcs].
    rewrite rate_agg_of by done. do 2 f_equal. clear E. induction Hcs as [|c cs Hc _ IH]; [done|].
    rewrite !fmap_cons. by rewrite IH, rate_agg_of.
  - done.
  - intros. apply lookup_insert_eq.
  - intros. mstep. by rewrite put_rate_twice.
  - intros c k' Hc. unfold put_rate. rewrite insert_id, set_rates_id by done. by mstep.
  - intros g x k' Hg Hx Hok Hsel. rewrite listen_rate. rewrite rate_agg_of in * by done.
    destruct (rate_total_frame w name g Hg) as (Ew & Eig & El).
    pose proof (put_rate_run (rate_msg name x) k' _ _ _ _ (rate_total w name g) (k_db k')
      (frames_make _ _) Hname) as Hrun.
    unfold in_range in Hx.
    rewrite strtoul_fmt_u, strtoul_fmt_lu, (u32_id (u32 x.1)), u32_id, u64_id, Ew in Hrun
      by (done || apply u32_range || (unfold is_u32; lia)).
    destruct (agg_put (window_time w) x.1 x.2 (rate_total w name g)) as [c' cl].
    rewrite (M_run_bind _ _ _ _ _ _ (Hrun ltac:(unfold find_rate; by rewrite Hsel) Eig Hw El)).
    mstep. unfold out_app, mret, M_ret. by rewrite app_nil_r.
  - done.
  - done.
  - done.
Qed.

Lemma increments_app g h : increments (g ++ h) = increments g + increments h.
Proof. unfold increments. induction g as [|x g IH]; cbn; lia. Qed.

(** The values of the COUNTER messages among the outputs. *)
Definition published (o : list output) : Z :=
  foldr (λ x n, match x with
                | Send Broadcast p => match pdu_string p 3 with Some v => strtoul v | None => 0 end
                | _ => 0
                end + n) 0 o.

(** C5: no increment is lost or counted twice: after any stream of COUNTER
    messages for a name, the sum of the published totals and of the value
    still held equals the sum of all increments, modulo 2^64. *)
Theorem counter_conservation e k name w xs k' o c :
  name ≠ EmptyString → wf_window w →
  counters (k_db k) !! name = Some (new_counter name w) →
  Forall (λ x, in_range x ∧ is_s32 x.2) xs →
  for_each_m (λ x, listen e (counter_msg name x)) xs k = Ok ((), k', o) →
  counters (k_db k') !! name = Some c →
  u64 (published o + counter_value c) = u64 (increments xs).
Proof using VL.
  intros Hname Hw Hk Hxs Hrun Hc.
  pose proof (counter_stream_run e k name w xs Hname Hw Hk Hxs) as Href.
  destruct (group_run (window_time w) [] xs) as [g cs] eqn:E.
  rewrite Href in Hrun. injection Hrun as <- <-.
  destruct (group_run_spec (window_time w) [] xs g cs) as (Hcat & _ & Hne); [by exists 0|done|].
  rewrite app_nil_l in Hcat. unfold put_counter in Hc. cbn in Hc. rewrite lookup_insert_eq in Hc.
  injection Hc as <-. rewrite <- Hcat, increments_app.
  assert (u64 (counter_value (counter_total w name g)) = u64 (increments g)) as Hg.
  { unfold counter_total. destruct g as [|y g _] using rev_ind; [done|]. rewrite last_snoc.
    cbn [counter_value]. apply u64_id, u64_range. }
  rewrite <- u64_add_idemp_r, Hg, u64_add_idemp_r. clear -VL Hne.
  generalize (increments g). intros r. revert r.
  induction Hne as [|c cs [Hc _] _ IH]; intros r; [done|].
  rewrite fmap_cons. cbn [published foldr concat]. rewrite increments_app.
  erewrite pdu_string_eq; [|lia|unfold counter_pdu; rewrite frames_extend_all, frames_make; reflexivity].
  rewrite strtoul_fmt_lu, <- Z.add_assoc, u64_add_idemp_l.
  assert (counter_value (counter_total w name c) = u64 (increments c)) as ->.
  { unfold counter_total. destruct c as [|y c _] using rev_ind; [done|]. by rewrite last_snoc. }
  rewrite u64_add_idemp_l, <- Z.add_assoc.
  rewrite <- (u64_add_idemp_r (increments c)). unfold published in IH. rewrite IH.
  by rewrite u64_add_idemp_r.
Qed.
End streams.

(** ** Examples *)

Module StreamExample.
Definition db : @db_t ref_pcre :=
  let d := CoreExample.db in
  let d := put_counter (H := ref_pcre) "host.logins" (new_counter "host.logins" Example1.minute) d in
  let d := put_sample (H := ref_pcre) "host.mem" (new_sample "host.mem" Example1.minute) d in
  put_rate (H := ref_pcre) "host.net" (new_rate "host.net" Example1.minute) d.
Definition k : @kernel_t ref_pcre := set_db (H0 := ref_pcre) db CoreExample.k.
Definition hits : list (Z * Z) := [(60, 2); (61, 3); (125, 5); (130, -1); (240, 7)].
Definition temps : list (Z * list string) := [(60, ["1.5"; "2"]); (119, ["4"]); (120, ["8"])].
Definition reads : list (Z * Z) := [(60, 100); (90, 400); (121, 900)].
End StreamExample.

Lemma minute_wf : wf_window Example1.minute.
Proof. by vm_compute. Qed.

Lemma hits_ok : Forall (λ x, in_range x ∧ is_s32 x.2) StreamExample.hits.
Proof.
  unfold StreamExample.hits, in_range, is_s32.
  repeat (apply Forall_cons; split; [cbn [fst snd]; lia|]). by apply Forall_nil.
Qed.

Lemma temps_ok : Forall (λ x, in_range x ∧ x.2 ≠ []) StreamExample.temps.
Proof.
  unfold StreamExample.temps, in_range.
  repeat (apply Forall_cons; split; [cbn [fst snd]; split; [lia|done]|]). by apply Forall_nil.
Qed.

Lemma reads_ok : Forall (λ x, in_range x ∧ is_u64 x.2) StreamExample.reads.
Proof.
  unfold StreamExample.reads, in_range, is_u64.
  repeat (apply Forall_cons; split; [cbn [fst snd]; lia|]). by apply Forall_nil.
Qed.

Abbreviation rlisten := (listen (V := ref_vigor) (H := ref_pcre) CoreExample.e).

Lemma counter_stream_refines_witness :
  for_each_m (λ x, rlisten (counter_msg (V := ref_vigor) "host.logins" x)) StreamExample.hits
    StreamExample.k =
  Ok ((), set_db (H0 := ref_pcre) (put_counter (H := ref_pcre) "host.logins"
            (mk_counter Example1.minute "host.logins" 240 7 0) StreamExample.db) StreamExample.k,
      [Send Broadcast (("COUNTER", ["60"; "host.logins"; "5"]) : @pdu_t ref_vigor);
       Send Broadcast (("COUNTER", ["120"; "host.logins"; "4"]) : @pdu_t ref_vigor)]).
Proof.
  pose proof (counter_stream_refines (VL := ref_vigor_laws) (H := ref_pcre) CoreExample.e
    StreamExample.k "host.logins" Example1.minute StreamExample.hits
    ltac:(discriminate) minute_wf eq_refl hits_ok) as Hs.
  etrans; [exact Hs|reflexivity].
Defined.

Lemma sample_stream_refines_witness :
  ∃ k', for_each_m (λ x, rlisten (sample_msg (V := ref_vigor) "host.mem" x)) StreamExample.temps
    StreamExample.k =
  Ok ((), k',
      [Send Broadcast (("SAMPLE", ["60"; "host.mem"; "3"; "1.500000e+00"; "4.000000e+00";
                                   "7.500000e+00"; "2.500000e+00"; "1.166667e+00"])
                       : @pdu_t ref_vigor)]).
Proof.
  pose proof (sample_stream_refines (VL := ref_vigor_laws) (H := ref_pcre) CoreExample.e
    StreamExample.k "host.mem" Example1.minute StreamExample.temps
    ltac:(discriminate) minute_wf eq_refl temps_ok) as Hs.
  destruct (group_run _ _ _) as [g closed] eqn:E. vm_compute in E. injection E as <- <-.
  eexists. etrans; [exact Hs|]. apply (f_equal (λ o, Ok ((), _, o))). vm_compute. reflexivity.
Defined.

Lemma rate_stream_refines_witness :
  ∃ k', for_each_m (λ x, rlisten (rate_msg (V := ref_vigor) "host.net" x)) StreamExample.reads
    StreamExample.k =
  Ok ((), k',
      [Send Broadcast (("RATE", ["60"; "host.net"; "60"; "6.000000e+02"]) : @pdu_t ref_vigor)]).
Proof.
  pose proof (rate_stream_refines (VL := ref_vigor_laws) (H := ref_pcre) CoreExample.e
    StreamExample.k "host.net" Example1.minute StreamExample.reads
    ltac:(discriminate) minute_wf eq_refl reads_ok) as Hs.
  destruct (group_run _ _ _) as [g closed] eqn:E. vm_compute in E. injection E as <- <-.
  eexists. etrans; [exact Hs|]. apply (f_equal (λ o, Ok ((), _, o))). vm_compute. reflexivity.
Defined.

Lemma counter_conservation_witness :
  ∃ k' o c,
    for_each_m (λ x, rlisten (counter_msg (V := ref_vigor) "host.logins" x)) StreamExample.hits
      StreamExample.k = Ok ((), k', o) ∧
    u64 (published (V := ref_vigor) o + counter_value c) = 16.
Proof.
  eexists _, _, _. split; [vm_compute; reflexivity|].
  etrans; [eapply (counter_conservation (VL := ref_vigor_laws) (H := ref_pcre) CoreExample.e
    StreamExample.k "host.logins" Example1.minute StreamExample.hits)|vm_compute; reflexivity];
    [discriminate|exact minute_wf|reflexivity|exact hits_ok|vm_compute; reflexivity|vm_compute; reflexivity].
Defined.
