(* ===== verification/KernelFacts.v ===== *)
(** * Theorems on the kernel's other handlers

    STATE updates, the tick, FORGET, the keys, and what is ignored. *)

From S2P Require Import Prelude CLib Vigor Bytes Data DataFacts Binf Core CoreFacts Windowed Reactor ReactorFacts.

Section kernel.
Context `{VL : VigorLaws} `{Pcre}.
Abbreviation K := (M kernel_t output).

(** ** STATE *)

(** Whether an update is news. *)
Definition changes (code : Z) (s : state_t) : bool :=
  negb (state_stale s =? 0) || negb (state_status s =? code).

Definition update_sends (code : Z) (s s' : state_t) : list output :=
  (if changes code s then [Send Broadcast (state_pdu "TRANSITION" s')] else [])
  ++ [Send Broadcast (state_pdu "STATE" s')].

Lemma put_state_run e p k t ts name code msg s db' :
  pdu_frames p = [t; ts; name; code; msg] → name ≠ EmptyString → msg ≠ EmptyString →
  find_state (time_s e) (k_db k) name = (Some s, db') →
  put_state_pdu e p k =
  let c := u8 (atoi code) in
  let s' := update_state c (u32 (strtoul ts)) msg s in
  if state_ignore s =? 0
  then Ok ((), set_db (put_state name s' db') k, update_sends c s s')
  else Ok ((), set_db db' k, []).
Proof using VL.
  intros Hp Hn Hm Hfind. unfold put_state_pdu. read_frames Hp.
  destruct name as [|ch name]; [done|]. destruct msg as [|ch' msg]; [done|].
  mstep. rewrite Hfind. mstep. destruct (state_ignore s =? 0); [|done].
  mstep. unfold update_sends, changes. case_step; by mstep.
Qed.

(** C24: a STATE message for a state that is known, or that a rule matches,
    and is not ignored, records the status, the message and the time, makes
    the state fresh, moves its deadline to that time plus the freshness of
    its type, and broadcasts it, preceded by a transition exactly when the
    state was stale or its status changes; for an ignored state it does
    nothing. *)
Theorem state_update_spec e p k ts name code msg s db' :
  pdu_frames p = ["STATE"; ts; name; code; msg] → name ≠ EmptyString → msg ≠ EmptyString →
  find_state (time_s e) (k_db k) name = (Some s, db') →
  let c := u8 (atoi code) in
  let t := u32 (strtoul ts) in
  let s' := mk_state (state_type s) (state_name s) (s32 t) (s32 (t + type_freshness (state_type s)))
              c msg 0 (state_ignore s) in
  _kernel_reactor e Listener p k =
  if state_ignore s =? 0
  then Ok (Continue, set_db (put_state name s' db') k, update_sends c s s')
  else Ok (Continue, set_db db' k, []).
Proof using VL.
  intros Hp Hn Hm Hfind c t s'. unfold _kernel_reactor, on_listener. dispatch Hp.
  pose proof (put_state_run e p k _ _ _ _ _ _ _ Hp Hn Hm Hfind) as Hrun. cbn zeta in Hrun.
  destruct (state_ignore s =? 0); rewrite (M_run_bind _ _ _ _ _ _ Hrun);
    unfold mret, M_ret, out_app; by rewrite app_nil_r.
Qed.

(** ** The tick *)

(** An aggregate is due when it is not ignored, has seen something, and its
    window ended before [ts]. *)
Definition agg_due (ts : Z) (ignore last : Z) (w : window_t) : bool :=
  (ignore =? 0) && negb (last =? 0) && (s32 (win_of w last + window_time w) <? ts).

Definition counter_due (ts : Z) (c : counter_t) : bool :=
  agg_due ts (counter_ignore c) (counter_last_seen c) (counter_window c).
Definition sample_due (ts : Z) (s : sample_t double) : bool :=
  agg_due ts (sample_ignore s) (sample_last_seen s) (sample_window s).
Definition rate_due (ts : Z) (r : rate_t) : bool :=
  agg_due ts (rate_ignore r) (rate_last_seen r) (rate_window r).

Definition flush {A} (due : A → bool) (reset : A → A) (a : A) : A := if due a then reset a else a.

Definition flush_sends {A} (due : A → bool) (pdu : A → pdu_t) (a : A) : list output :=
  if due a then [Send Broadcast (pdu a)] else [].

(** One walk of the tick, for any of the three tables: [step] is its body. *)
Lemma tick_walk {A} (step : string * A → K ()) (due : A → bool) (reset : A → A) (pdu : A → pdu_t)
    (sel : db_t → gmap string A) (set : gmap string A → db_t → db_t) k :
  (∀ d, set (sel d) d = d) → (∀ m d, sel (set m d) = m) → (∀ m m' d, set m (set m' d) = set m d) →
  (∀ n a k', sel (k_db k) !! n = Some a →
     step (n, a) k' =
     if due a then Ok ((), set_db (set (<[n := reset a]> (sel (k_db k'))) (k_db k')) k', [Send Broadcast (pdu a)])
     else Ok ((), k', [])) →
  for_each_m step (for_each (sel (k_db k))) k =
  Ok ((), set_db (set (flush due reset <$> sel (k_db k)) (k_db k)) k,
      concat ((λ na, flush_sends due pdu na.2) <$> for_each (sel (k_db k)))).
Proof using VL.
  intros Hid Hsel Hset Hstep.
  rewrite (for_each_m_walk step _ (λ _ a, if due a then Some (reset a) else None)
             (λ _ a, flush_sends due pdu a) (λ k, sel (k_db k)) (λ m k, set_db (set m (k_db k)) k)).
  - rewrite for_each_update. do 5 f_equal. apply map_eq. intros n.
    rewrite map_lookup_imap, lookup_fmap. destruct (sel (k_db k) !! n) as [a|]; [|done].
    cbn. unfold flush. by destruct (due a).
  - intros k'. rewrite Hid. by mstep.
  - intros. apply Hsel.
  - intros. mstep. by rewrite Hset.
  - intros n a k' Hin%elem_of_for_each. rewrite Hstep by done. unfold update_step, flush_sends. cbn [fst snd].
    destruct (due a); [done|]. rewrite Hid. by mstep.
Qed.

(** The body of each walk. *)
Lemma tick_counter_run ts n c k :
  wf_window (counter_window c) →
  tick_counter ts (n, c) k =
  if counter_due ts c
  then Ok ((), set_db (set_counters (<[n := counter_reset c]> (counters (k_db k))) (k_db k)) k,
           [Send Broadcast (counter_pdu c)])
  else Ok ((), k, []).
Proof.
  intros Hw. unfold tick_counter, counter_due, agg_due.
  destruct (counter_ignore c =? 0), (counter_last_seen c =? 0); cbn [negb orb andb]; try done.
  rewrite winend_run by done. mstep. rewrite Z.ltb_antisym.
  destruct (ts <=? _); cbn [negb]; [done|].
  by rewrite (M_run_bind _ _ _ _ _ _ (broadcast_counter_run c k Hw)).
Qed.

Lemma tick_sample_run ts n s k :
  wf_window (sample_window s) →
  tick_sample ts (n, s) k =
  if sample_due ts s
  then Ok ((), set_db (set_samples (<[n := sample_reset s]> (samples (k_db k))) (k_db k)) k,
           [Send Broadcast (sample_pdu s)])
  else Ok ((), k, []).
Proof.
  intros Hw. unfold tick_sample, sample_due, agg_due.
  destruct (sample_ignore s =? 0), (sample_last_seen s =? 0); cbn [negb orb andb]; try done.
  rewrite winend_run by done. mstep. rewrite Z.ltb_antisym.
  destruct (ts <=? _); cbn [negb]; [done|].
  by rewrite (M_run_bind _ _ _ _ _ _ (broadcast_sample_run s k Hw)).
Qed.

Lemma tick_rate_run ts n r k :
  wf_window (rate_window r) →
  tick_rate ts (n, r) k =
  if rate_due ts r
  then Ok ((), set_db (set_rates (<[n := rate_reset r]> (rates (k_db k))) (k_db k)) k,
           [Send Broadcast (rate_pdu r)])
  else Ok ((), k, []).
Proof.
  intros Hw. unfold tick_rate, rate_due, agg_due.
  destruct (rate_ignore r =? 0), (rate_last_seen r =? 0); cbn [negb orb andb]; try done.
  rewrite winend_run by done. mstep. rewrite Z.ltb_antisym.
  destruct (ts <=? _); cbn [negb]; [done|].
  by rewrite (M_run_bind _ _ _ _ _ _ (broadcast_rate_run r k Hw)).
Qed.

Definition windows_ok (d : db_t) : Prop :=
  map_Forall (λ _ c, wf_window (counter_window c)) (counters d) ∧
  map_Forall (λ _ s, wf_window (sample_window s)) (samples d) ∧
  map_Forall (λ _ r, wf_window (rate_window r)) (rates d).

(** The database after a tick, and what the tick sends. *)
Definition ticked (ts : Z) (d : db_t) : db_t :=
  set_rates (flush (rate_due ts) rate_reset <$> rates d)
    (set_samples (flush (sample_due ts) sample_reset <$> samples d)
      (set_counters (flush (counter_due ts) counter_reset <$> counters d) d)).

Definition tick_sends (ts : Z) (d : db_t) : list output :=
  concat ((λ na, flush_sends (counter_due ts) counter_pdu na.2) <$> for_each (counters d)) ++
  concat ((λ na, flush_sends (sample_due ts) sample_pdu na.2) <$> for_each (samples d)) ++
  concat ((λ na, flush_sends (rate_due ts) rate_pdu na.2) <$> for_each (rates d)).

Lemma tick_aggregates_run ts k :
  windows_ok (k_db k) →
  tick_aggregates ts k = Ok ((), set_db (ticked ts (k_db k)) k, tick_sends ts (k_db k)).
Proof using VL.
  intros (Hc & Hs & Hr). unfold tick_aggregates. mstep.
  rewrite (M_run_bind _ _ _ _ _ _
    (tick_walk (tick_counter ts) (counter_due ts) counter_reset counter_pdu counters set_counters k
       set_counters_id ltac:(done) ltac:(done)
       (λ n c k' Hn, tick_counter_run ts n c k' (Hc n c Hn)))).
  mstep.
  match goal with |- context [(for_each_m (tick_sample ts) _ ≫= _) ?k1] =>
    rewrite (M_run_bind _ _ _ _ _ _
      (tick_walk (tick_sample ts) (sample_due ts) sample_reset sample_pdu samples set_samples k1
         set_samples_id ltac:(done) ltac:(done)
         (λ n c k' Hn, tick_sample_run ts n c k' (Hs n c Hn)))) end.
  mstep.
  match goal with |- context [for_each_m (tick_rate ts) _ ?k1] =>
    pose proof (tick_walk (tick_rate ts) (rate_due ts) rate_reset rate_pdu rates set_rates k1
       set_rates_id ltac:(done) ltac:(done)
       (λ n c k' Hn, tick_rate_run ts n c k' (Hr n c Hn))) as Hrates end.
  autorewrite with mstep in Hrates. rewrite Hrates.
  cbn [out_app]. unfold tick_sends. by rewrite app_assoc.
Qed.

(** C30: a tick publishes and resets exactly the counters, samples and rates
    that are not ignored, have seen something, and whose window ended before
    the given time; every other entry, and everything else, is left as it
    was. *)
Theorem tick_publishes_due ts k :
  windows_ok (k_db k) →
  tick_aggregates ts k = Ok ((), set_db (ticked ts (k_db k)) k, tick_sends ts (k_db k)).
Proof using VL. apply tick_aggregates_run. Qed.

Lemma flush_idemp {A} (due : A → bool) (reset : A → A) (m : gmap string A) :
  (∀ a, due (reset a) = false) → flush due reset <$> (flush due reset <$> m) = flush due reset <$> m.
Proof.
  intros Hd. rewrite <- map_fmap_compose. apply map_fmap_ext. intros n a _. unfold compose, flush.
  destruct (due a) eqn:E; [by rewrite Hd|by rewrite E].
Qed.

Lemma flush_quiet {A} (due : A → bool) (reset : A → A) pdu (m : gmap string A) :
  (∀ a, due (reset a) = false) →
  concat ((λ na, flush_sends due pdu na.2) <$> for_each (flush due reset <$> m)) = [].
Proof using VL.
  intros Hd. assert (∀ l, Forall (λ na, due na.2 = false) l →
    concat ((λ na : string * A, flush_sends due pdu na.2) <$> l) = []) as Hq.
  { induction 1 as [|na l Hna _ IH]; [done|]. rewrite fmap_cons. cbn [concat]. rewrite IH.
    unfold flush_sends. by rewrite Hna. }
  apply Hq, Forall_forall. intros [n a] Hin%elem_of_for_each.
  apply lookup_fmap_Some in Hin as (b & <- & _). cbn. unfold flush.
  destruct (due b) eqn:E; [apply Hd|done].
Qed.

(** A second tick for the same time finds nothing to do: what was
    published once is not published again. *)
Theorem tick_idempotent ts k :
  windows_ok (k_db k) →
  tick_aggregates ts (set_db (ticked ts (k_db k)) k) = Ok ((), set_db (ticked ts (k_db k)) k, []).
Proof using VL.
  intros Hw. rewrite tick_aggregates_run.
  - mstep. unfold ticked, tick_sends. cbn [counters samples rates set_counters set_samples set_rates].
    rewrite !flush_idemp, !flush_quiet; try done;
      intros a; unfold counter_due, sample_due, rate_due, agg_due; cbn; by rewrite andb_false_r.
  - destruct Hw as (Hc & Hs & Hr). mstep.
    split_and!; cbn [ticked counters samples rates set_counters set_samples set_rates];
      apply map_Forall_fmap; (eapply map_Forall_impl; [eassumption|]);
      intros n a Ha; unfold compose, flush; case_step; done.
Qed.

(** ** FORGET *)

(** With the ignore flag, exactly the matching entries are flagged. *)
Lemma forget_ignore {A} (set_ignore : A → A) (m : gmap string A) hit :
  forget_table set_ignore m hit true =
  map_imap (λ n a, Some (if hit n then set_ignore a else a)) m.
Proof using VL.
  unfold forget_table.
  assert (∀ l m0, foldl (λ m kv, if hit kv.1 then <[kv.1 := set_ignore kv.2]> m else m) m0 l
    = update_all (λ n a, if hit n then Some (set_ignore a) else None) l m0) as ->.
  { induction l as [|[n a] l IH]; intros m0; [done|]. cbn [foldl]. rewrite IH, update_all_cons.
    unfold update_step. cbn. by destruct (hit n). }
  rewrite for_each_update. apply map_imap_ext. intros n. destruct (m !! n) as [a|]; [|done]. cbn.
  by destruct (hit n).
Qed.

(** Without the flag, exactly the entries that match and that the loop
    visits are removed, and nothing else changes.  (Which entries a loop that
    unsets as it goes visits is up to the hash table.) *)
Lemma forget_delete {A} (set_ignore : A → A) (m : gmap string A) hit n :
  forget_table set_ignore m hit false !! n =
  if hit n && bool_decide (n ∈ (for_each_unset m hit).*1) then None else m !! n.
Proof.
  unfold forget_table. generalize (for_each_unset m hit) as l. intros l. generalize m as m0.
  induction l as [|[n' a] l IH]; intros m0; cbn [foldl fst].
  { rewrite bool_decide_false by apply not_elem_of_nil. by rewrite andb_false_r. }
  rewrite IH, fmap_cons. cbn [fst]. destruct (hit n) eqn:En; cbn [andb].
  - rewrite (bool_decide_ext _ _ (elem_of_cons _ _ _)). destruct (bool_decide_reflect (n ∈ l.*1)) as [Hl|Hl].
    + by rewrite bool_decide_true by (by right).
    + destruct (decide (n = n')) as [->|Hne].
      * rewrite bool_decide_true by (by left). by rewrite En, lookup_delete_eq.
      * rewrite bool_decide_false by tauto. destruct (hit n'); [by rewrite lookup_delete_ne|done].
  - destruct (hit n') eqn:E; [|done]. rewrite lookup_delete_ne; [done|]. congruence.
Qed.

(** What FORGET does to a table it is asked about. *)
Definition forgotten {A} (set_ignore : A → A) (hit : string → bool) (ignore : bool)
    (m m' : gmap string A) : Prop :=
  if ignore then m' = map_imap (λ n a, Some (if hit n then set_ignore a else a)) m
  else ∀ n, m' !! n = if hit n && bool_decide (n ∈ (for_each_unset m hit).*1) then None else m !! n.

Lemma forget_table_forgotten {A} (set_ignore : A → A) m hit ignore :
  forgotten set_ignore hit ignore m (forget_table set_ignore m hit ignore).
Proof using VL. destruct ignore; [apply forget_ignore|intros n; apply forget_delete]. Qed.

(** FORGET answers OK and changes only the tables its type mask selects:
    with the ignore flag it flags exactly the entries whose name matches;
    without it, exactly the matching entries that the loop visits are
    removed.  A pattern that does not compile is answered with the error and
    nothing changes. *)
Theorem forget_spec e p k type pattern ig :
  pdu_frames p = ["FORGET"; type; pattern; ig] →
  let payload := u16 (strtoul type) in
  let ignore := negb (u8 (strtoul ig) =? 0) in
  match pcre_compile pattern with
  | inr err => _kernel_reactor e Management p k =
                 Ok (Continue, k, [Send Management (pdu_reply p "ERROR" [err])])
  | inl re =>
      let hit n := pcre_exec re (pcre_study re) n =? 0 in
      ∃ d, _kernel_reactor e Management p k =
             Ok (Continue, set_db d k, [Send Management (pdu_reply p "OK" [])]) ∧
        (if payload_is payload PAYLOAD_STATE
         then forgotten ignore_state hit ignore (states (k_db k)) (states d)
         else states d = states (k_db k)) ∧
        (if payload_is payload PAYLOAD_COUNTER
         then forgotten ignore_counter hit ignore (counters (k_db k)) (counters d)
         else counters d = counters (k_db k)) ∧
        (if payload_is payload PAYLOAD_SAMPLE
         then forgotten ignore_sample hit ignore (samples (k_db k)) (samples d)
         else samples d = samples (k_db k)) ∧
        (if payload_is payload PAYLOAD_RATE
         then forgotten ignore_rate hit ignore (rates (k_db k)) (rates d)
         else rates d = rates (k_db k)) ∧
        events d = events (k_db k) ∧ types d = types (k_db k) ∧ windows d = windows (k_db k)
  end.
Proof using VL.
  intros Hp payload ignore. unfold _kernel_reactor, on_management. dispatch Hp.
  unfold mgmt_forget. read_frames Hp. destruct (pcre_compile pattern) as [re|err]; [|by mstep].
  mstep. cbv zeta. eexists. split; [reflexivity|].
  unfold forget_states, forget_counters, forget_samples, forget_rates. fold payload ignore.
  destruct (payload_is payload PAYLOAD_STATE), (payload_is payload PAYLOAD_COUNTER),
    (payload_is payload PAYLOAD_SAMPLE), (payload_is payload PAYLOAD_RATE);
    cbn [states counters samples rates events set_states set_counters set_samples set_rates];
    split_and!; (reflexivity || apply forget_table_forgotten).
Qed.

(** ** Keys *)

Definition set_all (m : gmap string (option string)) (c : list (string * string)) :=
  foldl (λ m kv, <[kv.1 := Some kv.2]> m) m c.
Definition unset_all (m : gmap string (option string)) (ks : list string) :=
  foldl (λ m key, <[key := None]> m) m ks.

(** The pairs GET.KEYS answers. *)
Definition values_for (m : gmap string (option string)) (ks : list string) : list string :=
  concat ((λ key, match m !! key with Some (Some v) => [key; v] | _ => [] end) <$> ks).

Lemma set_keys_id k : set_keys (k_keys k) k = k.
Proof. by destruct k as [[] ? ? ? ? ?]. Qed.

Lemma length_pair_frames c : length (pair_frames c) = (2 * length c)%nat.
Proof.
  induction c as [|[a b] c IH]; [done|]. unfold pair_frames in *. rewrite fmap_cons. cbn [concat].
  rewrite length_app, IH. cbn. lia.
Qed.

Lemma set_keys_loop_run p l c n k :
  pdu_frames p = l ++ pair_frames c → (length c ≤ n)%nat →
  set_keys_loop p n (Z.of_nat (length l)) k = Ok ((), set_keys (set_all (k_keys k) c) k, []).
Proof using VL.
  revert l n k. induction c as [|[key v] c IH]; intros l n k Hp Hn.
  - change (set_all (k_keys k) []) with (k_keys k). rewrite set_keys_id.
    destruct n as [|n]; [done|]. cbn [set_keys_loop]. rewrite size_frames, Hp, app_nil_r, Z.ltb_irrefl. done.
  - destruct n as [|n]; cbn [length] in Hn; [lia|]. cbn [set_keys_loop].
    change (pair_frames ((key, v) :: c)) with (key :: v :: pair_frames c) in Hp.
    destruct (Z.ltb_spec (Z.of_nat (length l)) (pdu_size p));
      [|rewrite size_frames, Hp, length_app in *; cbn [length] in *; lia].
    erewrite frame_bind; [|lia|rewrite Hp, Nat2Z.id; by apply list_lookup_middle]. cbv beta.
    erewrite frame_bind; [|lia|]; cycle 1.
    { rewrite Hp. replace (Z.to_nat (Z.of_nat (length l) + 1)) with (length l + 1)%nat by lia.
      rewrite lookup_app_r by lia. replace (length l + 1 - length l)%nat with 1%nat by lia. done. }
    cbv beta. mstep.
    replace (Z.of_nat (length l) + 2) with (Z.of_nat (length (l ++ [key; v])))
      by (rewrite length_app; cbn [length]; lia).
    rewrite IH; [done|by rewrite Hp, <- app_assoc|lia].
Qed.

Lemma get_keys_loop_run p ixs ks a k :
  Forall2 (λ i s, 0 ≤ i ∧ pdu_frames p !! Z.to_nat i = Some s) ixs ks →
  get_keys_loop p ixs a k = Ok (pdu_extend_all a (values_for (k_keys k) ks), k, []).
Proof using VL.
  intros Hks. revert a. induction Hks as [|i key ixs ks [Hi Hk] _ IH]; intros a; [done|].
  cbn [get_keys_loop]. erewrite frame_bind by done. mstep. rewrite IH.
  unfold values_for. rewrite fmap_cons. cbn [concat]. unfold pdu_extend_all. rewrite foldl_app.
  by destruct (k_keys k !! key) as [[v|]|].
Qed.

Lemma args_frames p t ks :
  pdu_frames p = t :: ks →
  Forall2 (λ i s, 0 ≤ i ∧ pdu_frames p !! Z.to_nat i = Some s) (arg_indices p) ks.
Proof using VL.
  intros Hp. unfold arg_indices. rewrite size_frames, Hp at 1. rewrite Hp. cbn [length].
  replace (Z.of_nat (S (length ks)) - 1) with (Z.of_nat (length ks)) by lia.
  rewrite <- Hp. by apply (frames_from p [t] ks).
Qed.

(** The three requests. *)
Lemma set_keys_run e p k c :
  pdu_frames p = "SET.KEYS" :: pair_frames c → c ≠ [] →
  _kernel_reactor e Listener p k = Ok (Continue, set_keys (set_all (k_keys k) c) k, []).
Proof using VL.
  intros Hp Hc. unfold _kernel_reactor, on_listener.
  rewrite !(pdu_is_frames _ _ _ _ _ _ Hp).
  change (streq "SET.KEYS" "STATE") with false. change (streq "SET.KEYS" "COUNTER") with false.
  change (streq "SET.KEYS" "SAMPLE") with false. change (streq "SET.KEYS" "RATE") with false.
  change (streq "SET.KEYS" "EVENT") with false. change (streq "SET.KEYS" "SET.KEYS") with true.
  rewrite !andb_false_r. cbn iota.
  assert (length c ≠ 0%nat) by (by destruct c).
  assert (length c ≤ Z.to_nat (pdu_size p))%nat as Hn
    by (rewrite size_frames, Hp; cbn [length]; rewrite length_pair_frames; lia).
  rewrite size_frames, Hp. cbn [length]. rewrite length_pair_frames.
  destruct (Z.leb_spec 3 (Z.of_nat (S (2 * length c)))); [|lia].
  replace (Z.of_nat (S (2 * length c)) - 1) with (Z.of_nat (length c) * 2) by lia.
  rewrite Z.rem_mul by lia. cbn [orb andb Z.eqb].
  unfold set_keys_pdu. change 1 with (Z.of_nat (length ["SET.KEYS"])).
  rewrite (M_run_bind _ _ _ _ _ _ (set_keys_loop_run p ["SET.KEYS"] c _ k Hp Hn)).
  done.
Qed.

(** Dispatch on a message of any length. *)
Ltac dispatch_type Hp :=
  rewrite !(pdu_is_frames _ _ _ _ _ _ Hp);
  repeat match goal with |- context [streq ?x ?y] =>
    let v := eval vm_compute in (streq x y) in change (streq x y) with v end;
  rewrite ?andb_false_r; cbn iota.

Lemma get_keys_run e p k ks :
  pdu_frames p = "GET.KEYS" :: ks → ks ≠ [] →
  _kernel_reactor e Management p k =
  Ok (Continue, k,
      [Send Management (pdu_extend_all (pdu_reply p "VALUES" []) (values_for (k_keys k) ks))]).
Proof using VL.
  intros Hp Hne. unfold _kernel_reactor, on_management. dispatch_type Hp.
  assert (length ks ≠ 0%nat) by (by destruct ks).
  destruct (Z.leb_spec 2 (Z.of_nat (S (length ks)))); [|lia]. cbn [orb andb Z.eqb].
  unfold mgmt_get_keys. mstep.
  rewrite (M_run_bind _ _ _ _ _ _ (get_keys_loop_run p _ ks _ k (args_frames p _ ks Hp))).
  by mstep.
Qed.

Lemma del_keys_run e p k ks :
  pdu_frames p = "DEL.KEYS" :: ks → ks ≠ [] →
  _kernel_reactor e Management p k =
  Ok (Continue, set_keys (unset_all (k_keys k) ks) k, [Send Management (pdu_reply p "OK" [])]).
Proof using VL.
  intros Hp Hne. unfold _kernel_reactor, on_management. dispatch_type Hp.
  assert (length ks ≠ 0%nat) by (by destruct ks).
  destruct (Z.leb_spec 2 (Z.of_nat (S (length ks)))); [|lia]. cbn [orb andb Z.eqb].
  unfold mgmt_del_keys. mstep.
  assert (∀ ixs ks k, Forall2 (λ i s, 0 ≤ i ∧ pdu_frames p !! Z.to_nat i = Some s) ixs ks →
    for_each_m (λ i, key ← frame p i; modify (λ k, set_keys (<[key := None]> (k_keys k)) k)) ixs k
    = Ok ((), set_keys (unset_all (k_keys k) ks) k, [] : list output)) as Hloop.
  { clear -VL. intros ixs ks k Hks. revert k. induction Hks as [|i key ixs ks [Hi Hk] _ IH]; intros k.
    - change (unset_all (k_keys k) []) with (k_keys k). by rewrite set_keys_id.
    - cbn [for_each_m]. mstep. erewrite frame_bind by done. mstep. by rewrite IH. }
  rewrite (M_run_bind _ _ _ _ _ _ (Hloop _ _ k (args_frames p _ ks Hp))). by mstep.
Qed.

Lemma set_all_other c m key : key ∉ c.*1 → set_all m c !! key = m !! key.
Proof.
  revert m. induction c as [|[a b] c IH]; intros m Hk; [done|].
  rewrite fmap_cons in Hk. apply not_elem_of_cons in Hk as [Hne Hk]. cbn [set_all foldl].
  fold (set_all (<[a := Some b]> m) c). rewrite IH by done. by apply lookup_insert_ne.
Qed.

Lemma set_all_values c m : NoDup c.*1 → values_for (set_all m c) c.*1 = pair_frames c.
Proof.
  intros Hnd. unfold values_for, pair_frames. f_equal.
  assert (∀ kv, kv ∈ c → set_all m c !! kv.1 = Some (Some kv.2)) as Hget.
  { revert m Hnd. induction c as [|[a b] c IH]; intros m Hnd kv Hin; [by apply elem_of_nil in Hin|].
    rewrite fmap_cons in Hnd. apply NoDup_cons in Hnd as [Ha Hnd]. cbn [set_all foldl].
    fold (set_all (<[a := Some b]> m) c).
    apply elem_of_cons in Hin as [->|Hin]; [|by apply IH].
    rewrite set_all_other by done. apply lookup_insert_eq. }
  rewrite <- list_fmap_compose. apply list_fmap_ext. intros i kv Hi. unfold compose.
  by rewrite Hget by (by eapply list_elem_of_lookup_2).
Qed.

Lemma unset_all_values ks m : values_for (unset_all m ks) ks = [].
Proof.
  assert (∀ key, key ∈ ks ∨ m !! key = Some None → unset_all m ks !! key = Some None) as Hget.
  { revert m. induction ks as [|a ks IH]; intros m key Hk; cbn [unset_all foldl].
    - destruct Hk as [Hk|Hk]; [by apply elem_of_nil in Hk|done].
    - fold (unset_all (<[a := None]> m) ks). apply IH.
      destruct (decide (key = a)) as [->|Hne]; [right; apply lookup_insert_eq|].
      rewrite lookup_insert_ne by done. rewrite elem_of_cons in Hk. tauto. }
  unfold values_for. generalize Hget. generalize (unset_all m ks). intros m' Hg.
  assert (∀ l, (∀ key, key ∈ l → m' !! key = Some None) →
    concat ((λ key, match m' !! key with Some (Some v) => [key; v] | _ => [] end) <$> l) = []) as Hq.
  { induction l as [|a l IH]; intros Hl; [done|]. rewrite fmap_cons. cbn [concat].
    rewrite (Hl a) by left. apply IH. intros. apply Hl. by right. }
  apply Hq. auto.
Qed.

(** C26: after SET.KEYS with any pairs of different keys, GET.KEYS
    for these keys answers exactly these pairs, in order; after DEL.KEYS of
    them it answers none. *)
Theorem keys_set_get_del e p_set p_get p_del k c :
  c ≠ [] → NoDup c.*1 →
  pdu_frames p_set = "SET.KEYS" :: pair_frames c →
  pdu_frames p_get = "GET.KEYS" :: c.*1 → pdu_frames p_del = "DEL.KEYS" :: c.*1 →
  ∃ k1 k2 a1 a2 a3,
    _kernel_reactor e Listener p_set k = Ok (Continue, k1, []) ∧
    _kernel_reactor e Management p_get k1 = Ok (Continue, k1, [Send Management a1]) ∧
    _kernel_reactor e Management p_del k1 = Ok (Continue, k2, [Send Management a2]) ∧
    _kernel_reactor e Management p_get k2 = Ok (Continue, k2, [Send Management a3]) ∧
    pdu_frames a1 = "VALUES" :: pair_frames c ∧ pdu_frames a2 = ["OK"] ∧ pdu_frames a3 = ["VALUES"].
Proof using VL.
  intros Hc Hnd Hs Hg Hd. assert (c.*1 ≠ []) as Hc1 by (by destruct c).
  eexists _, _, _, _, _.
  split; [by apply set_keys_run|]. split; [by apply get_keys_run|].
  split; [by apply del_keys_run|]. split; [by apply get_keys_run|].
  rewrite !frames_extend_all, !frames_reply.
  change (k_keys (set_keys ?m ?k)) with m. by rewrite set_all_values, unset_all_values.
Qed.
End kernel.

(** ** Examples *)

Module KernelExample.
Definition state_msg : @pdu_t ref_vigor := ("STATE", ["1995"; "host.disk"; "2"; "full"]).
Definition disk' : state_t := mk_state Example1.local "host.disk" 1995 2295 CRITICAL "full" 0 0.
Definition forget_msg : @pdu_t ref_vigor := ("FORGET", ["65535"; "disk"; "1"]).
Definition pairs : list (string * string) := [("dc", "west"); ("rack", "r12")].
Definition logins : counter_t := mk_counter Example1.minute "host.logins" 130 7 0.
Definition k : @kernel_t ref_pcre :=
  set_db (H0 := ref_pcre) (put_counter (H := ref_pcre) "host.logins" logins CoreExample.db) CoreExample.k.
End KernelExample.

Lemma state_update_spec_witness :
  _kernel_reactor (H := ref_vigor) (H0 := ref_pcre) CoreExample.e Listener KernelExample.state_msg
    CoreExample.k =
  Ok (Continue,
      set_db (H0 := ref_pcre) (put_state (H := ref_pcre) "host.disk" KernelExample.disk' CoreExample.db)
        CoreExample.k,
      [Send Broadcast (("TRANSITION", ["host.disk"; "1995"; "fresh"; "CRITICAL"; "full"]) : @pdu_t ref_vigor);
       Send Broadcast (("STATE", ["host.disk"; "1995"; "fresh"; "CRITICAL"; "full"]) : @pdu_t ref_vigor)]).
Proof.
  etrans; [apply (state_update_spec (VL := ref_vigor_laws) (H := ref_pcre) CoreExample.e
    KernelExample.state_msg CoreExample.k "1995" "host.disk" "2" "full" CoreExample.disk CoreExample.db
    eq_refl ltac:(discriminate) ltac:(discriminate) eq_refl)|].
  vm_compute. reflexivity.
Defined.

Lemma example_windows_ok : windows_ok (H := ref_pcre) (k_db (H0 := ref_pcre) KernelExample.k).
Proof.
  split_and!; [|apply map_Forall_empty|apply map_Forall_empty].
  change (counters _) with (<["host.logins" := KernelExample.logins]> (∅ : gmap string counter_t)).
  apply map_Forall_insert_2; [by vm_compute|apply map_Forall_empty].
Qed.

Lemma tick_publishes_due_witness :
  tick_aggregates (H := ref_vigor) (H0 := ref_pcre) 181 KernelExample.k =
  Ok ((), set_db (H0 := ref_pcre) (put_counter (H := ref_pcre) "host.logins"
            (new_counter "host.logins" Example1.minute) CoreExample.db) CoreExample.k,
      [Send Broadcast (("COUNTER", ["120"; "host.logins"; "7"]) : @pdu_t ref_vigor)]).
Proof.
  etrans; [apply (tick_publishes_due (VL := ref_vigor_laws) (H := ref_pcre) 181 KernelExample.k
    example_windows_ok)|].
  vm_compute. reflexivity.
Defined.

Lemma tick_idempotent_witness :
  tick_aggregates (H := ref_vigor) (H0 := ref_pcre) 181
    (set_db (H0 := ref_pcre) (ticked (H := ref_pcre) 181 (k_db (H0 := ref_pcre) KernelExample.k)) KernelExample.k)
  = Ok ((), set_db (H0 := ref_pcre) (ticked (H := ref_pcre) 181 (k_db (H0 := ref_pcre) KernelExample.k))
              KernelExample.k, []).
Proof.
  apply (tick_idempotent (VL := ref_vigor_laws) (H := ref_pcre) 181 KernelExample.k example_windows_ok).
Defined.

Lemma forget_spec_witness :
  ∃ d, _kernel_reactor (H := ref_vigor) (H0 := ref_pcre) CoreExample.e Management KernelExample.forget_msg
         CoreExample.k =
       Ok (Continue, set_db (H0 := ref_pcre) d CoreExample.k,
           [Send Management (("OK", []) : @pdu_t ref_vigor)]) ∧
       states d !! "host.disk" = Some (ignore_state CoreExample.disk) ∧
       states d !! "host.cpu" = Some CoreExample.cpu.
Proof.
  destruct (forget_spec (VL := ref_vigor_laws) (H := ref_pcre) CoreExample.e KernelExample.forget_msg
    CoreExample.k "65535" "disk" "1" eq_refl) as (d & E & Hst & _).
  exists d. split; [exact E|]. vm_compute payload_is in Hst. cbn iota in Hst.
  unfold forgotten in Hst. change (negb _) with true in Hst. cbn iota in Hst.
  rewrite Hst. split; vm_compute; reflexivity.
Defined.

Lemma keys_set_get_del_witness :
  ∃ k1 k2 a1 a2 a3,
    let react := _kernel_reactor (H := ref_vigor) (H0 := ref_pcre) CoreExample.e in
    react Listener (("SET.KEYS", ["dc"; "west"; "rack"; "r12"]) : @pdu_t ref_vigor) CoreExample.k
      = Ok (Continue, k1, []) ∧
    react Management (("GET.KEYS", ["dc"; "rack"]) : @pdu_t ref_vigor) k1
      = Ok (Continue, k1, [Send Management a1]) ∧
    react Management (("DEL.KEYS", ["dc"; "rack"]) : @pdu_t ref_vigor) k1
      = Ok (Continue, k2, [Send Management a2]) ∧
    react Management (("GET.KEYS", ["dc"; "rack"]) : @pdu_t ref_vigor) k2
      = Ok (Continue, k2, [Send Management a3]) ∧
    pdu_frames (Vigor := ref_vigor) a1 = ["VALUES"; "dc"; "west"; "rack"; "r12"] ∧
    pdu_frames (Vigor := ref_vigor) a2 = ["OK"] ∧ pdu_frames (Vigor := ref_vigor) a3 = ["VALUES"].
Proof.
  refine (keys_set_get_del (VL := ref_vigor_laws) (H := ref_pcre) CoreExample.e
    ("SET.KEYS", ["dc"; "west"; "rack"; "r12"]) ("GET.KEYS", ["dc"; "rack"]) ("DEL.KEYS", ["dc"; "rack"])
    CoreExample.k KernelExample.pairs _ _ eq_refl eq_refl eq_refl); [done|].
  apply (bool_decide_unpack _). vm_compute. exact I.
Defined.
