(* ===== verification/Safety.v ===== *)
(** * The kernel's invariant and its safety

    What holds of every database the program builds, kept by every reaction;
    the reactions that cannot fault; and the states a running kernel can
    reach, as the closure of its step relation. *)

From S2P Require Import Prelude CLib Vigor Bytes Data DataFacts Binf Core CoreFacts Windowed Reactor ReactorFacts KernelFacts.

(** ** Well-formed databases *)

Definition wf_state (n : string) (s : state_t) : Prop :=
  state_name s = n ∧ wf_type (state_type s) ∧ is_s32 (state_last_seen s) ∧ is_s32 (state_expiry s) ∧
  is_u8 (state_status s) ∧ is_u8 (state_stale s) ∧ is_u8 (state_ignore s).

Definition wf_counter (n : string) (c : counter_t) : Prop :=
  counter_name c = n ∧ wf_window (counter_window c) ∧ is_s32 (counter_last_seen c) ∧
  is_u64 (counter_value c) ∧ is_u8 (counter_ignore c).

Definition wf_sample (n : string) (s : sample_t double) : Prop :=
  sample_name s = n ∧ wf_window (sample_window s) ∧ is_s32 (sample_last_seen s) ∧
  is_u64 (sample_n s) ∧ is_u8 (sample_ignore s).

Definition wf_rate (n : string) (r : rate_t) : Prop :=
  rate_name r = n ∧ wf_window (rate_window r) ∧ is_s32 (rate_first_seen r) ∧
  is_s32 (rate_last_seen r) ∧ is_u64 (rate_first r) ∧ is_u64 (rate_last r) ∧ is_u8 (rate_ignore r).

Record wf_db `{Pcre} (d : db_t) : Prop := {
  wf_states : map_Forall wf_state (states d);
  wf_counters : map_Forall wf_counter (counters d);
  wf_samples : map_Forall wf_sample (samples d);
  wf_rates : map_Forall wf_rate (rates d);
  wf_state_rules : Forall (λ r, wf_type (rule_target r)) (state_matches d);
  wf_counter_rules : Forall (λ r, wf_window (rule_target r)) (counter_matches d);
  wf_sample_rules : Forall (λ r, wf_window (rule_target r)) (sample_matches d);
  wf_rate_rules : Forall (λ r, wf_window (rule_target r)) (rate_matches d);
  (* the count falls behind the list after a restart *)
  wf_events : events_count d ≤ Z.of_nat (length (events d));
}.

Create HintDb wf.
#[export] Hint Resolve s32_range u8_range u64_range : wf.

Lemma is_u8_0 : is_u8 0. Proof. unfold is_u8. lia. Qed.
Lemma is_u8_1 : is_u8 1. Proof. unfold is_u8. lia. Qed.
Lemma is_s32_0 : is_s32 0. Proof. unfold is_s32. lia. Qed.
Lemma is_u64_0 : is_u64 0. Proof. unfold is_u64. lia. Qed.
#[export] Hint Resolve is_u8_0 is_u8_1 is_s32_0 is_u64_0 : wf.

Ltac wf_unfold := unfold wf_state, wf_counter, wf_sample, wf_rate in *.

Lemma wf_new_state now n t : wf_type t → wf_state n (new_state now n t).
Proof. intros Ht. wf_unfold. cbn. split_and!; eauto with wf. Qed.
Lemma wf_new_counter n w : wf_window w → wf_counter n (new_counter n w).
Proof. intros Hw. wf_unfold. cbn. split_and!; eauto with wf. Qed.
Lemma wf_new_sample n w : wf_window w → wf_sample n (new_sample n w).
Proof. intros Hw. wf_unfold. cbn. split_and!; eauto with wf. Qed.
Lemma wf_new_rate n w : wf_window w → wf_rate n (new_rate n w).
Proof. intros Hw. wf_unfold. cbn. split_and!; eauto with wf. Qed.

Section wf.
Context `{VL : VigorLaws} `{Pcre}.
Abbreviation K := (M kernel_t output).

(** A lookup keeps a table well-formed, and answers a well-formed entry. *)
Lemma find_in_wf {A T} (P : string → A → Prop) (R : T → Prop) m (rules : list (rule T)) mk n r m' :
  map_Forall P m → Forall (λ r, R (rule_target r)) rules → (∀ t, R t → P n (mk t)) →
  find_in m rules mk n = (r, m') →
  map_Forall P m' ∧ (∀ x, r = Some x → P n x).
Proof.
  intros Hm Hr Hmk Hf. destruct (find_in_contract _ _ _ _ _ _ Hf) as (Hget & Hne & Hold & _ & Hnew).
  assert (∀ x, r = Some x → P n x) as Hx.
  { intros x ->. destruct (m !! n) as [y|] eqn:E.
    - destruct (Hold y eq_refl) as [[= ->] _]. by apply Hm.
    - destruct (Hnew eq_refl x eq_refl) as (re & Hin & -> & _). apply Hmk.
      rewrite Forall_forall in Hr. by apply Hr. }
  split; [|done]. intros i x Hi. destruct (decide (i = n)) as [->|Hin].
  - apply Hx. congruence.
  - apply Hm. by rewrite <- (Hne i Hin).
Qed.

Lemma wf_set_states d m : wf_db d → map_Forall wf_state m → wf_db (set_states m d).
Proof. intros [] ?. by split. Qed.
Lemma wf_set_counters d m : wf_db d → map_Forall wf_counter m → wf_db (set_counters m d).
Proof. intros [] ?. by split. Qed.
Lemma wf_set_samples d m : wf_db d → map_Forall wf_sample m → wf_db (set_samples m d).
Proof. intros [] ?. by split. Qed.
Lemma wf_set_rates d m : wf_db d → map_Forall wf_rate m → wf_db (set_rates m d).
Proof. intros [] ?. by split. Qed.
Lemma wf_set_events d l n : wf_db d → n ≤ Z.of_nat (length l) → wf_db (set_events l n d).
Proof. intros [] ?. by split. Qed.

Lemma wf_put_state d n x : wf_db d → wf_state n x → wf_db (put_state n x d).
Proof. intros Hd Hx. apply wf_set_states; [done|]. apply map_Forall_insert_2; [done|apply Hd]. Qed.
Lemma wf_put_counter d n x : wf_db d → wf_counter n x → wf_db (put_counter n x d).
Proof. intros Hd Hx. apply wf_set_counters; [done|]. apply map_Forall_insert_2; [done|apply Hd]. Qed.
Lemma wf_put_sample d n x : wf_db d → wf_sample n x → wf_db (put_sample n x d).
Proof. intros Hd Hx. apply wf_set_samples; [done|]. apply map_Forall_insert_2; [done|apply Hd]. Qed.
Lemma wf_put_rate d n x : wf_db d → wf_rate n x → wf_db (put_rate n x d).
Proof. intros Hd Hx. apply wf_set_rates; [done|]. apply map_Forall_insert_2; [done|apply Hd]. Qed.

Lemma find_state_wf now d n r d' :
  wf_db d → find_state now d n = (r, d') → wf_db d' ∧ (∀ x, r = Some x → wf_state n x).
Proof.
  intros Hd. rewrite find_state_in. destruct (find_in _ _ _ _) as [r' m] eqn:E. intros [= <- <-].
  destruct (find_in_wf wf_state wf_type _ _ _ _ _ _ (wf_states _ Hd) (wf_state_rules _ Hd)
              (wf_new_state now n) E). split; [by apply wf_set_states|done].
Qed.

Lemma find_counter_wf d n r d' :
  wf_db d → find_counter d n = (r, d') → wf_db d' ∧ (∀ x, r = Some x → wf_counter n x).
Proof.
  intros Hd. rewrite find_counter_in. destruct (find_in _ _ _ _) as [r' m] eqn:E. intros [= <- <-].
  destruct (find_in_wf wf_counter wf_window _ _ _ _ _ _ (wf_counters _ Hd) (wf_counter_rules _ Hd)
              (wf_new_counter n) E). split; [by apply wf_set_counters|done].
Qed.

Lemma find_sample_wf d n r d' :
  wf_db d → find_sample d n = (r, d') → wf_db d' ∧ (∀ x, r = Some x → wf_sample n x).
Proof.
  intros Hd. rewrite find_sample_in. destruct (find_in _ _ _ _) as [r' m] eqn:E. intros [= <- <-].
  destruct (find_in_wf wf_sample wf_window _ _ _ _ _ _ (wf_samples _ Hd) (wf_sample_rules _ Hd)
              (wf_new_sample n) E). split; [by apply wf_set_samples|done].
Qed.

Lemma find_rate_wf d n r d' :
  wf_db d → find_rate d n = (r, d') → wf_db d' ∧ (∀ x, r = Some x → wf_rate n x).
Proof.
  intros Hd. rewrite find_rate_in. destruct (find_in _ _ _ _) as [r' m] eqn:E. intros [= <- <-].
  destruct (find_in_wf wf_rate wf_window _ _ _ _ _ _ (wf_rates _ Hd) (wf_rate_rules _ Hd)
              (wf_new_rate n) E). split; [by apply wf_set_rates|done].
Qed.

(** ** The handlers keep it *)

Definition wf_kernel (k : kernel_t) : Prop := wf_db (k_db k).

Section handlers.
Context (F : Prop).

Lemma wp_frame p i Q (k : kernel_t) :
  0 ≤ i < pdu_size p → (∀ s, pdu_string p i = Some s → Q s k) → wp F (frame p i) Q k.
Proof using VL.
  intros Hi HQ. unfold frame. destruct (pdu_string_Some p i Hi) as [s Hs].
  apply wp_lift; rewrite Hs; [|done]. intros a [= <-]. by apply HQ.
Qed.

Lemma wp_get_db Q (k : kernel_t) : Q (k_db k) k → wp F (get_db : K db_t) Q k.
Proof. done. Qed.

Lemma wp_modify_db g Q k : Q () (set_db (g (k_db k)) k) → wp F (modify_db g) Q k.
Proof. done. Qed.

Lemma wp_send s p Q k : Q () k → wp F (send s p) Q k.
Proof. done. Qed.

Lemma wp_broadcast_counter c Q k : wf_window (counter_window c) → Q () k → wp F (broadcast_counter c) Q k.
Proof. intros Hw HQ. eapply wp_run; [by apply broadcast_counter_run|done]. Qed.
Lemma wp_broadcast_sample s Q k : wf_window (sample_window s) → Q () k → wp F (broadcast_sample s) Q k.
Proof. intros Hw HQ. eapply wp_run; [by apply broadcast_sample_run|done]. Qed.
Lemma wp_broadcast_rate r Q k : wf_window (rate_window r) → Q () k → wp F (broadcast_rate r) Q k.
Proof. intros Hw HQ. eapply wp_run; [by apply broadcast_rate_run|done]. Qed.

Lemma wp_rollover w l ts (Q : bool → kernel_t → Prop) k :
  wf_window w → is_s32 l → is_u32 ts → (∀ b, Q b k) → wp F (lift (O := output) (rollover w l ts)) Q k.
Proof.
  intros Hw Hl Hts HQ. destruct (rollover_total w l ts Hw Hl Hts) as [b E]. rewrite E.
  apply wp_lift; [|done]. intros a _. apply HQ.
Qed.

Ltac wp_step :=
  lazymatch goal with
  | |- wp _ (mret _) _ _ => apply wp_ret
  | |- wp _ (_ ≫= _) _ _ => apply wp_bind
  | |- wp _ (frame _ _) _ _ => apply wp_frame; [lia|intros ? ?]
  | |- wp _ get_db _ _ => apply wp_get_db
  | |- wp _ get _ _ => apply wp_get
  | |- wp _ (modify_db _) _ _ => apply wp_modify_db
  | |- wp _ (modify _) _ _ => apply wp_modify
  | |- wp _ (send _ _) _ _ => apply wp_send
  | |- wp _ (emit _) _ _ => apply wp_emit
  end.
Ltac wp_steps := repeat (wp_step; cbv beta).

Lemma wp_put_counter p k :
  4 ≤ pdu_size p → wf_kernel k → wp F (put_counter_pdu p) (λ _, wf_kernel) k.
Proof using VL.
  intros Hsz Hk. unfold put_counter_pdu. wp_steps.
  destruct (pdu_string p 2) as [[|ch name]|]; try by apply wp_ret. wp_steps.
  destruct (find_counter (k_db k) (String ch name)) as [r d'] eqn:E.
  destruct (find_counter_wf _ _ _ _ Hk E) as [Hd' Hr]. wp_steps.
  destruct r as [c|]; [|by apply wp_ret]. destruct (Hr c eq_refl) as (Hn & Hw & Hl & Hv & Hi).
  destruct (counter_ignore c =? 0); [|by apply wp_ret]. wp_steps.
  apply wp_rollover; [done|done|apply u32_range|]. intros b. wp_steps.
  destruct b; wp_steps; [apply wp_broadcast_counter; [done|]; wp_steps|];
    apply wf_put_counter; try done; unfold wf_counter; cbn; split_and!; eauto with wf.
Qed.

Lemma wp_put_rate p k :
  4 ≤ pdu_size p → wf_kernel k → wp F (put_rate_pdu p) (λ _, wf_kernel) k.
Proof using VL.
  intros Hsz Hk. unfold put_rate_pdu. wp_steps.
  destruct (pdu_string p 2) as [[|ch name]|]; try by apply wp_ret. wp_steps.
  destruct (find_rate (k_db k) (String ch name)) as [r d'] eqn:E.
  destruct (find_rate_wf _ _ _ _ Hk E) as [Hd' Hr]. wp_steps.
  destruct r as [c|]; [|by apply wp_ret]. destruct (Hr c eq_refl) as (Hn & Hw & Hf & Hl & Hv1 & Hv2 & Hi).
  destruct (rate_ignore c =? 0); [|by apply wp_ret]. wp_steps.
  apply wp_rollover; [done|done|apply u32_range|]. intros b. wp_steps.
  destruct b; wp_steps; [apply wp_broadcast_rate; [done|]; wp_steps|]; cbn [rate_data]; wp_steps;
    apply wf_put_rate; try done; unfold wf_rate; cbn; split_and!; eauto with wf;
    try (apply strtoul_range); repeat case_step; eauto using strtoul_range with wf.
Qed.

Lemma wf_sample_data n s v : wf_sample n s → wf_sample n (sample_data s v).2.
Proof.
  intros (Hn & Hw & Hl & Hc & Hi). destruct (sample_data_frame s v) as (E1 & E2 & E3 & E4).
  unfold wf_sample. rewrite E1, E2, E3, E4. split_and!; try done.
  unfold sample_data. destruct (if sample_n s =? 0 then _ else _). cbn -[u64]. apply u64_range.
Qed.

Lemma wp_sample_values ts p ixs n s k :
  Forall (λ i, 0 ≤ i < pdu_size p) ixs → wf_sample n s →
  wp F (sample_values ts p ixs s) (λ s' k', wf_sample n s' ∧ k' = k) k.
Proof using VL.
  revert s. induction ixs as [|i ixs IH]; intros s Hix Hs; cbn [sample_values]; [by apply wp_ret|].
  apply Forall_cons in Hix as [Hi Hix]. wp_steps.
  rewrite (surjective_pairing (sample_data s _)), sample_data_rc. cbn [Z.eqb negb].
  apply IH; [done|]. destruct (wf_sample_data n s (strtod s0).1 Hs) as (? & ? & ? & ? & ?).
  unfold wf_sample, sample_seen; cbn. split_and!; eauto with wf.
Qed.

Lemma wp_put_sample p k :
  4 ≤ pdu_size p → wf_kernel k → wp F (put_sample_pdu p) (λ _, wf_kernel) k.
Proof using VL.
  intros Hsz Hk. unfold put_sample_pdu. wp_steps.
  destruct (pdu_string p 2) as [[|ch name]|]; try by apply wp_ret. wp_steps.
  destruct (find_sample (k_db k) (String ch name)) as [r d'] eqn:E.
  destruct (find_sample_wf _ _ _ _ Hk E) as [Hd' Hr]. wp_steps.
  destruct r as [c|]; [|by apply wp_ret]. pose proof (Hr c eq_refl) as Hc.
  pose proof Hc as (Hn & Hw & Hl & Hv & Hi).
  destruct (sample_ignore c =? 0); [|by apply wp_ret]. wp_steps.
  assert (Forall (λ i, 0 ≤ i < pdu_size p) (seqZ 3 (pdu_size p - 3))) as Hix.
  { apply Forall_forall. intros i Hin%elem_of_seqZ. lia. }
  apply wp_rollover; [done|done|apply u32_range|]. intros b. wp_steps.
  destruct b; wp_steps; [apply wp_broadcast_sample; [done|]; wp_steps|];
    (eapply wp_mono; [apply (wp_sample_values _ _ _ (String ch name)); [done|]|]);
    try (cbn; intros s' k' [Hs' ->]; wp_steps; by apply wf_put_sample).
  - unfold wf_sample; cbn. split_and!; eauto with wf.
  - done.
Qed.

Lemma wp_put_state e p k :
  5 ≤ pdu_size p → wf_kernel k → wp F (put_state_pdu e p) (λ _, wf_kernel) k.
Proof using VL.
  intros Hsz Hk. unfold put_state_pdu. wp_steps.
  destruct (pdu_string p 2) as [[|ch name]|]; try by apply wp_ret.
  destruct (pdu_string p 4) as [[|ch' msg]|]; try by apply wp_ret. wp_steps.
  destruct (find_state (time_s e) (k_db k) (String ch name)) as [r d'] eqn:E.
  destruct (find_state_wf _ _ _ _ _ Hk E) as [Hd' Hr]. wp_steps.
  destruct r as [c|]; [|by apply wp_ret]. destruct (Hr c eq_refl) as (Hn & Ht & Hl & He & Hs & Hst & Hi).
  destruct (state_ignore c =? 0); [|by apply wp_ret]. wp_steps.
  case_step; unfold broadcast_transition, broadcast_state; wp_steps;
    apply wf_put_state; try done; unfold wf_state; cbn; split_and!; eauto with wf.
Qed.

(** Whether the age limit of a new event can be computed. *)
Definition event_fits (p : pdu_t) (k : kernel_t) : Prop :=
  cfg_events_keep (k_config k) = EVENTS_KEEP_NUMBER ∨
  ∀ s, pdu_string p 1 = Some s → - 2 ^ 31 ≤ s32 (strtol s) - cfg_events_max (k_config k).

Lemma buffer_event_wf d ev max keep :
  wf_db d → is_s32 (event_timestamp ev) →
  (∀ d', buffer_event d ev max keep = Ok d' → wf_db d') ∧
  (keep = EVENTS_KEEP_NUMBER ∨ - 2 ^ 31 ≤ event_timestamp ev - max →
   ∃ d', buffer_event d ev max keep = Ok d').
Proof using VL.
  intros Hd Hts. unfold buffer_event. destruct (Z.ltb_spec 0 max) as [Hmax|];
    [|split; [by intros ? [= <-]|by eauto]].
  rewrite list_push_app. pose proof (wf_events _ Hd) as He. set (l := events d ++ [ev]).
  assert (events_count d + 1 ≤ Z.of_nat (length l)) as Hl
    by (unfold l; rewrite length_app; cbn [length]; lia).
  set (n := events_count d + 1) in *. destruct (Z.eqb_spec keep EVENTS_KEEP_NUMBER) as [Hk|Hk].
  - rewrite drop_number_spec by lia. cbn [mbind res_bind mret res_ret]. split; [|by eauto].
    intros d' [= <-]. apply wf_set_events; [done|]. rewrite length_drop. lia.
  - assert (∀ limit l n l' n', n ≤ Z.of_nat (length l) → drop_time limit l n = Ok (l', n') →
      n' ≤ Z.of_nat (length l')) as Hdrop.
    { clear. intros limit l. induction l as [|x l IH]; intros n l' n' Hn; cbn [drop_time]; [done|].
      case_step; [by intros [= <- <-]|]. apply IH. cbn [length] in Hn. lia. }
    split.
    + intros d' ([l' n'] & Hrun & <-%ret_Ok)%bind_Ok. apply wf_set_events; [done|]. by eapply Hdrop.
    + intros [|Hlow]; [done|]. unfold is_s32 in Hts. rewrite s32_id by (unfold is_s32; lia).
      unfold l. rewrite drop_time_spec by lia. cbn. eauto.
Qed.

Lemma wp_put_event p k :
  4 ≤ pdu_size p → F ∨ event_fits p k → wf_kernel k → wp F (put_event_pdu p) (λ _, wf_kernel) k.
Proof using VL.
  intros Hsz Hfit Hk. unfold put_event_pdu. wp_steps. unfold broadcast_event. wp_steps.
  destruct (buffer_event_wf (k_db k) (mk_event (s32 (strtol s)) s0 s1) (cfg_events_max (k_config k))
              (cfg_events_keep (k_config k)) Hk ltac:(apply s32_range)) as [Hok Hno].
  apply wp_lift.
  - intros d' E. wp_steps. by apply Hok.
  - intros f E. destruct Hfit as [|Hfit]; [done|]. destruct Hno as [d' E']; [|congruence].
    destruct Hfit as [|Hfit]; [by left|right]. by apply Hfit.
Qed.

Lemma wp_set_keys_loop p n i k :
  0 ≤ i → Z.rem (pdu_size p - i) 2 = 0 → wf_kernel k → wp F (set_keys_loop p n i) (λ _, wf_kernel) k.
Proof using VL.
  revert i k. induction n as [|n IH]; intros i k Hi Hrem Hk; cbn [set_keys_loop]; [by apply wp_ret|].
  destruct (Z.ltb_spec i (pdu_size p)); [|by apply wp_ret].
  rewrite Z.rem_mod_nonneg in Hrem by lia. assert (i + 1 < pdu_size p) by zlia.
  wp_steps. apply IH; [lia| |done].
  destruct (decide (i + 2 ≤ pdu_size p)); [rewrite Z.rem_mod_nonneg; zlia|zlia].
Qed.

Lemma pdu_is_true p type min max :
  _pdu_is p type min max = true → (min ≠ 0 → min ≤ pdu_size p) ∧ pdu_type p = type.
Proof.
  unfold _pdu_is. destruct (Z.eqb_spec min 0); cbn [negb andb].
  - case_step; [done|]. intros ->%streq_eq. done.
  - destruct (Z.ltb_spec (pdu_size p) min); [done|].
    case_step; [done|]. intros ->%streq_eq. done.
Qed.

Lemma wp_on_listener e p k :
  F ∨ (pdu_type p = "EVENT" → event_fits p k) → wf_kernel k →
  wp F (on_listener e p) (λ _, wf_kernel) k.
Proof using VL.
  intros Hfit Hk. unfold on_listener. apply wp_bind.
  assert (∀ m : K (), wp F m (λ _, wf_kernel) k →
    wp F m (λ _ k', wp F (mret Continue : K reaction) (λ _, wf_kernel) k') k) as Hret
    by (intros m Hm; eapply wp_mono; [exact Hm|done]).
  apply Hret. repeat case_step;
    try match goal with H : _pdu_is _ _ _ _ = true |- _ =>
      apply pdu_is_true in H as [Hsz Ht] end.
  - apply wp_put_state; [apply Hsz; lia|done].
  - apply wp_put_counter; [apply Hsz; lia|done].
  - apply wp_put_sample; [apply Hsz; lia|done].
  - apply wp_put_rate; [apply Hsz; lia|done].
  - apply wp_put_event; [apply Hsz; lia|tauto|done].
  - apply andb_prop in Heqb4 as [_ Hrem]. apply Z.eqb_eq in Hrem.
    by apply wp_set_keys_loop.
  - by apply wp_ret.
Qed.

(** *** The tick *)

Lemma wf_windows_ok d : wf_db d → windows_ok d.
Proof.
  intros Hd. split_and!; (eapply map_Forall_impl; [apply Hd|]); intros n a Ha; apply Ha.
Qed.

Lemma wf_ticked ts d : wf_db d → wf_db (ticked ts d).
Proof.
  intros Hd. unfold ticked. apply wf_set_rates; [apply wf_set_samples; [apply wf_set_counters; [done|]|]|];
    apply map_Forall_fmap; (eapply map_Forall_impl; [apply Hd|]); intros n a Ha;
    unfold compose, flush; case_step; try done.
  - destruct Ha as (? & ? & ? & ? & ?). unfold wf_counter; cbn. split_and!; eauto with wf.
  - destruct Ha as (? & ? & ? & ? & ?). unfold wf_sample; cbn. split_and!; eauto with wf.
  - destruct Ha as (? & ? & ? & ? & ? & ? & ?). unfold wf_rate; cbn. split_and!; eauto with wf.
Qed.

Lemma wp_check_freshness e k : wf_kernel k → wp F (check_freshness e) (λ _, wf_kernel) k.
Proof using VL.
  intros Hk. eapply wp_run; [apply check_freshness_run|].
  - eapply map_Forall_impl; [apply Hk|]. intros n s Hs. apply Hs.
  - unfold wf_kernel. rewrite k_db_set_db. apply wf_set_states; [done|].
    apply map_Forall_fmap. eapply map_Forall_impl; [apply Hk|]. intros n s Hs. unfold compose.
    case_step; [|done]. destruct Hs as (? & [? [? ?]] & ? & ? & ? & ? & ?).
    unfold wf_state; cbn. split_and!; eauto with wf. by split_and!.
Qed.

Lemma wp_broadcast_setkeys k : wf_kernel k → wp F broadcast_setkeys (λ _, wf_kernel) k.
Proof using VL.
  intros Hk. unfold broadcast_setkeys. wp_steps.
  destruct (setkeys_loop_spec (for_each (k_keys k)) [] k) as (chunks & c' & E & _); [cbn; lia|].
  eapply wp_run; [exact E|]. cbv beta iota. case_step; by wp_steps.
Qed.

Lemma wp_do_binf_write e k : F → wf_kernel k → wp F (do_binf_write e) (λ _, wf_kernel) k.
Proof.
  intros HF Hk. unfold do_binf_write. wp_steps. apply wp_lift; [|done]. intros [rc f] _. by wp_steps.
Qed.

Lemma wp_do_save_keys e k : wf_kernel k → wp F (do_save_keys e) (λ _, wf_kernel) k.
Proof. intros Hk. unfold do_save_keys. wp_steps. repeat case_step; by wp_steps. Qed.

(** Runs one part of a handler that keeps the invariant. *)
Lemma wp_part {A} (m : K ()) (f : K A) k :
  wp F m (λ _, wf_kernel) k → (∀ k', wf_kernel k' → wp F f (λ _, wf_kernel) k') →
  wp F (m ≫= λ _, f) (λ _, wf_kernel) k.
Proof. intros Hm Hf. apply wp_bind. eapply wp_mono; [exact Hm|]. intros ? k' Hk'. by apply Hf. Qed.

Lemma wp_on_tock e k :
  F ∨ due (k_savestate k) (time_s e) = false → wf_kernel k → wp F (on_tock e) (λ _, wf_kernel) k.
Proof using VL.
  intros Hdue Hk. unfold on_tock. apply wp_bind, wp_get.
  apply wp_part; [|intros k1 Hk1; apply wp_part; [|intros k2 Hk2; apply wp_part;
    [|intros k3 Hk3; apply wp_part; [|by intros; apply wp_ret]]]].
  - case_step; [|by apply wp_ret]. wp_steps.
    eapply wp_run; [apply tick_aggregates_run; by apply wf_windows_ok|]. by apply wf_ticked.
  - case_step; [|by apply wp_ret]. unfold beacon_sweep. by wp_steps.
  - case_step; [|by apply wp_ret]. wp_steps. by apply wp_check_freshness.
  - case_step; [|by apply wp_ret]. destruct Hdue as [HF|]; [|congruence]. wp_steps.
    eapply wp_mono; [by apply wp_broadcast_setkeys|]. cbn. intros _ k4 Hk4. wp_steps.
    eapply wp_mono; [by apply wp_do_binf_write|]. cbn. intros _ k5 Hk5. by apply wp_do_save_keys.
Qed.

(** *** The management port *)

(** The requests that build a text in memory or write the save file may
    exceed a mapping. *)
Definition bounded_request (p : pdu_t) : Prop :=
  pdu_type p ≠ "DUMP" ∧ pdu_type p ≠ "GET.EVENTS" ∧ pdu_type p ≠ "SAVESTATE".

Lemma wf_forgotten {A} (P : string → A → Prop) set_ignore hit ignore (m m' : gmap string A) :
  map_Forall P m → (∀ n a, P n a → P n (set_ignore a)) →
  forgotten set_ignore hit ignore m m' → map_Forall P m'.
Proof.
  intros Hm Hig. unfold forgotten. destruct ignore.
  - intros ->. intros n a. rewrite map_lookup_imap. destruct (m !! n) as [b|] eqn:E; [|done].
    cbn. intros [= <-]. case_step; [apply Hig|]; by apply Hm.
  - intros Hn n a. rewrite Hn. destruct (hit n && _); [done|]. apply Hm.
Qed.

Lemma wp_forget p k : 4 ≤ pdu_size p → wf_kernel k → wp F (mgmt_forget p) (λ _, wf_kernel) k.
Proof using VL.
  intros Hsz Hk. unfold mgmt_forget. wp_steps. case_step; [|by wp_steps]. wp_steps.
  unfold wf_kernel. rewrite !k_db_set_db.
  unfold forget_states, forget_counters, forget_samples, forget_rates.
  assert (∀ n a, wf_state n a → wf_state n (ignore_state a)) as W1.
  { intros n a (? & ? & ? & ? & ? & ? & ?). unfold wf_state; cbn. split_and!; eauto with wf. }
  assert (∀ n a, wf_counter n a → wf_counter n (ignore_counter a)) as W2.
  { intros n a (? & ? & ? & ? & ?). unfold wf_counter; cbn. split_and!; eauto with wf. }
  assert (∀ n a, wf_sample n a → wf_sample n (ignore_sample a)) as W3.
  { intros n a (? & ? & ? & ? & ?). unfold wf_sample; cbn. split_and!; eauto with wf. }
  assert (∀ n a, wf_rate n a → wf_rate n (ignore_rate a)) as W4.
  { intros n a (? & ? & ? & ? & ? & ? & ?). unfold wf_rate; cbn. split_and!; eauto with wf. }
  repeat case_step;
    repeat first [done | apply wf_set_rates | apply wf_set_samples | apply wf_set_counters | apply wf_set_states];
    (eapply wf_forgotten; [|eassumption|apply forget_table_forgotten]); apply Hk.
Qed.

Lemma wp_on_management e p k :
  F ∨ bounded_request p → wf_kernel k → wp F (on_management e p) (λ _, wf_kernel) k.
Proof using VL.
  intros HF Hk. unfold on_management. apply wp_part; [|by intros; apply wp_ret].
  repeat case_step;
    try match goal with H : _pdu_is _ _ _ _ = true |- _ =>
      apply pdu_is_true in H as [Hsz Ht] end.
  - specialize (Hsz ltac:(lia)). unfold mgmt_state. wp_steps. case_step; by wp_steps.
  - destruct HF as [HF|(? & ? & ?)]; [|done]. unfold mgmt_dump. case_step; wp_steps; [done|].
    case_step; wp_steps; [done|]. apply wp_lift; [|done]. intros. by wp_steps.
  - specialize (Hsz ltac:(lia)). unfold mgmt_get_keys. wp_steps.
    assert (∀ ixs a, Forall (λ i, 0 ≤ i < pdu_size p) ixs →
      wp F (get_keys_loop p ixs a) (λ _, wf_kernel) k) as Hloop.
    { clear -VL Hk. induction ixs as [|i ixs IH]; intros a Hix; cbn [get_keys_loop]; [by apply wp_ret|].
      apply Forall_cons in Hix as [Hi Hix]. wp_steps. by apply IH. }
    eapply wp_mono; [apply Hloop|intros ? ? ?; by wp_steps].
    apply Forall_forall. intros i Hin%elem_of_seqZ. lia.
  - specialize (Hsz ltac:(lia)). unfold mgmt_del_keys. apply wp_part; [|intros; by wp_steps].
    apply wp_for_each; [done|]. intros i k' Hin%elem_of_seqZ Hk'. by wp_steps.
  - specialize (Hsz ltac:(lia)). unfold mgmt_search_keys. wp_steps. case_step; by wp_steps.
  - specialize (Hsz ltac:(lia)). destruct HF as [HF|(? & ? & ?)]; [|done]. unfold mgmt_get_events.
    wp_steps. case_step; wp_steps; [done|]. case_step; wp_steps; [done|]. apply wp_lift; [|done].
    intros. by wp_steps.
  - destruct HF as [HF|(? & ? & ?)]; [|done]. unfold mgmt_savestate.
    apply wp_part; [by apply wp_do_binf_write|]. intros k1 Hk1.
    apply wp_part; [unfold do_binf_sync; by wp_steps|]. intros k2 Hk2.
    apply wp_part; [by apply wp_do_save_keys|]. intros. by wp_steps.
  - apply wp_forget; [apply Hsz; lia|done].
  - by apply wp_ret.
Qed.

(** *** The reactor *)

(** The messages on which no fault is possible. *)
Definition benign (e : env) (s : socket) (p : pdu_t) (k : kernel_t) : Prop :=
  match s with
  | Tock => due (k_savestate k) (time_s e) = false
  | Listener => pdu_type p = "EVENT" → event_fits p k
  | Management => bounded_request p
  | _ => True
  end.

Lemma wp_reactor e s p k :
  F ∨ benign e s p k → wf_kernel k → wp F (_kernel_reactor e s p) (λ _, wf_kernel) k.
Proof using VL.
  intros Hb Hk. destruct s; cbn [_kernel_reactor benign] in *; try by apply wp_ret.
  - by apply wp_on_tock.
  - by apply wp_on_listener.
  - by apply wp_on_management.
Qed.
End handlers.

Lemma pdu_is_other p type min max :
  pdu_type p ≠ type ∨ min ≠ 0 ∧ pdu_size p < min → _pdu_is p type min max = false.
Proof.
  intros Hno. apply not_true_iff_false. intros [Hsz Ht]%pdu_is_true.
  destruct Hno as [|[Hmin Hlt]]; [done|]. specialize (Hsz Hmin). lia.
Qed.

(** ** The running kernel *)

(** One reaction, with what it sends. *)
Inductive kernel_step : kernel_t → list output → kernel_t → Prop :=
| react e s p k r k' o : _kernel_reactor e s p k = Ok (r, k', o) → kernel_step k o k'.

(** The states a kernel can reach, and everything it has sent. *)
Inductive kernel_run : kernel_t → list output → kernel_t → Prop :=
| run_nil k : kernel_run k [] k
| run_step k1 o1 k2 o2 k3 : kernel_run k1 o1 k2 → kernel_step k2 o2 k3 → kernel_run k1 (o1 ++ o2) k3.

Lemma kernel_step_wf k o k' : wf_kernel k → kernel_step k o k' → wf_kernel k'.
Proof using VL.
  intros Hk Hstep. destruct Hstep as [e s p k0 r k0' o0 E]. pose proof (wp_reactor True e s p k0 (or_introl I) Hk) as Hwp.
  unfold wp in Hwp. by rewrite E in Hwp.
Qed.

Lemma kernel_run_wf k o k' : wf_kernel k → kernel_run k o k' → wf_kernel k'.
Proof using VL.
  intros Hk Hrun. induction Hrun as [|k1 o1 k2 o2 k3 _ IH Hs]; [done|].
  eapply kernel_step_wf; [by apply IH|exact Hs].
Qed.

(** C3: the invariant of the database (entries under their own names, windows
    that are positive, types that are complete, every field within its C
    type, an event count that does not exceed the list) is kept by every
    reaction to any message on any socket, so it holds in every state a
    kernel that starts well-formed can reach. *)
Theorem kernel_invariant k0 o k : wf_kernel k0 → kernel_run k0 o k → wf_kernel k.
Proof using VL. apply kernel_run_wf. Qed.

(** C2: safety: in no reachable state can a message fault the kernel (a null
    pointer, a division by zero, an access out of bounds), whatever the
    frames of the message, unless it is an event whose age limit overflows,
    a management request that dumps or saves, or a tick at which the
    database is saved. *)
Theorem kernel_safety k0 o k e s p :
  wf_kernel k0 → kernel_run k0 o k → benign e s p k →
  ∃ r k' o', _kernel_reactor e s p k = Ok (r, k', o').
Proof using VL.
  intros Hk0 Hrun Hb. pose proof (kernel_run_wf _ _ _ Hk0 Hrun) as Hk.
  pose proof (wp_reactor False e s p k (or_intror Hb) Hk) as Hwp. unfold wp in Hwp.
  destruct (_kernel_reactor e s p k) as [[[r k'] o']|]; [eauto|done].
Qed.

(** A message the kernel does not know leaves it as it was: on the
    listener and management sockets, a type that no handler accepts, or a
    number of frames that its handler does not accept, is dropped without an
    answer; and a message on the control socket stops the reactor. *)
Theorem unknown_messages_ignored e p k :
  _kernel_reactor e Control p k = Ok (Halt, k, []) ∧
  (pdu_type p ∉ ["STATE"; "COUNTER"; "SAMPLE"; "RATE"; "EVENT"; "SET.KEYS"] ∨ pdu_size p < 3 →
   _kernel_reactor e Listener p k = Ok (Continue, k, [])) ∧
  (pdu_type p ∉ ["STATE"; "DUMP"; "GET.KEYS"; "DEL.KEYS"; "SEARCH.KEYS"; "GET.EVENTS"; "SAVESTATE";
                 "FORGET"] ∨ pdu_size p < 1 →
   _kernel_reactor e Management p k = Ok (Continue, k, [])).
Proof.
  split; [done|]. split; (intros [Hno|Hno]; [rewrite !not_elem_of_cons in Hno; destruct_and!|]);
    cbn [_kernel_reactor]; unfold on_listener, on_management;
    rewrite !pdu_is_other by first [left; congruence|right; lia]; reflexivity.
Qed.
End wf.

(** ** Examples *)

Lemma example_wf : wf_kernel (H := ref_pcre) CoreExample.k.
Proof.
  assert (wf_type Example1.local) as Ht by (split_and!; [by eexists|by vm_compute|by vm_compute]).
  assert (wf_window Example1.minute) as Hw by (by vm_compute).
  split; [|apply map_Forall_empty..|by apply Forall_singleton|by apply Forall_singleton
    |by apply Forall_singleton|by apply Forall_singleton|by vm_compute].
  change (states _) with (<["host.cpu" := CoreExample.cpu]> ({["host.disk" := CoreExample.disk]}
    : gmap string state_t)).
  apply map_Forall_insert_2; [|apply map_Forall_singleton];
    unfold wf_state; cbn; split_and!; first [done|by vm_compute].
Qed.

(** A run of two reactions. *)
Lemma example_run :
  ∃ o k, kernel_run (V := ref_vigor) (H := ref_pcre) CoreExample.k o k ∧
         states (k_db (H0 := ref_pcre) k) !! "host.disk"
         = Some (mk_state Example1.local "host.disk" 1995 2295 CRITICAL "full" 0 0).
Proof.
  eexists _, _. split.
  - eapply run_step; [eapply run_step; [apply run_nil|]|].
    + eapply (react CoreExample.e Listener (("STATE", ["1995"; "host.disk"; "2"; "full"]) : @pdu_t ref_vigor)).
      vm_compute. reflexivity.
    + eapply (react CoreExample.e Listener (("COUNTER", ["1996"; "host.logins"; "3"]) : @pdu_t ref_vigor)).
      vm_compute. reflexivity.
  - vm_compute. reflexivity.
Qed.

Lemma kernel_invariant_witness :
  ∃ o k, kernel_run (V := ref_vigor) (H := ref_pcre) CoreExample.k o k ∧ wf_kernel (H := ref_pcre) k.
Proof.
  destruct example_run as (o & k & Hrun & _). exists o, k. split; [done|].
  apply (kernel_invariant (VL := ref_vigor_laws) (H := ref_pcre) CoreExample.k o k); [apply example_wf|done].
Defined.

Lemma kernel_safety_witness :
  ∃ r k' o', _kernel_reactor (H := ref_vigor) (H0 := ref_pcre) CoreExample.e Listener
    (("EVENT", ["-2147483648"; "reboot"; "x"]) : @pdu_t ref_vigor) CoreExample.k = Ok (r, k', o').
Proof.
  apply (kernel_safety (VL := ref_vigor_laws) (H := ref_pcre) CoreExample.k [] CoreExample.k CoreExample.e
    Listener (("EVENT", ["-2147483648"; "reboot"; "x"]) : @pdu_t ref_vigor));
    [apply example_wf|apply run_nil|intros _; by left].
Defined.

Lemma unknown_messages_ignored_witness :
  _kernel_reactor (H := ref_vigor) (H0 := ref_pcre) CoreExample.e Listener
    (("PING", ["1"; "2"; "3"]) : @pdu_t ref_vigor) CoreExample.k = Ok (Continue, CoreExample.k, []).
Proof.
  apply (unknown_messages_ignored (V := ref_vigor) (H := ref_pcre) CoreExample.e
    (("PING", ["1"; "2"; "3"]) : @pdu_t ref_vigor) CoreExample.k). left.
  by apply (bool_decide_unpack _).
Defined.
