(* ===== verification/NameFacts.v ===== *)
(** * Theorems on src/bolo_name.c *)

From S2P Require Import Prelude CLib Name.
From Stdlib Require Import Ascii.
From Stdlib Require String.

(** ** Well-formed names: what the parser builds *)

Definition wf_part (p : part) : Prop :=
  str_all key_char (part_name p) = true ∧
  ∃ v, part_value p = Some v ∧ str_all (is_not ",") v = true ∧ part_wild p = wild_value v.

Definition wf_name (n : name_t) : Prop :=
  Forall wf_part (name_parts n) ∧ StronglySorted (cmp_le s_sort) (name_parts n).

Lemma parse_loop_wf fuel n a wild acc w ps :
  Forall wf_part acc → parse_loop fuel n a wild acc = Some (w, ps) → Forall wf_part ps.
Proof.
  revert a wild acc. induction fuel as [|f IH]; intros a wild acc Hacc; cbn [parse_loop]; [done|].
  destruct (length acc <? n)%nat; [|by intros [= <- <-]].
  assert (Forall wf_part (acc ++ [mk_part (take_while key_char a)
    (Some (take_while (is_not ",") (tail_str (skip_while key_char a))))
    (wild_value (take_while (is_not ",") (tail_str (skip_while key_char a))))])) as Hacc'.
  { apply Forall_app. split; [done|]. apply Forall_singleton. split; [apply take_while_all|].
    eexists. split_and!; [done|apply take_while_all|done]. }
  destruct (skip_while key_char a) as [|c rest] eqn:E.
  - case_step; [|done]. by intros [= <- <-].
  - cbn [tail_str] in Hacc'.
    destruct c as [[] [] [] [] [] [] [] []];
      try (destruct (streq (take_while key_char a) "*"); [|done]; by apply IH).
    destruct (skip_while (is_not ",") rest); [by intros [= <- <-]|]. by apply IH.
Qed.

(** The empty slots do not disturb the sort, so no slot that is read is
    empty. *)
Lemma parse_slots ps m :
  ∃ l, foldr (λ slot acc, p ← deref slot; ps ← acc; mret (p :: ps)) (mret [])
         (take (length ps) (qsort (opt_cmp s_sort) (padded ps m))) = Ok l
       ∧ l ≡ₚ ps ∧ StronglySorted (cmp_le s_sort) l
       ∧ (StronglySorted (cmp_le s_sort) ps → l = ps).
Proof.
  destruct (qsort_padded s_sort ps m) as (l & E & Hp & Hs). exists l. rewrite E.
  assert (take (length ps) (padded l m) = Some <$> l) as ->.
  { unfold padded. rewrite <- (Permutation_length Hp), <- (length_fmap Some l).
    apply take_app_length. }
  split_and!.
  - clear. induction l as [|p l IH]; [done|]. cbn. cbn in IH. by rewrite IH.
  - done.
  - apply Hs; unfold cmp_le, s_sort; [intros; apply strcmp_total|intros x y z; apply strcmp_trans].
  - intros Hsorted. rewrite qsort_id in E.
    + unfold padded in E. apply app_inj_1 in E as [E _].
      * by apply (inj (fmap Some)) in E.
      * by rewrite !length_fmap, Hp.
    + unfold padded. apply StronglySorted_app_2.
      * intros x y _ Hy. apply elem_of_replicate in Hy as [-> _]. unfold cmp_le. by destruct x.
      * clear -Hsorted. induction Hsorted as [|p ps _ IH Hall]; [constructor|].
        rewrite fmap_cons. constructor; [done|]. apply Forall_fmap. eapply Forall_impl; [exact Hall|].
        by intros q.
      * clear. induction m as [|m IH]; [constructor|]. cbn. constructor; [done|].
        apply Forall_replicate. done.
Qed.

Lemma parse_ok s : is_ok (bolo_name_parse s) = true.
Proof.
  unfold bolo_name_parse. destruct s as [|c s]; [done|].
  destruct (parse_loop _ _ _ _ _) as [[w ps]|]; [|done].
  destruct (parse_slots ps (S (count_char "," (String c s)) - length ps)) as (l & E & _).
  by rewrite E.
Qed.

Lemma parse_wf s n : bolo_name_parse s = Ok (Some n) → wf_name n.
Proof.
  unfold bolo_name_parse. destruct s as [|c s]; [intros [= <-]; split; constructor|].
  destruct (parse_loop _ _ _ _ _) as [[w ps]|] eqn:Hloop; [|done].
  destruct (parse_slots ps (S (count_char "," (String c s)) - length ps)) as (l & E & Hp & Hs & _).
  rewrite E. intros [= <-]. split; [|done]. cbn [name_parts]. rewrite Hp.
  eapply parse_loop_wf; [|exact Hloop]. constructor.
Qed.

(** ** Printing and parsing *)

Lemma chop_app s t : t ≠ EmptyString → chop (s +:+ t) = s +:+ chop t.
Proof.
  intros Ht. induction s as [|c s IH]; [done|]. rewrite !str_app_cons. cbn [chop]. rewrite IH.
  destruct (s +:+ t) eqn:E; [|done].
  exfalso. destruct s; [by rewrite str_app_nil_l in E|by rewrite str_app_cons in E].
Qed.

(** The component of a part, and the components of a name. *)
Definition comp (p : part) : string := part_name p +:+ "=" +:+ default EmptyString (part_value p).
Definition comps (n : name_t) : list string :=
  (comp <$> name_parts n) ++ (if name_wild n then ["*"] else []).

Lemma concat_comma_cons c cs :
  cs ≠ [] → String.concat "," (c :: cs) = c +:+ "," +:+ String.concat "," cs.
Proof. by destruct cs. Qed.

(** The printer joins the components with commas. *)
Lemma name_string_run n :
  Forall wf_part (name_parts n) → bolo_name_string n = Ok (String.concat "," (comps n)).
Proof.
  intros Hwf. unfold bolo_name_string, comps.
  assert (parts_text (name_parts n) = Ok (foldr (λ p t, comp p +:+ "," +:+ t) EmptyString (name_parts n))) as ->.
  { induction Hwf as [|p ps (_ & v & Hv & _) _ IH]; [done|]. cbn [parts_text foldr].
    unfold part_text, comp. rewrite Hv, IH. cbn. by rewrite !str_app_assoc. }
  cbn [mbind res_bind mret res_ret]. f_equal. clear Hwf.
  set (tail := if name_wild n then "*," else EmptyString).
  assert (∀ ps, ps ≠ [] ∨ tail ≠ EmptyString →
    foldr (λ p t, comp p +:+ "," +:+ t) EmptyString ps +:+ tail ≠ EmptyString) as Hne.
  { intros [|p ps] Hc; cbn; [destruct Hc; [done|by rewrite str_app_nil_l]|].
    unfold comp. destruct (part_name p); by rewrite ?str_app_cons, ?str_app_nil_l. }
  induction (name_parts n) as [|p ps IH]; [unfold tail; by destruct (name_wild n)|].
  cbn [foldr]. rewrite fmap_cons. cbn [app]. rewrite !str_app_assoc.
  rewrite chop_app by (by rewrite str_app_cons).
  destruct (decide (ps = [] ∧ name_wild n = false)) as [[-> Hw]|Hc].
  - unfold tail. rewrite Hw. cbn. by rewrite str_app_nil_r.
  - rewrite concat_comma_cons.
    + rewrite <- IH. rewrite chop_app; [done|]. apply Hne. unfold tail.
      destruct ps; [right|by left]. destruct (name_wild n); [done|tauto].
    + destruct ps; [|done]. destruct (name_wild n); [done|tauto].
Qed.

Lemma count_none c s : str_all (is_not c) s = true → count_char c s = 0%nat.
Proof.
  induction s as [|d s IH]; [done|]. cbn [str_all count_char]. intros [Hd Hs]%andb_prop.
  unfold is_not in Hd. rewrite IH by done. by destruct (Ascii.eqb c d).
Qed.

Lemma count_app c s t : count_char c (s +:+ t) = (count_char c s + count_char c t)%nat.
Proof. induction s as [|d s IH]; [done|]. rewrite str_app_cons. cbn. rewrite IH. lia. Qed.

Lemma key_chars_no_comma s : str_all key_char s = true → str_all (is_not ",") s = true.
Proof.
  induction s as [|c s IH]; [done|]. cbn [str_all]. intros [Hc Hs]%andb_prop.
  unfold key_char in Hc. apply andb_prop in Hc as [_ ->]. by rewrite IH.
Qed.

Lemma comp_no_comma p : wf_part p → str_all (is_not ",") (comp p) = true.
Proof.
  intros (Hk & v & Hv & Hc & _). unfold comp. rewrite Hv. change (default EmptyString (Some v)) with v.
  by rewrite !str_all_app, (key_chars_no_comma (part_name p)), Hc.
Qed.

(** The number of commas is one less than the number of components. *)
Lemma count_concat cs :
  cs ≠ [] → Forall (λ c, str_all (is_not ",") c = true) cs →
  S (count_char "," (String.concat "," cs)) = length cs.
Proof.
  induction cs as [|c cs IH]; intros Hne Hcs; [done|]. apply Forall_cons in Hcs as [Hc Hcs].
  destruct cs as [|d cs]; [cbn; by rewrite count_none|].
  rewrite concat_comma_cons, !count_app, count_none by done.
  cbn [length]. cbn [length] in IH. rewrite <- IH by done. done.
Qed.

Lemma concat_length cs :
  Forall (λ c, c ≠ EmptyString) cs → (length cs ≤ String.length (String.concat "," cs))%nat.
Proof.
  induction 1 as [|c cs Hc _ IH]; [done|].
  assert (1 ≤ String.length c)%nat by (destruct c; cbn; [done|lia]).
  destruct cs as [|d cs]; [cbn; lia|]. rewrite concat_comma_cons by done.
  rewrite !str_length_app. cbn [length] in *. lia.
Qed.

(** Parsing the components of well-formed parts. *)
Lemma parse_loop_comps fuel n ps (w : bool) acc :
  Forall wf_part ps → (length acc + length ps + (if w then 1 else 0) ≤ n)%nat →
  (length ps + (if w then 1 else 0) ≤ fuel)%nat → (ps ≠ [] ∨ w = true) →
  parse_loop fuel n (String.concat "," ((comp <$> ps) ++ (if w then ["*"] else []))) false acc
  = Some (w, acc ++ ps).
Proof.
  revert fuel acc. induction ps as [|p ps IH]; intros fuel acc Hps Hn Hf Hne.
  - destruct Hne as [| ->]; [done|]. destruct fuel as [|f]; [cbn in Hf; lia|].
    cbn [fmap list_fmap app String.concat parse_loop].
    destruct (Nat.ltb_spec (length acc) n); [|cbn in Hn; lia]. by rewrite app_nil_r.
  - apply Forall_cons in Hps as [(Hk & v & Hv & Hc & Hw) Hps]. cbn [length] in *.
    destruct fuel as [|f]; [lia|]. rewrite fmap_cons. cbn [app].
    set (rest := (comp <$> ps) ++ (if w then ["*"] else [])).
    assert (String.concat "," (comp p :: rest) =
      part_name p +:+ String "=" (v +:+ (match rest with [] => EmptyString | _ => "," +:+ String.concat "," rest end)))
      as ->.
    { unfold comp. rewrite Hv. change (default EmptyString (Some v)) with v. destruct rest as [|r rest'].
      - cbn [String.concat]. by rewrite str_app_nil_r.
      - rewrite concat_comma_cons by done. by rewrite !str_app_assoc. }
    set (more := match rest with [] => _ | _ => _ end).
    assert (is_not "," (head_char more) = false ∨ more = EmptyString) as Hmore
      by (unfold more; destruct rest; [by right|by left]).
    cbn [parse_loop]. destruct (Nat.ltb_spec (length acc) n); [|lia].
    rewrite skip_while_app, take_while_app by (done || (left; reflexivity)). cbn iota.
    rewrite skip_while_app, take_while_app by done.
    replace (mk_part (part_name p) (Some v) (wild_value v)) with p by (destruct p; cbn in *; congruence).
    unfold more. destruct rest as [|r rest'] eqn:E.
    + unfold rest in E. destruct ps, w; done.
    + rewrite str_app_cons. cbn iota. rewrite str_app_nil_l, <- E. unfold rest.
      rewrite IH; [by rewrite <- app_assoc|done|rewrite length_app; cbn [length]; lia|lia|].
      unfold rest in E. destruct ps, w; (by left) || (by right) || done.
Qed.

(** C36: printing a parsed name and parsing the text again gives the same
    name: the printer is total on everything the parser accepts, and the
    text it produces is a fixed point. *)
Theorem name_parse_print s n :
  bolo_name_parse s = Ok (Some n) →
  ∃ t, bolo_name_string n = Ok t ∧ bolo_name_parse t = Ok (Some n).
Proof.
  intros [Hwf Hsort]%parse_wf. eexists. split; [by apply name_string_run|].
  destruct n as [w ps]. cbn [name_parts] in *. unfold comps. cbn [name_parts name_wild].
  destruct (decide (ps = [] ∧ w = false)) as [[-> ->]|Hne]; [done|].
  assert (ps ≠ [] ∨ w = true) as Hne' by (destruct ps, w; (by left) || (by right) || tauto).
  set (cs := (comp <$> ps) ++ (if w then ["*"] else [])).
  assert (cs ≠ []) as Hcs by (unfold cs; destruct ps, w; done || tauto).
  assert (length cs = length ps + (if w then 1 else 0))%nat as Hlen
    by (unfold cs; rewrite length_app, length_fmap; by destruct w).
  assert (Forall (λ c, str_all (is_not ",") c = true) cs) as Hcomma.
  { unfold cs. apply Forall_app. split; [|destruct w; by repeat constructor].
    apply Forall_fmap. eapply Forall_impl; [exact Hwf|]. apply comp_no_comma. }
  assert (Forall (λ c, c ≠ EmptyString) cs) as Hnon.
  { unfold cs. apply Forall_app. split; [|destruct w; by repeat constructor].
    apply Forall_fmap, Forall_true. intros p. unfold compose, comp.
    destruct (part_name p); by rewrite ?str_app_nil_l, ?str_app_cons. }
  pose proof (concat_length cs Hnon) as Hl. pose proof (count_concat cs Hcs Hcomma) as Hc.
  assert (String.concat "," cs ≠ EmptyString) as Hne2.
  { intros E. rewrite E in Hl. destruct cs; [done|cbn in Hl; lia]. }
  unfold bolo_name_parse. destruct (String.concat "," cs) as [|ch t] eqn:E; [done|].
  rewrite <- E in Hl, Hc |- *. rewrite Hc.
  rewrite (parse_loop_comps _ _ ps w []) by (done || (cbn [length] in *; lia)). rewrite app_nil_l.
  destruct (parse_slots ps (length cs - length ps)) as (l & Eq & _ & _ & Hid).
  by rewrite Eq, Hid.
Qed.

Lemma name_parse_print_witness :
  ∃ t, bolo_name_string (mk_name true [mk_part "az" (Some "e") false; mk_part "host" (Some "*") true]) = Ok t
       ∧ bolo_name_parse t
         = Ok (Some (mk_name true [mk_part "az" (Some "e") false; mk_part "host" (Some "*") true])).
Proof. apply (name_parse_print "host=*,*,az=e"). reflexivity. Defined.

(** ** Matching *)

(** The set-based reading: every pair of the pattern is met by a pair of the
    name with the same key and, unless the pattern's value is a wildcard,
    the same value; and without a [*] in the pattern there are no others. *)
Definition meets (pa pb : list part) : Prop :=
  ∀ q, q ∈ pb → ∃ p, p ∈ pa ∧ part_name p = part_name q ∧
                     (part_wild q = true ∨ part_value p = part_value q).
Definition covers (pa pb : list part) : Prop :=
  ∀ p, p ∈ pa → ∃ q, q ∈ pb ∧ part_name q = part_name p.
Definition name_matches (a b : name_t) : Prop :=
  meets (name_parts a) (name_parts b) ∧
  (name_wild b = true ∨ covers (name_parts a) (name_parts b)).

(** Strictly increasing keys. *)
Definition key_lt (p q : part) : Prop := strcmp (part_name p) (part_name q) = Lt.

Lemma strcmp_eq a b : strcmp a b = Eq ↔ a = b.
Proof.
  split; [apply String.compare_eq_iff|]. intros ->. unfold strcmp.
  pose proof (String.compare_antisym b b) as H. by destruct (String.compare b b).
Qed.

Lemma strcmp_lt_ne a b : strcmp a b = Lt → a ≠ b.
Proof. intros H ->. by rewrite (proj2 (strcmp_eq b b) eq_refl) in H. Qed.

Lemma strcmp_lt_trans a b c : strcmp a b = Lt → strcmp b c = Lt → strcmp a c = Lt.
Proof.
  intros Hab Hbc. assert (strcmp a c ≠ Gt) as Hle by (eapply strcmp_trans; [rewrite Hab|rewrite Hbc]; done).
  destruct (strcmp a c) eqn:E; [|done|done]. apply strcmp_eq in E as ->.
  unfold strcmp in *. rewrite String.compare_antisym, Hbc in Hab. done.
Qed.

Lemma strcmp_lt_asym a b : strcmp a b = Lt → strcmp b a = Lt → False.
Proof. intros Hab Hba. by apply (strcmp_lt_ne a a (strcmp_lt_trans a b a Hab Hba)). Qed.

Lemma strictly_sorted ps :
  StronglySorted (cmp_le s_sort) ps → NoDup (part_name <$> ps) → StronglySorted key_lt ps.
Proof.
  induction 1 as [|p ps _ IH Hall]; intros Hnd; [constructor|].
  rewrite fmap_cons in Hnd. apply NoDup_cons in Hnd as [Hp Hnd]. constructor; [by apply IH|].
  rewrite Forall_forall in Hall |- *. intros q Hq. specialize (Hall q Hq).
  unfold cmp_le, s_sort in Hall. unfold key_lt.
  destruct (strcmp (part_name p) (part_name q)) eqn:E; [|done|done].
  apply strcmp_eq in E. exfalso. apply Hp. rewrite E. apply list_elem_of_fmap. eauto.
Qed.

Lemma match_loop_spec bwild pa pb :
  Forall wf_part pa → Forall wf_part pb → StronglySorted key_lt pa → StronglySorted key_lt pb →
  ∃ rc, match_loop bwild pa pb = Ok rc ∧
        (rc = 0 ↔ meets pa pb ∧ (bwild = true ∨ covers pa pb)) ∧ (rc = 0 ∨ rc = 1).
Proof.
  revert pb. induction pa as [|p pa IH]; intros pb Ha Hb Sa Sb.
  { destruct pb as [|q pb]; cbn [match_loop]; eexists; (split; [done|]).
    - split; [|by left]. split; [|done]. intros _. split; [intros q Hq; by apply elem_of_nil in Hq|].
      right. intros q Hq. by apply elem_of_nil in Hq.
    - split; [|by right]. split; [done|]. intros [Hm _]. destruct (Hm q) as (x & Hx & _); [left|].
      by apply elem_of_nil in Hx. }
  apply Forall_cons in Ha as [(_ & va & Hva & _) Ha]. apply StronglySorted_inv in Sa as [Sa Pa].
  rewrite Forall_forall in Pa.
  destruct pb as [|q pb]; cbn [match_loop].
  { eexists. split; [done|]. destruct bwild; (split; [|tauto]).
    - split; [|done]. intros _. split; [intros q Hq; by apply elem_of_nil in Hq|by left].
    - split; [done|]. intros [_ [|Hc]]; [done|]. destruct (Hc p) as (x & Hx & _); [left|].
      by apply elem_of_nil in Hx. }
  pose proof Hb as Hb0. pose proof Sb as Sb0.
  apply Forall_cons in Hb as [(_ & vb & Hvb & _) Hb]. apply StronglySorted_inv in Sb as [Sb Pb].
  rewrite Forall_forall in Pb.
  destruct (streq (part_name p) (part_name q)) eqn:En.
  - apply streq_eq in En.
    assert (meets (p :: pa) (q :: pb) ↔
            (part_wild q = true ∨ part_value p = part_value q) ∧ meets pa pb) as Hmeets.
    { split.
      - intros Hm. split.
        + destruct (Hm q) as (x & Hx & Hn & Hv); [left|].
          apply elem_of_cons in Hx as [->|Hx]; [done|].
          destruct (strcmp_lt_ne _ _ (Pa x Hx)). congruence.
        + intros r Hr. destruct (Hm r) as (x & Hx & Hn & Hv); [by right|].
          apply elem_of_cons in Hx as [->|Hx]; [|eauto].
          destruct (strcmp_lt_ne _ _ (Pb r Hr)). congruence.
      - intros [Hv Hm] r [->|Hr]%elem_of_cons; [exists p; split; [left|done]|].
        destruct (Hm r Hr) as (x & Hx & ?). exists x. split; [by right|done]. }
    assert (covers (p :: pa) (q :: pb) ↔ covers pa pb) as Hcovers.
    { split.
      - intros Hc r Hr. destruct (Hc r) as (x & Hx & Hn); [by right|].
        apply elem_of_cons in Hx as [->|Hx]; [|eauto].
        destruct (strcmp_lt_ne _ _ (Pa r Hr)). congruence.
      - intros Hc r [->|Hr]%elem_of_cons; [exists q; split; [left|done]|].
        destruct (Hc r Hr) as (x & Hx & ?). exists x. split; [by right|done]. }
    setoid_rewrite Hmeets. setoid_rewrite Hcovers.
    destruct (IH pb Ha Hb Sa Sb) as (rc & E & Hrc & H01).
    destruct (part_wild q); [exists rc; tauto|].
    rewrite Hva, Hvb. cbn [deref mbind res_bind].
    destruct (streq va vb) eqn:Ev.
    + apply streq_eq in Ev as ->. exists rc. tauto.
    + apply streq_neq in Ev. exists 1. split; [done|]. split; [|by right]. split; [done|].
      intros [[[|Hv] _] _]; [done|]. congruence.
  - apply streq_neq in En.
    assert (meets (p :: pa) (q :: pb) → key_lt p q) as Hlt.
    { intros Hm. destruct (Hm q) as (x & Hx & Hn & _); [left|].
      apply elem_of_cons in Hx as [->|Hx]; [congruence|].
      unfold key_lt. rewrite <- Hn. by apply Pa. }
    assert (meets (p :: pa) (q :: pb) → covers (p :: pa) (q :: pb) → False) as Hno.
    { intros Hm Hc. destruct (Hc p) as (x & Hx & Hn); [left|].
      apply elem_of_cons in Hx as [->|Hx]; [congruence|].
      apply (strcmp_lt_asym (part_name p) (part_name q)); [by apply Hlt|].
      rewrite <- Hn. by apply Pb. }
    destruct bwild.
    + destruct (IH (q :: pb) Ha Hb0 Sa Sb0) as (rc & E & Hrc & H01). exists rc.
      split; [done|]. split; [|done]. rewrite Hrc. split; intros [Hm _]; (split; [|by left]).
      * intros r Hr. destruct (Hm r Hr) as (x & Hx & ?). exists x. split; [by right|done].
      * intros r Hr. destruct (Hm r Hr) as (x & Hx & Hn & Hv).
        apply elem_of_cons in Hx as [->|Hx]; [|eauto]. exfalso.
        apply elem_of_cons in Hr as [->|Hr]; [congruence|].
        apply (strcmp_lt_asym (part_name p) (part_name q)); [by apply Hlt|].
        rewrite Hn. by apply Pb.
    + exists 1. split; [done|]. split; [|by right]. split; [done|]. intros [Hm [|Hc]]; [done|].
      destruct (Hno Hm Hc).
Qed.

(** C35: the matcher decides the set-based reading: for names that were parsed
    and whose keys are distinct, [bolo_name_match] never faults, and answers
    0 exactly when every pair of the pattern is met by a pair of the name
    and, unless the pattern has a [*], the name has no other keys. *)
Theorem name_match_spec sa sb a b :
  bolo_name_parse sa = Ok (Some a) → bolo_name_parse sb = Ok (Some b) →
  NoDup (part_name <$> name_parts a) → NoDup (part_name <$> name_parts b) →
  ∃ rc, bolo_name_match a b = Ok rc ∧ (rc = 0 ↔ name_matches a b) ∧ (rc = 0 ∨ rc = 1).
Proof.
  intros [Wa Sa]%parse_wf [Wb Sb]%parse_wf Na Nb. unfold bolo_name_match, name_matches.
  destruct ((length (name_parts b) =? 0)%nat && name_wild b) eqn:E.
  - apply andb_prop in E as [El%Nat.eqb_eq Ew]. apply nil_length_inv in El. rewrite El, Ew.
    exists 0. split; [done|]. split; [|by left]. split; [|done]. intros _. split; [|by left].
    intros q Hq. by apply elem_of_nil in Hq.
  - apply match_loop_spec; auto using strictly_sorted.
Qed.

Lemma name_match_spec_witness :
  ∃ rc, bolo_name_match
          (mk_name false [mk_part "az" (Some "e") false; mk_part "host" (Some "db1") false])
          (mk_name true [mk_part "host" (Some "*") true]) = Ok rc ∧ rc = 0.
Proof.
  destruct (name_match_spec "host=db1,az=e" "host=*,*"
    (mk_name false [mk_part "az" (Some "e") false; mk_part "host" (Some "db1") false])
    (mk_name true [mk_part "host" (Some "*") true]) eq_refl eq_refl) as (rc & E & Hrc & _).
  - apply (bool_decide_unpack _). vm_compute. exact I.
  - apply (bool_decide_unpack _). vm_compute. exact I.
  - exists rc. split; [done|]. apply Hrc. split; [|by left].
    intros q Hq. apply elem_of_cons in Hq as [->|Hq]; [|by apply elem_of_nil in Hq].
    exists (mk_part "host" (Some "db1") false). split_and!; [right; left|done|by left].
Defined.

(** Setting a key that a name already has to the wildcard stores a null
    value without the part's wildcard flag: printing the name then reads the
    null pointer. *)
Theorem name_set_wildcard_breaks s n key p mem :
  bolo_name_parse s = Ok (Some n) → p ∈ name_parts n → part_name p = key →
  ∃ n', bolo_name_set mem n key (Some "*") = (0, n') ∧ bolo_name_string n' = Fault NullPointer.
Proof.
  intros [Hwf _]%parse_wf Hin Hkey. unfold bolo_name_set.
  assert (∃ ps, set_part key (Some "*") (name_parts n) = Some ps ∧ parts_text ps = Fault NullPointer)
    as (ps & -> & Htext).
  { induction (name_parts n) as [|q qs IH]; [by apply elem_of_nil in Hin|].
    apply Forall_cons in Hwf as [(_ & v & Hv & _) Hwf]. cbn [set_part].
    destruct (streq (part_name q) key) eqn:E; [by eexists|].
    apply elem_of_cons in Hin as [->|Hin]; [by apply streq_neq in E|].
    destruct (IH Hwf Hin) as (ps & -> & Ht). eexists. split; [done|].
    cbn [parts_text]. unfold part_text. rewrite Hv. cbn. by rewrite Ht. }
  eexists. split; [done|]. unfold bolo_name_string. cbn [name_parts]. by rewrite Htext.
Qed.

Lemma name_set_wildcard_breaks_witness :
  ∃ n', bolo_name_set true (mk_name false [mk_part "host" (Some "db1") false]) "host" (Some "*") = (0, n')
        ∧ bolo_name_string n' = Fault NullPointer.
Proof.
  apply (name_set_wildcard_breaks "host=db1" _ "host" (mk_part "host" (Some "db1") false) true eq_refl);
    [left|done].
Defined.
