(* ===== verification/Pdu.v ===== *)
(** * Building messages: src/bolo_pdu.c

    The constructors of the messages the agents submit, from values, from
    command-line arguments and from a line of text.  [None] stands for the
    NULL of arguments that do not make a message. *)

From S2P Require Import Prelude CLib Vigor Data.
From Stdlib Require Import Ascii.

Section pdu.
Context `{Vigor}.

(** The timestamp frame: the one given, or the current time. *)
Definition ts_frame (now : Z) (ts : option string) : string :=
  match ts with Some t => t | None => fmt_i now end.

(** ** From arguments *)

Definition status_of (code : string) : Z :=
  if strcaseeq code "0" || strcaseeq code "ok" || strcaseeq code "okay" then OK
  else if strcaseeq code "1" || strcaseeq code "warn" || strcaseeq code "warning" then WARNING
  else if strcaseeq code "2" || strcaseeq code "crit" || strcaseeq code "critical" then CRITICAL
  else UNKNOWN.

Definition bolo_parse_state_pdu (now : Z) (argv : list string) (ts : option string) : option pdu_t :=
  match argv with
  | name :: code :: (_ :: _ as words) =>
      Some (pdu_extend_all (pdu_make "STATE" [])
              [ts_frame now ts; name; fmt_u (status_of code); strings_join words " "])
  | _ => None
  end.

Definition bolo_parse_counter_pdu (now : Z) (argv : list string) (ts : option string) : option pdu_t :=
  match argv with
  | name :: rest =>
      let incr := match rest with [v] => atoi v | _ => 1 end in
      Some (pdu_extend_all (pdu_make "COUNTER" []) [ts_frame now ts; name; fmt_u incr])
  | [] => None
  end.

Definition bolo_parse_sample_pdu (now : Z) (argv : list string) (ts : option string) : option pdu_t :=
  match argv with
  | name :: (_ :: _ as values) =>
      Some (pdu_extend_all (pdu_make "SAMPLE" []) (ts_frame now ts :: name :: values))
  | _ => None
  end.

Definition bolo_parse_rate_pdu (now : Z) (argv : list string) (ts : option string) : option pdu_t :=
  match argv with
  | name :: value :: _ =>
      Some (pdu_extend_all (pdu_make "RATE" []) [ts_frame now ts; name; value])
  | _ => None
  end.

(** The text up to the first [=], and what follows it, "1" when there is
    none. *)
Definition split_pair (arg : string) : string * string :=
  let k := take_while (is_not "=") arg in
  match skip_while (is_not "=") arg with
  | EmptyString => (k, "1")
  | String _ v => (k, v)
  end.

Definition pairs_pdu (args : list string) : pdu_t :=
  foldl (λ p arg, let '(k, v) := split_pair arg in pdu_extend (pdu_extend p k) v)
    (pdu_make "SET.KEYS" []) args.

Definition bolo_parse_setkeys_pdu (argv : list string) : option pdu_t :=
  match argv with [] => None | _ => Some (pairs_pdu argv) end.

(** The description is freed also when it is the constant "". *)
Definition bolo_parse_event_pdu (now : Z) (argv : list string) (ts : option string)
    : res (option pdu_t) :=
  match argv with
  | [] => mret None
  | name :: rest =>
      let extra := match rest with [] => EmptyString | _ => strings_join rest " " end in
      let pdu := pdu_extend_all (pdu_make "EVENT" []) [ts_frame now ts; name; extra] in
      match rest with [] => Fault BadFree | _ => mret (Some pdu) end
  end.

(** ** From a line of text *)

Definition bolo_stream_pdu (now : Z) (line : string) : res (option pdu_t) :=
  match skip_space line with
  | EmptyString => mret None
  | line =>
      match strings_split line " " with
      | [] => Fault NullPointer
      | cmd :: rest =>
          let ts := head rest in
          let args := drop 1 rest in
          if strcaseeq cmd "STATE" then mret (bolo_parse_state_pdu now args ts)
          else if strcaseeq cmd "COUNTER" then mret (bolo_parse_counter_pdu now args ts)
          else if strcaseeq cmd "SAMPLE" then mret (bolo_parse_sample_pdu now args ts)
          else if strcaseeq cmd "RATE" then mret (bolo_parse_rate_pdu now args ts)
          else if strcaseeq cmd "KEY" then mret (bolo_parse_setkeys_pdu rest)
          else if strcaseeq cmd "EVENT" then bolo_parse_event_pdu now args ts
          else mret None
      end
  end.

(** ** From values *)

Definition bolo_forget_pdu (payload : Z) (regex : string) (ignore : Z) : pdu_t :=
  pdu_extend_all (pdu_make "FORGET" []) [fmt_u payload; regex; fmt_u ignore].

Definition bolo_state_pdu (now : Z) (name : string) (status : Z) (msg : string) : pdu_t :=
  pdu_extend_all (pdu_make "STATE" []) [fmt_i now; name; fmt_u status; msg].

Definition bolo_counter_pdu (now : Z) (name : string) (value : Z) : pdu_t :=
  pdu_extend_all (pdu_make "COUNTER" []) [fmt_i now; name; fmt_u value].

Definition bolo_sample_pdu (now : Z) (name : string) (values : list double) : pdu_t :=
  pdu_extend_all (pdu_make "SAMPLE" []) (fmt_i now :: name :: (fmt_f <$> values)).

Definition bolo_rate_pdu (now : Z) (name : string) (value : Z) : pdu_t :=
  pdu_extend_all (pdu_make "RATE" []) [fmt_i now; name; fmt_lu value].

Definition bolo_setkeys_pdu (args : list string) : pdu_t := pairs_pdu args.

Definition bolo_event_pdu (now : Z) (name : string) (extra : option string) : pdu_t :=
  pdu_extend_all (pdu_make "EVENT" []) [fmt_i now; name; match extra with Some x => x | None => EmptyString end].
End pdu.
