(* ===== verification/PduFacts.v ===== *)
(** * From the agents to the kernel

    What a submitted message does when the kernel receives it: the two sides
    agree on the representation of every field. *)

From S2P Require Import Prelude CLib Vigor Bytes Data DataFacts Binf Core CoreFacts Windowed Reactor ReactorFacts KernelFacts Pdu.
From Stdlib Require Import Ascii.

Section delivery.
Context `{VL : VigorLaws} `{Pcre}.

Lemma frames_built t fs : pdu_frames (pdu_extend_all (pdu_make t []) fs) = t :: fs.
Proof using VL. by rewrite frames_extend_all, frames_make. Qed.

(** An [int] printed with [%u] and read back with [strtol] into an [int]. *)
Lemma increment_roundtrip z : is_s32 z → s32 (strtol (fmt_u z)) = z.
Proof. intros Hz. rewrite strtol_fmt_u, s32_u32. by apply s32_id. Qed.

(** A printed number is a word. *)
Lemma digits_no_blank s : str_all isdigit s = true → has_char " " s = false.
Proof.
  induction s as [|c s IH]; [done|]. cbn [str_all has_char]. intros [Hc Hs]%andb_prop.
  rewrite IH by done. destruct (Ascii.eqb_spec " " c) as [<-|]; done.
Qed.

Lemma dec_word n : 0 ≤ n → is_word (dec n).
Proof.
  intros Hn. split.
  - pose proof (dec_head_digit n EmptyString Hn) as Hd. rewrite str_app_nil_r in Hd.
    intros E. by rewrite E in Hd.
  - by apply digits_no_blank, dec_aux_digits.
Qed.

Lemma fmt_i_word z : is_word (fmt_i z).
Proof.
  unfold fmt_i. destruct (Z.ltb_spec z 0); [|by apply dec_word].
  rewrite str_app_cons, str_app_nil_l. split; [done|].
  cbn [has_char]. by rewrite (proj2 (dec_word (- z) ltac:(lia))).
Qed.

(** A line that reports a counter increment, submitted as text, reaches
    the kernel's counter with the sign and the value it was written with,
    although the increment travels as an unsigned number: for a counter that
    is in its window, the value grows by exactly the number on the line. *)
Theorem counter_line_delivered e k now name ts incr c :
  is_word name → 0 < ts < 2 ^ 31 → is_s32 incr →
  counters (k_db k) !! name = Some c → counter_ignore c = 0 → wf_window (counter_window c) →
  0 < counter_last_seen c < 2 ^ 31 →
  counter_last_seen c / window_time (counter_window c) = ts / window_time (counter_window c) →
  ∃ p, bolo_stream_pdu now (String.concat " " ["COUNTER"; fmt_i ts; name; fmt_i incr]) = Ok (Some p) ∧
    _kernel_reactor e Listener p k =
    Ok (Continue,
        set_db (put_counter name
          (mk_counter (counter_window c) (counter_name c) ts (u64 (counter_value c + incr)) 0)
          (k_db k)) k, []).
Proof using VL.
  intros Hname Hts Hincr Hc Hig Hw Hl Hwin. pose proof (proj1 Hname) as Hne.
  exists (pdu_extend_all (pdu_make "COUNTER" []) [fmt_i ts; name; fmt_u (atoi (fmt_i incr))]). split.
  - unfold bolo_stream_pdu.
    assert (skip_space (String.concat " " ["COUNTER"; fmt_i ts; name; fmt_i incr])
            = String.concat " " ["COUNTER"; fmt_i ts; name; fmt_i incr]) as -> by done.
    destruct (String.concat " " ["COUNTER"; fmt_i ts; name; fmt_i incr]) as [|ch l] eqn:E; [done|].
    rewrite <- E, strings_split_words; [done|done|].
    repeat (apply Forall_cons; split; [done || apply fmt_i_word|]). by apply Forall_nil.
  - set (p := pdu_extend_all _ _).
    assert (pdu_frames p = ["COUNTER"; fmt_i ts; name; fmt_u (atoi (fmt_i incr))]) as Hp
      by apply frames_built.
    unfold _kernel_reactor, on_listener. dispatch Hp.
    pose proof (put_counter_run p k _ _ _ _ c (k_db k) Hp Hne
      ltac:(unfold find_counter; by rewrite Hc) Hig Hw ltac:(unfold is_s32; lia)) as Hrun.
    unfold atoi in Hrun. rewrite strtol_fmt_i, (s32_id incr), increment_roundtrip in Hrun by done.
    rewrite strtoul_fmt_i, u32_id in Hrun by (unfold is_u32; lia).
    unfold agg_put in Hrun. cbn [agg_last counter_agg agg_feed] in Hrun.
    rewrite bool_decide_false in Hrun by tauto. rewrite s32_id, Hig in Hrun by (unfold is_s32; lia).
    by rewrite (M_run_bind _ _ _ _ _ _ Hrun).
Qed.

(** The pairs of KEY arguments. *)
Lemma pairs_pdu_frames args :
  pdu_frames (pairs_pdu args) = "SET.KEYS" :: pair_frames (split_pair <$> args).
Proof using VL.
  set (step := λ (p : pdu_t) arg, let '(k, v) := split_pair arg in pdu_extend (pdu_extend p k) v).
  assert (∀ p, pdu_frames (foldl step p args) = pdu_frames p ++ pair_frames (split_pair <$> args)) as Hfold.
  { induction args as [|a args IH]; intros p; [cbn; by rewrite app_nil_r|].
    rewrite fmap_cons. cbn [foldl]. rewrite IH. unfold pair_frames, step. rewrite fmap_cons. cbn [concat].
    destruct (split_pair a) as [x y]. rewrite !frames_extend. by rewrite <- !app_assoc. }
  unfold pairs_pdu. fold step. by rewrite Hfold, frames_make.
Qed.

(** The keys given as arguments, "key=value" or "key" alone for the value
    1, build a message that the kernel always accepts, and that sets exactly
    these keys, the last argument for a key winning. *)
Theorem setkeys_delivered e k args :
  args ≠ [] →
  ∃ p, bolo_parse_setkeys_pdu args = Some p ∧ bolo_setkeys_pdu args = p ∧
    _kernel_reactor e Listener p k =
      Ok (Continue, set_keys (set_all (k_keys k) (split_pair <$> args)) k, []).
Proof using VL.
  intros Hne. exists (pairs_pdu args). split_and!; [by destruct args|done|].
  apply set_keys_run; [apply pairs_pdu_frames|]. by destruct args.
Qed.

(** A state submitted with [bolo_state_pdu] is recorded by the kernel with
    that status and message and the submission time, and becomes due for
    expiry a freshness period later. *)
Theorem state_delivered e k now name status msg s db' :
  name ≠ EmptyString → msg ≠ EmptyString → 0 ≤ now < 2 ^ 31 → is_u8 status →
  find_state (time_s e) (k_db k) name = (Some s, db') → state_ignore s = 0 →
  ∃ o, _kernel_reactor e Listener (bolo_state_pdu now name status msg) k =
    Ok (Continue,
        set_db (put_state name
          (mk_state (state_type s) (state_name s) now (s32 (now + type_freshness (state_type s)))
             status msg 0 0) db') k, o).
Proof using VL.
  intros Hn Hm Hnow Hst Hfind Hig.
  assert (pdu_frames (bolo_state_pdu now name status msg) = ["STATE"; fmt_i now; name; fmt_u status; msg])
    as Hp by apply frames_built.
  unfold _kernel_reactor, on_listener. dispatch Hp.
  pose proof (put_state_run e _ k _ _ _ _ _ _ _ Hp Hn Hm Hfind) as Hrun. cbn zeta in Hrun.
  rewrite Hig in Hrun. cbn [Z.eqb] in Hrun. rewrite (M_run_bind _ _ _ _ _ _ Hrun).
  unfold update_state, atoi. rewrite Hig, strtol_fmt_u, strtoul_fmt_i by done.
  assert (is_u32 now) by (unfold is_u32; lia). assert (is_s32 now) by (unfold is_s32; lia).
  rewrite (u32_id now), (s32_id now), s32_u32 by done.
  assert (u8 (s32 status) = status) as -> by (unfold is_u8 in Hst; cint).
  unfold out_app, mret, M_ret. eauto.
Qed.

(** The FORGET message carries its type mask, its pattern and its flag to
    the kernel's handler unchanged. *)
Theorem forget_pdu_fields payload regex ignore :
  is_u16 payload → is_u8 ignore →
  let p := bolo_forget_pdu payload regex ignore in
  ∃ t f, pdu_frames p = ["FORGET"; t; regex; f] ∧
         u16 (strtoul t) = payload ∧ u8 (strtoul f) = ignore ∧ _pdu_is p "FORGET" 4 4 = true.
Proof using VL.
  intros Hp Hi p. exists (fmt_u payload), (fmt_u ignore).
  assert (pdu_frames p = ["FORGET"; fmt_u payload; regex; fmt_u ignore]) as Hf by apply frames_built.
  rewrite !strtoul_fmt_u. split_and!; [done|cint|cint|].
  by rewrite (pdu_is_frames _ _ _ _ _ _ Hf).
Qed.

(** A line that reports an event without a description frees a string
    constant. *)
Theorem event_line_bad_free now name ts :
  is_word name → is_word ts →
  bolo_stream_pdu now (String.concat " " ["EVENT"; ts; name]) = Fault BadFree.
Proof using VL.
  intros Hn Ht. unfold bolo_stream_pdu.
  assert (skip_space (String.concat " " ["EVENT"; ts; name]) = String.concat " " ["EVENT"; ts; name]) as -> by done.
  destruct (String.concat " " ["EVENT"; ts; name]) as [|ch l] eqn:E; [done|].
  rewrite <- E, strings_split_words; [done|done|].
  repeat (apply Forall_cons; split; [done|]). by apply Forall_nil.
Qed.
End delivery.

(** ** Examples *)

Lemma word_host : is_word "host.logins".
Proof. done. Qed.

Lemma counter_line_delivered_witness :
  ∃ p, bolo_stream_pdu (H := ref_vigor) 0 "COUNTER 150 host.logins -3" = Ok (Some p) ∧
    _kernel_reactor (H := ref_vigor) (H0 := ref_pcre) CoreExample.e Listener p KernelExample.k =
    Ok (Continue, set_db (H0 := ref_pcre) (put_counter (H := ref_pcre) "host.logins"
          (mk_counter Example1.minute "host.logins" 150 (u64 (7 + -3)) 0)
          (k_db (H0 := ref_pcre) KernelExample.k)) KernelExample.k, []).
Proof.
  apply (counter_line_delivered (VL := ref_vigor_laws) (H := ref_pcre) CoreExample.e KernelExample.k 0
    "host.logins" 150 (-3) KernelExample.logins word_host);
    [lia|unfold is_s32; lia|reflexivity|reflexivity|exact minute_wf|cbn; lia|reflexivity].
Defined.

Lemma setkeys_delivered_witness :
  ∃ p, bolo_parse_setkeys_pdu (H := ref_vigor) ["dc=west"; "leader"] = Some p ∧
       bolo_setkeys_pdu (H := ref_vigor) ["dc=west"; "leader"] = p ∧
    _kernel_reactor (H := ref_vigor) (H0 := ref_pcre) CoreExample.e Listener p CoreExample.k =
    Ok (Continue, set_keys (H0 := ref_pcre)
          (set_all (k_keys (H0 := ref_pcre) CoreExample.k) [("dc", "west"); ("leader", "1")]) CoreExample.k, []).
Proof.
  apply (setkeys_delivered (VL := ref_vigor_laws) (H := ref_pcre) CoreExample.e CoreExample.k
    ["dc=west"; "leader"]). discriminate.
Defined.

Lemma state_delivered_witness :
  ∃ o, _kernel_reactor (H := ref_vigor) (H0 := ref_pcre) CoreExample.e Listener
    (bolo_state_pdu (H := ref_vigor) 1999 "host.cpu" WARNING "load is 9") CoreExample.k =
    Ok (Continue, set_db (H0 := ref_pcre) (put_state (H := ref_pcre) "host.cpu"
          (mk_state Example1.local "host.cpu" 1999 2299 WARNING "load is 9" 0 0) CoreExample.db)
          CoreExample.k, o).
Proof.
  apply (state_delivered (VL := ref_vigor_laws) (H := ref_pcre) CoreExample.e CoreExample.k 1999
    "host.cpu" WARNING "load is 9" CoreExample.cpu CoreExample.db);
    [discriminate|discriminate|lia|by vm_compute|reflexivity|reflexivity].
Defined.

Lemma forget_pdu_fields_witness :
  _pdu_is (H := ref_vigor) (bolo_forget_pdu (H := ref_vigor) PAYLOAD_ALL "host" 1) "FORGET" 4 4 = true.
Proof.
  destruct (forget_pdu_fields (VL := ref_vigor_laws) PAYLOAD_ALL "host" 1) as (t & f & _ & _ & _ & H);
    [by vm_compute|by vm_compute|exact H].
Defined.

Lemma event_line_bad_free_witness :
  bolo_stream_pdu (H := ref_vigor) 0 "EVENT 150 reboot" = Fault BadFree.
Proof. apply (event_line_bad_free (VL := ref_vigor_laws) 0 "reboot" "150"); done. Defined.
