(* ===== verification/Config.v ===== *)
(** * The configuration: src/config.c

    The lexer [lex] and the interpreter [configure].  The lexer works in
    place on two arrays that it never clears, so they are modelled as
    memory: a string that may contain NULs, followed by zeros; a pointer
    into it is the rest of the memory from there. *)

From S2P Require Import Prelude CLib Vigor Data.
From Stdlib Require Import Ascii.

(** ** Memory *)

(** [memcpy(mem, src, n)] and [memmove] to the front of an array. *)
Definition overwrite (src mem : string) : string := src +:+ drop_str (String.length src) mem.

(** The text from the start of [mem] up to the pointer [b] into it. *)
Definition upto (mem b : string) : string := take_str (String.length mem - String.length b) mem.

(** [*b = '\0']: the memory after the store. *)
Definition cut_at (mem b : string) : string := upto mem b +:+ String NUL (tail_str b).

(** [while ( *b && isspace( *b)) b++; memmove(p->buffer, b, strlen(b)+1)] *)
Definition advance (mem b : string) : string := overwrite (cstr (skip_space b) +:+ str1 NUL) mem.

(** ** Tokens *)

Inductive token :=
| T_LISTENER | T_CONTROLLER | T_BROADCAST | T_NSCAPORT | T_USER | T_GROUP | T_PIDFILE | T_LOG
| T_SAVEFILE | T_KEYSFILE | T_BEACON | T_SWEEP | T_DUMPFILES | T_TYPE | T_WINDOW | T_FRESHNESS
| T_STATE | T_COUNTER | T_SAMPLE | T_RATE | T_USE | T_MAXEVENTS | T_GRACE_PERIOD | T_SAVE_SIZE
| T_SAVE_INTERVAL
| T_OPEN_BRACE | T_CLOSE_BRACE | T_STRING | T_NUMBER | T_TYPENAME | T_WINDOWNAME | T_MATCH | T_TIME
| T_NONE.

#[export] Instance token_eq_dec : EqDecision token.
Proof. solve_decision. Defined.

Definition keyword_table : list (string * token) :=
  [("listener", T_LISTENER); ("controller", T_CONTROLLER); ("broadcast", T_BROADCAST);
   ("nsca.port", T_NSCAPORT); ("user", T_USER); ("group", T_GROUP); ("pidfile", T_PIDFILE);
   ("log", T_LOG); ("savefile", T_SAVEFILE); ("keysfile", T_KEYSFILE); ("beacon", T_BEACON);
   ("sweep", T_SWEEP); ("dumpfiles", T_DUMPFILES); ("type", T_TYPE); ("window", T_WINDOW);
   ("freshness", T_FRESHNESS); ("state", T_STATE); ("counter", T_COUNTER); ("sample", T_SAMPLE);
   ("rate", T_RATE); ("use", T_USE); ("max.events", T_MAXEVENTS); ("grace.period", T_GRACE_PERIOD);
   ("save.size", T_SAVE_SIZE); ("save.interval", T_SAVE_INTERVAL)].

Fixpoint keyword (l : list (string * token)) (s : string) : option token :=
  match l with
  | [] => None
  | (w, t) :: l' => if streq s w then Some t else keyword l' s
  end.

(** ** The parser's state *)

Definition LINE_BUF_SIZE : nat := Z.to_nat 8192.

Record parser_t := mk_parser {
  p_io : string;                  (* what is left of the file *)
  p_eof : bool;                   (* feof(p->io) *)
  p_line : Z;
  p_token : token;
  p_value : string;               (* memory *)
  p_buffer : string;              (* memory *)
}.

Definition set_input (io : string) (eof : bool) (line : Z) (buffer : string) (p : parser_t) : parser_t :=
  mk_parser io eof line (p_token p) (p_value p) buffer.
Definition set_token (t : token) (value buffer : string) (p : parser_t) : parser_t :=
  mk_parser (p_io p) (p_eof p) (p_line p) t value buffer.

(** Whether [fgets] met the end of the file while it read [line]. *)
Fixpoint ends_with (c : ascii) (s : string) : bool :=
  match s with
  | EmptyString => false
  | String d EmptyString => Ascii.eqb c d
  | String _ s' => ends_with c s'
  end.
Definition met_eof (line rest : string) : bool :=
  streq rest EmptyString && negb (ends_with LF line)
  && (String.length line <? LINE_BUF_SIZE - 1)%nat.

(** The line without leading blanks and comment. *)
Definition trim_line (raw : string) : string :=
  let a := skip_space (cstr raw) in
  let a := if Ascii.eqb (head_char a) "#" then skip_while (is_not LF) a else a in
  skip_space a.

(** The [getline] loop: the next line that is not blank or a comment.  Every
    round reads at least a character. *)
Fixpoint getline (fuel : nat) (p : parser_t) : bool * parser_t :=
  match fuel with
  | O => (false, p)
  | S f =>
      match fgets LINE_BUF_SIZE (p_io p) with
      | None => (false, set_input EmptyString true (p_line p) (p_buffer p) p)
      | Some (raw, rest) =>
          let eof := p_eof p || met_eof raw rest in
          let a := trim_line raw in
          match a with
          | EmptyString => getline f (set_input rest eof (p_line p + 1) (p_buffer p) p)
          | _ => (true, set_input rest eof (p_line p + 1) (overwrite (a +:+ str1 NUL) (p_buffer p)) p)
          end
      end
  end.

Definition get_line (p : parser_t) : bool * parser_t := getline (S (String.length (p_io p))) p.

(** ** The lexer *)

(** The unit of a time. *)
Definition time_unit (c : ascii) : Z :=
  if Ascii.eqb c "d" then 86400 else if Ascii.eqb c "h" then 3600
  else if Ascii.eqb c "m" then 60 else if Ascii.eqb c "s" then 1 else 0.

(** [m/.../]: a backslash takes the next character with it. *)
Fixpoint scan_pattern (s : string) : string :=
  match s with
  | EmptyString => EmptyString
  | String c s' =>
      if negb (not_nul c) || isspace c || Ascii.eqb c "/" then s
      else if Ascii.eqb c BACKSLASH then
        match s' with EmptyString => EmptyString | String _ s'' => scan_pattern s'' end
      else scan_pattern s'
  end.

(** A quoted string: the characters stored, and where it stops. *)
Fixpoint scan_quoted (s : string) : string * string :=
  match s with
  | EmptyString => (EmptyString, EmptyString)
  | String c s' =>
      if negb (not_nul c) || Ascii.eqb c QUOTE || Ascii.eqb c CR || Ascii.eqb c LF
      then (EmptyString, s)
      else if Ascii.eqb c BACKSLASH then
        match s' with
        | EmptyString => (str1 NUL, EmptyString)
        | String d s'' => let '(w, r) := scan_quoted s'' in (String d w, r)
        end
      else let '(w, r) := scan_quoted s' in (String c w, r)
  end.

Definition word_char (c : ascii) : bool := isalnum c || ispunct c.
Definition name_char (c : ascii) : bool := isalnum c || Ascii.eqb c "-" || Ascii.eqb c "_".
Definition at_end (b : string) : bool := Ascii.eqb (head_char b) NUL || isspace (head_char b).

(** [*b++ = '\0'] at the end of a word, and the text before it. *)
Definition end_word (mem b : string) : string * string := (cut_at mem b, upto mem b).

(** A word: a keyword or an unquoted string. *)
Definition lex_word (p : parser_t) (v a b : string) : option parser_t :=
  let mem := p_buffer p in
  if isalnum (head_char b) || Ascii.eqb (head_char b) "/" then
    let b := skip_while word_char (tail_str b) in
    if at_end b then
      let '(mem', text) := end_word mem b in
      let buffer := advance mem' (tail_str b) in
      match keyword keyword_table (upto a b) with
      | Some t => Some (set_token t v buffer p)
      | None => Some (set_token T_STRING (overwrite (text +:+ str1 NUL) v) buffer p)
      end
    else None
  else None.

(** [:name] and [@name] *)
Definition lex_sigil (c : ascii) (t : token) (p : parser_t) (v b : string) : option parser_t :=
  let mem := p_buffer p in
  if Ascii.eqb (head_char b) c then
    let b := skip_while name_char (tail_str b) in
    if at_end b then
      let '(mem', text) := end_word mem b in
      Some (set_token t (overwrite (text +:+ str1 NUL) v) (advance mem' (tail_str b)) p)
    else None
  else None.

Definition lex_quoted (p : parser_t) (v b : string) : bool * parser_t :=
  let mem := p_buffer p in
  if Ascii.eqb (head_char b) QUOTE then
    let '(w, r) := scan_quoted (tail_str b) in
    let r := if Ascii.eqb (head_char r) QUOTE then tail_str r else r in
    (true, set_token T_STRING (overwrite (w +:+ str1 NUL) v) (advance mem r) p)
  else (false, set_token T_NONE v mem p).

(** The tests after the digits, in order; [a] is where the token began.
    After a word, a type or a window name that does not end there, the
    pointer goes back to [a]. *)
Definition lex_rest (p : parser_t) (v a b : string) : bool * parser_t :=
  match lex_word p v a b with
  | Some p' => (true, p')
  | None =>
      let b := if isalnum (head_char b) || Ascii.eqb (head_char b) "/" then a else b in
      match lex_sigil ":" T_TYPENAME p v b with
      | Some p' => (true, p')
      | None =>
          let b := if Ascii.eqb (head_char b) ":" then a else b in
          match lex_sigil "@" T_WINDOWNAME p v b with
          | Some p' => (true, p')
          | None =>
              let b := if Ascii.eqb (head_char b) "@" then a else b in
              lex_quoted p v b
          end
      end
  end.

Definition lex_pattern (p : parser_t) (v a b : string) : bool * parser_t :=
  let mem := p_buffer p in
  if Ascii.eqb (head_char b) "m" then
    if Ascii.eqb (head_char (tail_str b)) "/" then
      let s := tail_str (tail_str b) in
      let e := scan_pattern s in
      if negb (Ascii.eqb (head_char e) "/") then (false, set_token T_NONE v mem p)
      else
        (true, set_token T_MATCH (overwrite (upto s e +:+ str1 NUL) v)
                 (advance (cut_at mem e) (tail_str e)) p)
    else lex_rest p v a a
  else lex_rest p v a b.

Definition lex_token (p : parser_t) : bool * parser_t :=
  let mem := p_buffer p in
  let v := match p_value p with EmptyString => EmptyString | String _ r => String NUL r end in
  let b := skip_space mem in
  if Ascii.eqb (head_char b) "{" then
    (true, set_token T_OPEN_BRACE v (advance mem (tail_str b)) p)
  else if Ascii.eqb (head_char b) "}" then
    (true, set_token T_CLOSE_BRACE v (advance mem (tail_str b)) p)
  else if isdigit (head_char b) then
    let e := skip_while isdigit b in
    if at_end e then (true, set_token T_NUMBER (overwrite (upto mem e) v) (advance mem e) p)
    else
      let mult := time_unit (head_char e) in
      if 0 <? mult then
        let mem' := cut_at mem e in
        let n := fmt_i (s32 (atoi (cstr mem') * mult)) in
        (true, set_token T_TIME (overwrite (n +:+ str1 NUL) v) (overwrite (str1 NUL) mem') p)
      else lex_pattern p v b e
  else lex_pattern p v b b.

Definition lex (p : parser_t) : bool * parser_t :=
  let '(ok, p) := if streq (cstr (p_buffer p)) EmptyString then get_line p else (true, p) in
  if negb ok then (false, p)
  else if Ascii.eqb (head_char (skip_space (p_buffer p))) "#" then
    let '(ok, p) := get_line p in
    if negb ok then (false, p) else lex_token p
  else lex_token p.

(** ** The interpreter

    [configure] threads the parser, the server and its two defaults through
    every directive; a [goto bail] ends it at once, keeping what was done so
    far.  [Out] is a loop that has used up its fuel: the C loop goes on. *)

Inductive outcome (A : Type) := Done (a : A) | Bail | Out.
Arguments Done {A} a.
Arguments Bail {A}.
Arguments Out {A}.

Section configure.
Context `{Vigor} `{Pcre}.

Record cfg_t := mk_cfg {
  c_p : parser_t;
  c_s : server_t;
  c_default_type : option string;
  c_default_win : option string;
}.

Definition Cfg (A : Type) : Type := cfg_t → outcome A * cfg_t.
#[global] Instance Cfg_ret : MRet Cfg := λ A a c, (Done a, c).
#[global] Instance Cfg_bind : MBind Cfg := λ A B f m c,
  match m c with
  | (Done a, c') => f a c'
  | (Bail, c') => (Bail, c')
  | (Out, c') => (Out, c')
  end.
Definition bail {A} : Cfg A := λ c, (Bail, c).
Definition the_server : Cfg server_t := λ c, (Done (c_s c), c).
Definition upd_server (f : server_t → server_t) : Cfg () := λ c,
  (Done (), mk_cfg (c_p c) (f (c_s c)) (c_default_type c) (c_default_win c)).
Definition upd_db (f : db_t → db_t) (s : server_t) : server_t :=
  mk_server _ (f (srv_db s)) (srv_keys s) (srv_config s) (srv_interval s).
Definition upd_config (f : config_t → config_t) (s : server_t) : server_t :=
  mk_server _ (srv_db s) (srv_keys s) (f (srv_config s)) (srv_interval s).
Definition upd_interval (f : interval_t → interval_t) (s : server_t) : server_t :=
  mk_server _ (srv_db s) (srv_keys s) (srv_config s) (f (srv_interval s)).

(** [lex(&p)] at the top level, and the macro [NEXT]; the value is the
    string at [p.value]. *)
Definition lex_m : Cfg (option (token * string)) := λ c,
  let '(ok, p) := lex (c_p c) in
  (Done (if ok : bool then Some (p_token p, cstr (p_value p)) else None),
   mk_cfg p (c_s c) (c_default_type c) (c_default_win c)).
Definition NEXT : Cfg (token * string) :=
  lex_m ≫= λ r, match r with Some tv => mret tv | None => bail end.
(** [NEXT; if (p.token != t) { ERROR(...); }] *)
Definition expect (t : token) : Cfg string :=
  NEXT ≫= λ '(t', v), if decide (t' = t) then mret v else bail.

(** *** Settings *)

Inductive setting :=
| s_listener | s_controller | s_broadcast | s_runas_user | s_runas_group | s_pidfile | s_savefile
| s_keysfile | s_beacon | s_log_level | s_log_facility.

Definition set_string (x : setting) (v : string) (c : config_t) : config_t :=
  let 'mk_config ls co br be np ll lf pf ru rg sf kf ss iv em ek gp := c in
  match x with
  | s_listener => mk_config (Some v) co br be np ll lf pf ru rg sf kf ss iv em ek gp
  | s_controller => mk_config ls (Some v) br be np ll lf pf ru rg sf kf ss iv em ek gp
  | s_broadcast => mk_config ls co (Some v) be np ll lf pf ru rg sf kf ss iv em ek gp
  | s_beacon => mk_config ls co br (Some v) np ll lf pf ru rg sf kf ss iv em ek gp
  | s_log_level => mk_config ls co br be np (Some v) lf pf ru rg sf kf ss iv em ek gp
  | s_log_facility => mk_config ls co br be np ll (Some v) pf ru rg sf kf ss iv em ek gp
  | s_pidfile => mk_config ls co br be np ll lf (Some v) ru rg sf kf ss iv em ek gp
  | s_runas_user => mk_config ls co br be np ll lf pf (Some v) rg sf kf ss iv em ek gp
  | s_runas_group => mk_config ls co br be np ll lf pf ru (Some v) sf kf ss iv em ek gp
  | s_savefile => mk_config ls co br be np ll lf pf ru rg (Some v) kf ss iv em ek gp
  | s_keysfile => mk_config ls co br be np ll lf pf ru rg sf (Some v) ss iv em ek gp
  end.
Definition set_nsca_port (n : Z) (c : config_t) : config_t :=
  let 'mk_config ls co br be np ll lf pf ru rg sf kf ss iv em ek gp := c in
  mk_config ls co br be n ll lf pf ru rg sf kf ss iv em ek gp.
Definition set_save_size (n : Z) (c : config_t) : config_t :=
  let 'mk_config ls co br be np ll lf pf ru rg sf kf ss iv em ek gp := c in
  mk_config ls co br be np ll lf pf ru rg sf kf n iv em ek gp.
Definition set_events_max (n : Z) (c : config_t) : config_t :=
  let 'mk_config ls co br be np ll lf pf ru rg sf kf ss iv em ek gp := c in
  mk_config ls co br be np ll lf pf ru rg sf kf ss iv n ek gp.
Definition set_events_keep (n : Z) (c : config_t) : config_t :=
  let 'mk_config ls co br be np ll lf pf ru rg sf kf ss iv em ek gp := c in
  mk_config ls co br be np ll lf pf ru rg sf kf ss iv em n gp.
Definition set_grace_period (n : Z) (c : config_t) : config_t :=
  let 'mk_config ls co br be np ll lf pf ru rg sf kf ss iv em ek gp := c in
  mk_config ls co br be np ll lf pf ru rg sf kf ss iv em ek n.

Definition SERVER_STRING (x : setting) : Cfg () :=
  expect T_STRING ≫= λ v, upd_server (upd_config (set_string x v)).

Definition do_grace_period : Cfg () :=
  NEXT ≫= λ '(_, v), upd_server (upd_config (set_grace_period (atoi v))).

Definition do_maxevents : Cfg () :=
  NEXT ≫= λ '(t, v),
  (match t with
   | T_NUMBER => upd_server (upd_config (set_events_keep EVENTS_KEEP_NUMBER))
   | T_TIME => upd_server (upd_config (set_events_keep EVENTS_KEEP_TIME))
   | _ => bail
   end) ≫= λ _,
  upd_server (upd_config (set_events_max (atoi v))).

Definition do_sweep : Cfg () :=
  expect T_NUMBER ≫= λ v,
  upd_server (upd_interval (λ i, mk_interval (int_tick i) (int_freshness i) (u16 (atoi v)) (int_savestate i))).
Definition do_save_size : Cfg () :=
  expect T_NUMBER ≫= λ v, upd_server (upd_config (set_save_size (atoi v))).
Definition do_save_interval : Cfg () :=
  expect T_NUMBER ≫= λ v,
  upd_server (upd_interval (λ i, mk_interval (int_tick i) (int_freshness i) (int_sweep i) (u16 (atoi v)))).
Definition do_nscaport : Cfg () :=
  expect T_NUMBER ≫= λ v, upd_server (upd_config (set_nsca_port (Z.land (atoi v) 0xffff))).
Definition do_log : Cfg () :=
  SERVER_STRING s_log_level ≫= λ _, SERVER_STRING s_log_facility.

Definition do_use : Cfg () :=
  NEXT ≫= λ '(t, v),
  match t with
  | T_TYPENAME => λ c, (Done (), mk_cfg (c_p c) (c_s c) (Some v) (c_default_win c))
  | T_WINDOWNAME => λ c, (Done (), mk_cfg (c_p c) (c_s c) (c_default_type c) (Some v))
  | _ => bail
  end.

(** *** Windows and types *)

Definition put_window (name : string) (w : window_t) (d : db_t) : db_t :=
  mk_db _ (states d) (counters d) (samples d) (rates d) (events d) (events_count d)
    (state_matches d) (counter_matches d) (sample_matches d) (rate_matches d)
    (types d) (<[name := w]> (windows d)) (anon_windows d).
Definition put_type (name : string) (t : type_t) (d : db_t) : db_t :=
  mk_db _ (states d) (counters d) (samples d) (rates d) (events d) (events_count d)
    (state_matches d) (counter_matches d) (sample_matches d) (rate_matches d)
    (<[name := t]> (types d)) (windows d) (anon_windows d).

(** The window is in the table before its time is known. *)
Definition do_window : Cfg () :=
  expect T_WINDOWNAME ≫= λ name,
  upd_server (upd_db (put_window name (mk_window (Some name) 0))) ≫= λ _,
  expect T_NUMBER ≫= λ v,
  upd_server (upd_db (put_window name (mk_window (Some name) (atoi v)))).

Definition type_severity (v : string) : option Z :=
  if streq v "warning" then Some WARNING else if streq v "critical" then Some CRITICAL
  else if streq v "unknown" then Some UNKNOWN else None.

(** Every write to the type is seen through the table. *)
Definition save_type (t : type_t) : Cfg type_t :=
  upd_server (upd_db (put_type (type_name t) t)) ≫= λ _, mret t.

Fixpoint type_body (fuel : nat) (ty : type_t) : Cfg type_t :=
  match fuel with
  | O => λ c, (Out, c)
  | S f =>
      NEXT ≫= λ '(t, v),
      match t with
      | T_CLOSE_BRACE => mret ty
      | T_FRESHNESS =>
          expect T_NUMBER ≫= λ v,
          save_type (mk_type (type_name ty) (u16 (atoi v)) (type_status ty) (type_summary ty)) ≫= type_body f
      | T_STRING =>
          match type_severity v with
          | Some sev =>
              save_type (mk_type (type_name ty) (type_freshness ty) sev (type_summary ty)) ≫= λ ty,
              expect T_STRING ≫= λ v,
              save_type (mk_type (type_name ty) (type_freshness ty) (type_status ty) (Some v)) ≫= type_body f
          | None => bail
          end
      | _ => bail
      end
  end.

Definition default_summary (fresh : Z) : string :=
  "No results received for more than " +:+
  (if 3600 <=? fresh then fmt_i (fresh / 3600) +:+ " hour" +:+ (if fresh <? 7200 then "" else "s")
   else if 60 <=? fresh then fmt_i (fresh / 60) +:+ " minute" +:+ (if fresh <? 120 then "" else "s")
   else fmt_i fresh +:+ " second" +:+ (if fresh =? 1 then "" else "s")).

Definition do_type (fuel : nat) : Cfg () :=
  expect T_TYPENAME ≫= λ name,
  save_type (mk_type name 300 WARNING None) ≫= λ ty,
  expect T_OPEN_BRACE ≫= λ _,
  type_body fuel ty ≫= λ ty,
  match type_summary ty with
  | Some _ => mret ()
  | None =>
      save_type (mk_type (type_name ty) (type_freshness ty) (type_status ty)
                   (Some (default_summary (type_freshness ty)))) ≫= λ _, mret ()
  end.

(** *** Entries and patterns *)

Definition compile_rule {T} (v : string) (target : T) : Cfg (rule T) :=
  match pcre_compile v with
  | inl re => mret (mk_rule re (pcre_study re) target)
  | inr _ => bail
  end.

Definition push_state_rule (r : rule type_t) (d : db_t) : db_t :=
  mk_db _ (states d) (counters d) (samples d) (rates d) (events d) (events_count d)
    (list_push (state_matches d) r) (counter_matches d) (sample_matches d) (rate_matches d)
    (types d) (windows d) (anon_windows d).
Definition push_counter_rule (r : rule window_t) (d : db_t) : db_t :=
  mk_db _ (states d) (counters d) (samples d) (rates d) (events d) (events_count d)
    (state_matches d) (list_push (counter_matches d) r) (sample_matches d) (rate_matches d)
    (types d) (windows d) (anon_windows d).
Definition push_sample_rule (r : rule window_t) (d : db_t) : db_t :=
  mk_db _ (states d) (counters d) (samples d) (rates d) (events d) (events_count d)
    (state_matches d) (counter_matches d) (list_push (sample_matches d) r) (rate_matches d)
    (types d) (windows d) (anon_windows d).
Definition push_rate_rule (r : rule window_t) (d : db_t) : db_t :=
  mk_db _ (states d) (counters d) (samples d) (rates d) (events d) (events_count d)
    (state_matches d) (counter_matches d) (sample_matches d) (list_push (rate_matches d) r)
    (types d) (windows d) (anon_windows d).
Definition push_anon_window (w : window_t) (d : db_t) : db_t :=
  mk_db _ (states d) (counters d) (samples d) (rates d) (events d) (events_count d)
    (state_matches d) (counter_matches d) (sample_matches d) (rate_matches d)
    (types d) (windows d) (list_push (anon_windows d) w).

Definition default_type : Cfg (option type_t) := λ c,
  (Done (c_default_type c ≫= λ n, types (srv_db (c_s c)) !! n), c).
Definition default_win : Cfg (option window_t) := λ c,
  (Done (c_default_win c ≫= λ n, windows (srv_db (c_s c)) !! n), c).

(** The type of a [state] directive and the token after it. *)
Definition state_target : Cfg (option type_t * (token * string)) :=
  NEXT ≫= λ '(t, v),
  match t with
  | T_TYPENAME => the_server ≫= λ s, NEXT ≫= λ tv, mret (types (srv_db s) !! v, tv)
  | _ => default_type ≫= λ ty, mret (ty, (t, v))
  end.

(** [now] is the value of [time_s()]. *)
Definition do_state (now : Z) : Cfg () :=
  state_target ≫= λ '(ty, (t, v)),
  match t, ty with
  | T_STRING, Some ty => upd_server (upd_db (put_state v (new_state now v ty)))
  | T_MATCH, Some ty => compile_rule v ty ≫= λ r, upd_server (upd_db (push_state_rule r))
  | _, _ => bail
  end.

(** The window of a [counter], [sample] or [rate] directive. *)
Definition window_target : Cfg (option window_t * (token * string)) :=
  NEXT ≫= λ '(t, v),
  match t with
  | T_WINDOWNAME => the_server ≫= λ s, NEXT ≫= λ tv, mret (windows (srv_db s) !! v, tv)
  | T_NUMBER =>
      let w := mk_window None (atoi v) in
      upd_server (upd_db (push_anon_window w)) ≫= λ _, NEXT ≫= λ tv, mret (Some w, tv)
  | _ => default_win ≫= λ w, mret (w, (t, v))
  end.

Definition do_counter : Cfg () :=
  window_target ≫= λ '(w, (t, v)),
  match t, w with
  | T_STRING, Some w => upd_server (upd_db (put_counter v (new_counter v w)))
  | T_MATCH, Some w => compile_rule v w ≫= λ r, upd_server (upd_db (push_counter_rule r))
  | _, _ => bail
  end.
Definition do_sample : Cfg () :=
  window_target ≫= λ '(w, (t, v)),
  match t, w with
  | T_STRING, Some w => upd_server (upd_db (put_sample v (new_sample v w)))
  | T_MATCH, Some w => compile_rule v w ≫= λ r, upd_server (upd_db (push_sample_rule r))
  | _, _ => bail
  end.
Definition do_rate : Cfg () :=
  window_target ≫= λ '(w, (t, v)),
  match t, w with
  | T_STRING, Some w => upd_server (upd_db (put_rate v (new_rate v w)))
  | T_MATCH, Some w => compile_rule v w ≫= λ r, upd_server (upd_db (push_rate_rule r))
  | _, _ => bail
  end.

(** *** The loop *)

Definition directive (fuel : nat) (now : Z) (t : token) : Cfg () :=
  match t with
  | T_LISTENER => SERVER_STRING s_listener
  | T_CONTROLLER => SERVER_STRING s_controller
  | T_BROADCAST => SERVER_STRING s_broadcast
  | T_USER => SERVER_STRING s_runas_user
  | T_GROUP => SERVER_STRING s_runas_group
  | T_PIDFILE => SERVER_STRING s_pidfile
  | T_SAVEFILE => SERVER_STRING s_savefile
  | T_KEYSFILE => SERVER_STRING s_keysfile
  | T_BEACON => SERVER_STRING s_beacon
  | T_DUMPFILES => mret ()
  | T_GRACE_PERIOD => do_grace_period
  | T_MAXEVENTS => do_maxevents
  | T_SWEEP => do_sweep
  | T_SAVE_SIZE => do_save_size
  | T_SAVE_INTERVAL => do_save_interval
  | T_NSCAPORT => do_nscaport
  | T_LOG => do_log
  | T_USE => do_use
  | T_WINDOW => do_window
  | T_TYPE => do_type fuel
  | T_STATE => do_state now
  | T_COUNTER => do_counter
  | T_SAMPLE => do_sample
  | T_RATE => do_rate
  | _ => bail
  end.

Fixpoint directives (fuel : nat) (now : Z) : Cfg () :=
  match fuel with
  | O => λ c, (Out, c)
  | S f =>
      lex_m ≫= λ r,
      match r with
      | None => mret ()
      | Some (t, _) => directive f now t ≫= λ _, directives f now
      end
  end.

(** The tables and lists start empty; [events_count] keeps its value. *)
Definition init_db (d : db_t) : db_t :=
  mk_db _ ∅ ∅ ∅ ∅ [] (events_count d) [] [] [] [] ∅ ∅ [].
Definition parser_init (io : string) : parser_t :=
  mk_parser io false 0 T_NONE EmptyString EmptyString.

(** [file] is the content of the file at the path, [None] when it cannot be
    opened.  The answer is the return code, or [None] when the loop is still
    going after [fuel] rounds; the server is as it is left. *)
Definition configure (fuel : nat) (now : Z) (file : option string) (s : server_t) : option Z * server_t :=
  let s := upd_db init_db s in
  match file with
  | None => (Some (-1), s)
  | Some io =>
      match directives fuel now (mk_cfg (parser_init io) s None None) with
      | (Done _, c) => (Some (if p_eof (c_p c) then 0 else 1), c_s c)
      | (Bail, c) => (Some 1, c_s c)
      | (Out, c) => (None, c_s c)
      end
  end.
End configure.
