(* ===== verification/LexFacts.v ===== *)
(** * The lexer of the configuration, on files of complete lines

    A pointer into a buffer whose text ends in a newline never moves past
    the terminator: every scan of [lex] stops at the newline at the latest.
    So each token shortens what is left of the input, which is what makes
    [configure] terminate. *)

From S2P Require Import Prelude CLib Vigor Data Core CoreFacts Config.
From Stdlib Require Import Ascii.

(** ** Pointers into a buffer *)

Definition clen (b : string) : nat := String.length (cstr b).
Definition pointing (b : string) : Prop := not_nul (head_char b) = true.

(** At most [n] characters before the terminator, the last a newline. *)
Definition at_most (n : nat) (b : string) : Prop :=
  (cstr b = EmptyString ∨ ends_with LF (cstr b) = true) ∧ (clen b ≤ n)%nat.

Create HintDb lex.

Lemma cstr_cons c b : not_nul c = true → cstr (String c b) = String c (cstr b).
Proof. unfold cstr. cbn. by intros ->. Qed.

Lemma ends_with_cons c d s : s ≠ EmptyString → ends_with c (String d s) = ends_with c s.
Proof. by destruct s. Qed.

Lemma pointing_test p b : p NUL = false → p (head_char b) = true → pointing b.
Proof.
  unfold pointing, not_nul, is_not. intros H0 H1.
  destruct (Ascii.eqb_spec NUL (head_char b)) as [E|]; [|done]. rewrite <- E in H1. congruence.
Qed.

Lemma pointing_char c b : c ≠ NUL → Ascii.eqb (head_char b) c = true → pointing b.
Proof.
  intros Hc H. apply (pointing_test (λ d, Ascii.eqb d c)); [|done].
  by apply Ascii.eqb_neq.
Qed.

Lemma at_most_mono n m b : at_most n b → (n ≤ m)%nat → at_most m b.
Proof. intros [? ?] ?. split; [done|lia]. Qed.

Lemma at_most_pointing n b : at_most n b → pointing b → (0 < n)%nat.
Proof.
  intros [_ Hn] Hl. destruct b as [|c b]; [done|]. unfold clen in Hn.
  rewrite cstr_cons in Hn by done. cbn in Hn. lia.
Qed.

Lemma at_most_tail n b : at_most n b → pointing b → at_most (n - 1) (tail_str b).
Proof.
  intros [Hb Hn] Hl. destruct b as [|c b]; [done|]. unfold clen in *. cbn [tail_str].
  rewrite cstr_cons in Hb, Hn by done. cbn in Hn. split; [|unfold clen; lia].
  destruct Hb as [|Hb]; [done|]. destruct (decide (cstr b = EmptyString)) as [|Hne]; [by left|].
  right. by rewrite ends_with_cons in Hb.
Qed.

(** A character that is not the newline is not the last. *)
Lemma pointing_tail n b :
  at_most n b → pointing b → head_char b ≠ LF → pointing (tail_str b).
Proof.
  intros [Hb _] Hl HLF. destruct b as [|c b]; [done|]. cbn [tail_str head_char] in *.
  rewrite cstr_cons in Hb by done. destruct Hb as [|Hb]; [done|].
  assert (ends_with LF (String c EmptyString) = true → False) as Hc.
  { cbn [ends_with]. intros E%Ascii.eqb_eq. congruence. }
  destruct b as [|d b]; [by destruct Hc|].
  unfold pointing. cbn [head_char]. unfold cstr in Hb. cbn [take_while] in Hb.
  destruct (not_nul d); [done|by destruct Hc].
Qed.

Lemma at_most_skip p n b :
  p NUL = false → at_most n b → at_most n (skip_while p b).
Proof.
  intros Hp. revert n. induction b as [|c b IH]; intros n Hb; [done|]. cbn [skip_while].
  destruct (p c) eqn:E; [|done]. apply IH. eapply at_most_mono; [|apply Nat.le_sub_l].
  apply (at_most_tail n (String c b)); [done|]. by apply (pointing_test p).
Qed.

(** A scan that does not take newlines stops before the terminator. *)
Lemma pointing_skip p n b :
  p NUL = false → p LF = false → at_most n b → pointing b → pointing (skip_while p b).
Proof.
  intros Hp HLF. revert n. induction b as [|c b IH]; intros n Hb Hl; [done|]. cbn [skip_while].
  destruct (p c) eqn:E; [|done]. apply (IH (n - 1)%nat); [by apply (at_most_tail n (String c b))|].
  apply (pointing_tail n (String c b)); [done..|]. cbn [head_char]. intros ->. congruence.
Qed.

#[export] Hint Resolve at_most_tail at_most_skip at_most_pointing : lex.

(** ** The scans of patterns and strings *)

Lemma scan_pattern_at_most k n s :
  (String.length s ≤ k)%nat → at_most n s → at_most n (scan_pattern s).
Proof.
  revert n s. induction k as [|k IH]; intros n s Hk Hs; (destruct s as [|c s]; [done|]); cbn in Hk; [lia|].
  cbn [scan_pattern]. destruct (not_nul c) eqn:Ec; cbn [negb orb]; [|done].
  destruct (isspace c || Ascii.eqb c "/") eqn:E; cbn [negb orb]; [done|].
  assert (at_most n s) as Ht.
  { eapply at_most_mono; [|apply (Nat.le_sub_l n 1)]. by apply (at_most_tail n (String c s)). }
  destruct (Ascii.eqb_spec c BACKSLASH) as [->|]; [|apply IH; [lia|done]].
  assert (pointing s) as Hl by (by apply (pointing_tail n (String BACKSLASH s))).
  destruct s as [|d s]; [done|]. cbn in Hk. apply IH; [lia|].
  eapply at_most_mono; [|apply (Nat.le_sub_l n 1)]. by apply (at_most_tail n (String d s)).
Qed.

Lemma scan_quoted_at_most k n s :
  (String.length s ≤ k)%nat → at_most n s → at_most n (scan_quoted s).2.
Proof.
  revert n s. induction k as [|k IH]; intros n s Hk Hs; (destruct s as [|c s]; [done|]); cbn in Hk; [lia|].
  cbn [scan_quoted]. destruct (not_nul c) eqn:Ec; cbn [negb orb]; [|done].
  destruct (Ascii.eqb c QUOTE || Ascii.eqb c CR || Ascii.eqb c LF); [done|].
  assert (at_most n s) as Ht.
  { eapply at_most_mono; [|apply (Nat.le_sub_l n 1)]. by apply (at_most_tail n (String c s)). }
  destruct (Ascii.eqb_spec c BACKSLASH) as [->|].
  - assert (pointing s) as Hl by (by apply (pointing_tail n (String BACKSLASH s))).
    destruct s as [|d s]; [done|]. cbn in Hk. specialize (IH n s).
    destruct (scan_quoted s) as [w r]. cbn in *. apply IH; [lia|].
    eapply at_most_mono; [|apply (Nat.le_sub_l n 1)]. by apply (at_most_tail n (String d s)).
  - specialize (IH n s). destruct (scan_quoted s) as [w r]. cbn in *. apply IH; [lia|done].
Qed.

(** ** What a token leaves in the buffer *)

Lemma cstr_app w r : str_all not_nul w = true → cstr (w +:+ String NUL r) = w.
Proof. intros Hw. apply take_while_app; [done|by left]. Qed.

Lemma cstr_overwrite w mem : str_all not_nul w = true → cstr (overwrite (w +:+ str1 NUL) mem) = w.
Proof.
  intros Hw. unfold overwrite. rewrite str_app_assoc. unfold str1.
  rewrite str_app_cons, str_app_nil_l. by apply cstr_app.
Qed.

Lemma cstr_advance mem b : cstr (advance mem b) = cstr (skip_space b).
Proof. unfold advance. apply cstr_overwrite, take_while_all. Qed.

Lemma at_most_cstr n b b' : cstr b = cstr b' → at_most n b' → at_most n b.
Proof. unfold at_most, clen. by intros ->. Qed.

(** What is shown of every token: the input is kept, the buffer shrinks. *)
Definition shrinks (n : nat) (p p' : parser_t) : Prop :=
  p_io p' = p_io p ∧ at_most (n - 1) (p_buffer p') ∧ (0 < n)%nat.

Lemma shrinks_advance n p t v mem b :
  at_most (n - 1) b → (0 < n)%nat → shrinks n p (set_token t v (advance mem b) p).
Proof.
  intros Hb Hn. split_and!; [done| |done]. cbn [set_token p_buffer].
  eapply at_most_cstr; [apply cstr_advance|]. by apply at_most_skip.
Qed.

Lemma shrinks_mono n m p p' : shrinks n p p' → (n ≤ m)%nat → shrinks m p p'.
Proof. intros (? & Hb & ?) ?. split_and!; [done|eapply at_most_mono; [done|lia]|lia]. Qed.

(** After a word the character that ends it is passed as well. *)
Lemma word_end n p t v mem q b :
  q NUL = false → q LF = false → at_most n b → pointing b → head_char b ≠ LF →
  shrinks n p (set_token t v (advance mem (tail_str (skip_while q (tail_str b)))) p).
Proof.
  intros H0 HLF Hb Hl Hne.
  assert (at_most (n - 1) (skip_while q (tail_str b))) as Hs by eauto with lex.
  assert (pointing (skip_while q (tail_str b))) as Hls.
  { eapply pointing_skip; [done|done|by apply at_most_tail|by apply (pointing_tail n)]. }
  apply shrinks_advance; [|by eapply at_most_pointing].
  eapply at_most_mono; [apply at_most_tail; done|lia].
Qed.

Lemma head_ne c b : c ≠ LF → Ascii.eqb (head_char b) c = true → head_char b ≠ LF.
Proof. intros Hc E%Ascii.eqb_eq. congruence. Qed.

Lemma lex_word_shrinks n p v a b p' :
  at_most n b → lex_word p v a b = Some p' → shrinks n p p'.
Proof.
  unfold lex_word. intros Hb H. destruct (isalnum (head_char b) || Ascii.eqb (head_char b) "/") eqn:E; [|done].
  set (q := λ c, isalnum c || Ascii.eqb c "/").
  assert (pointing b) as Hl by (by apply (pointing_test q)).
  assert (head_char b ≠ LF) as Hne by (intros Hx; rewrite Hx in E; done).
  destruct (at_end _); [|done]. unfold end_word in H.
  destruct (keyword _ _); injection H as <-; by apply word_end.
Qed.

Lemma lex_sigil_shrinks c t n p v b p' :
  c ≠ NUL → c ≠ LF → at_most n b → lex_sigil c t p v b = Some p' → shrinks n p p'.
Proof.
  unfold lex_sigil. intros Hc HLF Hb H. destruct (Ascii.eqb (head_char b) c) eqn:E; [|done].
  destruct (at_end _); [|done]. unfold end_word in H. injection H as <-.
  apply word_end; [done..|by apply (pointing_char c)|by apply (head_ne c)].
Qed.

Lemma lex_quoted_shrinks n p v b p' :
  at_most n b → lex_quoted p v b = (true, p') → shrinks n p p'.
Proof.
  unfold lex_quoted. intros Hb H. destruct (Ascii.eqb (head_char b) QUOTE) eqn:E; [|done].
  assert (pointing b) as Hl by (by apply (pointing_char QUOTE)).
  pose proof (scan_quoted_at_most _ _ _ (Nat.le_refl _) (at_most_tail _ _ Hb Hl)) as Hr.
  destruct (scan_quoted _) as [w r]. injection H as <-. cbn [snd] in Hr.
  apply shrinks_advance; [|by eapply at_most_pointing].
  destruct (Ascii.eqb (head_char r) QUOTE) eqn:E'; [|done].
  eapply at_most_mono; [apply at_most_tail; [done|by apply (pointing_char QUOTE)]|lia].
Qed.

Lemma lex_rest_shrinks n p v a b p' :
  at_most n a → at_most n b → lex_rest p v a b = (true, p') → shrinks n p p'.
Proof.
  unfold lex_rest. intros Ha Hb H. destruct (lex_word p v a b) eqn:Ew.
  { injection H as <-. by eapply lex_word_shrinks. }
  match type of H with context [lex_sigil ":" _ _ _ ?x] => set (b1 := x) in * end.
  assert (at_most n b1) as Hb1 by (subst b1; by destruct (_ || _)). clearbody b1.
  destruct (lex_sigil ":" T_TYPENAME p v b1) eqn:Ec.
  { injection H as <-. by eapply (lex_sigil_shrinks ":"). }
  match type of H with context [lex_sigil "@" _ _ _ ?x] => set (b2 := x) in * end.
  assert (at_most n b2) as Hb2 by (subst b2; by destruct (Ascii.eqb _ _)). clearbody b2.
  destruct (lex_sigil "@" T_WINDOWNAME p v b2) eqn:Ea.
  { injection H as <-. by eapply (lex_sigil_shrinks "@"). }
  eapply lex_quoted_shrinks; [|exact H]. by destruct (Ascii.eqb _ _).
Qed.

Lemma lex_pattern_shrinks n p v a b p' :
  at_most n a → at_most n b → lex_pattern p v a b = (true, p') → shrinks n p p'.
Proof.
  unfold lex_pattern. intros Ha Hb H. destruct (Ascii.eqb (head_char b) "m") eqn:Em;
    [|by eapply (lex_rest_shrinks n p v a b)].
  destruct (Ascii.eqb (head_char (tail_str b)) "/") eqn:Es; [|by eapply (lex_rest_shrinks n p v a a)].
  assert (at_most (n - 1) (tail_str b)) as H1 by (apply at_most_tail; [done|by apply (pointing_char "m")]).
  assert (at_most (n - 1 - 1) (tail_str (tail_str b))) as H2
    by (apply at_most_tail; [done|by apply (pointing_char "/")]).
  pose proof (scan_pattern_at_most _ _ _ (Nat.le_refl _) H2) as H3.
  destruct (Ascii.eqb (head_char (scan_pattern (tail_str (tail_str b)))) "/") eqn:Ee; [|done].
  injection H as <-. apply shrinks_advance.
  - eapply at_most_mono; [apply at_most_tail; [done|by apply (pointing_char "/")]|lia].
  - eapply at_most_pointing; [done|by apply (pointing_char "m")].
Qed.

Lemma skip_digit n b :
  at_most n b → isdigit (head_char b) = true → at_most (n - 1) (skip_while isdigit b).
Proof.
  intros Hb Hd. destruct b as [|c b]; [done|]. cbn [skip_while head_char] in *. rewrite Hd.
  apply at_most_skip; [done|]. apply (at_most_tail n (String c b)); [done|].
  by apply (pointing_test isdigit).
Qed.

Lemma lex_token_shrinks n p p' :
  at_most n (p_buffer p) → lex_token p = (true, p') → shrinks n p p'.
Proof.
  unfold lex_token. intros Hb H.
  assert (at_most n (skip_space (p_buffer p))) as Hs by (by apply at_most_skip).
  set (b := skip_space (p_buffer p)) in *.
  destruct (Ascii.eqb (head_char b) "{") eqn:E1.
  { injection H as <-. assert (pointing b) by (by apply (pointing_char "{")).
    apply shrinks_advance; eauto with lex. }
  destruct (Ascii.eqb (head_char b) "}") eqn:E2.
  { injection H as <-. assert (pointing b) by (by apply (pointing_char "}")).
    apply shrinks_advance; eauto with lex. }
  destruct (isdigit (head_char b)) eqn:E3; [|by eapply (lex_pattern_shrinks n _ _ b b)].
  assert (pointing b) as Hl by (by apply (pointing_test isdigit)).
  pose proof (skip_digit n b Hs E3) as Hd.
  destruct (at_end _); [injection H as <-; apply shrinks_advance; eauto with lex|].
  destruct (0 <? _).
  - injection H as <-. split_and!; [done| |by eapply at_most_pointing].
    cbn [set_token p_buffer]. split; [|unfold clen]; rewrite (cstr_overwrite EmptyString) by done;
      [by left|cbn; lia].
  - eapply (lex_pattern_shrinks n _ _ b); [done| |exact H]. eapply at_most_mono; [done|lia].
Qed.

(** ** Reading lines *)

Definition text_line (s : string) : Prop := is_line LINE_BUF_SIZE s ∧ str_all not_nul s = true.

(** A file of complete lines. *)
Definition text_file (io : string) : Prop :=
  ∃ ls, io = String.concat EmptyString ls ∧ Forall text_line ls.

Lemma ends_with_app c s t : t ≠ EmptyString → ends_with c (s +:+ t) = ends_with c t.
Proof.
  intros Ht. induction s as [|d s IH]; [done|]. rewrite str_app_cons, ends_with_cons; [done|].
  destruct s, t; done.
Qed.

Lemma cstr_text s : str_all not_nul s = true → cstr s = s.
Proof. intros H. rewrite <- (str_app_nil_r s) at 1. apply take_while_app; [done|by right]. Qed.

Lemma at_most_skip_text p n b :
  str_all not_nul b = true → at_most n b →
  str_all not_nul (skip_while p b) = true ∧ at_most n (skip_while p b).
Proof.
  revert n. induction b as [|c b IH]; intros n Hb Hn; [done|]. cbn [skip_while].
  destruct (p c); [|done]. cbn [str_all] in Hb. apply andb_prop in Hb as [Hc Hb]. apply IH; [done|].
  eapply at_most_mono; [by apply (at_most_tail n (String c b))|lia].
Qed.

Lemma trim_line_text raw :
  text_line raw →
  str_all not_nul (trim_line raw) = true ∧ at_most (String.length raw) (trim_line raw).
Proof.
  intros [(body & -> & _ & _) Hn]. unfold trim_line. rewrite cstr_text by done.
  assert (at_most (String.length (body +:+ nl)) (body +:+ nl)) as H0.
  { split; [right|unfold clen]; rewrite cstr_text by done; [|lia]. by rewrite ends_with_app. }
  destruct (at_most_skip_text isspace _ _ Hn H0) as [H1 H1']. fold skip_space in H1, H1'.
  apply at_most_skip_text; destruct (Ascii.eqb _ _); try done; by apply (at_most_skip_text (is_not LF) _ _ H1 H1').
Qed.

(** The parser between two tokens of a text file, with the length of what
    it has not read yet. *)
Definition reading (n : nat) (p : parser_t) : Prop :=
  text_file (p_io p) ∧
  ∃ m, at_most m (p_buffer p) ∧ (String.length (p_io p) + m ≤ n)%nat.

Lemma fgets_text io :
  text_file io → io ≠ EmptyString →
  ∃ raw rest, fgets LINE_BUF_SIZE io = Some (raw, rest) ∧ text_line raw ∧ text_file rest ∧
    String.length io = (String.length raw + String.length rest)%nat ∧ (0 < String.length raw)%nat.
Proof.
  intros (ls & -> & Hls) Hne. destruct Hls as [|l ls Hl Hls]; [done|].
  pose proof Hl as [(body & -> & Hb & Hlen) _].
  exists (body +:+ nl), (String.concat EmptyString ls). rewrite str_concat_cons.
  split_and!; [|done|by exists ls|by rewrite str_length_app|rewrite str_length_app; cbn; lia].
  assert (fgets LINE_BUF_SIZE ((body +:+ nl) +:+ String.concat EmptyString ls)
          = Some (fgets_aux (LINE_BUF_SIZE - 1) ((body +:+ nl) +:+ String.concat EmptyString ls))) as ->
    by (by destruct body).
  by rewrite fgets_aux_line by (done || lia).
Qed.

(** The next line replaces the buffer; the end of the file is the only other
    way out, whatever the fuel beyond the length of the file. *)
Lemma getline_text fuel p ok p' :
  text_file (p_io p) → (String.length (p_io p) < fuel)%nat → getline fuel p = (ok, p') →
  if ok then reading (String.length (p_io p)) p' else p_eof p' = true.
Proof.
  revert p. induction fuel as [|f IH]; intros p Hio Hf H; [lia|]. cbn [getline] in H.
  destruct (decide (p_io p = EmptyString)) as [E|Hne].
  { rewrite E in H. cbn [fgets] in H. by injection H as <- <-. }
  destruct (fgets_text _ Hio Hne) as (raw & rest & E & Hraw & Hrest & Hlen & Hpos).
  rewrite E in H. destruct (trim_line_text _ Hraw) as [Hn Ht].
  destruct (trim_line raw) as [|c a] eqn:Ea.
  - apply IH in H; cbn [set_input p_io]; [|done|lia]. destruct ok; [|done].
    destruct H as (Hio' & m & Hm & Hle). cbn [set_input p_io] in *. split; [done|]. exists m. split; [done|lia].
  - injection H as <- <-. split; [done|]. exists (String.length raw). cbn [set_input p_io p_buffer].
    split; [|lia]. eapply at_most_cstr; [|exact Ht].
    by rewrite cstr_overwrite, (cstr_text _ Hn).
Qed.

Lemma get_line_text p ok p' :
  text_file (p_io p) → get_line p = (ok, p') →
  if ok then reading (String.length (p_io p)) p' else p_eof p' = true.
Proof. intros Hio. apply getline_text; [done|lia]. Qed.

Lemma lex_token_reading n p p' :
  reading n p → lex_token p = (true, p') → reading (n - 1) p' ∧ (0 < n)%nat.
Proof.
  intros (Hio & m & Hm & Hle) H. destruct (lex_token_shrinks _ _ _ Hm H) as (Eio & Hb & Hpos).
  split; [|lia]. split; [by rewrite Eio|]. exists (m - 1)%nat. split; [done|]. rewrite Eio. lia.
Qed.

(** A token of a text file takes at least a character of it. *)
Lemma lex_reading n p p' :
  reading n p → lex p = (true, p') → reading (n - 1) p' ∧ (0 < n)%nat.
Proof.
  intros Hp. unfold lex. assert (∀ p0, reading (String.length (p_io p)) p0 → reading n p0) as Hmono.
  { intros p0 (Hio0 & m0 & Hm0 & Hle0). destruct Hp as (_ & m & _ & Hle).
    split; [done|]. exists m0. split; [done|lia]. }
  assert (∀ p1, reading n p1 →
     (if Ascii.eqb (head_char (skip_space (p_buffer p1))) "#" then
        let '(ok, p2) := get_line p1 in if negb ok then (false, p2) else lex_token p2
      else lex_token p1) = (true, p') → reading (n - 1) p' ∧ (0 < n)%nat) as Hgo.
  { intros p1 Hp1 H. destruct (Ascii.eqb _ "#"); [|by eapply lex_token_reading].
    destruct (get_line p1) as [ok p2] eqn:E. pose proof (get_line_text _ _ _ (proj1 Hp1) E) as H2.
    destruct ok; [|done]. cbn [negb] in H. eapply lex_token_reading; [|done].
    destruct H2 as (? & m2 & ? & ?). destruct Hp1 as (_ & m1 & _ & ?).
    split; [done|]. exists m2. split; [done|lia]. }
  destruct (streq _ _).
  - destruct (get_line p) as [ok p1] eqn:E. pose proof (get_line_text _ _ _ (proj1 Hp) E) as H1.
    destruct ok; [|done]. cbn [negb]. apply Hgo; auto.
  - cbn [negb]. apply Hgo; auto.
Qed.
