(* ===== verification/ConfigFacts.v ===== *)
(** * What [configure] guarantees

    That it ends on every file of complete lines; that the database it
    builds is one the kernel is safe on, up to the windows' lengths; and
    where it reads a file differently from what is written in it. *)

From S2P Require Import Prelude CLib Vigor Bytes Data DataFacts Binf Core CoreFacts Windowed Reactor ReactorFacts KernelFacts Safety Config LexFacts.
From Stdlib Require Import Ascii.

(** ** Weakest preconditions of directives

    [cwp F m Q c]: from [c], [m] bails out, or ends with [Q], or runs out of
    fuel and [F] holds. *)

Section cwp.
Context `{Vigor} `{Pcre} (F : Prop).

Definition cwp {A} (m : Cfg A) (Q : A → cfg_t → Prop) (c : cfg_t) : Prop :=
  match m c with (Done a, c') => Q a c' | (Bail, _) => True | (Out, _) => F end.

Lemma cwp_ret {A} (a : A) Q c : Q a c → cwp (mret a) Q c.
Proof. done. Qed.

Lemma cwp_bail {A} (Q : A → cfg_t → Prop) c : cwp bail Q c.
Proof. done. Qed.

Lemma cwp_set_server f Q c :
  Q () (mk_cfg (c_p c) (f (c_s c)) (c_default_type c) (c_default_win c)) → cwp (upd_server f) Q c.
Proof. done. Qed.

Lemma cwp_bind {A B} (m : Cfg A) (f : A → Cfg B) Q c :
  cwp m (λ a, cwp (f a) Q) c → cwp (m ≫= f) Q c.
Proof. unfold cwp, mbind, Cfg_bind. by destruct (m c) as [[a| |] c']. Qed.

Lemma cwp_mono {A} (m : Cfg A) (Q Q' : A → cfg_t → Prop) c :
  cwp m Q c → (∀ a c', Q a c' → Q' a c') → cwp m Q' c.
Proof. unfold cwp. destruct (m c) as [[a| |] c']; auto. Qed.

(** A bind whose first part has a known postcondition. *)
Lemma cwp_seq {A B} (m : Cfg A) (f : A → Cfg B) P Q c :
  cwp m P c → (∀ a c', P a c' → cwp (f a) Q c') → cwp (m ≫= f) Q c.
Proof. intros Hm Hf. apply cwp_bind. by eapply cwp_mono. Qed.
End cwp.

(** Steps over the first part of a sequence by a lemma about it. *)
Tactic Notation "cseq" uconstr(lem) := eapply cwp_seq; [eapply lem; eassumption|cbv beta].

(** ** Termination *)

Section termination.
Context `{Vigor} `{Pcre}.

Definition left_in (n : nat) (c : cfg_t) : Prop := reading n (c_p c).

Lemma reading_mono n m p : reading n p → (n ≤ m)%nat → reading m p.
Proof. intros (? & k & ? & ?) ?. split; [done|]. exists k. split; [done|lia]. Qed.

Lemma left_in_mono n m c : left_in n c → (n ≤ m)%nat → left_in m c.
Proof. apply reading_mono. Qed.


(** The directives never read more than there is. *)
Definition spends {A} (n : nat) (m : Cfg A) : Prop :=
  ∀ c, left_in n c → cwp False m (λ _, left_in n) c.

Lemma lex_m_left n c :
  left_in n c → cwp False lex_m (λ r c', r = None ∨ (0 < n)%nat ∧ left_in (n - 1) c') c.
Proof.
  unfold left_in, cwp, lex_m. intros Hc. destruct (lex (c_p c)) as [[] p'] eqn:E; [|by left].
  right. cbn [c_p]. destruct (lex_reading _ _ _ Hc E). done.
Qed.

Lemma NEXT_left n c :
  left_in n c → cwp False NEXT (λ _ c', (0 < n)%nat ∧ left_in (n - 1) c') c.
Proof.
  intros Hc. cseq lex_m_left. intros [tv|] c' Hc'; [|by apply cwp_bail].
  apply cwp_ret. by destruct Hc' as [|].
Qed.

Lemma NEXT_spends n : spends n NEXT.
Proof.
  intros c Hc. eapply cwp_mono; [by apply NEXT_left|]. intros ? c' [_ ?]. by eapply left_in_mono, Nat.le_sub_l.
Qed.

Lemma spends_ret {A} n (a : A) : spends n (mret a).
Proof. by intros c Hc. Qed.
Lemma spends_bail {A} n : spends (A := A) n bail.
Proof. by intros c Hc. Qed.
Lemma spends_set n f : spends n (upd_server f).
Proof. by intros c Hc. Qed.
Lemma spends_server n : spends n the_server.
Proof. by intros c Hc. Qed.
Lemma spends_bind {A B} n (m : Cfg A) (f : A → Cfg B) :
  spends n m → (∀ a, spends n (f a)) → spends n (m ≫= f).
Proof. intros Hm Hf c Hc. cseq Hm. intros a c' Hc'. by apply Hf. Qed.

Create HintDb spends.
#[local] Hint Resolve spends_ret spends_bail spends_set spends_server spends_bind NEXT_spends : spends.

Lemma spends_expect n t : spends n (expect t).
Proof. apply spends_bind; [auto with spends|]. intros [t' v]. case_match; auto with spends. Qed.
Lemma spends_save n t : spends n (save_type t).
Proof. unfold save_type. auto with spends. Qed.
Lemma spends_compile {T} n v (x : T) : spends n (compile_rule v x).
Proof. unfold compile_rule. case_match; auto with spends. Qed.
Lemma spends_default_type n : spends n default_type.
Proof. by intros c Hc. Qed.
Lemma spends_default_win n : spends n default_win.
Proof. by intros c Hc. Qed.
#[local] Hint Resolve spends_expect spends_save spends_compile spends_default_type spends_default_win : spends.

Lemma spends_state_target n : spends n state_target.
Proof. apply spends_bind; [auto with spends|]. intros [[] v]; auto 7 with spends. Qed.
Lemma spends_window_target n : spends n window_target.
Proof. apply spends_bind; [auto with spends|]. intros [[] v]; auto 7 with spends. Qed.
#[local] Hint Resolve spends_state_target spends_window_target : spends.

(** [entry] directives: a target, then a name or a pattern. *)
Lemma spends_entry {T} n (target : Cfg (option T * (token * string))) (put : T → string → server_t → server_t)
    (push : rule T → server_t → server_t) :
  spends n target →
  spends n (target ≫= λ '(x, (t, v)),
    match t, x with
    | T_STRING, Some x => upd_server (put x v)
    | T_MATCH, Some x => compile_rule v x ≫= λ r, upd_server (push r)
    | _, _ => bail
    end).
Proof.
  intros Ht. apply spends_bind; [done|].
  intros [[x|] [t v]]; destruct t; auto with spends.
Qed.

(** The body of a type takes a token per round. *)
Lemma type_body_left fuel n ty c :
  (n < fuel)%nat → left_in n c → cwp False (type_body fuel ty) (λ _, left_in n) c.
Proof.
  revert n ty c. induction fuel as [|f IH]; intros n ty c Hf Hc; [lia|]. cbn [type_body].
  cseq NEXT_left. intros [t v] c1 [Hpos Hc1].
  assert (∀ ty c, left_in (n - 1) c → cwp False (type_body f ty) (λ _, left_in n) c) as Hgo.
  { intros ty' c' Hc'. eapply cwp_mono; [apply (IH (n - 1)%nat); [lia|done]|].
    intros ? c2 Hc2. eapply left_in_mono; [exact Hc2|lia]. }
  destruct t; try (by apply cwp_bail).
  - cseq spends_expect. intros v' c2 Hc2.
    cseq spends_save. intros ty' c3 Hc3. by apply Hgo.
  - apply cwp_ret. eapply left_in_mono; [done|lia].
  - destruct (type_severity v) as [sev|]; [|by apply cwp_bail].
    cseq spends_save. intros ty1 c2 Hc2.
    cseq spends_expect. intros v' c3 Hc3.
    cseq spends_save. intros ty' c4 Hc4. by apply Hgo.
Qed.

Lemma do_type_spends fuel n : (n < fuel)%nat → spends n (do_type fuel).
Proof.
  intros Hf. apply spends_bind; [auto with spends|]. intros name.
  apply spends_bind; [auto with spends|]. intros ty.
  apply spends_bind; [auto with spends|]. intros _.
  apply spends_bind; [intros c; by apply type_body_left|]. intros ty'.
  case_match; auto with spends.
Qed.

Lemma directive_spends fuel n now t : (n < fuel)%nat → spends n (directive fuel now t).
Proof.
  intros Hf. destruct t; cbn [directive]; unfold SERVER_STRING, do_sweep, do_save_size,
    do_save_interval, do_nscaport, do_log, do_window; auto 7 using do_type_spends with spends.
  all: try (by apply spends_entry; auto with spends).
  - unfold SERVER_STRING. auto with spends.
  - apply spends_bind; [auto with spends|]. intros [[] v]; auto with spends; by intros c Hc.
  - apply spends_bind; [auto with spends|]. intros [[] v]; auto with spends.
  - apply spends_bind; [auto with spends|]. intros [t v]; auto with spends.
Qed.

Lemma directives_end fuel n now c :
  (n < fuel)%nat → left_in n c → cwp False (directives fuel now) (λ _ _, True) c.
Proof.
  revert n c. induction fuel as [|f IH]; intros n c Hf Hc; [lia|]. cbn [directives].
  cseq lex_m_left. intros [[t v]|] c1 Hc1; [|by apply cwp_ret].
  destruct Hc1 as [|[Hpos Hc1]]; [done|].
  eapply cwp_seq; [apply (directive_spends f (n - 1)); [lia|done]|]. intros ? c2 Hc2.
  apply (IH (n - 1)%nat); [lia|done].
Qed.

(** A loop that ends does the same with more fuel. *)
Definition fuelled {A} (m m' : Cfg A) : Prop := ∀ c, (m c).1 ≠ Out → m' c = m c.

Lemma fuelled_refl {A} (m : Cfg A) : fuelled m m.
Proof. done. Qed.

Lemma fuelled_bind {A B} (m m' : Cfg A) (f f' : A → Cfg B) :
  fuelled m m' → (∀ a, fuelled (f a) (f' a)) → fuelled (m ≫= f) (m' ≫= f').
Proof.
  unfold fuelled, mbind, Cfg_bind. intros Hm Hf c Hout. specialize (Hm c).
  destruct (m c) as [[a| |] c'] eqn:E; cbn in Hm; rewrite Hm by done; [by apply Hf|done|done].
Qed.

Lemma type_body_fuel f g ty : (f ≤ g)%nat → fuelled (type_body f ty) (type_body g ty).
Proof.
  revert g ty. induction f as [|f IH]; intros g ty Hg; [by intros c []|]. destruct g as [|g]; [lia|].
  cbn [type_body]. apply fuelled_bind; [done|]. intros [t v]. destruct t; try done.
  - apply fuelled_bind; [done|]. intros v'. apply fuelled_bind; [done|]. intros ty'. apply IH. lia.
  - case_match; [|done]. apply fuelled_bind; [done|]. intros ty1.
    apply fuelled_bind; [done|]. intros v'. apply fuelled_bind; [done|]. intros ty'. apply IH. lia.
Qed.

Lemma directive_fuel f g now t : (f ≤ g)%nat → fuelled (directive f now t) (directive g now t).
Proof.
  intros Hg. destruct t; try done. cbn [directive]. unfold do_type.
  do 3 (apply fuelled_bind; [done|]; intros ?).
  apply fuelled_bind; [by apply type_body_fuel|done].
Qed.

Lemma directives_fuel f g now : (f ≤ g)%nat → fuelled (directives f now) (directives g now).
Proof.
  revert g. induction f as [|f IH]; intros g Hg; [by intros c []|]. destruct g as [|g]; [lia|].
  cbn [directives]. apply fuelled_bind; [done|]. intros [[t v]|]; [|done].
  apply fuelled_bind; [apply directive_fuel; lia|]. intros _. apply IH. lia.
Qed.

Lemma cwp_False_end {A} (m : Cfg A) Q c : cwp False m Q c → (m c).1 ≠ Out.
Proof. unfold cwp. by destruct (m c) as [[]]. Qed.

Lemma configure_ends now io s :
  text_file io →
  ∃ rc s', (rc = 0 ∨ rc = 1) ∧
    ∀ fuel, (String.length io < fuel)%nat → configure fuel now (Some io) s = (Some rc, s').
Proof.
  intros Hio. set (c0 := mk_cfg (parser_init io) (upd_db init_db s) None None).
  assert (left_in (String.length io) c0) as Hc0.
  { split; [done|]. exists 0%nat. split; [by split; [left|]|cbn; lia]. }
  set (f0 := S (String.length io)).
  assert ((directives f0 now c0).1 ≠ Out) as Hout.
  { eapply cwp_False_end, directives_end; [|done]. lia. }
  assert (∀ fuel, (String.length io < fuel)%nat → directives fuel now c0 = directives f0 now c0) as Hf.
  { intros fuel Hf. apply directives_fuel; [lia|done]. }
  unfold configure. fold c0.
  destruct (directives f0 now c0) as [[a| |] c] eqn:E; [| |done].
  - eexists (if p_eof (c_p c) then 0 else 1), _. split; [destruct (p_eof _); auto|].
    intros fuel Hfuel. by rewrite Hf.
  - eexists 1, _. split; [auto|]. intros fuel Hfuel. by rewrite Hf.
Qed.

(** C21: [configure] terminates on every file of complete lines: whatever is
    in the lines, it returns 0 or 1 after fewer rounds than the file has
    characters, and the result does not depend on how many more it is given. *)
Theorem configure_terminates now io s :
  text_file io →
  ∃ rc s', (rc = 0 ∨ rc = 1) ∧
    ∀ fuel, (String.length io < fuel)%nat → configure fuel now (Some io) s = (Some rc, s').
Proof. apply configure_ends. Qed.
End termination.

(** ** What a configuration builds *)

Section builds.
Context `{VL : VigorLaws} `{Pcre} (now : Z).

Definition s32_window (w : window_t) : Prop := is_s32 (window_time w).

(** Every entry is as it is created, every type complete. *)
Record built (d : db_t) : Prop := {
  built_types : map_Forall (λ _ t, wf_type t) (types d);
  built_windows : map_Forall (λ _ w, s32_window w) (windows d);
  built_states : map_Forall (λ n s, ∃ t, wf_type t ∧ s = new_state now n t) (states d);
  built_counters : map_Forall (λ n c, ∃ w, s32_window w ∧ c = new_counter n w) (counters d);
  built_samples : map_Forall (λ n c, ∃ w, s32_window w ∧ c = new_sample n w) (samples d);
  built_rates : map_Forall (λ n c, ∃ w, s32_window w ∧ c = new_rate n w) (rates d);
  built_state_rules : Forall (λ r, wf_type (rule_target r)) (state_matches d);
  built_counter_rules : Forall (λ r, s32_window (rule_target r)) (counter_matches d);
  built_sample_rules : Forall (λ r, s32_window (rule_target r)) (sample_matches d);
  built_rate_rules : Forall (λ r, s32_window (rule_target r)) (rate_matches d);
  built_events : events d = [];
  built_count : events_count d ≤ 0;
}.

Definition builds {A} (Q : A → Prop) (m : Cfg A) : Prop :=
  ∀ c, built (srv_db (c_s c)) → cwp True m (λ a c', Q a ∧ built (srv_db (c_s c'))) c.

Definition any {A} (_ : A) : Prop := True.

Lemma builds_ret {A} (Q : A → Prop) a : Q a → builds Q (mret a).
Proof. by intros ? c Hc. Qed.
Lemma builds_bail {A} (Q : A → Prop) : builds Q bail.
Proof. by intros c Hc. Qed.
Lemma builds_bind {A B} (P : A → Prop) (Q : B → Prop) (m : Cfg A) (f : A → Cfg B) :
  builds P m → (∀ a, P a → builds Q (f a)) → builds Q (m ≫= f).
Proof.
  intros Hm Hf c Hc. eapply cwp_seq; [by apply Hm|]. intros a c' [Ha Hc']. by apply Hf.
Qed.
Lemma builds_db f : (∀ d, built d → built (f d)) → builds any (upd_server (upd_db f)).
Proof. intros Hf c Hc. split; [done|]. by apply Hf. Qed.
Lemma builds_config f : builds any (upd_server (upd_config f)).
Proof. by intros c Hc. Qed.
Lemma builds_interval f : builds any (upd_server (upd_interval f)).
Proof. by intros c Hc. Qed.

Lemma lex_m_server c : (lex_m c).2.(c_s) = c_s c.
Proof. unfold lex_m. by destruct (lex (c_p c)). Qed.
Lemma builds_lex : builds any lex_m.
Proof.
  intros c Hc. unfold cwp, lex_m. destruct (lex (c_p c)) as [ok p']. done.
Qed.
Lemma builds_NEXT : builds any NEXT.
Proof. eapply builds_bind; [apply builds_lex|]. intros [tv|] _; [by apply builds_ret|apply builds_bail]. Qed.
Lemma builds_expect t : builds any (expect t).
Proof.
  eapply builds_bind; [apply builds_NEXT|]. intros [t' v] _.
  case_match; [by apply builds_ret|apply builds_bail].
Qed.
Lemma builds_compile {T} (P : T → Prop) v x :
  P x → builds (λ r, P (rule_target r)) (compile_rule v x).
Proof. intros Hx. unfold compile_rule. case_match; [by apply builds_ret|apply builds_bail]. Qed.

(** *** The updates of the database *)

Lemma built_put_window d n w : s32_window w → built d → built (put_window n w d).
Proof. intros Hw []. split; cbn; try done. by apply map_Forall_insert_2. Qed.
Lemma built_put_type d n t : wf_type t → built d → built (put_type n t d).
Proof. intros Ht []. split; cbn; try done. by apply map_Forall_insert_2. Qed.
Lemma built_put_state d n t : wf_type t → built d → built (put_state n (new_state now n t) d).
Proof. intros Ht []. split; cbn; try done. apply map_Forall_insert_2; eauto. Qed.
Lemma built_put_counter d n w : s32_window w → built d → built (put_counter n (new_counter n w) d).
Proof. intros Ht []. split; cbn; try done. apply map_Forall_insert_2; eauto. Qed.
Lemma built_put_sample d n w : s32_window w → built d → built (put_sample n (new_sample n w) d).
Proof. intros Ht []. split; cbn; try done. apply map_Forall_insert_2; eauto. Qed.
Lemma built_put_rate d n w : s32_window w → built d → built (put_rate n (new_rate n w) d).
Proof. intros Ht []. split; cbn; try done. apply map_Forall_insert_2; eauto. Qed.

Lemma Forall_push {A} (P : A → Prop) l x : P x → Forall P l → Forall P (list_push l x).
Proof using VL. intros. rewrite list_push_app. apply Forall_app. auto. Qed.

Lemma built_push_state d r : wf_type (rule_target r) → built d → built (push_state_rule r d).
Proof using VL. intros Hr []. split; cbn; try done. by apply Forall_push. Qed.
Lemma built_push_counter d r : s32_window (rule_target r) → built d → built (push_counter_rule r d).
Proof using VL. intros Hr []. split; cbn; try done. by apply Forall_push. Qed.
Lemma built_push_sample d r : s32_window (rule_target r) → built d → built (push_sample_rule r d).
Proof using VL. intros Hr []. split; cbn; try done. by apply Forall_push. Qed.
Lemma built_push_rate d r : s32_window (rule_target r) → built d → built (push_rate_rule r d).
Proof using VL. intros Hr []. split; cbn; try done. by apply Forall_push. Qed.
Lemma built_push_anon d w : built d → built (push_anon_window w d).
Proof. intros []. by split. Qed.

(** *** Types *)

Definition type_in_range (ty : type_t) : Prop := is_u8 (type_status ty) ∧ is_u16 (type_freshness ty).

(** While a type is being read the table holds it as it is so far. *)
Definition reading_type (ty : type_t) (c : cfg_t) : Prop :=
  type_in_range ty ∧ ∃ d0, built d0 ∧ srv_db (c_s c) = put_type (type_name ty) ty d0.

Lemma put_type_twice n t t' d : put_type n t' (put_type n t d) = put_type n t' d.
Proof. unfold put_type. cbn. by rewrite insert_insert_eq. Qed.

Lemma save_type_reading ty ty' c :
  reading_type ty c → type_in_range ty' → type_name ty' = type_name ty →
  cwp True (save_type ty') reading_type c.
Proof.
  intros (_ & d0 & Hd0 & E) Hr Hn. unfold save_type. apply cwp_bind, cwp_set_server, cwp_ret.
  split; [done|]. exists d0. split; [done|]. cbn [c_s upd_db srv_db]. by rewrite E, Hn, put_type_twice.
Qed.

Lemma reading_type_server ty c c' : c_s c' = c_s c → reading_type ty c → reading_type ty c'.
Proof. unfold reading_type. by intros ->. Qed.

Lemma NEXT_reading ty c : reading_type ty c → cwp True NEXT (λ _, reading_type ty) c.
Proof.
  intros Hc. unfold NEXT. apply cwp_bind. pose proof (lex_m_server c) as Hs.
  assert (∃ r c', lex_m c = (Done r, c')) as (r & c' & E)
    by (unfold lex_m; destruct (lex (c_p c)); eauto).
  unfold cwp at 1. rewrite E in *. destruct r; [|by apply cwp_bail].
  apply cwp_ret. by eapply reading_type_server.
Qed.

Lemma expect_reading ty t c : reading_type ty c → cwp True (expect t) (λ _, reading_type ty) c.
Proof.
  intros Hc. unfold expect. cseq NEXT_reading. intros [t' v] c' Hc'.
  case_match; [by apply cwp_ret|by apply cwp_bail].
Qed.

Lemma u8_WARNING : is_u8 WARNING. Proof. unfold is_u8, WARNING. lia. Qed.

Lemma type_severity_u8 v sev : type_severity v = Some sev → is_u8 sev.
Proof.
  unfold type_severity, is_u8. repeat case_match; intros [= <-]; unfold WARNING, CRITICAL, UNKNOWN; lia.
Qed.

Lemma type_body_reading fuel ty c :
  reading_type ty c → cwp True (type_body fuel ty) reading_type c.
Proof.
  revert ty c. induction fuel as [|f IH]; intros ty c Hc; [done|]. cbn [type_body].
  cseq NEXT_reading. intros [t v] c1 Hc1. pose proof Hc1 as ([Hs Hf] & _).
  destruct t; try (by apply cwp_bail).
  - cseq expect_reading. intros v' c2 Hc2.
    eapply cwp_seq; [eapply (save_type_reading ty); [done|split; [done|apply u16_range]|done]|].
    intros ty' c3 Hc3. by apply IH.
  - by apply cwp_ret.
  - destruct (type_severity v) as [sev|] eqn:E; [|by apply cwp_bail].
    eapply cwp_seq; [eapply (save_type_reading ty); [done|split; [by eapply type_severity_u8|done]|done]|].
    intros ty1 c2 Hc2. cseq expect_reading. intros v' c3 Hc3. pose proof Hc3 as (Hr & _).
    eapply cwp_seq; [by eapply (save_type_reading ty1)|].
    intros ty' c4 Hc4. by apply IH.
Qed.

Lemma do_type_builds fuel : builds any (do_type fuel).
Proof.
  eapply builds_bind; [apply builds_expect|]. intros name _ c Hc.
  apply cwp_bind. unfold save_type at 1. apply cwp_bind, cwp_set_server, cwp_ret.
  set (ty0 := mk_type name 300 WARNING None).
  match goal with |- cwp _ _ _ ?x => assert (reading_type ty0 x) as H0 end.
  { split; [split; [apply u8_WARNING|unfold is_u16; cbn; lia]|]. by exists (srv_db (c_s c)). }
  cseq expect_reading. intros _ c1 Hc1. cseq type_body_reading. intros ty c2 Hc2.
  destruct (type_summary ty) eqn:E.
  - apply cwp_ret. split; [done|]. destruct Hc2 as ([? ?] & d0 & Hd0 & ->).
    apply built_put_type; [|done]. split_and!; [by rewrite E|done|done].
  - destruct Hc2 as ([? ?] & d0 & Hd0 & E0). unfold save_type.
    apply cwp_bind, cwp_bind, cwp_set_server, cwp_ret, cwp_ret. split; [done|].
    cbn [c_s upd_db srv_db type_name]. rewrite E0, put_type_twice.
    apply built_put_type; [by split_and!|done].
Qed.

(** *** Entries *)

Lemma builds_state_target : builds (λ r, ∀ t, r.1 = Some t → wf_type t) state_target.
Proof.
  eapply builds_bind; [apply builds_NEXT|]. intros [t v] _.
  assert (builds (λ r : option type_t * (token * string), ∀ t, r.1 = Some t → wf_type t)
            (default_type ≫= λ ty, mret (ty, (t, v)))) as Hdef.
  { intros c Hc. apply cwp_bind, cwp_ret. split; [|done]. cbn.
    intros ty Hty. apply bind_Some in Hty as (n & _ & Hn). by eapply (built_types _ Hc). }
  destruct t; try exact Hdef.
  intros c Hc. apply cwp_bind. unfold cwp at 1, the_server. eapply cwp_seq; [by apply builds_NEXT|].
  intros tv c' [_ Hc']. apply cwp_ret. split; [|done]. cbn. intros ty Hty. by eapply (built_types _ Hc).
Qed.

Lemma builds_window_target : builds (λ r, ∀ w, r.1 = Some w → s32_window w) window_target.
Proof using VL.
  eapply builds_bind; [apply builds_NEXT|]. intros [t v] _.
  assert (builds (λ r : option window_t * (token * string), ∀ w, r.1 = Some w → s32_window w)
            (default_win ≫= λ ty, mret (ty, (t, v)))) as Hdef.
  { intros c Hc. apply cwp_bind, cwp_ret. split; [|done]. cbn.
    intros ty Hty. apply bind_Some in Hty as (n & _ & Hn). by eapply (built_windows _ Hc). }
  destruct t; try exact Hdef.
  - eapply builds_bind; [apply builds_db; intros; by apply built_push_anon|]. intros _ _.
    eapply builds_bind; [apply builds_NEXT|]. intros tv _. apply builds_ret. cbn.
    intros w [= <-]. apply s32_range.
  - intros c Hc. apply cwp_bind. unfold cwp at 1, the_server. eapply cwp_seq; [by apply builds_NEXT|].
    intros tv c' [_ Hc']. apply cwp_ret. split; [|done]. cbn. intros ty Hty. by eapply (built_windows _ Hc).
Qed.

Lemma builds_entry {T} (P : T → Prop) target (put : string → T → db_t → db_t) (push : rule T → db_t → db_t) :
  builds (λ r, ∀ x, r.1 = Some x → P x) target →
  (∀ d n x, P x → built d → built (put n x d)) →
  (∀ d r, P (rule_target r) → built d → built (push r d)) →
  builds any (target ≫= λ '(x, (t, v)),
    match t, x with
    | T_STRING, Some x => upd_server (upd_db (put v x))
    | T_MATCH, Some x => compile_rule v x ≫= λ r, upd_server (upd_db (push r))
    | _, _ => bail
    end).
Proof.
  intros Ht Hput Hpush. eapply builds_bind; [exact Ht|]. cbn. intros [x [t v]] Hx. cbn in Hx.
  destruct t; try apply builds_bail; (destruct x as [x|]; [|apply builds_bail]).
  - apply builds_db. intros d. by apply Hput, Hx.
  - eapply builds_bind; [by apply (builds_compile P), Hx|]. intros r Hr. apply builds_db.
    intros d. by apply Hpush.
Qed.

Lemma builds_string x : builds any (SERVER_STRING x).
Proof. eapply builds_bind; [apply builds_expect|]. intros v _. apply builds_config. Qed.

Lemma directive_builds fuel t : builds any (directive fuel now t).
Proof using VL.
  destruct t; cbn [directive]; try apply builds_bail; try apply builds_string;
    try (by apply builds_ret); try apply do_type_builds;
    try (eapply builds_bind; [apply builds_expect|]; intros v _; (apply builds_config || apply builds_interval)).
  - eapply builds_bind; [apply builds_string|]. intros _ _. apply builds_string.
  - eapply builds_bind; [apply builds_expect|]. intros name _.
    eapply builds_bind; [apply builds_db; intros; by apply built_put_window|]. intros _ _.
    eapply builds_bind; [apply builds_expect|]. intros v _.
    apply builds_db. intros. apply built_put_window; [apply s32_range|done].
  - apply (builds_entry wf_type _ (λ v ty, put_state v (new_state now v ty))).
    + apply builds_state_target.
    + intros. by apply built_put_state.
    + intros. by apply built_push_state.
  - apply (builds_entry s32_window _ (λ v w, put_counter v (new_counter v w))).
    + apply builds_window_target.
    + intros. by apply built_put_counter.
    + intros. by apply built_push_counter.
  - apply (builds_entry s32_window _ (λ v w, put_sample v (new_sample v w))).
    + apply builds_window_target.
    + intros. by apply built_put_sample.
    + intros. by apply built_push_sample.
  - apply (builds_entry s32_window _ (λ v w, put_rate v (new_rate v w))).
    + apply builds_window_target.
    + intros. by apply built_put_rate.
    + intros. by apply built_push_rate.
  - eapply builds_bind; [apply builds_NEXT|]. intros [[] v] _; try apply builds_bail; by intros c Hc.
  - eapply builds_bind; [apply builds_NEXT|]. intros [t v] _.
    eapply (builds_bind any); [|intros _ _; apply builds_config].
    destruct t; try apply builds_bail; apply builds_config.
  - eapply builds_bind; [apply builds_NEXT|]. intros [t v] _. apply builds_config.
Qed.

Lemma directives_builds fuel : builds any (directives fuel now).
Proof using VL.
  induction fuel as [|f IH]; [by intros c Hc|]. cbn [directives].
  eapply builds_bind; [apply builds_lex|]. intros [[t v]|] _; [|by apply builds_ret].
  eapply builds_bind; [apply directive_builds|]. intros _ _. apply IH.
Qed.

Lemma built_init d : events_count d ≤ 0 → built (init_db d).
Proof. by split. Qed.

(** *** From a configuration to a well-formed database *)

(** Every window in use is longer than nothing. *)
Definition positive_windows (d : db_t) : Prop :=
  map_Forall (λ _ c, 0 < window_time (counter_window c)) (counters d) ∧
  map_Forall (λ _ c, 0 < window_time (sample_window c)) (samples d) ∧
  map_Forall (λ _ c, 0 < window_time (rate_window c)) (rates d) ∧
  Forall (λ r, 0 < window_time (rule_target r)) (counter_matches d) ∧
  Forall (λ r, 0 < window_time (rule_target r)) (sample_matches d) ∧
  Forall (λ r, 0 < window_time (rule_target r)) (rate_matches d).

Lemma wf_window_pos w : s32_window w → 0 < window_time w → wf_window w.
Proof. unfold s32_window, is_s32, wf_window. lia. Qed.

Lemma wf_rules_pos (l : list (rule window_t)) :
  Forall (λ r, s32_window (rule_target r)) l → Forall (λ r, 0 < window_time (rule_target r)) l →
  Forall (λ r, wf_window (rule_target r)) l.
Proof. rewrite !Forall_forall. intros H1 H2 r Hr. by apply wf_window_pos; [apply H1|apply H2]. Qed.

Lemma built_wf d :
  built d → positive_windows d → wf_db d.
Proof.
  intros [] (Hc & Hs & Hr & Hcr & Hsr & Hrr). split; auto using wf_rules_pos.
  - intros n s E. destruct (built_states0 n s E) as (t & Ht & ->). by apply wf_new_state.
  - intros n c E. destruct (built_counters0 n c E) as (w & Hw & ->).
    apply wf_new_counter, wf_window_pos; [done|by apply (Hc _ _ E)].
  - intros n c E. destruct (built_samples0 n c E) as (w & Hw & ->).
    apply wf_new_sample, wf_window_pos; [done|by apply (Hs _ _ E)].
  - intros n c E. destruct (built_rates0 n c E) as (w & Hw & ->).
    apply wf_new_rate, wf_window_pos; [done|by apply (Hr _ _ E)].
  - rewrite built_events0. cbn. lia.
Qed.

Lemma configure_built fuel file s s' :
  configure fuel now file s = (Some 0, s') → events_count (srv_db s) ≤ 0 → built (srv_db s').
Proof using VL.
  intros E Hev. unfold configure in E. destruct file as [io|]; [|done].
  pose proof (directives_builds fuel (mk_cfg (parser_init io) (upd_db init_db s) None None)
                (built_init _ Hev)) as Hb.
  unfold cwp in Hb. destruct (directives _ _ _) as [[a| |] c]; [|done|done].
  destruct (p_eof _); [|done]. injection E as <-. apply Hb.
Qed.

(** C22: the database of a configuration that was accepted holds complete
    types, and entries exactly as they are created: pending states that
    expire one freshness from now, counters, samples and rates at zero, each
    under its own name and with a type or window that was defined; when the
    windows in use are positive it satisfies the invariant that makes the
    kernel safe. *)
Theorem configure_builds fuel file s s' :
  configure fuel now file s = (Some 0, s') → events_count (srv_db s) ≤ 0 →
  built (srv_db s') ∧ (positive_windows (srv_db s') → wf_db (srv_db s')).
Proof using VL.
  intros E Hev. pose proof (configure_built _ _ _ _ E Hev) as Hb.
  split; [done|]. intros Hw. by apply built_wf.
Qed.
End builds.

(** ** Misreadings *)

Module CfgExample.
Definition config : config_t :=
  mk_config None None None None 0 None None None None None None None 4 0 0 0 15.
Definition server : server_t (H := ref_pcre) :=
  mk_server ref_pcre (mk_db ref_pcre ∅ ∅ ∅ ∅ [] 0 [] [] [] [] ∅ ∅ []) ∅ config (mk_interval 0 0 60 15).

Abbreviation run fuel text :=
  (configure (H := ref_vigor) (H0 := ref_pcre) fuel 1000 (Some text) server).

Definition lines (l : list string) : string := String.concat EmptyString ((λ s, s +:+ nl) <$> l).

Definition sample_file : string :=
  lines ["# types"; "type :local {"; "  freshness 600 # seconds"; "  critical " +:+ str1 QUOTE +:+ "No results" +:+ str1 QUOTE; "}";
         EmptyString; "window @minutely 60"; "use @minutely"; "state :local host.disk"; "counter host.logins";
         "counter @minutely m/^res/"; "max.events 2h"].
End CfgExample.

(** A decidable test for complete lines. *)
Definition line_ok (s : string) : bool :=
  str_all (is_not LF) s && str_all not_nul s && (S (String.length s) <? LINE_BUF_SIZE)%nat.

Lemma text_file_lines l : forallb line_ok l = true → text_file (CfgExample.lines l).
Proof.
  intros Hl. exists ((λ s, s +:+ nl) <$> l). split; [done|]. apply Forall_fmap, Forall_forall.
  intros s Hs. rewrite forallb_forall in Hl. specialize (Hl s (proj1 (list_elem_of_In _ _) Hs)).
  unfold line_ok in Hl. rewrite !andb_true_iff, Nat.ltb_lt in Hl. destruct Hl as [[H1 H2] H3].
  split; [by exists s|]. cbn. by rewrite str_all_app, H2.
Qed.

Lemma sample_file_text : text_file CfgExample.sample_file.
Proof. apply text_file_lines. by vm_compute. Qed.

Lemma configure_terminates_witness :
  ∃ rc s', (rc = 0 ∨ rc = 1) ∧ ∀ fuel, (String.length CfgExample.sample_file < fuel)%nat →
    configure (H := ref_vigor) (H0 := ref_pcre) fuel 1000 (Some CfgExample.sample_file) CfgExample.server
    = (Some rc, s').
Proof.
  apply (configure_terminates (H := ref_vigor) (H0 := ref_pcre) 1000 CfgExample.sample_file CfgExample.server).
  exact sample_file_text.
Defined.

(** Only the return code of a run is evaluated. *)
Lemma run_rc fuel text rc :
  (CfgExample.run fuel text).1 = rc → CfgExample.run fuel text = (rc, (CfgExample.run fuel text).2).
Proof. intros <-. apply surjective_pairing. Qed.

Lemma sample_run :
  CfgExample.run 60 CfgExample.sample_file = (Some 0, (CfgExample.run 60 CfgExample.sample_file).2).
Proof. apply run_rc. by vm_compute. Qed.

Lemma sample_positive :
  positive_windows (H := ref_pcre) (srv_db (CfgExample.run 60 CfgExample.sample_file).2).
Proof. apply (bool_decide_unpack _). by vm_compute. Qed.

Lemma configure_builds_witness :
  ∃ s', CfgExample.run 60 CfgExample.sample_file = (Some 0, s') ∧ wf_db (H := ref_pcre) (srv_db s').
Proof.
  exists (CfgExample.run 60 CfgExample.sample_file).2.
  split; [exact sample_run|].
  apply (configure_builds (VL := ref_vigor_laws) (H := ref_pcre) 1000 60 _ _ _ sample_run).
  - exact (Z.le_refl 0).
  - exact sample_positive.
Defined.

(** Numbers are copied without a terminator over the last value, so a
    number keeps the tail of a longer one before it: with [save.size 256]
    on the line before, [save.interval 15] sets the interval to 156. *)
Theorem configure_stale_digits :
  let '(rc, s') := CfgExample.run 20 (CfgExample.lines ["save.size 256"; "save.interval 15"]) in
  rc = Some 0 ∧ cfg_save_size (srv_config s') = 256 ∧ int_savestate (srv_interval s') = 156.
Proof. by vm_compute. Qed.

(** A directive without arguments whose scan leaves the parser where it was
    is read for ever. *)
Lemma directives_loop `{Vigor} `{Pcre} now c v :
  lex_m c = (Done (Some (T_DUMPFILES, v)), c) → ∀ fuel, directives fuel now c = (Out, c).
Proof.
  intros E. induction fuel as [|f IH]; [done|]. cbn [directives].
  unfold mbind, Cfg_bind. rewrite E. cbn [directive]. exact IH.
Qed.

(** Without a newline at its end a file is misread: the scan of the last
    word passes the terminator and goes on in what the buffer held before.
    The last argument is followed by a second one (so [listener foo] is
    refused), [dumpfiles dumpfiles] is read for ever, and a syntax error in
    the last line is taken for the end of the file. *)
Theorem configure_unterminated :
  (CfgExample.run 20 (CfgExample.lines ["listener foo"])).1 = Some 0 ∧
  (CfgExample.run 20 "listener foo").1 = Some 1 ∧
  (CfgExample.run 20 (CfgExample.lines ["listener foo"] +:+ "%%")).1 = Some 0 ∧
  ∀ fuel, (CfgExample.run fuel "dumpfiles dumpfiles").1 = None.
Proof.
  split_and!; [by vm_compute..|]. intros fuel. unfold configure.
  set (s0 := upd_db init_db CfgExample.server). clearbody s0.
  set (p1 := (lex (parser_init "dumpfiles dumpfiles")).2).
  assert (directives (H := ref_vigor) (H0 := ref_pcre) fuel 1000
            (mk_cfg (parser_init "dumpfiles dumpfiles") s0 None None) = (Out, mk_cfg p1 s0 None None)
          ∨ fuel = 0%nat) as [-> | ->]; [|done|done].
  destruct fuel as [|f]; [by right|left]. cbn [directives].
  unfold mbind, Cfg_bind. 
  assert (lex_m (mk_cfg (parser_init "dumpfiles dumpfiles") s0 None None)
          = (Done (Some (T_DUMPFILES, EmptyString)), mk_cfg p1 s0 None None)) as ->
    by (vm_compute; reflexivity).
  cbn [directive]. unfold mret, Cfg_ret.
  apply (directives_loop (H := ref_vigor) (H0 := ref_pcre) _ _ EmptyString). vm_compute. reflexivity.
Qed.
