(* ===== verification/Subscriber.v ===== *)
(** * The metrics of a subscriber: src/bolo_subscriber.c

    Every subscriber runs a monitor that collects its own metrics: counts,
    which are added up, and samples, of which at most 256 are kept.  At
    every tick it submits the counts and the medians to the aggregator and
    starts over. *)

From S2P Require Import Prelude CLib Vigor Data Pdu.
From Stdlib Require Import Ascii SpecFloat.

(** ** Metrics *)

Definition METRIC_TYPE_COUNT : Z := 1.
Definition METRIC_TYPE_SAMPLE : Z := 2.
Definition MAX_SAMPLES : Z := 256.
Definition RAND_MAX : Z := 2147483647.

Definition dzero : double := S754_zero false.

Record metric_t := mk_metric {
  metric_type : Z;                (* int *)
  metric_count : Z;               (* uint64_t *)
  metric_nsamples : Z;            (* size_t *)
  metric_samples : list double;   (* MAX_SAMPLES of them *)
}.

Definition _cmp (a b : double) : comparison :=
  if deqb a b then Eq else if dltb b a then Gt else Lt.

(** The array is sorted in place, but [_reset] follows before anything else
    reads it.  A negative [n] makes [qsort] run off the array. *)
Definition _median (metric : metric_t) : res double :=
  if negb (metric_type metric =? METRIC_TYPE_SAMPLE) then mret dzero
  else
    let n := s32 (metric_nsamples metric) in
    if n =? 0 then mret dzero
    else
      let n := if MAX_SAMPLES <? n then MAX_SAMPLES else n in
      if n <? 0 then Fault OutOfBounds
      else
        let sorted := qsort _cmp (take (Z.to_nat n) (metric_samples metric)) in
        let at_ i := nth (Z.to_nat i) sorted dzero in
        let mid := n / 2 in
        mret (if n mod 2 =? 0 then ddiv (dadd (at_ (mid - 1)) (at_ mid)) (d_of_Z 2) else at_ mid).

Definition _reset (metric : metric_t) : metric_t :=
  mk_metric (metric_type metric) 0 0 (replicate (Z.to_nat MAX_SAMPLES) dzero).

(** ** The monitor *)

Inductive msocket := MControl | MTock | MInput | MOther.
Inductive mreaction := MContinue | MHalt.

Record monitor_t := mk_monitor {
  mon_prefix : string;
  mon_metrics : gmap string metric_t;
}.

Definition set_metrics (m : gmap string metric_t) (mon : monitor_t) : monitor_t :=
  mk_monitor (mon_prefix mon) m.

Section monitor.
Context `{Vigor}.

(** The messages are those sent to the aggregator. *)
Abbreviation Mon := (M monitor_t pdu_t).

Definition put_metric (name : string) (m : metric_t) : Mon () :=
  modify (λ mon, set_metrics (<[name := m]> (mon_metrics mon)) mon).

(** Memory from [vmalloc] is zero. *)
Definition new_metric (type : Z) : metric_t := _reset (mk_metric type 0 0 []).

Definition _metric (name : string) (type : Z) : Mon (option metric_t) :=
  get ≫= λ mon,
  (match mon_metrics mon !! name with
   | Some m => mret m
   | None => put_metric name (new_metric type) ≫= λ _, mret (new_metric type)
   end) ≫= λ m,
  mret (if metric_type m =? type then Some m else None).

(** The body of the tick's loop; [prefix] is [monitor->prefix]. *)
Definition submit_metric (now : Z) (prefix : string) (kv : string * metric_t) : Mon () :=
  let '(name, value) := kv in
  let submit := prefix +:+ ":" +:+ name in
  if metric_type value =? METRIC_TYPE_COUNT then
    emit (bolo_counter_pdu now submit (metric_count value)) ≫= λ _, put_metric name (_reset value)
  else if metric_type value =? METRIC_TYPE_SAMPLE then
    lift (_median value) ≫= λ median,
    emit (bolo_sample_pdu now submit [median]) ≫= λ _, put_metric name (_reset value)
  else mret ().

(** [metric->samples[i] = value] *)
Definition store_sample (m : metric_t) (n i : Z) (v : double) : res metric_t :=
  if (0 <=? i) && (i <? MAX_SAMPLES)
  then Ok (mk_metric (metric_type m) (metric_count m) n (<[Z.to_nat i := v]> (metric_samples m)))
  else Fault OutOfBounds.

(** [r] is the value of [rand()], drawn when the array is full. *)
Definition add_sample (r : Z) (m : metric_t) (v : double) : res metric_t :=
  if metric_nsamples m <? MAX_SAMPLES then
    store_sample m (metric_nsamples m + 1) (metric_nsamples m) v
  else
    let n := u64 (metric_nsamples m + 1) in
    let i := s32 (u64 (r / RAND_MAX * n)) in
    if i <? MAX_SAMPLES then store_sample m n i v
    else Ok (mk_metric (metric_type m) (metric_count m) n (metric_samples m)).

Definition add_count (m : metric_t) (v : Z) : metric_t :=
  mk_metric (metric_type m) (u64 (metric_count m + v)) (metric_nsamples m) (metric_samples m).

Definition input_init (p : pdu_t) : Mon () :=
  lift (deref (pdu_string p 1)) ≫= λ type,
  lift (deref (pdu_string p 2)) ≫= λ name,
  if streq type "SAMPLE" then _metric name METRIC_TYPE_SAMPLE ≫= λ _, mret ()
  else if streq type "COUNT" then _metric name METRIC_TYPE_COUNT ≫= λ _, mret ()
  else mret ().

Definition input_sample (r : Z) (p : pdu_t) : Mon () :=
  lift (deref (pdu_string p 1)) ≫= λ name,
  lift (deref (pdu_string p 2)) ≫= λ text,
  let '(value, error) := strtod text in
  if streq error EmptyString then
    _metric name METRIC_TYPE_SAMPLE ≫= λ metric,
    match metric with
    | Some m => lift (add_sample r m value) ≫= put_metric name
    | None => mret ()
    end
  else mret ().

Definition input_count (p : pdu_t) : Mon () :=
  lift (deref (pdu_string p 1)) ≫= λ name,
  let '(value, error) :=
    match pdu_string p 2 with Some text => strtoul_end text | None => (1, EmptyString) end in
  if streq error EmptyString then
    _metric name METRIC_TYPE_COUNT ≫= λ metric,
    match metric with Some m => put_metric name (add_count m value) | None => mret () end
  else mret ().

Definition on_input (r : Z) (p : pdu_t) : Mon () :=
  if streq (pdu_type p) "INIT" && (pdu_size p =? 3) then input_init p
  else if streq (pdu_type p) "SAMPLE" && (pdu_size p =? 3) then input_sample r p
  else if streq (pdu_type p) "COUNT" && (2 <=? pdu_size p) then input_count p
  else mret ().

Definition _monitor_reactor (now r : Z) (s : msocket) (p : pdu_t) : Mon mreaction :=
  match s with
  | MControl => mret (if streq (pdu_type p) "TERMINATE" then MHalt else MContinue)
  | MTock => get ≫= λ mon, 
      for_each_m (submit_metric now (mon_prefix mon)) (for_each (mon_metrics mon)) ≫= λ _, mret MContinue
  | MInput => on_input r p ≫= λ _, mret MContinue
  | MOther => mret MHalt
  end.

(** The loop over the types and names, with the return code so far.  The list
    holds the messages that are handed to [pdu_send_and_free], accepted or
    not; [sent] says which of them it accepts, and each that it does not
    lowers the return code. *)
Fixpoint init_loop (rc : Z) (args : list (string * string)) (sent : list bool) : list pdu_t * Z :=
  match args with
  | [] => ([], rc)
  | (type, name) :: args' =>
      let ok := default true (head sent) in
      let '(ps, rc') := init_loop (if ok then rc else rc - 1) args' (tail sent) in
      (pdu_make "INIT" [type; name] :: ps, rc')
  end.

(** [connected] is the answer of [bolo_subscriber_connect_monitor]. *)
Definition bolo_subscriber_metrics (connected : Z) (args : list (string * string)) (sent : list bool)
    : list pdu_t * Z :=
  if connected =? 0 then init_loop connected args sent else ([], connected).
End monitor.
