(* ===== verification/SubscriberFacts.v ===== *)
(** * What a subscriber's monitor guarantees

    The median is that of the samples, the counts are submitted in full and
    once, and no message can make the monitor access its arrays out of
    bounds. *)

From S2P Require Import Prelude CLib Vigor Data Pdu Subscriber.
From Stdlib Require Import Ascii SpecFloat.

(** ** The order of doubles

    [SFcompare] is the lexicographic order of a key, so that sorting with
    [_cmp] sorts, as long as there is no NaN. *)

Definition dkey (d : double) : Z * Z * Z :=
  match d with
  | S754_infinity true => (-2, 0, 0)
  | S754_finite true m e => (-1, - e, - Z.pos m)
  | S754_zero _ | S754_nan => (0, 0, 0)
  | S754_finite false m e => (1, e, Z.pos m)
  | S754_infinity false => (2, 0, 0)
  end.

Definition key_cmp (a b : Z * Z * Z) : comparison :=
  let '(a1, a2, a3) := a in
  let '(b1, b2, b3) := b in
  match a1 ?= b1 with Eq => match a2 ?= b2 with Eq => a3 ?= b3 | c => c end | c => c end.

Definition is_nan (d : double) : bool := match d with S754_nan => true | _ => false end.

Lemma key_cmp_le a b :
  key_cmp a b ≠ Gt ↔
  let '(a1, a2, a3) := a in
  let '(b1, b2, b3) := b in
  a1 < b1 ∨ a1 = b1 ∧ (a2 < b2 ∨ a2 = b2 ∧ a3 ≤ b3).
Proof.
  destruct a as [[a1 a2] a3], b as [[b1 b2] b3]. cbn.
  destruct (Z.compare_spec a1 b1), (Z.compare_spec a2 b2), (Z.compare_spec a3 b3);
    split; intros; try done; try lia.
Qed.

Lemma key_cmp_total a b : cmp_le key_cmp a b ∨ cmp_le key_cmp b a.
Proof.
  unfold cmp_le. rewrite !key_cmp_le. destruct a as [[a1 a2] a3], b as [[b1 b2] b3]. lia.
Qed.

Lemma key_cmp_trans a b c : cmp_le key_cmp a b → cmp_le key_cmp b c → cmp_le key_cmp a c.
Proof.
  unfold cmp_le. rewrite !key_cmp_le.
  destruct a as [[a1 a2] a3], b as [[b1 b2] b3], c as [[c1 c2] c3]. lia.
Qed.

Lemma SFcompare_key a b :
  is_nan a = false → is_nan b = false → SFcompare a b = Some (key_cmp (dkey a) (dkey b)).
Proof.
  destruct a as [sa|sa| |sa ma ea], b as [sb|sb| |sb mb eb]; try done; intros _ _;
    try (by destruct sa); try (by destruct sb); try (by destruct sa, sb).
  destruct sa, sb; try done. cbn [SFcompare dkey key_cmp]. do 2 f_equal.
  change (-1 ?= -1) with Eq. cbn iota.
  rewrite Z.compare_opp, (Z.compare_antisym ea eb).
  destruct (ea ?= eb); cbn [CompOpp]; [|done..].
  rewrite Z.compare_opp, (Z.compare_antisym (Z.pos ma) (Z.pos mb)). done.
Qed.

Lemma _cmp_key a b :
  is_nan a = false → is_nan b = false → _cmp a b = key_cmp (dkey a) (dkey b).
Proof.
  intros Ha Hb. unfold _cmp, deqb, dltb, SFeqb, SFltb.
  rewrite (SFcompare_key a b), (SFcompare_key b a) by done.
  pose proof (key_cmp_le (dkey a) (dkey b)) as H1. pose proof (key_cmp_le (dkey b) (dkey a)) as H2.
  destruct (dkey a) as [[a1 a2] a3], (dkey b) as [[b1 b2] b3].
  destruct (key_cmp (a1, a2, a3) (b1, b2, b3)) eqn:E1; [done| |];
    destruct (key_cmp (b1, b2, b3) (a1, a2, a3)) eqn:E2; try done.
  all: cbn in E1, E2; destruct (Z.compare_spec a1 b1), (Z.compare_spec b1 a1); try lia; try congruence;
    destruct (Z.compare_spec a2 b2), (Z.compare_spec b2 a2); try lia; try congruence;
    destruct (Z.compare_spec a3 b3), (Z.compare_spec b3 a3); try lia; congruence.
Qed.

(** [qsort] depends on the comparison of the list's elements only. *)
Lemma merge_runs_ext {A} (cmp cmp' : A → A → comparison) l1 l2 :
  (∀ x y, x ∈ l1 → y ∈ l2 → cmp x y = cmp' x y) → merge_runs cmp l1 l2 = merge_runs cmp' l1 l2.
Proof.
  revert l2. induction l1 as [|x l1 IH1]; intros l2 He; [by destruct l2|].
  induction l2 as [|y l2 IH2]; [done|]. rewrite !merge_runs_cons.
  rewrite <- He by left. rewrite IH1 by (intros; apply He; [by right|done]).
  rewrite IH2 by (intros; apply He; [done|by right]). done.
Qed.

Lemma qsort_ext {A} (cmp cmp' : A → A → comparison) l :
  (∀ x y, x ∈ l → y ∈ l → cmp x y = cmp' x y) → qsort cmp l = qsort cmp' l.
Proof.
  unfold qsort. generalize (length l). intros fuel. revert l.
  induction fuel as [|f IH]; intros l He; [done|]. cbn [qsort_aux].
  destruct l as [|a [|b l]]; [done..|]. set (n := Nat.div2 _). set (xs := a :: b :: l) in *.
  assert (∀ x, x ∈ take n xs → x ∈ xs) as Ht by (intros x; apply subseteq_take).
  assert (∀ x, x ∈ drop n xs → x ∈ xs) as Hd by (intros x; apply subseteq_drop).
  rewrite !(IH (take n xs)), !(IH (drop n xs)) by (intros; apply He; auto).
  apply merge_runs_ext. intros x y. rewrite !qsort_aux_perm. intros. apply He; auto.
Qed.

Definition dkey_cmp (a b : double) : comparison := key_cmp (dkey a) (dkey b).

(** Without a NaN the samples are sorted: no element is greater than a
    later one. *)
Lemma qsort_doubles l :
  Forall (λ d, is_nan d = false) l →
  qsort _cmp l ≡ₚ l ∧ StronglySorted (λ a b, dltb b a = false) (qsort _cmp l).
Proof.
  intros Hl. split; [apply qsort_perm|].
  assert (∀ x, x ∈ l → is_nan x = false) as Hn by (by apply Forall_forall).
  rewrite (qsort_ext _ dkey_cmp) by (intros; apply _cmp_key; auto).
  assert (StronglySorted (cmp_le dkey_cmp) (qsort dkey_cmp l)) as Hs.
  { apply qsort_sorted; unfold cmp_le, dkey_cmp; intros; [apply key_cmp_total|].
    by eapply (key_cmp_trans (dkey x) (dkey y)). }
  assert (Forall (λ d, is_nan d = false) (qsort dkey_cmp l)) as Hq by (by rewrite qsort_perm).
  induction Hs as [|x q Hs IH Hx]; [constructor|]. apply Forall_cons in Hq as [Hxn Hq].
  constructor; [by apply IH|]. rewrite Forall_forall in *. intros y Hy.
  specialize (Hx y Hy). unfold dltb, SFltb. rewrite SFcompare_key by auto.
  unfold cmp_le, dkey_cmp in Hx. rewrite key_cmp_le in Hx.
  destruct (dkey x) as [[x1 x2] x3], (dkey y) as [[y1 y2] y3]. cbn.
  destruct (Z.compare_spec y1 x1), (Z.compare_spec y2 x2), (Z.compare_spec y3 x3); try done; lia.
Qed.

(** ** The median *)

(** The middle of a sorted list, or the mean of the two middle elements. *)
Definition middle (l : list double) : double :=
  let n := length l in
  if Nat.even n then ddiv (dadd (nth (n / 2 - 1) l dzero) (nth (n / 2) l dzero)) (d_of_Z 2)
  else nth (n / 2) l dzero.

Lemma even_of_nat k : (Z.of_nat k mod 2 =? 0) = Nat.even k.
Proof.
  destruct (Nat.even k) eqn:E.
  - apply Nat.even_spec in E as [j ->]. apply Z.eqb_eq. zlia.
  - assert (Nat.odd k = true) as [j ->]%Nat.odd_spec by (rewrite <- Nat.negb_even; by rewrite E).
    apply Z.eqb_neq. zlia.
Qed.

(** What the monitor submits for a sample metric is the median of the
    samples it kept since the last tick (all of them when there were at most
    256): the middle of the list of these samples in order. *)
Theorem median_spec m n :
  metric_type m = METRIC_TYPE_SAMPLE → length (metric_samples m) = Z.to_nat MAX_SAMPLES →
  0 < metric_nsamples m < 2 ^ 31 → n = Z.min (metric_nsamples m) MAX_SAMPLES →
  Forall (λ d, is_nan d = false) (take (Z.to_nat n) (metric_samples m)) →
  ∃ l, l ≡ₚ take (Z.to_nat n) (metric_samples m) ∧
    StronglySorted (λ a b, dltb b a = false) l ∧ _median m = Ok (middle l).
Proof.
  intros Ht Hlen Hn -> Hnan. set (n := Z.min _ _) in *.
  destruct (qsort_doubles _ Hnan) as [Hp Hs]. eexists. split_and!; [exact Hp|exact Hs|].
  unfold _median. rewrite Ht. change (negb (_ =? _)) with false. cbn iota.
  rewrite s32_id by (unfold is_s32; lia).
  destruct (Z.eqb_spec (metric_nsamples m) 0); [lia|].
  assert ((if MAX_SAMPLES <? metric_nsamples m then MAX_SAMPLES else metric_nsamples m) = n) as ->
    by (subst n; destruct (Z.ltb_spec MAX_SAMPLES (metric_nsamples m)); lia).
  assert (0 < n ≤ 256) as Hn' by (subst n; unfold MAX_SAMPLES in *; lia).
  destruct (Z.ltb_spec n 0); [lia|].
  assert (length (qsort _cmp (take (Z.to_nat n) (metric_samples m))) = Z.to_nat n) as Hl.
  { rewrite Hp, length_take, Hlen. unfold MAX_SAMPLES. lia. }
  unfold middle. rewrite Hl.
  assert (Z.to_nat (n / 2) = Z.to_nat n / 2)%nat as Hdiv by (rewrite Z2Nat.inj_div by lia; done).
  assert (Z.to_nat (n / 2 - 1) = Z.to_nat n / 2 - 1)%nat as -> by (rewrite Z2Nat.inj_sub by lia; lia).
  rewrite Hdiv. unfold mret, res_ret. do 2 f_equal.
  assert ((n mod 2 =? 0) = Nat.even (Z.to_nat n)) as ->; [|done].
  rewrite <- (Z2Nat.id n) at 1 by lia. apply even_of_nat.
Qed.

Lemma median_spec_witness :
  ∃ l, l ≡ₚ [d_of_Z 3; d_of_Z 1; d_of_Z 2] ∧ StronglySorted (λ a b, dltb b a = false) l ∧
    _median (mk_metric METRIC_TYPE_SAMPLE 0 3
               ([d_of_Z 3; d_of_Z 1; d_of_Z 2] ++ replicate 253 dzero)) = Ok (middle l).
Proof.
  apply (median_spec (mk_metric METRIC_TYPE_SAMPLE 0 3
               ([d_of_Z 3; d_of_Z 1; d_of_Z 2] ++ replicate 253 dzero)) 3); cbn; try done; try lia.
  repeat constructor.
Defined.

(** ** Safety *)

(** Metrics of one of the two types, with full arrays, and with at most [n]
    samples counted since the last tick. *)
Definition metric_ok (n : Z) (m : metric_t) : Prop :=
  (metric_type m = METRIC_TYPE_COUNT ∨ metric_type m = METRIC_TYPE_SAMPLE) ∧
  is_u64 (metric_count m) ∧ 0 ≤ metric_nsamples m ≤ n ∧
  length (metric_samples m) = Z.to_nat MAX_SAMPLES.

Definition monitor_ok (n : Z) (mon : monitor_t) : Prop :=
  map_Forall (λ _, metric_ok n) (mon_metrics mon).

Lemma metric_ok_mono n n' m : n ≤ n' → metric_ok n m → metric_ok n' m.
Proof. intros ? (? & ? & ? & ?). split_and!; auto; lia. Qed.

Lemma monitor_ok_mono n n' mon : n ≤ n' → monitor_ok n mon → monitor_ok n' mon.
Proof. intros Hn Hm k m E. by eapply metric_ok_mono, Hm. Qed.

Lemma metric_ok_reset n m :
  0 ≤ n → metric_type m = METRIC_TYPE_COUNT ∨ metric_type m = METRIC_TYPE_SAMPLE → metric_ok n (_reset m).
Proof.
  intros ? ?. split_and!; cbn; [done|unfold is_u64; lia..|]. apply length_replicate.
Qed.

Lemma add_sample_ok n r m v :
  metric_ok n m → 0 ≤ r ≤ RAND_MAX → 0 ≤ n < 2 ^ 31 - 1 →
  ∃ m', add_sample r m v = Ok m' ∧ metric_ok (n + 1) m'.
Proof.
  intros (Ht & Hc & Hs & Hl) Hr Hn. unfold add_sample, store_sample, MAX_SAMPLES in *.
  destruct (Z.ltb_spec (metric_nsamples m) 256).
  - assert ((0 <=? metric_nsamples m) = true) as -> by (apply Z.leb_le; lia). cbn [andb].
    eexists. split; [done|]. split_and!; cbn; [done..|lia|lia|by rewrite length_insert].
  - rewrite (u64_id (metric_nsamples m + 1)) by (unfold is_u64; lia).
    assert (r / RAND_MAX = 0 ∨ r / RAND_MAX = 1) as Hq by (unfold RAND_MAX in *; zlia).
    set (i := s32 (u64 _)).
    assert (0 ≤ i) as Hi.
    { subst i. destruct Hq as [-> | ->]; rewrite u64_id, s32_id by (unfold is_u64, is_s32; lia); lia. }
    destruct (Z.ltb_spec i 256); [|eexists; split; [done|]; split_and!; cbn; auto; lia].
    assert ((0 <=? i) = true) as -> by (by apply Z.leb_le). cbn [andb].
    eexists. split; [done|]. split_and!; cbn; [done..|lia|lia|by rewrite length_insert].
Qed.

Section monitor_facts.
Context `{VL : VigorLaws}.

Lemma wp_lookup_metric n name type mon :
  monitor_ok n mon → 0 ≤ n → type = METRIC_TYPE_COUNT ∨ type = METRIC_TYPE_SAMPLE →
  wp False (_metric name type) (λ m mon', monitor_ok n mon' ∧
    ∀ m', m = Some m' → metric_ok n m') mon.
Proof.
  intros Hmon Hn Ht. unfold _metric. apply wp_bind, wp_get.
  destruct (mon_metrics mon !! name) as [m|] eqn:E.
  - apply wp_bind, wp_ret, wp_ret. split; [done|]. intros m' Hm. case_match; [|done].
    injection Hm as <-. by eapply Hmon.
  - assert (metric_ok n (new_metric type)) as Hnew by (by apply metric_ok_reset).
    apply wp_bind, wp_bind, wp_modify, wp_ret, wp_ret. split.
    + unfold monitor_ok. cbn. by apply map_Forall_insert_2.
    + intros m' Hm. case_match; [|done]. by injection Hm as <-.
Qed.

Lemma wp_put_metric n name m mon :
  monitor_ok n mon → metric_ok n m → wp False (put_metric (H := V) name m) (λ _, monitor_ok n) mon.
Proof. intros Hmon Hm. apply wp_modify. unfold monitor_ok. cbn. by apply map_Forall_insert_2. Qed.

Lemma wp_mon_frame (p : pdu_t) i Q (mon : monitor_t) :
  0 ≤ i < pdu_size p → (∀ s, pdu_string p i = Some s → Q s mon) →
  wp False (lift (deref (pdu_string p i)) : M monitor_t pdu_t string) Q mon.
Proof using VL.
  intros Hi HQ. destruct (pdu_string_Some p i Hi) as [s E]. rewrite E.
  apply wp_lift; [|done]. intros ? [= <-]. by apply HQ.
Qed.

Lemma add_count_ok n m v : metric_ok n m → metric_ok n (add_count m v).
Proof. intros (? & ? & ? & ?). split_and!; cbn; auto using u64_range; lia. Qed.

Lemma wp_on_input n r p mon :
  monitor_ok n mon → 0 ≤ r ≤ RAND_MAX → 0 ≤ n < 2 ^ 31 - 1 →
  wp False (on_input r p) (λ _, monitor_ok (n + 1)) mon.
Proof using VL.
  intros Hmon Hr Hn. assert (monitor_ok (n + 1) mon) as Hmon' by (eapply monitor_ok_mono; [|done]; lia).
  unfold on_input.
  destruct (streq _ _ && _) eqn:E1; [apply andb_prop in E1 as [_ E1%Z.eqb_eq]|].
  { unfold input_init. apply wp_bind, wp_mon_frame; [lia|]. intros ty _. apply wp_bind, wp_mon_frame; [lia|].
    intros name _. repeat case_match; try (by apply wp_ret).
    all: apply wp_bind; eapply wp_mono; [apply (wp_lookup_metric (n + 1)); auto; lia|];
      intros ? ? [? _]; by apply wp_ret. }
  clear E1. destruct (streq _ _ && _) eqn:E1; [apply andb_prop in E1 as [_ E1%Z.eqb_eq]|].
  { unfold input_sample. apply wp_bind, wp_mon_frame; [lia|]. intros name _. apply wp_bind, wp_mon_frame; [lia|].
    intros text _. destruct (strtod text) as [v err]. case_match; [|by apply wp_ret].
    apply wp_bind. eapply wp_mono; [apply (wp_lookup_metric n); auto; lia|]. cbn beta.
    intros [m|] mon1 [Hmon1 Hm]; [|by apply wp_ret; eapply monitor_ok_mono; [|done]; lia].
    destruct (add_sample_ok n r m v) as (m' & -> & Hm'); auto.
    apply wp_bind, wp_lift; [|done]. intros ? [= <-].
    apply wp_put_metric; [eapply monitor_ok_mono; [|done]; lia|done]. }
  clear E1. destruct (streq _ _ && _) eqn:E1; [apply andb_prop in E1 as [_ E1%Z.leb_le]|by apply wp_ret].
  unfold input_count. apply wp_bind, wp_mon_frame; [lia|]. intros name _.
  destruct (match pdu_string p 2 with Some text => _ | None => _ end) as [v err].
  case_match; [|by apply wp_ret]. apply wp_bind.
  eapply wp_mono; [apply (wp_lookup_metric (n + 1)); auto; lia|]. cbn beta.
  intros [m|] mon1 [Hmon1 Hm]; [|by apply wp_ret].
  apply wp_put_metric; [done|]. by apply add_count_ok, Hm.
Qed.

(** *** The tick *)

(** What is sent for a metric. *)
Definition submission (now : Z) (prefix name : string) (m : metric_t) : list pdu_t :=
  let submit := prefix +:+ ":" +:+ name in
  if metric_type m =? METRIC_TYPE_COUNT then [bolo_counter_pdu now submit (metric_count m)]
  else match _median m with Ok d => [bolo_sample_pdu now submit [d]] | Fault _ => [] end.

Lemma median_Ok n m : metric_ok n m → n < 2 ^ 31 → ∃ d, _median m = Ok d.
Proof.
  intros (_ & _ & Hs & _) Hn. unfold _median. rewrite s32_id by (unfold is_s32; lia).
  repeat case_match; unfold mret, res_ret; eauto; unfold MAX_SAMPLES in *; lia.
Qed.

(** The tick submits every metric once and resets it. *)
Lemma tock_run n now r p mon :
  monitor_ok n mon → n < 2 ^ 31 →
  _monitor_reactor now r MTock p mon =
    Ok (MContinue, set_metrics (_reset <$> mon_metrics mon) mon,
        concat ((λ kv, submission now (mon_prefix mon) kv.1 kv.2) <$> for_each (mon_metrics mon))).
Proof using VL.
  intros Hmon Hn. unfold _monitor_reactor. mstep.
  erewrite (M_run_bind (for_each_m _ _)).
  2: { apply (for_each_m_walk _ _ (λ _ m, Some (_reset m)) (submission now (mon_prefix mon))
                mon_metrics set_metrics mon); [by intros []|done|done|].
       intros k m mon1 Hin. apply elem_of_for_each in Hin. pose proof (Hmon k m Hin) as Hm.
       destruct (median_Ok _ _ Hm Hn) as [d Hd]. destruct Hm as (Ht & _).
       unfold submit_metric, submission. rewrite Hd.
       destruct Ht as [-> | ->]; done. }
  unfold out_app, mret, M_ret. rewrite app_nil_r. do 4 f_equal.
  rewrite for_each_update. apply map_eq. intros k. rewrite map_lookup_imap, lookup_fmap.
  by destruct (mon_metrics mon !! k).
Qed.

Lemma monitor_reactor_ok now r s p mon n :
  monitor_ok n mon → 0 ≤ n < 2 ^ 31 - 1 → 0 ≤ r ≤ RAND_MAX →
  ∃ a mon' o, _monitor_reactor now r s p mon = Ok (a, mon', o) ∧ monitor_ok (n + 1) mon'.
Proof using VL.
  intros Hmon Hn Hr. assert (monitor_ok (n + 1) mon) as Hmon' by (eapply monitor_ok_mono; [|done]; lia).
  destruct s.
  - eexists _, _, _. split; [done|done].
  - eexists _, _, _. split; [apply (tock_run n); [done|lia]|].
    intros k m. cbn. rewrite lookup_fmap. intros (m0 & E & ->)%fmap_Some.
    apply metric_ok_reset; [lia|]. apply (Hmon k m0 E).
  - pose proof (wp_on_input n r p mon Hmon Hr Hn) as Hw. unfold wp in Hw.
    destruct (on_input r p mon) as [[[[] mon1] o]|] eqn:E; [|done].
    eexists _, mon1, _. split; [|done]. unfold _monitor_reactor. by rewrite (M_run_bind _ _ _ _ _ _ E).
  - eexists _, _, _. split; [done|done].
Qed.

(** C40: no message on any socket can make the monitor fault or break its
    metrics, whatever its frames and whatever [rand] answers, as long as
    fewer than 2^31 - 1 samples have come in since the last tick. *)
Theorem monitor_safe now r s p mon n :
  monitor_ok n mon → 0 ≤ n < 2 ^ 31 - 1 → 0 ≤ r ≤ RAND_MAX →
  ∃ a mon' o, _monitor_reactor now r s p mon = Ok (a, mon', o) ∧ monitor_ok (n + 1) mon'.
Proof using VL. apply monitor_reactor_ok. Qed.

(** *** Counting *)

(** What a message adds to the count [name]. *)
Definition count_incr (name : string) (p : pdu_t) : Z :=
  if streq (pdu_type p) "COUNT" && (2 <=? pdu_size p) && bool_decide (pdu_string p 1 = Some name) then
    let '(value, error) :=
      match pdu_string p 2 with Some text => strtoul_end text | None => (1, EmptyString) end in
    if streq error EmptyString then value else 0
  else 0.

(** The lookup answers an entry of the table, and adds only what is
    missing. *)
Lemma lookup_metric_run name type mon m mon' o :
  _metric (H := V) name type mon = Ok (m, mon', o) →
  mon_prefix mon' = mon_prefix mon ∧
  (∀ k x, mon_metrics mon !! k = Some x → mon_metrics mon' !! k = Some x) ∧
  (∀ x, m = Some x → mon_metrics mon' !! name = Some x ∧ metric_type x = type) ∧
  (m = None → ∀ x, mon_metrics mon !! name = Some x → metric_type x ≠ type).
Proof.
  unfold _metric. mstep. destruct (mon_metrics mon !! name) as [x|] eqn:E; mstep.
  - intros [= <- <- <-]. split_and!; [done|done| |].
    + intros y Hy. case_match; [|done]. injection Hy as <-. split; [done|by apply Z.eqb_eq].
    + intros Hy z [= <-]. case_match; [done|by apply Z.eqb_neq].
  - unfold put_metric. mstep. intros [= <- <- <-]. split_and!; [done| | |done].
    + intros k x Hk. cbn. rewrite lookup_insert_ne; [done|]. intros ->. congruence.
    + intros y Hy. case_match; [|done]. injection Hy as <-. cbn. rewrite lookup_insert_eq.
      split; [done|by apply Z.eqb_eq].
Qed.

Lemma add_count_0 m : is_u64 (metric_count m) → add_count m 0 = m.
Proof. destruct m. unfold add_count. cbn. intros. by rewrite Z.add_0_r, u64_id. Qed.

Lemma count_incr_other name p t : pdu_type p = t → t ≠ "COUNT" → count_incr name p = 0.
Proof. unfold count_incr. intros -> Hne. apply streq_neq in Hne. by rewrite Hne. Qed.

Lemma lookup_put_ne (mon : monitor_t) name k x m mon' o :
  k ≠ name → put_metric (H := V) k x mon = Ok ((), mon', o) → mon_metrics mon !! name = Some m →
  mon_metrics mon' !! name = Some m ∧ mon_prefix mon' = mon_prefix mon.
Proof. intros Hne [= <- <-] Hm. cbn. split; [|done]. by rewrite lookup_insert_ne. Qed.

Lemma M_bind_Ok {A B} (m : M monitor_t pdu_t A) (f : A → M monitor_t pdu_t B) s b s' o :
  (m ≫= f) s = Ok (b, s', o) → ∃ a s1 o1 o2, m s = Ok (a, s1, o1) ∧ f a s1 = Ok (b, s', o2).
Proof.
  unfold mbind, M_bind. destruct (m s) as [[[a s1] o1]|]; [|done].
  destruct (f a s1) as [[[b' s2] o2]|] eqn:E; [|done]. intros [= <- <- <-]. eauto 10.
Qed.

Lemma frame_Ok (p : pdu_t) i (mon mon' : monitor_t) (a : string) (o : list pdu_t) :
  lift (deref (pdu_string p i)) mon = Ok (a, mon', o) → mon' = mon ∧ pdu_string p i = Some a.
Proof. destruct (pdu_string p i); [|done]. by intros [= <- <- <-]. Qed.

(** Messages of the other types leave a count alone. *)
Lemma input_init_keeps name p mon mon' o m :
  mon_metrics mon !! name = Some m → input_init (H := V) p mon = Ok ((), mon', o) →
  mon_metrics mon' !! name = Some m ∧ mon_prefix mon' = mon_prefix mon.
Proof.
  intros Hm. unfold input_init. intros (ty & mon1 & ? & ? & E1 & E)%M_bind_Ok.
  apply frame_Ok in E1 as [-> _]. apply M_bind_Ok in E as (n' & mon2 & ? & ? & E2 & E).
  apply frame_Ok in E2 as [-> _].
  assert (∀ type o, (_metric (H := V) n' type ≫= λ _, mret ()) mon = Ok ((), mon', o) →
    mon_metrics mon' !! name = Some m ∧ mon_prefix mon' = mon_prefix mon) as Hgo.
  { intros type o' (r0 & mon3 & ? & ? & E3 & E4)%M_bind_Ok. injection E4 as <- <-.
    destruct (lookup_metric_run _ _ _ _ _ _ E3) as (? & Hk & _). auto. }
  repeat case_match; [by eapply Hgo..|]. by injection E as <- <-.
Qed.

Lemma input_sample_keeps name r p mon mon' o m :
  mon_metrics mon !! name = Some m → metric_type m = METRIC_TYPE_COUNT →
  input_sample (H := V) r p mon = Ok ((), mon', o) →
  mon_metrics mon' !! name = Some m ∧ mon_prefix mon' = mon_prefix mon.
Proof.
  intros Hm Ht. unfold input_sample. intros (k & mon1 & ? & ? & E1 & E)%M_bind_Ok.
  apply frame_Ok in E1 as [-> _]. apply M_bind_Ok in E as (text & mon2 & ? & ? & E2 & E).
  apply frame_Ok in E2 as [-> _]. destruct (strtod text) as [v err].
  destruct (streq err _); [|by injection E as <- <-].
  apply M_bind_Ok in E as (y & mon3 & ? & ? & E3 & E).
  destruct (lookup_metric_run _ _ _ _ _ _ E3) as (Hp & Hk & Hx & _). specialize (Hk _ _ Hm).
  destruct y as [y|]; [|injection E as <- <-; auto].
  destruct (Hx y eq_refl) as [Hx1 Hx2].
  apply M_bind_Ok in E as (y' & mon4 & ? & ? & E4 & E5).
  assert (mon4 = mon3) as -> by (unfold lift in E4; destruct (add_sample _ _ _); [by injection E4|done]).
  assert (k ≠ name) as Hne.
  { intros ->. rewrite Hk in Hx1. injection Hx1 as <-. rewrite Ht in Hx2. done. }
  destruct (lookup_put_ne _ _ _ _ _ _ _ Hne E5 Hk). split; congruence.
Qed.

Lemma input_count_adds name p mon mon' o m :
  mon_metrics mon !! name = Some m → metric_type m = METRIC_TYPE_COUNT → is_u64 (metric_count m) →
  pdu_type p = "COUNT" → 2 ≤ pdu_size p →
  input_count (H := V) p mon = Ok ((), mon', o) →
  mon_metrics mon' !! name = Some (add_count m (count_incr name p)) ∧ mon_prefix mon' = mon_prefix mon.
Proof.
  intros Hm Ht Hu Hty Hsz. unfold input_count, count_incr. rewrite Hty, streq_refl.
  assert ((2 <=? pdu_size p) = true) as -> by (by apply Z.leb_le). cbn [andb].
  intros (k & mon1 & ? & ? & E1 & E)%M_bind_Ok. apply frame_Ok in E1 as [-> Ek]. rewrite Ek.
  destruct (match pdu_string p 2 with Some text => _ | None => _ end) as [v err].
  destruct (streq err _) eqn:Eerr.
  2: { injection E as <- <-. split; [|done]. case_match; by rewrite add_count_0. }
  apply M_bind_Ok in E as (y & mon3 & ? & ? & E3 & E).
  destruct (lookup_metric_run _ _ _ _ _ _ E3) as (Hp & Hk & Hx & Hnone). specialize (Hk _ _ Hm).
  destruct (decide (k = name)) as [->|Hne].
  - rewrite bool_decide_true by done. destruct y as [y|]; [|by destruct (Hnone eq_refl m Hm)].
    destruct (Hx y eq_refl) as [Hx1 _]. rewrite Hk in Hx1. injection Hx1 as <-.
    injection E as <- <-. cbn. by rewrite lookup_insert_eq.
  - rewrite bool_decide_false by congruence. rewrite add_count_0 by done.
    destruct y as [y|]; [|injection E as <- <-; auto].
    destruct (lookup_put_ne _ _ _ _ _ _ _ Hne E Hk). split; congruence.
Qed.

(** One message adds its increment to the count, and nothing else does. *)
Lemma on_input_count name r p mon mon' o m :
  mon_metrics mon !! name = Some m → metric_type m = METRIC_TYPE_COUNT → is_u64 (metric_count m) →
  on_input r p mon = Ok ((), mon', o) →
  mon_metrics mon' !! name = Some (add_count m (count_incr name p)) ∧ mon_prefix mon' = mon_prefix mon.
Proof.
  intros Hm Ht Hu. unfold on_input.
  assert (∀ t, pdu_type p = t → t ≠ "COUNT" → add_count m (count_incr name p) = m) as H0.
  { intros t E Hne. by rewrite (count_incr_other name p t), add_count_0. }
  destruct (streq (pdu_type p) "INIT" && _) eqn:E1.
  { apply andb_prop in E1 as [E1%streq_eq _]. rewrite (H0 _ E1) by done. by apply input_init_keeps. }
  destruct (streq (pdu_type p) "SAMPLE" && _) eqn:E2.
  { apply andb_prop in E2 as [E2%streq_eq _]. rewrite (H0 _ E2) by done. by apply input_sample_keeps. }
  destruct (streq (pdu_type p) "COUNT" && _) eqn:E3.
  { apply andb_prop in E3 as [E3%streq_eq E4%Z.leb_le]. by apply input_count_adds. }
  intros [= <- <-]. split; [|done]. unfold count_incr. rewrite E3. cbn [andb].
  by rewrite add_count_0.
Qed.

Definition on_inputs (l : list (Z * pdu_t)) : M monitor_t pdu_t () :=
  for_each_m (λ rp, on_input rp.1 rp.2) l.

Definition total_incr (name : string) (l : list (Z * pdu_t)) : Z :=
  foldr (λ rp t, count_incr name rp.2 + t) 0 l.

Lemma on_inputs_count name l n mon m :
  monitor_ok n mon → 0 ≤ n → n + Z.of_nat (length l) < 2 ^ 31 →
  Forall (λ rp, 0 ≤ rp.1 ≤ RAND_MAX) l →
  mon_metrics mon !! name = Some m → metric_type m = METRIC_TYPE_COUNT →
  ∃ mon' o, on_inputs l mon = Ok ((), mon', o) ∧ monitor_ok (n + Z.of_nat (length l)) mon' ∧
    mon_metrics mon' !! name = Some (add_count m (total_incr name l)) ∧ mon_prefix mon' = mon_prefix mon.
Proof using VL.
  revert n mon m. induction l as [|[r p] l IH]; intros n mon m Hmon Hn Hlen Hl Hm Ht.
  - eexists mon, _. split_and!; [done| | |done].
    + by rewrite Z.add_0_r.
    + rewrite add_count_0; [done|]. apply (Hmon name m Hm).
  - apply Forall_cons in Hl as [Hr Hl]. cbn [length] in Hlen. cbn in Hr.
    pose proof (wp_on_input n r p mon Hmon Hr ltac:(lia)) as Hw. unfold wp in Hw.
    destruct (on_input r p mon) as [[[[] mon1] o1]|] eqn:E; [|done].
    destruct (on_input_count name r p mon mon1 o1 m Hm Ht (proj1 (proj2 (Hmon name m Hm))) E) as [Hm1 Hp1].
    destruct (IH (n + 1) mon1 _ Hw ltac:(lia) ltac:(lia) Hl Hm1 Ht) as (mon2 & o2 & E2 & Hok & Hm2 & Hp2).
    eexists mon2, _. split_and!.
    + unfold on_inputs. cbn [for_each_m]. rewrite (M_run_bind _ _ _ _ _ _ E).
      fold (on_inputs l). by rewrite E2.
    + eapply monitor_ok_mono; [|exact Hok]. cbn [length]. lia.
    + rewrite Hm2. unfold add_count. cbn [total_incr foldr fst snd metric_type metric_count metric_nsamples metric_samples].
      rewrite u64_add_idemp_l. fold (total_incr name l). by rewrite Z.add_assoc.
    + congruence.
Qed.

(** The counts of a sequence of messages, at the next tick. *)
Lemma counts_submitted now r p name l n mon m :
  monitor_ok n mon → 0 ≤ n → n + Z.of_nat (length l) < 2 ^ 31 →
  Forall (λ rp, 0 ≤ rp.1 ≤ RAND_MAX) l →
  mon_metrics mon !! name = Some m → metric_type m = METRIC_TYPE_COUNT →
  ∃ mon1 o1 mon2 o2 q,
    on_inputs l mon = Ok ((), mon1, o1) ∧
    _monitor_reactor now r MTock p mon1 = Ok (MContinue, mon2, o2) ∧ q ∈ o2 ∧
    pdu_frames q = ["COUNTER"; fmt_i now; mon_prefix mon +:+ ":" +:+ name;
                    fmt_u (metric_count m + total_incr name l)] ∧
    metric_count <$> mon_metrics mon2 !! name = Some 0.
Proof using VL.
  intros Hmon Hn Hlen Hl Hm Ht.
  destruct (on_inputs_count name l n mon m Hmon Hn Hlen Hl Hm Ht) as (mon1 & o1 & E1 & Hok & Hm1 & Hp).
  eexists mon1, o1, _, _, (bolo_counter_pdu now (mon_prefix mon1 +:+ ":" +:+ name)
                             (metric_count (add_count m (total_incr name l)))).
  split; [done|]. split; [by apply (tock_run _ _ _ _ _ Hok)|]. split_and!.
  - apply list_elem_of_In, in_concat. eexists. split.
    + apply list_elem_of_In, list_elem_of_fmap. eexists (name, _). split; [done|].
      by apply elem_of_for_each.
    + unfold submission. cbn [fst snd add_count metric_type]. rewrite Ht. by left.
  - unfold bolo_counter_pdu. rewrite frames_extend_all, frames_make, Hp. cbn [app add_count metric_count].
    unfold fmt_u, u32, u64.
    do 4 f_equal. f_equal. apply Z.mod_mod_divide. by exists (2 ^ 32).
  - cbn. by rewrite lookup_fmap, Hm1.
Qed.

(** Counts are conserved: after any sequence of messages the next tick
    submits, under the monitor's prefix, what the count was plus every
    increment that was sent to it (in the 32 bits of the message), and
    starts the count over at zero. *)
Theorem monitor_counts now r p name l n mon m :
  monitor_ok n mon → 0 ≤ n → n + Z.of_nat (length l) < 2 ^ 31 →
  Forall (λ rp, 0 ≤ rp.1 ≤ RAND_MAX) l →
  mon_metrics mon !! name = Some m → metric_type m = METRIC_TYPE_COUNT →
  ∃ mon1 o1 mon2 o2 q,
    on_inputs l mon = Ok ((), mon1, o1) ∧
    _monitor_reactor now r MTock p mon1 = Ok (MContinue, mon2, o2) ∧ q ∈ o2 ∧
    pdu_frames q = ["COUNTER"; fmt_i now; mon_prefix mon +:+ ":" +:+ name;
                    fmt_u (metric_count m + total_incr name l)] ∧
    metric_count <$> mon_metrics mon2 !! name = Some 0.
Proof using VL. apply counts_submitted. Qed.
End monitor_facts.

(** *** Witnesses *)

Module SubExample.
Definition p : @pdu_t ref_vigor := ("TOCK", []).
Definition count (n : string) : Z * @pdu_t ref_vigor := (0, ("COUNT", ["pdus"; n])).
Definition mon : monitor_t := mk_monitor "sub" (<["pdus" := new_metric METRIC_TYPE_COUNT]> ∅).
End SubExample.

Lemma example_monitor_ok : monitor_ok 0 SubExample.mon.
Proof.
  unfold monitor_ok. cbn. apply map_Forall_insert_2; [|apply map_Forall_empty].
  apply metric_ok_reset; [lia|by left].
Qed.

Lemma monitor_safe_witness :
  ∃ a mon' o, _monitor_reactor (H := ref_vigor) 1000 RAND_MAX MInput ("SAMPLE", ["x"; "1.5"]) SubExample.mon
              = Ok (a, mon', o) ∧ monitor_ok (0 + 1) mon'.
Proof.
  apply (monitor_safe (VL := ref_vigor_laws) 1000 RAND_MAX MInput ("SAMPLE", ["x"; "1.5"]) SubExample.mon 0).
  - exact example_monitor_ok.
  - lia.
  - unfold RAND_MAX. lia.
Defined.

Lemma monitor_counts_witness :
  ∃ mon1 o1 mon2 o2 q,
    on_inputs (V := ref_vigor) [SubExample.count "2"; SubExample.count "40"] SubExample.mon = Ok ((), mon1, o1) ∧
    _monitor_reactor (H := ref_vigor) 1000 0 MTock SubExample.p mon1 = Ok (MContinue, mon2, o2) ∧ q ∈ o2 ∧
    pdu_frames q = ["COUNTER"; "1000"; "sub:pdus"; "42"] ∧
    metric_count <$> mon_metrics mon2 !! "pdus" = Some 0.
Proof.
  apply (monitor_counts (VL := ref_vigor_laws) 1000 0 SubExample.p "pdus"
           [SubExample.count "2"; SubExample.count "40"] 0 SubExample.mon (new_metric METRIC_TYPE_COUNT)).
  - exact example_monitor_ok.
  - lia.
  - cbn. lia.
  - repeat constructor; unfold RAND_MAX; cbn; lia.
  - reflexivity.
  - reflexivity.
Defined.
