(* ===== verification/Startup.v ===== *)
(** * Starting the aggregator: src/core.c and src/bolo/cmd_aggregator.c

    The server as it is before configuration, the start of the kernel (which
    restores the saved state and the keys, and binds its sockets), the
    scheduler that makes it tick and the supervisor that stops it.  The
    answers of the 0MQ and thread libraries are arguments. *)

From S2P Require Import Prelude CLib Vigor Bytes Data Binf Core Config.
From Stdlib Require Import Ascii.

(** ** Defaults *)

Definition DEFAULT_LISTENER : string := "tcp://*:2999".
Definition DEFAULT_CONTROLLER : string := "tcp://127.0.0.1:2998".
Definition DEFAULT_BROADCAST : string := "tcp://*:2997".
Definition DEFAULT_LOG_LEVEL : string := "error".
Definition DEFAULT_LOG_FACILITY : string := "daemon".
Definition DEFAULT_RUNAS_USER : string := "bolo".
Definition DEFAULT_RUNAS_GROUP : string := "bolo".
Definition DEFAULT_PIDFILE : string := "/var/run/bolo.pid".
Definition DEFAULT_SAVEFILE : string := "/var/lib/bolo/save.db".
Definition DEFAULT_KEYSFILE : string := "/var/lib/bolo/keys.db".
Definition DEFAULT_GRACE_PERIOD : Z := 15.
Definition DEFAULT_SWEEP : Z := 60.
Definition DEFAULT_SAVE_SIZE : Z := 4.
Definition DEFAULT_SAVE_INTERVAL : Z := 15.

(** ** Return codes

    A sequence of calls, each followed by [if (rc != 0) return rc;]. *)
Fixpoint first_error (rcs : list Z) : Z :=
  match rcs with
  | [] => 0
  | rc :: rcs' => if rc =? 0 then first_error rcs' else rc
  end.

(** [core_connect_scheduler] and [core_connect_supervisor]: whether the
    socket could be created, and the answers of [zmq_connect] and
    [zmq_setsockopt]. *)
Definition core_connect (socket : bool) (connect setsockopt : Z) : Z :=
  if socket then first_error [connect; setsockopt] else -1.

(** A socket that is bound when its endpoint is configured. *)
Definition bind_endpoint (endpoint : option string) (socket : bool) (bind : Z) : Z :=
  match endpoint with None => 0 | Some _ => if socket then bind else -1 end.

(** The answers of the libraries during [core_kernel_thread]. *)
Record wiring := mk_wiring {
  w_control : bool * Z * Z;
  w_tock : bool * Z * Z;
  w_listener : bool * Z;
  w_broadcast : bool * Z;
  w_beacon : bool * Z;
  w_management : bool * Z;
  w_reactor : bool;               (* reactor_new *)
  w_set_control : Z;              (* reactor_set *)
  w_set_tock : Z;
  w_set_listener : Z;
  w_set_management : Z;
  w_pthread : Z;                  (* pthread_create *)
}.

Section startup.
Context `{Vigor} `{Pcre}.

Definition default_config : config_t :=
  mk_config (Some DEFAULT_LISTENER) (Some DEFAULT_CONTROLLER) (Some DEFAULT_BROADCAST) None 0
    (Some DEFAULT_LOG_LEVEL) (Some DEFAULT_LOG_FACILITY) (Some DEFAULT_PIDFILE)
    (Some DEFAULT_RUNAS_USER) (Some DEFAULT_RUNAS_GROUP) (Some DEFAULT_SAVEFILE) (Some DEFAULT_KEYSFILE)
    DEFAULT_SAVE_SIZE 0 0 0 DEFAULT_GRACE_PERIOD.

(** The memory of [vmalloc] is zero. *)
Definition default_server : server_t :=
  mk_server _ (mk_db _ ∅ ∅ ∅ ∅ [] 0 [] [] [] [] ∅ ∅ []) ∅ default_config
    (mk_interval 1000 2 DEFAULT_SWEEP DEFAULT_SAVE_INTERVAL).

(** ** The kernel *)

Definition is_set (x : option string) : bool := match x with Some _ => true | None => false end.

Definition wire (w : wiring) (c : config_t) : Z :=
  let '(s1, c1, o1) := w_control w in
  let '(s2, c2, o2) := w_tock w in
  first_error
    [core_connect s1 c1 o1; core_connect s2 c2 o2;
     bind_endpoint (cfg_listener c) (w_listener w).1 (w_listener w).2;
     bind_endpoint (cfg_broadcast c) (w_broadcast w).1 (w_broadcast w).2;
     bind_endpoint (cfg_beacon c) (w_beacon w).1 (w_beacon w).2;
     bind_endpoint (cfg_controller c) (w_management w).1 (w_management w).2;
     if w_reactor w then 0 else -1;
     w_set_control w; w_set_tock w;
     if is_set (cfg_listener c) then w_set_listener w else 0;
     if is_set (cfg_controller c) then w_set_management w else 0;
     w_pthread w].

(** The kernel as the reactor finds it: the freshness and tick timers have
    no interval, and every timer last fired at time 0. *)
Definition new_kernel (s : server_t) : kernel_t :=
  mk_kernel _ s (is_set (cfg_beacon (srv_config s))) (mk_timer 0 0)
    (mk_timer 0 (s16 (int_savestate (srv_interval s)))) (mk_timer 0 0)
    (mk_timer 0 (s16 (int_sweep (srv_interval s)))).

(** [savefile] and [keysfile] are what is found at the configured paths.  A
    file that cannot be read is reported and skipped. *)
Definition core_kernel_thread (now : Z) (savefile : option file) (keysfile : option string)
    (w : wiring) (s : server_t) : res (Z * kernel_t) :=
  db ← (match cfg_savefile (srv_config s) with
        | Some _ => r ← binf_read now (srv_db s) savefile (cfg_save_size (srv_config s)); mret r.2
        | None => mret (srv_db s)
        end);
  keys ← (match cfg_keysfile (srv_config s) with
          | Some _ => r ← read_keys (srv_keys s) keysfile; mret r.2
          | None => mret (srv_keys s)
          end);
  let s := mk_server _ db keys (srv_config s) (srv_interval s) in
  mret (wire w (srv_config s), new_kernel s).

(** From the configuration file to the running kernel: the exit code when
    one of the two fails, [None] while the configuration is being read. *)
Definition boot (fuel : nat) (now : Z) (conf : option string) (savefile : option file)
    (keysfile : option string) (w : wiring) : res (option (Z + kernel_t)) :=
  match configure fuel now conf default_server with
  | (None, _) => mret None
  | (Some rc, s) =>
      if negb (rc =? 0) then mret (Some (inl 1))
      else
        '(rc, k) ← core_kernel_thread now savefile keysfile w s;
        mret (Some (if negb (rc =? 0) then inl 2 else inr k))
  end.

(** ** The scheduler and the supervisor *)

(** What [zmq_poll] answers: an error, a timeout, or a message. *)
Inductive polled := PollError | PollTimeout | PollMessage (p : pdu_t).

(** The ticks sent, and whether the thread has ended. *)
Fixpoint _scheduler_thread (polls : list polled) : list pdu_t * bool :=
  match polls with
  | [] => ([], false)
  | PollError :: _ => ([], true)
  | PollTimeout :: ps => let '(o, e) := _scheduler_thread ps in (pdu_make "TOCK" [] :: o, e)
  | PollMessage p :: ps => if streq (pdu_type p) "TERMINATE" then ([], true) else _scheduler_thread ps
  end.

Definition SIGINT : Z := 2.
Definition SIGTERM : Z := 15.

(** The answers of [sigwait], a return code and a signal. *)
Fixpoint supervise (waits : list (Z * Z)) : option (list pdu_t) :=
  match waits with
  | [] => None
  | (rc, sig) :: ws =>
      let sig := if rc =? 0 then sig else SIGTERM in
      if (sig =? SIGTERM) || (sig =? SIGINT) then Some [pdu_make "TERMINATE" []] else supervise ws
  end.

(** The return code and what was sent, [None] while no signal has come. *)
Definition core_supervisor (socket : bool) (bind : Z) (waits : list (Z * Z)) : option (Z * list pdu_t) :=
  if negb socket then Some (-1, [])
  else if negb (bind =? 0) then Some (bind, [])
  else match supervise waits with Some o => Some (0, o) | None => None end.
End startup.
