(* ===== verification/StartupFacts.v ===== *)
(** * From the command line to a safe kernel

    Restoring a saved state keeps the database well-formed whatever is in
    the file, so a kernel that has been started from an accepted
    configuration is safe in every state it reaches. *)

From S2P Require Import Prelude CLib Vigor Bytes Data DataFacts Binf BinfFacts Core CoreFacts Windowed Reactor ReactorFacts KernelFacts Safety Config LexFacts ConfigFacts Startup.
From Stdlib Require Import Ascii.

(** ** What the reader finds is within the types of the fields *)

Definition saved_ok (r : saved) : Prop :=
  match r with
  | SState _ _ l st sl ig => is_s32 l ∧ is_u8 st ∧ is_u8 sl ∧ is_u8 ig
  | SCounter _ l v ig => is_s32 l ∧ is_u64 v ∧ is_u8 ig
  | SSample _ l n _ ig => is_s32 l ∧ is_u64 n ∧ is_u8 ig
  | SEvent t _ _ => is_s32 t
  | SRate _ f l a b ig => is_s32 f ∧ is_s32 l ∧ is_u64 a ∧ is_u64 b ∧ is_u8 ig
  end.

Lemma field_u8 l off : is_u8 (field l off 1).
Proof.
  unfold field, is_u8. pose proof (le_value_range (take 1 (drop off l))) as Hr.
  assert (length (take 1 (drop off l)) ≤ 1)%nat by (rewrite length_take; lia).
  destruct (length _) as [|[|?]]; cbn in Hr; lia.
Qed.

Lemma ntohll_u64 x : is_u64 (ntohll x).
Proof.
  assert (∀ z, 0 ≤ ntohl z < 2 ^ 32) as Hn.
  { intros z. unfold ntohl, bswap. pose proof (le_value_range (reverse (le_bytes 4 z))) as Hr.
    rewrite length_reverse, length_le_bytes in Hr. exact Hr. }
  unfold ntohll, is_u64. pose proof (Hn (u32 (x / 2 ^ 32))). pose proof (Hn (u32 x)). lia.
Qed.

#[export] Hint Resolve field_u8 ntohll_u64 s32_range : wf.

Lemma s_read_record_ok f lim off r off' :
  s_read_record f lim off = Ok (Some (r, off')) → saved_ok r.
Proof.
  unfold s_read_record. intros (hd & _ & E)%bind_Ok.
  repeat match type of E with
  | (if ?b then _ else _) = _ => destruct b
  | mret _ = _ => injection E as <- <-
  | (_ ≫= _) = _ => apply bind_Ok in E as (? & _ & E)
  | (let '(_, _) := ?x in _) = _ => destruct x
  end; try done; cbn [saved_ok]; auto 10 using conj with wf.
Qed.

Section startup_facts.
Context `{VL : VigorLaws} `{Pcre}.

(** ** Restoring keeps the database well-formed *)

Lemma merge_record_wf now d r : wf_db d → saved_ok r → wf_db (merge_record now d r).
Proof using VL.
  intros Hd Hr. destruct r; cbn [merge_record saved_ok] in *.
  - destruct (find_state now d name) as [x d'] eqn:E. destruct (find_state_wf _ _ _ _ _ Hd E) as [Hd' Hx].
    destruct x as [x|]; [|done]. apply wf_put_state; [done|]. specialize (Hx x eq_refl).
    wf_unfold. cbn. tauto.
  - destruct (find_counter d name) as [x d'] eqn:E. destruct (find_counter_wf _ _ _ _ Hd E) as [Hd' Hx].
    destruct x as [x|]; [|done]. apply wf_put_counter; [done|]. specialize (Hx x eq_refl).
    wf_unfold. cbn. tauto.
  - destruct (find_sample d name) as [x d'] eqn:E. destruct (find_sample_wf _ _ _ _ Hd E) as [Hd' Hx].
    destruct x as [x|]; [|done].
    destruct ds as [|d1 [|d2 [|d3 [|d4 [|d5 [|d6 [|d7 [|? ?]]]]]]]]; try done.
    apply wf_put_sample; [done|]. specialize (Hx x eq_refl). wf_unfold. cbn. tauto.
  - apply wf_set_events; [done|]. rewrite list_push_app, length_app. pose proof (wf_events _ Hd). lia.
  - destruct (find_rate d name) as [x d'] eqn:E. destruct (find_rate_wf _ _ _ _ Hd E) as [Hd' Hx].
    destruct x as [x|]; [|done]. apply wf_put_rate; [done|]. specialize (Hx x eq_refl).
    wf_unfold. cbn. tauto.
Qed.

Lemma read_records_wf f lim now count off d r :
  wf_db d → read_records f lim now count off d = Ok r →
  match r with inl d' => wf_db d' | inr (d', _) => wf_db d' end.
Proof using VL.
  revert off d. induction count as [|c IH]; intros off d Hd E; cbn [read_records] in E.
  - by injection E as <-.
  - apply bind_Ok in E as ([[rec off']|] & E1 & E); [|by injection E as <-].
    eapply IH; [|exact E]. apply merge_record_wf; [done|]. by eapply s_read_record_ok.
Qed.

Lemma binf_read_wf now d f size rc d' :
  wf_db d → binf_read now d f size = Ok (rc, d') → wf_db d'.
Proof using VL.
  intros Hd. unfold binf_read. destruct f as [f|]; [|by intros [= <- <-]].
  intros (h & _ & E)%bind_Ok. destruct (negb _); [by injection E as <- <-|].
  destruct (negb _); [by injection E as <- <-|]. apply bind_Ok in E as (r & E1 & E).
  pose proof (read_records_wf _ _ _ _ _ _ _ Hd E1) as Hr. destruct r as [d1|[d1 off]].
  - by injection E as <- <-.
  - apply bind_Ok in E as (t & _ & E). destruct (bool_decide _); by injection E as <- <-.
Qed.

Lemma core_kernel_thread_wf now sf kf w s rc k :
  wf_db (srv_db s) → core_kernel_thread now sf kf w s = Ok (rc, k) → wf_kernel k.
Proof using VL.
  intros Hs. unfold core_kernel_thread. intros (d & E1 & (keys & _ & E)%bind_Ok)%bind_Ok.
  injection E as <- <-. unfold wf_kernel. cbn.
  destruct (cfg_savefile _); [|by injection E1 as <-].
  apply bind_Ok in E1 as ([rc' d1] & E1 & [= <-]). by eapply binf_read_wf.
Qed.

Lemma boot_wf fuel now conf sf kf w k :
  boot fuel now conf sf kf w = Ok (Some (inr k)) →
  (∀ s, configure fuel now conf default_server = (Some 0, s) → positive_windows (srv_db s)) →
  wf_kernel k.
Proof using VL.
  intros E Hw. unfold boot in E. destruct (configure _ _ _ _) as [[rc|] s] eqn:Ec; [|done].
  destruct (Z.eqb_spec rc 0) as [->|]; [|done]. cbn [negb] in E.
  apply bind_Ok in E as ([rc' k'] & E1 & E). destruct (negb _); [done|]. injection E as <-.
  eapply core_kernel_thread_wf; [|exact E1].
  apply (built_wf now); [|by apply Hw]. eapply configure_built; [exact Ec|]. done.
Qed.

(** An aggregator that has started is safe: every state its kernel reaches
    satisfies the invariant, and no benign message makes it fault. *)
Lemma booted_safe fuel now conf sf kf w k o k' :
  boot fuel now conf sf kf w = Ok (Some (inr k)) →
  (∀ s, configure fuel now conf default_server = (Some 0, s) → positive_windows (srv_db s)) →
  kernel_run k o k' →
  wf_kernel k' ∧
  ∀ e s p, benign e s p k' → ∃ r k'' o', _kernel_reactor e s p k' = Ok (r, k'', o').
Proof using VL.
  intros E Hw Hrun. assert (wf_kernel k') as Hk'.
  { eapply kernel_run_wf; [by eapply boot_wf|done]. }
  split; [done|]. intros e s p Hb. pose proof (wp_reactor False e s p k' (or_intror Hb) Hk') as Hwp.
  unfold wp in Hwp. destruct (_kernel_reactor e s p k') as [[[r k2] o']|]; [eauto|done].
Qed.

(** ** Ticking and stopping *)

Definition is_timeout (p : polled) : bool := match p with PollTimeout => true | _ => false end.
Definition ends (p : polled) : bool :=
  match p with PollError => true | PollTimeout => false | PollMessage m => streq (pdu_type m) "TERMINATE" end.

(** The scheduler ticks once per timeout until the first error or request to
    terminate, and ends there. *)
Lemma scheduler_ticks before p after :
  forallb (λ q, negb (ends q)) before = true → ends p = true →
  _scheduler_thread (before ++ p :: after)
  = (replicate (length (filter is_timeout before)) (pdu_make "TOCK" []), true).
Proof.
  intros Hb Hp. induction before as [|q before IH]; cbn [app _scheduler_thread].
  - destruct p; cbn in *; [done|done|by rewrite Hp].
  - cbn [forallb] in Hb. apply andb_prop in Hb as [Hq Hb]. rewrite IH by done.
    destruct q as [| |m]; [done| |].
    + by rewrite filter_cons_True.
    + rewrite filter_cons_False by (by intros []). cbn in Hq. by destruct (streq _ _).
Qed.

(** A signal to stop reaches both threads: what the supervisor sends ends the
    scheduler and halts the kernel. *)
Lemma shutdown waits o p e k :
  core_supervisor true 0 waits = Some (0, o) → p ∈ o →
  ends (PollMessage p) = true ∧ _kernel_reactor e Control p k = Ok (Halt, k, []).
Proof using VL.
  unfold core_supervisor. cbn. destruct (supervise waits) as [o'|] eqn:E; [|done]. intros [= <-] Hp.
  split; [|done]. assert (o' = [pdu_make "TERMINATE" []]) as ->.
  { revert E. induction waits as [|[rc sig] ws IH]; [done|]. cbn. destruct (_ || _); [by intros [= <-]|done]. }
  apply list_elem_of_singleton in Hp as ->. cbn.
  by rewrite (pdu_type_of _ "TERMINATE" []) by apply frames_make.
Qed.
End startup_facts.

(** ** A witness *)

Module BootExample.
(** Every call of the libraries succeeds. *)
Definition wired : wiring :=
  mk_wiring (true, 0, 0) (true, 0, 0) (true, 0) (true, 0) (true, 0) (true, 0) true 0 0 0 0 0.
Definition conf : string :=
  CfgExample.lines ["type :local { }"; "window @m 60"; "state :local host.disk"; "counter @m host.logins"].
Abbreviation configured := (configure (H := ref_vigor) (H0 := ref_pcre) 60 1000 (Some conf) (default_server (H0 := ref_pcre))).
Abbreviation booted := (boot (H := ref_vigor) (H0 := ref_pcre) 60 1000 (Some conf) None None wired).
Definition kernel : kernel_t (H := ref_pcre) := new_kernel (H0 := ref_pcre) configured.2.
End BootExample.

Lemma example_positive :
  positive_windows (H := ref_pcre) (srv_db BootExample.configured.2).
Proof. apply (bool_decide_unpack _). by vm_compute. Qed.

Lemma example_booted : BootExample.booted = Ok (Some (inr BootExample.kernel)).
Proof. vm_compute. reflexivity. Qed.
