(* ===== verification/Dump.v ===== *)
(** * The aggregator's command: src/bolo/cmd_aggregator.c

    The options, the dump of the configuration ([bolo aggr -D]) and the way
    from the command line to the running threads. *)

From S2P Require Import Prelude CLib Vigor Bytes Data Binf Core Config Startup.
From Stdlib Require Import Ascii.

Definition DEFAULT_CONFIG_FILE : string := "/etc/bolo.conf".

Record aggr_options := mk_aggr_options {
  ao_config_file : string;
  ao_foreground : bool;
  ao_dump_config : bool;
}.

(** The options as [getopt_long] returns them: a letter and its argument.  A
    letter that ends the command gives the exit code. *)
Fixpoint aggr_getopt (opts : list (ascii * string)) (o : aggr_options) : aggr_options + Z :=
  match opts with
  | [] => inl o
  | (c, arg) :: opts' =>
      if ascii_dec c "h" then inr 0
      else if ascii_dec c "?" then inr 0
      else if ascii_dec c "V" then inr 0
      else if ascii_dec c "F" then aggr_getopt opts' (mk_aggr_options (ao_config_file o) true (ao_dump_config o))
      else if ascii_dec c "c" then aggr_getopt opts' (mk_aggr_options arg (ao_foreground o) (ao_dump_config o))
      else if ascii_dec c "D" then aggr_getopt opts' (mk_aggr_options (ao_config_file o) true true)
      else inr 1
  end.

(** [%s] of a null pointer. *)
Definition or_null (x : option string) : string := default "(null)" x.

Section dump.
Context `{Vigor} `{Pcre}.

Definition dump_max_events (c : config_t) : string :=
  if cfg_events_keep c =? EVENTS_KEEP_NUMBER then fmt_u (cfg_events_max c)
  else fmt_u (Z.quot (cfg_events_max c) 60) +:+ "m".

Definition dump_settings (file : string) (c : config_t) : string :=
  "# bolo configuration" +:+ nl +:+ "# (from " +:+ file +:+ ")" +:+ nl +:+ nl +:+
  "listener    " +:+ or_null (cfg_listener c) +:+ nl +:+
  "controller  " +:+ or_null (cfg_controller c) +:+ nl +:+
  "broadcast   " +:+ or_null (cfg_broadcast c) +:+ nl +:+ nl +:+
  "user        " +:+ or_null (cfg_runas_user c) +:+ nl +:+
  "group       " +:+ or_null (cfg_runas_group c) +:+ nl +:+
  "pidfile     " +:+ or_null (cfg_pidfile c) +:+ nl +:+ nl +:+
  "savefile    " +:+ or_null (cfg_savefile c) +:+ nl +:+
  "keysfile    " +:+ or_null (cfg_keysfile c) +:+ nl +:+
  "max.events  " +:+ dump_max_events c +:+ nl +:+ nl +:+
  "grace.period " +:+ fmt_u (cfg_grace_period c) +:+ nl +:+
  "log " +:+ or_null (cfg_log_level c) +:+ " " +:+ or_null (cfg_log_facility c) +:+ nl +:+ nl.

Definition dump_severity (status : Z) : string :=
  if status =? WARNING then "warning" else if status =? CRITICAL then "critical" else "unknown".

Definition dump_type (kt : string * type_t) : string :=
  let '(k, t) := kt in
  "type " +:+ k +:+ " {" +:+ nl +:+
  "    freshness " +:+ fmt_u (type_freshness t) +:+ nl +:+
  "    " +:+ pad_right 9 (dump_severity (type_status t)) +:+ " " +:+ str1 QUOTE +:+ or_null (type_summary t)
    +:+ str1 QUOTE +:+ nl +:+
  "}" +:+ nl +:+ nl.

Definition dump_state (ks : string * state_t) : string :=
  "state " +:+ type_name (state_type ks.2) +:+ " " +:+ state_name ks.2 +:+ nl.

Definition dump_window (kw : string * window_t) : string :=
  "window " +:+ kw.1 +:+ " " +:+ fmt_u (window_time kw.2) +:+ nl.

(** The window of a counter, sample or rate: its name, or its time when it
    has none. *)
Definition dump_entry_of (what : string) (w : window_t) (name : string) : string :=
  what +:+ " " +:+ match window_name w with Some n => n | None => fmt_u (window_time w) end
    +:+ " " +:+ name +:+ nl.

(** A group of lines, with a blank line behind it when it has any. *)
Definition dump_group {A} (f : A → string) (l : list A) : string :=
  String.concat "" (f <$> l) +:+ match l with [] => "" | _ => nl end.

Definition dump_config (file : string) (s : server_t) : string :=
  let d := srv_db s in
  dump_settings file (srv_config s) +:+
  String.concat "" (dump_type <$> for_each (types d)) +:+
  dump_group dump_state (for_each (states d)) +:+
  dump_group dump_window (for_each (windows d)) +:+
  dump_group (λ kc, dump_entry_of "counter" (counter_window kc.2) (counter_name kc.2)) (for_each (counters d)) +:+
  dump_group (λ ks, dump_entry_of "sample" (sample_window ks.2) (sample_name ks.2)) (for_each (samples d)) +:+
  String.concat "" ((λ kr, dump_entry_of "rate" (rate_window kr.2) (rate_name kr.2)) <$> for_each (rates d)).

(** ** The command *)

(** What the operating system and 0MQ answer: the context, [daemonize],
    [pthread_sigmask], the sockets of the kernel, the start of the scheduler,
    and the supervisor. *)
Record aggr_env := mk_aggr_env {
  ae_context : bool;
  ae_daemonize : Z;
  ae_sigmask : Z;
  ae_wiring : wiring;
  ae_scheduler : Z;
  ae_supervisor : option (Z * list pdu_t);
}.

(** How the command ends: with an exit code and the dump, if it has printed
    one (the texts of help and version are not represented); while the
    configuration is read; or with the kernel it has started and what the
    supervisor returns. *)
Inductive aggr_end :=
| AggrExit (rc : Z) (stdout : string)
| AggrReading
| AggrRan (k : kernel_t) (rc : option Z).

(** [files path] is the content of the file at a path. *)
Definition cmd_aggregator (fuel : nat) (now : Z) (opts : list (ascii * string)) (files : string → option string)
    (savefile : option file) (e : aggr_env) : res aggr_end :=
  match aggr_getopt opts (mk_aggr_options DEFAULT_CONFIG_FILE false false) with
  | inr rc => mret (AggrExit rc "")
  | inl o =>
      match configure fuel now (files (ao_config_file o)) default_server with
      | (None, _) => mret AggrReading
      | (Some rc, s) =>
          if negb (rc =? 0) then mret (AggrExit 1 "")
          else if ao_dump_config o then mret (AggrExit 0 (dump_config (ao_config_file o) s))
          else if negb (ae_context e) then mret (AggrExit 2 "")
          else if negb (ao_foreground o) && negb (ae_daemonize e =? 0) then mret (AggrExit 2 "")
          else if negb (ae_sigmask e =? 0) then mret (AggrExit 2 "")
          else
            '(rc, k) ← core_kernel_thread now savefile (cfg_keysfile (srv_config s) ≫= files) (ae_wiring e) s;
            if negb (rc =? 0) then mret (AggrExit 2 "")
            else if negb (ae_scheduler e =? 0) then mret (AggrExit 2 "")
            else mret (AggrRan k (fst <$> ae_supervisor e))
      end
  end.
End dump.
