(* ===== verification/PrintFacts.v ===== *)
(** * Reading back what is printed

    The lexer of src/config.c as an inverse of printing: lines of words with
    blanks between them are read back word by word, although numbers are not
    terminated in the memory for values.  Then the interpreter on such words:
    a file of directives does again what each of them says. *)

From S2P Require Import Prelude CLib Vigor Bytes Data Binf Core CoreFacts Config LexFacts ConfigFacts Startup Dump.
From Stdlib Require Import Ascii.

(** ** Words *)

Inductive word :=
| WKey (s : string) (t : token)
| WStr (s : string)
| WType (s : string)            (* :name *)
| WWin (s : string)             (* @name *)
| WNum (n : Z)
| WTime (n : Z)                 (* in minutes *)
| WOpen
| WClose
| WQuoted (s : string).

Definition word_text (w : word) : string :=
  match w with
  | WKey s _ | WStr s | WType s | WWin s => s
  | WNum n => dec n
  | WTime n => dec n +:+ "m"
  | WOpen => "{"
  | WClose => "}"
  | WQuoted s => str1 QUOTE +:+ s +:+ str1 QUOTE
  end.

Definition word_token (w : word) : token :=
  match w with
  | WKey _ t => t
  | WStr _ | WQuoted _ => T_STRING
  | WType _ => T_TYPENAME
  | WWin _ => T_WINDOWNAME
  | WNum _ => T_NUMBER
  | WTime _ => T_TIME
  | WOpen => T_OPEN_BRACE
  | WClose => T_CLOSE_BRACE
  end.

(** An unquoted word: it begins with a letter or a slash and is not taken for
    a pattern. *)
Definition plain_word (s : string) : bool :=
  ((isalnum (head_char s) && negb (isdigit (head_char s))) || Ascii.eqb (head_char s) "/") && str_all word_char s
  && negb (Ascii.eqb (head_char s) "m" && Ascii.eqb (head_char (tail_str s)) "/").

Definition sigil_word (c : ascii) (s : string) : bool :=
  Ascii.eqb (head_char s) c && str_all name_char (tail_str s).

Definition quotable (c : ascii) : bool :=
  not_nul c && negb (Ascii.eqb c QUOTE) && negb (Ascii.eqb c BACKSLASH)
  && negb (Ascii.eqb c CR) && negb (Ascii.eqb c LF).

Definition word_ok (w : word) : bool :=
  match w with
  | WKey s t => plain_word s && bool_decide (keyword keyword_table s = Some t)
  | WStr s => plain_word s && bool_decide (keyword keyword_table s = None)
  | WType s => sigil_word ":" s
  | WWin s => sigil_word "@" s
  | WNum n => 0 <=? n
  | WTime n => (0 <=? n) && (n * 60 <? 2 ^ 31)
  | WOpen | WClose => true
  | WQuoted s => str_all quotable s
  end.

(** The memory at [p->value] after the word: a number is not terminated. *)
Definition value_start (v : string) : string := match v with EmptyString => EmptyString | String _ r => String NUL r end.
Definition value_after (v : string) (w : word) : string :=
  let v := value_start v in
  match w with
  | WKey _ _ | WOpen | WClose => v
  | WStr s | WType s | WWin s | WQuoted s => overwrite (s +:+ str1 NUL) v
  | WNum n => overwrite (dec n) v
  | WTime n => overwrite (dec (n * 60) +:+ str1 NUL) v
  end.

(** ** One word *)

(** Case analysis on a character. *)
Ltac all_chars c := destruct c as [[] [] [] [] [] [] [] []]; vm_compute; try done.

Lemma space_char c :
  isspace c = true →
  not_nul c = true ∧ word_char c = false ∧ name_char c = false ∧ isdigit c = false ∧
  Ascii.eqb c "/" = false ∧ Ascii.eqb c "m" = false.
Proof. all_chars c. Qed.

Lemma word_start c :
  (isalnum c && negb (isdigit c)) || Ascii.eqb c "/" = true →
  isspace c = false ∧ Ascii.eqb c "{" = false ∧ Ascii.eqb c "}" = false ∧ isdigit c = false ∧
  isalnum c || Ascii.eqb c "/" = true ∧ Ascii.eqb c "#" = false ∧ not_nul c = true.
Proof. all_chars c. Qed.

Lemma word_not_nul c : word_char c = true → not_nul c = true.
Proof. all_chars c. Qed.

Lemma digit_start c :
  isdigit c = true →
  isspace c = false ∧ Ascii.eqb c "{" = false ∧ Ascii.eqb c "}" = false ∧ Ascii.eqb c "#" = false ∧ not_nul c = true.
Proof. all_chars c. Qed.

Lemma upto_app a b : upto (a +:+ b) b = a.
Proof.
  unfold upto. rewrite str_length_app. replace (_ + _ - _)%nat with (String.length a) by lia. apply take_str_app.
Qed.

Lemma skip_while_rest q s t :
  q (head_char t) = false ∨ t = EmptyString → skip_while q (s +:+ t) = skip_while q s +:+ t.
Proof.
  intros Ht. induction s as [|c s IH]; cbn [skip_while].
  - rewrite str_app_nil_l. destruct Ht as [Ht| ->]; [by apply skip_while_head|done].
  - rewrite str_app_cons. cbn [skip_while]. by destruct (q c); [apply IH|rewrite str_app_cons].
Qed.

(** The memory behind the string. *)
Lemma skip_while_end q s : q (head_char (skip_while q s)) = false ∨ skip_while q s = EmptyString.
Proof. induction s as [|c s IH]; [by right|]. cbn [skip_while]. destruct (q c) eqn:E; [done|by left]. Qed.

Lemma str_all_skip q r s : str_all q s = true → str_all q (skip_while r s) = true.
Proof.
  induction s as [|c s IH]; [done|]. cbn [skip_while]. intros Hs. destruct (r c); [|done].
  apply IH. cbn [str_all] in Hs. by apply andb_prop in Hs as [_ Hs].
Qed.

Lemma cstr_skip rest junk :
  str_all not_nul rest = true → not_nul (head_char junk) = false ∨ junk = EmptyString →
  cstr (skip_space (rest +:+ junk)) = skip_space rest.
Proof.
  intros Hr Hj. unfold skip_space, cstr. rewrite skip_while_rest.
  - apply take_while_app; [by apply str_all_skip|done].
  - destruct Hj as [Hj| ->]; [left|by right]. destruct (head_char junk) as [[] [] [] [] [] [] [] []]; vm_compute in Hj |- *; done.
Qed.

Lemma cstr_skip_blank c rest junk :
  isspace c = true → str_all not_nul rest = true → not_nul (head_char junk) = false ∨ junk = EmptyString →
  cstr (skip_space (String c (rest +:+ junk))) = skip_space rest.
Proof.
  intros Hc Hr Hj. unfold skip_space. cbn [skip_while]. rewrite Hc. by apply cstr_skip.
Qed.

(** The parser after a word that is followed by a blank. *)
Definition lexed (p : parser_t) (w : word) (left : string) (p' : parser_t) : Prop :=
  ∃ b, p' = set_token (word_token w) (value_after (p_value p) w) b p ∧ cstr b = left.

Section one_word.
Context (p : parser_t) (c : ascii) (rest junk : string).
Hypothesis Hc : isspace c = true.
Hypothesis Hrest : str_all not_nul rest = true.
Hypothesis Hjunk : not_nul (head_char junk) = false ∨ junk = EmptyString.

Let after := String c (rest +:+ junk).

Lemma lex_brace_open : p_buffer p = "{" +:+ after → ∃ p', lex_token p = (true, p') ∧ lexed p WOpen (skip_space rest) p'.
Proof using Hc Hrest Hjunk.
  intros E. unfold lex_token. rewrite E. change (skip_space ("{" +:+ after)) with (String "{" after).
  cbn [head_char]. change (Ascii.eqb "{" "{") with true. cbn iota. eexists. split; [done|]. eexists. split; [done|].
  rewrite cstr_advance. by apply cstr_skip_blank.
Qed.

Lemma lex_brace_close : p_buffer p = "}" +:+ after → ∃ p', lex_token p = (true, p') ∧ lexed p WClose (skip_space rest) p'.
Proof using Hc Hrest Hjunk.
  intros E. unfold lex_token. rewrite E. change (skip_space ("}" +:+ after)) with (String "}" after).
  cbn [head_char]. change (Ascii.eqb "}" "{") with false. change (Ascii.eqb "}" "}") with true. cbn iota.
  eexists. split; [done|]. eexists. split; [done|].
  rewrite cstr_advance. by apply cstr_skip_blank.
Qed.

Lemma at_end_after : at_end after = true.
Proof using Hc. unfold at_end, after. cbn [head_char]. rewrite Hc. apply orb_true_r. Qed.

Lemma skip_word q w : str_all q w = true → q c = false → skip_while q (w +:+ after) = after.
Proof using. intros Hw Hq. apply skip_while_app; [done|by left]. Qed.

(** Digits, and what is behind them. *)
Lemma digits_start n (t : string) :
  0 ≤ n → ∃ d r, dec n +:+ t = String d r ∧ isdigit d = true ∧ str_all isdigit (dec n) = true.
Proof using.
  intros Hn. pose proof (dec_head_digit n t Hn) as Hd. destruct (dec n +:+ t) as [|d r]; [done|].
  exists d, r. split; [done|]. split; [done|]. by apply dec_aux_digits.
Qed.

Lemma lex_number n :
  0 ≤ n → p_buffer p = dec n +:+ after → ∃ p', lex_token p = (true, p') ∧ lexed p (WNum n) (skip_space rest) p'.
Proof using Hc Hrest Hjunk.
  intros Hn E. destruct (digits_start n after Hn) as (d & r & Ed & Hd & Hall).
  destruct (digit_start d Hd) as (Hs & Ho & Hcl & _).
  unfold lex_token. rewrite E. assert (skip_space (dec n +:+ after) = dec n +:+ after) as ->.
  { apply skip_while_head. by rewrite Ed. }
  assert (head_char (dec n +:+ after) = d) as -> by (by rewrite Ed). rewrite Ho, Hcl, Hd.
  rewrite (skip_word isdigit) by (done || by apply space_char). rewrite at_end_after, upto_app.
  eexists. split; [done|]. eexists. split; [done|]. rewrite cstr_advance. by apply cstr_skip_blank.
Qed.

Lemma atoi_dec_end n t : is_s32 n → 0 ≤ n → isdigit (head_char t) = false → atoi (dec n +:+ t) = n.
Proof using.
  intros Hn Hp Ht. unfold atoi, strtol. rewrite scan_int_dec by done. unfold is_s32, clamp in *. cbn.
  rewrite Z.max_r, Z.min_r by lia. apply s32_id. unfold is_s32. lia.
Qed.

Lemma lex_time n :
  0 ≤ n → n * 60 < 2 ^ 31 → p_buffer p = (dec n +:+ "m") +:+ after →
  ∃ p', lex_token p = (true, p') ∧ lexed p (WTime n) EmptyString p'.
Proof using.
  intros Hn Hlt E. rewrite str_app_assoc in E. change ("m" +:+ after) with (String "m" after) in E.
  destruct (digits_start n (String "m" after) Hn) as (d & r & Ed & Hd & Hall).
  destruct (digit_start d Hd) as (Hs & Ho & Hcl & _).
  unfold lex_token. rewrite E. assert (skip_space (dec n +:+ String "m" after) = dec n +:+ String "m" after) as ->.
  { apply skip_while_head. by rewrite Ed. }
  assert (head_char (dec n +:+ String "m" after) = d) as -> by (by rewrite Ed). rewrite Ho, Hcl, Hd.
  rewrite (skip_while_app isdigit) by (done || by left).
  change (at_end (String "m" after)) with false. cbn [head_char]. change (0 <? time_unit "m") with true. cbn iota.
  change (time_unit "m") with 60. unfold cut_at. rewrite upto_app. cbn [tail_str].
  eexists. split; [done|]. exists (overwrite (str1 NUL) (dec n +:+ String NUL after)). split; [|reflexivity]. unfold value_after, value_start. cbn [word_token].
  do 3 f_equal. rewrite (cstr_app (dec n)).
  - rewrite <- (str_app_nil_r (dec n)). rewrite atoi_dec_end by (done || unfold is_s32; lia).
    rewrite s32_id by (unfold is_s32; lia). unfold fmt_i. by rewrite (proj2 (Z.ltb_ge (n * 60) 0)) by lia.
  - eapply str_all_imp; [|exact Hall]. intros x Hx. by apply digit_start.
Qed.

(** Words that do not begin with a digit or a brace go through the pattern
    test. *)
Lemma lex_token_other b :
  p_buffer p = b → isspace (head_char b) = false → Ascii.eqb (head_char b) "{" = false →
  Ascii.eqb (head_char b) "}" = false → isdigit (head_char b) = false →
  Ascii.eqb (head_char b) "m" && Ascii.eqb (head_char (tail_str b)) "/" = false →
  lex_token p = lex_rest p (value_start (p_value p)) b b.
Proof using.
  intros E Hs Ho Hcl Hd Hm. unfold lex_token. rewrite E.
  assert (skip_space b = b) as -> by (by apply skip_while_head). rewrite Ho, Hcl, Hd.
  unfold lex_pattern. fold (value_start (p_value p)). destruct (Ascii.eqb (head_char b) "m"); [|done].
  cbn [andb] in Hm. by rewrite Hm.
Qed.

Lemma lex_plain w s t :
  plain_word s = true → p_buffer p = s +:+ after →
  (w = WKey s t ∧ keyword keyword_table s = Some t) ∨ (w = WStr s ∧ keyword keyword_table s = None) →
  ∃ p', lex_token p = (true, p') ∧ lexed p w (skip_space rest) p'.
Proof using Hc Hrest Hjunk.
  intros Hs E Hw. unfold plain_word in Hs. apply andb_prop in Hs as [Hs Hm]. apply andb_prop in Hs as [Hh Hall].
  destruct (word_start _ Hh) as (H1 & H2 & H3 & H4 & H5 & _ & H6).
  destruct s as [|d s]; [done|]. cbn [head_char tail_str] in *. cbn [str_all] in Hall. apply andb_prop in Hall as [_ Hall].
  rewrite (lex_token_other (String d s +:+ after)); [|done..|].
  2: { rewrite str_app_cons. cbn [head_char tail_str]. destruct s as [|d' s]; [|by apply negb_true_iff in Hm].
       rewrite str_app_nil_l. unfold after. cbn [head_char]. destruct (space_char c Hc) as (_ & _ & _ & _ & -> & _). by rewrite andb_false_r. }
  unfold lex_rest, lex_word. rewrite E. rewrite !str_app_cons. cbn [head_char tail_str]. rewrite H5.
  rewrite (skip_word word_char) by (done || by apply space_char). rewrite at_end_after.
  unfold end_word, cut_at. rewrite <- !str_app_cons, upto_app. unfold after at 1 2 3 4. cbn [tail_str].
  destruct Hw as [[-> Hk]|[-> Hk]]; rewrite Hk; (eexists; split; [done|]; eexists; split; [done|]); rewrite cstr_advance; by apply cstr_skip.
Qed.

Lemma lex_word_none v a b : isalnum (head_char b) || Ascii.eqb (head_char b) "/" = false → lex_word p v a b = None.
Proof using. intros Hb. unfold lex_word. by rewrite Hb. Qed.

Lemma lex_sigil_none ch t v b : Ascii.eqb (head_char b) ch = false → lex_sigil ch t p v b = None.
Proof using. intros Hb. unfold lex_sigil. by rewrite Hb. Qed.

Lemma lex_sigil_some ch t v s :
  str_all name_char s = true → p_buffer p = String ch s +:+ after →
  ∃ b, lex_sigil ch t p v (String ch s +:+ after) = Some (set_token t (overwrite (String ch s +:+ str1 NUL) v) b p) ∧
       cstr b = skip_space rest.
Proof using Hc Hrest Hjunk.
  intros Hs E. unfold lex_sigil. rewrite E. change (head_char (String ch s +:+ after)) with ch.
  change (tail_str (String ch s +:+ after)) with (s +:+ after). rewrite Ascii.eqb_refl.
  rewrite (skip_word name_char) by (done || by apply space_char). rewrite at_end_after.
  unfold end_word, cut_at. rewrite upto_app. eexists. split; [done|].
  rewrite cstr_advance. by apply cstr_skip.
Qed.

Lemma lex_typename s :
  sigil_word ":" s = true → p_buffer p = s +:+ after → ∃ p', lex_token p = (true, p') ∧ lexed p (WType s) (skip_space rest) p'.
Proof using Hc Hrest Hjunk.
  intros Hs E. apply andb_prop in Hs as [Hh Hall]. destruct s as [|d s]; [done|]. cbn [head_char tail_str] in *.
  apply Ascii.eqb_eq in Hh as ->. rewrite (lex_token_other (String ":" s +:+ after)) by done.
  destruct (lex_sigil_some ":" T_TYPENAME (value_start (p_value p)) s Hall E) as (b & Eb & Hb).
  unfold lex_rest. rewrite lex_word_none by done. cbv zeta.
  change (isalnum (head_char (String ":" s +:+ after)) || Ascii.eqb (head_char (String ":" s +:+ after)) "/") with false.
  cbn iota. rewrite Eb. eexists. split; [done|]. by exists b.
Qed.

Lemma lex_winname s :
  sigil_word "@" s = true → p_buffer p = s +:+ after → ∃ p', lex_token p = (true, p') ∧ lexed p (WWin s) (skip_space rest) p'.
Proof using Hc Hrest Hjunk.
  intros Hs E. apply andb_prop in Hs as [Hh Hall]. destruct s as [|d s]; [done|]. cbn [head_char tail_str] in *.
  apply Ascii.eqb_eq in Hh as ->. rewrite (lex_token_other (String "@" s +:+ after)) by done.
  destruct (lex_sigil_some "@" T_WINDOWNAME (value_start (p_value p)) s Hall E) as (b & Eb & Hb).
  unfold lex_rest. rewrite lex_word_none by done. cbv zeta.
  change (isalnum (head_char (String "@" s +:+ after)) || Ascii.eqb (head_char (String "@" s +:+ after)) "/") with false.
  cbn iota. rewrite (lex_sigil_none ":") by done.
  change (Ascii.eqb (head_char (String "@" s +:+ after)) ":") with false. cbn iota.
  rewrite Eb. eexists. split; [done|]. by exists b.
Qed.

Lemma scan_quotable s t : str_all quotable s = true → scan_quoted (s +:+ String QUOTE t) = (s, String QUOTE t).
Proof using.
  induction s as [|d s IH]; intros Hs; [done|]. cbn [str_all] in Hs. apply andb_prop in Hs as [Hd Hs].
  rewrite str_app_cons. cbn [scan_quoted]. rewrite IH by done. unfold quotable in Hd.
  destruct (not_nul d), (Ascii.eqb d QUOTE), (Ascii.eqb d BACKSLASH), (Ascii.eqb d CR), (Ascii.eqb d LF); done.
Qed.

Lemma lex_quotes s :
  str_all quotable s = true → p_buffer p = (str1 QUOTE +:+ s +:+ str1 QUOTE) +:+ after →
  ∃ p', lex_token p = (true, p') ∧ lexed p (WQuoted s) (skip_space rest) p'.
Proof using Hc Hrest Hjunk.
  intros Hs E. rewrite !str_app_assoc in E. change (str1 QUOTE +:+ s +:+ str1 QUOTE +:+ after) with (String QUOTE (s +:+ String QUOTE after)) in E.
  rewrite (lex_token_other _ E) by done.
  set (b := String QUOTE (s +:+ String QUOTE after)) in *.
  unfold lex_rest. rewrite lex_word_none by done. cbv zeta.
  change (isalnum (head_char b) || Ascii.eqb (head_char b) "/") with false. cbn iota.
  rewrite (lex_sigil_none ":") by done. change (Ascii.eqb (head_char b) ":") with false. cbn iota.
  rewrite (lex_sigil_none "@") by done. change (Ascii.eqb (head_char b) "@") with false. cbn iota.
  unfold lex_quoted. change (Ascii.eqb (head_char b) QUOTE) with true. cbn iota.
  change (tail_str b) with (s +:+ String QUOTE after). rewrite scan_quotable by done.
  change (Ascii.eqb (head_char (String QUOTE after)) QUOTE) with true. cbn iota.
  eexists. split; [done|]. eexists. split; [done|]. rewrite cstr_advance. by apply cstr_skip_blank.
Qed.
End one_word.

(** A word that is printed and followed by a blank is read back. *)
Lemma lex_token_word p w c rest :
  word_ok w = true → cstr (p_buffer p) = word_text w +:+ String c rest → isspace c = true →
  ∃ p', lex_token p = (true, p') ∧
    lexed p w (match w with WTime _ => EmptyString | _ => skip_space rest end) p'.
Proof.
  intros Hw E Hc. set (junk := skip_while not_nul (p_buffer p)).
  assert (p_buffer p = word_text w +:+ String c (rest +:+ junk)) as Eb.
  { rewrite <- (take_skip_while not_nul (p_buffer p)). fold (cstr (p_buffer p)). rewrite E.
    by rewrite str_app_assoc, str_app_cons. }
  assert (str_all not_nul rest = true) as Hrest.
  { pose proof (take_while_all not_nul (p_buffer p)) as Hall. fold (cstr (p_buffer p)) in Hall.
    rewrite E, str_all_app in Hall. cbn [str_all] in Hall. by do 2 apply andb_prop in Hall as [_ Hall]. }
  assert (not_nul (head_char junk) = false ∨ junk = EmptyString) as Hj by apply skip_while_end.
  destruct w as [s t|s|s|s|n|n| | |s]; cbn [word_ok word_text] in *.
  - apply andb_prop in Hw as [Hp Hk%bool_decide_eq_true]. eapply lex_plain; eauto.
  - apply andb_prop in Hw as [Hp Hk%bool_decide_eq_true]. eapply (lex_plain p c rest junk Hc Hrest Hj (WStr s) s T_NONE); eauto.
  - eapply lex_typename; eauto.
  - eapply lex_winname; eauto.
  - apply Z.leb_le in Hw. eapply lex_number; eauto.
  - apply andb_prop in Hw as [H0%Z.leb_le H1%Z.ltb_lt]. eapply lex_time; eauto.
  - eapply lex_brace_open; eauto.
  - eapply lex_brace_close; eauto.
  - eapply lex_quotes; eauto.
Qed.

(** ** Lines *)

(** The words of a line with the blanks before each. *)
Definition wline : Type := list (string * word).
Definition wline_text (l : wline) : string := String.concat "" ((λ bw, bw.1 +:+ word_text bw.2) <$> l) +:+ nl.

Fixpoint no_time (l : wline) : bool :=
  match l with
  | [] => true
  | (_, WTime _) :: l' => match l' with [] => true | _ => false end
  | _ :: l' => no_time l'
  end.

(** Blanks, at least one between two words; what follows a time in a line is
    lost, so it must be the last word. *)
Fixpoint gaps_ok (l : wline) : bool :=
  match l with
  | [] => true
  | (b, w) :: l' => negb (streq b "") && str_all (Ascii.eqb " ") b && word_ok w && gaps_ok l'
  end.

Definition words_ok (l : wline) : bool :=
  match l with
  | [] => false
  | (b, w) :: l' => str_all (Ascii.eqb " ") b && word_ok w && gaps_ok l' && no_time l
  end && (String.length (wline_text l) <? LINE_BUF_SIZE)%nat.

(** What is between the lines: blank lines and comments. *)
Inductive piece := Blank | Comment (s : string) | Words (l : wline).

Definition piece_text (x : piece) : string :=
  match x with
  | Blank => nl
  | Comment s => "#" +:+ s +:+ nl
  | Words l => wline_text l
  end.
Definition piece_ok (x : piece) : bool :=
  match x with
  | Blank => true
  | Comment s => str_all (λ c, not_nul c && is_not LF c) s && (String.length s <? LINE_BUF_SIZE - 3)%nat
  | Words l => words_ok l
  end.
Definition piece_words (x : piece) : list word := match x with Words l => l.*2 | _ => [] end.
Definition text_of (xs : list piece) : string := String.concat "" (piece_text <$> xs).
Definition words_of (xs : list piece) : list word := xs ≫= piece_words.

Definition clean_char (c : ascii) : bool := not_nul c && is_not LF c.

Lemma clean_not_nul s : str_all clean_char s = true → str_all not_nul s = true.
Proof. apply str_all_imp. by intros c [? _]%andb_prop. Qed.

Lemma clean_no_LF s : str_all clean_char s = true → str_all (is_not LF) s = true.
Proof. apply str_all_imp. by intros c [_ ?]%andb_prop. Qed.

(** The first character of a word. *)
Lemma word_head w :
  word_ok w = true → ∃ d r, word_text w = String d r ∧ isspace d = false ∧ Ascii.eqb d "#" = false.
Proof.
  assert (∀ s, plain_word s = true → ∃ d r, s = String d r ∧ isspace d = false ∧ Ascii.eqb d "#" = false) as Hplain.
  { intros s [[Hh _]%andb_prop _]%andb_prop. destruct (word_start _ Hh) as (H1 & _ & _ & _ & _ & H2 & _).
    destruct s as [|d r]; [done|]. by exists d, r. }
  assert (∀ ch s, not_nul ch = true → isspace ch = false → Ascii.eqb ch "#" = false → sigil_word ch s = true →
           ∃ d r, s = String d r ∧ isspace d = false ∧ Ascii.eqb d "#" = false) as Hsigil.
  { intros ch s H0 H1 H2 [Hh _]%andb_prop. destruct s as [|d r]; cbn [head_char] in Hh.
    - by apply Ascii.eqb_eq in Hh as <-.
    - apply Ascii.eqb_eq in Hh as ->. by exists ch, r. }
  intros Hw. destruct w as [s t|s|s|s|n|n| | |s]; cbn [word_ok word_text] in *.
  - apply andb_prop in Hw as [Hw _]. by apply Hplain.
  - apply andb_prop in Hw as [Hw _]. by apply Hplain.
  - by apply (Hsigil ":"%char).
  - by apply (Hsigil "@"%char).
  - apply Z.leb_le in Hw. destruct (digits_start n EmptyString Hw) as (d & r & E & Hd & _). rewrite str_app_nil_r in E.
    exists d, r. destruct (digit_start d Hd) as (? & _ & _ & ? & _). done.
  - apply andb_prop in Hw as [Hw%Z.leb_le _]. destruct (digits_start n "m" Hw) as (d & r & E & Hd & _).
    exists d, r. destruct (digit_start d Hd) as (? & _ & _ & ? & _). done.
  - by eexists _, _.
  - by eexists _, _.
  - by eexists _, _.
Qed.

Lemma word_clean w : word_ok w = true → str_all clean_char (word_text w) = true.
Proof.
  assert (∀ s, plain_word s = true → str_all clean_char s = true) as Hplain.
  { intros s [[_ Hs]%andb_prop _]%andb_prop. eapply str_all_imp; [|exact Hs]. intros c. all_chars c. }
  assert (∀ ch s, clean_char ch = true → sigil_word ch s = true → str_all clean_char s = true) as Hsigil.
  { intros ch s Hch [Hh Hs]%andb_prop. destruct s as [|d r]; [done|]. cbn [head_char tail_str str_all] in *.
    apply Ascii.eqb_eq in Hh as ->. rewrite Hch. eapply str_all_imp; [|exact Hs]. intros c. all_chars c. }
  assert (∀ n, 0 ≤ n → str_all clean_char (dec n) = true) as Hdec.
  { intros n Hn. eapply str_all_imp; [|by apply dec_aux_digits]. intros c. all_chars c. }
  intros Hw. destruct w as [s t|s|s|s|n|n| | |s]; cbn [word_ok word_text] in *; try done.
  - apply andb_prop in Hw as [Hw _]. by apply Hplain.
  - apply andb_prop in Hw as [Hw _]. by apply Hplain.
  - by apply (Hsigil ":"%char).
  - by apply (Hsigil "@"%char).
  - apply Hdec. by apply Z.leb_le.
  - apply andb_prop in Hw as [Hw%Z.leb_le _]. rewrite str_all_app. by rewrite Hdec.
  - rewrite !str_all_app. change (str_all clean_char (str1 QUOTE)) with true. cbn [andb]. rewrite andb_true_r.
    eapply str_all_imp; [|exact Hw]. intros c. all_chars c.
Qed.

Lemma blanks_clean b : str_all (Ascii.eqb " ") b = true → str_all clean_char b = true ∧ str_all isspace b = true.
Proof. intros Hb. split; (eapply str_all_imp; [|exact Hb]); intros c; all_chars c. Qed.

(** The text of the words of a line, without its end. *)
Definition words_text (l : wline) : string := String.concat "" ((λ bw, bw.1 +:+ word_text bw.2) <$> l).

Lemma words_text_cons b w l : words_text ((b, w) :: l) = b +:+ word_text w +:+ words_text l.
Proof. unfold words_text. rewrite fmap_cons, str_concat_cons. by rewrite str_app_assoc. Qed.

Lemma gaps_clean l : gaps_ok l = true → str_all clean_char (words_text l) = true.
Proof.
  induction l as [|[b w] l IH]; [done|]. cbn [gaps_ok]. intros [[[_ Hb]%andb_prop Hw]%andb_prop Hl]%andb_prop.
  rewrite words_text_cons, !str_all_app, IH, word_clean by done. by rewrite (proj1 (blanks_clean b Hb)).
Qed.

(** ** The parser in front of words *)

(** [l] is what is left of the current line. *)
Record ahead (p : parser_t) (l : wline) (xs : list piece) : Prop := {
  ahead_buffer : cstr (p_buffer p) = match l with [] => "" | (_, w) :: l' => word_text w +:+ words_text l' +:+ nl end;
  ahead_words : match l with [] => True | (_, w) :: l' => word_ok w = true ∧ gaps_ok l' = true ∧ no_time l = true end;
  ahead_io : p_io p = text_of xs;
  ahead_eof : p_eof p = false;
  ahead_pieces : Forall (λ x, piece_ok x = true) xs;
}.

Lemma ahead_word p b w l xs :
  ahead p ((b, w) :: l) xs →
  ∃ p', lex p = (true, p') ∧ p_token p' = word_token w ∧ p_value p' = value_after (p_value p) w ∧ ahead p' l xs.
Proof.
  intros [Hb (Hw & Hl & Ht) Hio Heof Hxs]. destruct (word_head w Hw) as (d & r & Ed & Hd & Hh).
  assert (lex p = lex_token p) as ->.
  { unfold lex. rewrite Hb, Ed, str_app_cons. change (streq (String d _) "") with false. cbn iota.
    assert (head_char (skip_space (p_buffer p)) = d) as ->; [|by rewrite Hh].
    rewrite <- (take_skip_while not_nul (p_buffer p)). fold (cstr (p_buffer p)). rewrite Hb, Ed, !str_app_cons.
    unfold skip_space. by rewrite skip_while_head. }
  assert (∃ c rest, words_text l +:+ nl = String c rest ∧ isspace c = true ∧
     skip_space rest = match l with [] => "" | (_, w') :: l' => word_text w' +:+ words_text l' +:+ nl end) as (c & rest & Er & Hc & Hr).
  { destruct l as [|[b' w'] l']; [by eexists _, _|]. cbn [gaps_ok] in Hl.
    apply andb_prop in Hl as [[[Hne Hb']%andb_prop Hw']%andb_prop _].
    rewrite words_text_cons. destruct b' as [|c b']; [done|]. cbn [str_all] in Hb'. apply andb_prop in Hb' as [Hc Hb'].
    apply Ascii.eqb_eq in Hc as <-. eexists _, _. split; [by rewrite !str_app_assoc, str_app_cons|]. split; [done|].
    destruct (word_head w' Hw') as (d' & r' & Ed' & Hd' & _).
    unfold skip_space. rewrite skip_while_app; [done|by apply blanks_clean|left; by rewrite Ed', str_app_cons]. }
  rewrite Er in Hb. destruct (lex_token_word p w c rest Hw Hb Hc) as (p' & E & b' & -> & Hb').
  eexists. split; [exact E|]. split; [done|]. split; [done|]. split; try done.
  - cbn [set_token p_buffer]. rewrite Hb'. destruct w; try exact Hr. cbn [no_time] in Ht. by destruct l.
  - destruct l as [|[b2 w2] l2]; [done|]. cbn [gaps_ok] in Hl. apply andb_prop in Hl as [[_ Hw2]%andb_prop Hl2].
    split; [done|]. split; [done|]. destruct w; try exact Ht. done.
Qed.

Lemma trim_words b w l :
  str_all (Ascii.eqb " ") b = true → word_ok w = true → gaps_ok l = true →
  trim_line (wline_text ((b, w) :: l)) = word_text w +:+ words_text l +:+ nl.
Proof.
  intros Hb Hw Hl. destruct (word_head w Hw) as (d & r & Ed & Hd & Hh). destruct (blanks_clean b Hb) as [Hbc Hbs].
  assert (wline_text ((b, w) :: l) = b +:+ word_text w +:+ words_text l +:+ nl) as ->.
  { change (wline_text ?l) with (words_text l +:+ nl). by rewrite words_text_cons, !str_app_assoc. }
  unfold trim_line. rewrite cstr_text.
  2: { rewrite !str_all_app, !(clean_not_nul _ (gaps_clean l Hl)), (clean_not_nul _ (word_clean w Hw)), (clean_not_nul _ Hbc). done. }
  unfold skip_space. rewrite (skip_while_app isspace b) by (done || left; by rewrite Ed, str_app_cons).
  assert (head_char (word_text w +:+ words_text l +:+ nl) = d) as E by (by rewrite Ed, str_app_cons).
  rewrite E, Hh. apply skip_while_head. by rewrite E.
Qed.

Lemma trim_comment s : str_all clean_char s = true → trim_line (("#" +:+ s) +:+ nl) = "".
Proof.
  intros Hs. unfold trim_line. rewrite cstr_text by (rewrite !str_all_app, (clean_not_nul _ Hs); done).
  change (skip_space (("#" +:+ s) +:+ nl)) with (String "#" (s +:+ nl)). cbn [head_char].
  change (Ascii.eqb "#" "#") with true. cbn iota. change (String "#" (s +:+ nl)) with (("#" +:+ s) +:+ nl).
  rewrite (skip_while_app (is_not LF)); [done| |by left]. rewrite str_all_app. by rewrite (clean_no_LF _ Hs).
Qed.

Lemma fgets_piece x rest :
  piece_ok x = true → fgets LINE_BUF_SIZE (piece_text x +:+ rest) = Some (piece_text x, rest).
Proof.
  intros Hx. assert (∃ body, piece_text x = body +:+ nl ∧ lacks LF body ∧ (S (String.length body) < LINE_BUF_SIZE)%nat) as (body & -> & Hb & Hn).
  { destruct x as [|s|l]; cbn [piece_ok piece_text] in *.
    - exists "". split; [done|]. split; [done|]. unfold LINE_BUF_SIZE. cbn. lia.
    - apply andb_prop in Hx as [Hs Hn%Nat.ltb_lt]. exists ("#" +:+ s). split; [by rewrite str_app_assoc|].
      split; [|rewrite str_length_app; change (String.length "#") with 1%nat; lia]. unfold lacks. rewrite str_all_app. by rewrite (clean_no_LF _ Hs).
    - apply andb_prop in Hx as [Hl Hn%Nat.ltb_lt]. exists (words_text l). split; [done|]. split.
      + destruct l as [|[b w] l]; [done|]. apply andb_prop in Hl as [[[Hb Hw]%andb_prop Hg]%andb_prop _].
        apply clean_no_LF. rewrite words_text_cons, !str_all_app, gaps_clean, word_clean by done. by rewrite (proj1 (blanks_clean b Hb)).
      + change (wline_text l) with (words_text l +:+ nl) in Hn. rewrite str_length_app in Hn. change (String.length nl) with 1%nat in Hn. lia. }
  by apply fgets_line.
Qed.

Lemma text_of_cons x xs : text_of (x :: xs) = piece_text x +:+ text_of xs.
Proof. unfold text_of. by rewrite fmap_cons, str_concat_cons. Qed.

Lemma piece_text_eof x rest : piece_ok x = true → met_eof (piece_text x) rest = false.
Proof.
  intros Hx. unfold met_eof. assert (ends_with LF (piece_text x) = true) as ->; [|by rewrite andb_false_r].
  destruct x as [|s|l]; cbn [piece_text]; [done| |].
  - rewrite <- str_app_assoc. by rewrite ends_with_app.
  - change (wline_text l) with (words_text l +:+ nl). by rewrite ends_with_app.
Qed.

Lemma piece_pos x : (0 < String.length (piece_text x))%nat.
Proof.
  assert (∀ s, (0 < String.length (s +:+ nl))%nat) as Hnl by (intros s; rewrite str_length_app; change (String.length nl) with 1%nat; lia).
  destruct x as [|s|l]; cbn [piece_text]; [apply (Hnl "")|rewrite <- str_app_assoc; apply Hnl|apply Hnl].
Qed.

(** The next line with words, or the end of the file. *)
Lemma getline_pieces fuel p xs :
  p_io p = text_of xs → p_eof p = false → Forall (λ x, piece_ok x = true) xs → (String.length (text_of xs) < fuel)%nat →
  ∃ p', p_value p' = p_value p ∧
    ((words_of xs = [] ∧ getline fuel p = (false, p') ∧ p_eof p' = true) ∨
     (∃ b w l xs', words_of xs = w :: l.*2 ++ words_of xs' ∧ getline fuel p = (true, p') ∧ ahead p' ((b, w) :: l) xs')).
Proof.
  revert p xs. induction fuel as [|f IH]; intros p xs Hio Heof Hxs Hf; [lia|]. cbn [getline]. rewrite Hio.
  destruct Hxs as [|x xs Hx Hxs]; [eexists; split; [|left; by split_and!]; done|].
  rewrite text_of_cons in Hf |- *. rewrite fgets_piece, piece_text_eof, Heof by done. cbn [orb].
  pose proof (piece_pos x) as Hpos. rewrite str_length_app in Hf.
  assert (trim_line (piece_text x) = "" → words_of (x :: xs) = words_of xs →
    ∃ p', p_value p' = p_value p ∧
    ((words_of (x :: xs) = [] ∧ getline f (set_input (text_of xs) false (p_line p + 1) (p_buffer p) p) = (false, p') ∧ p_eof p' = true) ∨
     (∃ b w l xs', words_of (x :: xs) = w :: l.*2 ++ words_of xs' ∧
        getline f (set_input (text_of xs) false (p_line p + 1) (p_buffer p) p) = (true, p') ∧ ahead p' ((b, w) :: l) xs'))) as Hskip.
  { intros _ ->. destruct (IH (set_input (text_of xs) false (p_line p + 1) (p_buffer p) p) xs) as (p' & Hv & Hor); [done..|lia|].
    exists p'. by split. }
  destruct x as [|s|l]; cbn [piece_ok] in Hx.
  - change (trim_line (piece_text Blank)) with "". by apply Hskip.
  - apply andb_prop in Hx as [Hs _]. assert (trim_line (piece_text (Comment s)) = "") as Et.
    { cbn [piece_text]. rewrite <- str_app_assoc. by apply trim_comment. }
    rewrite Et. by apply Hskip.
  - apply andb_prop in Hx as [Hl _]. destruct l as [|[b w] l]; [done|].
    apply andb_prop in Hl as [[[Hb Hw]%andb_prop Hg]%andb_prop Ht]. cbn [piece_text]. rewrite trim_words by done.
    destruct (word_head w Hw) as (d & r & Ed & _). rewrite Ed, str_app_cons. cbn iota.
    eexists. split; [|right; exists b, w, l, xs; split; [done|split; [done|]]]; [done|].
    split; try done. cbn [set_input p_buffer]. rewrite <- str_app_cons, <- Ed. apply cstr_overwrite.
    rewrite !str_all_app, (clean_not_nul _ (gaps_clean l Hg)), (clean_not_nul _ (word_clean w Hw)). done.
Qed.

(** The parser has the words [ws] in front of it. *)
Definition reads (p : parser_t) (ws : list word) : Prop := ∃ l xs, ahead p l xs ∧ ws = l.*2 ++ words_of xs.

Lemma reads_cons p w ws :
  reads p (w :: ws) →
  ∃ p', lex p = (true, p') ∧ p_token p' = word_token w ∧ p_value p' = value_after (p_value p) w ∧ reads p' ws.
Proof.
  intros (l & xs & Ha & E). destruct l as [|[b w'] l].
  - cbn in E. pose proof Ha as [Hb _ Hio Heof Hxs].
    destruct (getline_pieces (S (String.length (p_io p))) p xs Hio Heof Hxs) as (p1 & Hv & [(E' & _)|(b & w' & l & xs' & E' & Eg & Ha')]);
      [rewrite Hio; lia|by rewrite E' in E|].
    rewrite E' in E. injection E as -> ->. destruct (ahead_word _ _ _ _ _ Ha') as (p' & El & Ht & Hv' & Ha2).
    exists p'. rewrite <- Hv. split; [|split; [done|split; [done|by exists l, xs']]].
    rewrite <- El. unfold lex at 1. rewrite Hb. change (streq "" "") with true. cbn iota. unfold get_line. rewrite Eg.
    unfold lex. destruct Ha' as [Hb' (Hw' & _) _ _ _]. rewrite Hb'. destruct (word_head w' Hw') as (d & r & Ed & _).
    by rewrite Ed, str_app_cons.
  - cbn in E. injection E as -> ->. destruct (ahead_word _ _ _ _ _ Ha) as (p' & El & Ht & Hv & Ha').
    exists p'. split_and!; try done. by exists l, xs.
Qed.

Lemma reads_nil p : reads p [] → ∃ p', lex p = (false, p') ∧ p_eof p' = true.
Proof.
  intros (l & xs & Ha & E). destruct l as [|[b w] l]; [|done]. cbn in E. destruct Ha as [Hb _ Hio Heof Hxs].
  destruct (getline_pieces (S (String.length (p_io p))) p xs Hio Heof Hxs) as (p1 & Hv & [(_ & Eg & He)|(b & w & l & xs' & E' & _)]);
    [rewrite Hio; lia| |by rewrite E' in E].
  exists p1. split; [|done]. unfold lex. rewrite Hb. change (streq "" "") with true. cbn iota. unfold get_line. by rewrite Eg.
Qed.

Lemma reads_init xs : Forall (λ x, piece_ok x = true) xs → reads (parser_init (text_of xs)) (words_of xs).
Proof. intros Hxs. exists [], xs. split; [|done]. by split. Qed.

(** ** The interpreter on words *)

(** No digit of an earlier value is left behind a number. *)
Definition settled (v : string) (w : word) : bool :=
  match w with
  | WNum n => negb (isdigit (head_char (drop_str (String.length (dec n)) (value_start v))))
  | _ => true
  end.
Fixpoint all_settled (v : string) (ws : list word) : bool :=
  match ws with
  | [] => true
  | w :: ws' => settled v w && all_settled (value_after v w) ws'
  end.

Lemma all_settled_app v ws1 ws2 :
  all_settled v (ws1 ++ ws2) = all_settled v ws1 && all_settled (foldl value_after v ws1) ws2.
Proof. revert v. induction ws1 as [|w ws1 IH]; intros v; cbn; [done|]. by rewrite IH, andb_assoc. Qed.

(** The string that the interpreter sees. *)
Definition word_value (v : string) (w : word) : string := cstr (value_after v w).

Lemma string_value v s :
  str_all not_nul s = true → cstr (overwrite (s +:+ str1 NUL) (value_start v)) = s.
Proof. apply cstr_overwrite. Qed.

Lemma number_value v n : is_u32 n → settled v (WNum n) = true → atoi (word_value v (WNum n)) = s32 n.
Proof.
  unfold is_u32. intros Hn Hs. cbn [settled] in Hs. apply negb_true_iff in Hs. unfold word_value, value_after, overwrite.
  set (t := drop_str _ _) in *. clearbody t.
  assert (cstr (dec n +:+ t) = dec n +:+ cstr t) as ->.
  { pose proof (dec_aux_digits (S (Z.to_nat (Z.log2 n))) n (proj1 Hn)) as Hd. fold (dec n) in Hd.
    induction (dec n) as [|d r IH]; [done|]. cbn [str_all] in Hd. apply andb_prop in Hd as [Hd Hr].
    rewrite !str_app_cons. rewrite cstr_cons by (by apply digit_start). by rewrite IH. }
  unfold atoi, strtol. rewrite scan_int_dec; [|lia|].
  - unfold clamp. cbn. by rewrite Z.max_r, Z.min_r by lia.
  - destruct t as [|d t]; [done|]. unfold cstr. cbn [take_while head_char] in *. destruct (not_nul d); [done|done].
Qed.

Section interpreter.
Context `{VL : VigorLaws} `{Pcre}.

(** *** Directives *)

Inductive entry := ECounter | ESample | ERate.

Inductive item :=
| ISet (x : setting) (v : string)
| IMaxNumber (n : Z)
| IMaxTime (minutes : Z)
| IGrace (n : Z)
| ILog (level facility : string)
| IType (t : type_t)
| IState (t : type_t) (name : string)
| IWindow (name : string) (time : Z)
| IEntry (k : entry) (w : window_t) (name : string).

Definition setting_key (x : setting) : string * token :=
  match x with
  | s_listener => ("listener", T_LISTENER)
  | s_controller => ("controller", T_CONTROLLER)
  | s_broadcast => ("broadcast", T_BROADCAST)
  | s_runas_user => ("user", T_USER)
  | s_runas_group => ("group", T_GROUP)
  | s_pidfile => ("pidfile", T_PIDFILE)
  | s_savefile => ("savefile", T_SAVEFILE)
  | s_keysfile => ("keysfile", T_KEYSFILE)
  | _ => ("beacon", T_BEACON)
  end.
Definition entry_key (k : entry) : string * token :=
  match k with
  | ECounter => ("counter", T_COUNTER)
  | ESample => ("sample", T_SAMPLE)
  | ERate => ("rate", T_RATE)
  end.
Definition key (kt : string * token) : word := WKey kt.1 kt.2.

Definition window_word (w : window_t) : word :=
  match window_name w with Some n => WWin n | None => WNum (u32 (window_time w)) end.

Definition item_words (i : item) : list word :=
  match i with
  | ISet x v => [key (setting_key x); WStr v]
  | IMaxNumber n => [WKey "max.events" T_MAXEVENTS; WNum (u32 n)]
  | IMaxTime n => [WKey "max.events" T_MAXEVENTS; WTime n]
  | IGrace n => [WKey "grace.period" T_GRACE_PERIOD; WNum (u32 n)]
  | ILog a b => [WKey "log" T_LOG; WStr a; WStr b]
  | IType t =>
      [WKey "type" T_TYPE; WType (type_name t); WOpen;
       WKey "freshness" T_FRESHNESS; WNum (u32 (type_freshness t));
       WStr (dump_severity (type_status t)); WQuoted (or_null (type_summary t)); WClose]
  | IState t n => [WKey "state" T_STATE; WType (type_name t); WStr n]
  | IWindow n time => [WKey "window" T_WINDOW; WWin n; WNum (u32 time)]
  | IEntry k w n => [key (entry_key k); window_word w; WStr n]
  end.

Context (now : Z).

Definition put_entry (k : entry) (w : window_t) (name : string) (d : db_t) : db_t :=
  match k with
  | ECounter => put_counter name (new_counter name w) d
  | ESample => put_sample name (new_sample name w) d
  | ERate => put_rate name (new_rate name w) d
  end.
Definition put_anon (w : window_t) (d : db_t) : db_t :=
  match window_name w with Some _ => d | None => push_anon_window w d end.

(** What a directive does to the server. *)
Definition item_run (i : item) : server_t → server_t :=
  match i with
  | ISet x v => upd_config (set_string x v)
  | IMaxNumber n => λ s, upd_config (set_events_max n) (upd_config (set_events_keep EVENTS_KEEP_NUMBER) s)
  | IMaxTime n => λ s, upd_config (set_events_max (n * 60)) (upd_config (set_events_keep EVENTS_KEEP_TIME) s)
  | IGrace n => upd_config (set_grace_period n)
  | ILog a b => λ s, upd_config (set_string s_log_facility b) (upd_config (set_string s_log_level a) s)
  | IType t => upd_db (put_type (type_name t) t)
  | IState t n => upd_db (put_state n (new_state now n t))
  | IWindow n time => upd_db (put_window n (mk_window (Some n) time))
  | IEntry k w n => λ s, upd_db (put_entry k w n) (upd_db (put_anon w) s)
  end.

(** The numbers are those of their C types, types are complete, and the
    setting is one that has a line of its own. *)
Definition item_range (i : item) : Prop :=
  match i with
  | ISet x _ => x ∉ [s_log_level; s_log_facility]
  | IMaxNumber n | IGrace n | IWindow _ n => is_s32 n
  | IType t => is_u16 (type_freshness t) ∧ is_Some (type_summary t) ∧ type_status t ∈ [WARNING; CRITICAL; UNKNOWN]
  | IEntry _ w _ => is_s32 (window_time w)
  | _ => True
  end.
Definition item_ok (i : item) : Prop := Forall (λ w, word_ok w = true) (item_words i) ∧ item_range i.

(** The type or window it refers to is defined. *)
Definition item_pre (i : item) (s : server_t) : Prop :=
  match i with
  | IState t _ => types (srv_db s) !! type_name t = Some t
  | IEntry _ w _ => ∀ n, window_name w = Some n → windows (srv_db s) !! n = Some w
  | _ => True
  end.

(** [m], in front of the words [ws] with [v] in the memory for values, ends
    with [a], leaves the server [s'] and the words [ws'].  Nothing that is
    dumped sets a default. *)
Definition ends {A} (m : Cfg A) (s : server_t) (ws : list word) (v : string)
    (a : A) (s' : server_t) (ws' : list word) (v' : string) : Prop :=
  ∀ p, reads p ws → p_value p = v →
  ∃ p', m (mk_cfg p s None None) = (Done a, mk_cfg p' s' None None) ∧ reads p' ws' ∧ p_value p' = v'.

Lemma ends_bind {A B} (m : Cfg A) (f : A → Cfg B) s ws v a s1 ws1 v1 b s2 ws2 v2 :
  ends m s ws v a s1 ws1 v1 → ends (f a) s1 ws1 v1 b s2 ws2 v2 → ends (m ≫= f) s ws v b s2 ws2 v2.
Proof using.
  intros Hm Hf p Hr Hv. destruct (Hm p Hr Hv) as (p1 & E1 & Hr1 & Hv1). destruct (Hf p1 Hr1 Hv1) as (p2 & E2 & H2).
  exists p2. split; [|done]. unfold mbind, Cfg_bind. by rewrite E1.
Qed.

Lemma ends_ret {A} (a : A) s ws v : ends (mret a) s ws v a s ws v.
Proof using. intros p Hr Hv. by exists p. Qed.

Lemma ends_upd f s ws v : ends (upd_server f) s ws v () (f s) ws v.
Proof using. intros p Hr Hv. by exists p. Qed.

Lemma ends_server s ws v : ends the_server s ws v s s ws v.
Proof using. intros p Hr Hv. by exists p. Qed.

Lemma ends_lex w s ws v : ends lex_m s (w :: ws) v (Some (word_token w, word_value v w)) s ws (value_after v w).
Proof using.
  intros p Hr <-. destruct (reads_cons _ _ _ Hr) as (p' & El & Ht & Hv & Hr'). exists p'.
  unfold lex_m. cbn [c_p]. by rewrite El, Ht, Hv.
Qed.

Lemma ends_NEXT w s ws v : ends NEXT s (w :: ws) v (word_token w, word_value v w) s ws (value_after v w).
Proof using. eapply ends_bind; [apply ends_lex|apply ends_ret]. Qed.

Lemma ends_expect t w s ws v :
  word_token w = t → ends (expect t) s (w :: ws) v (word_value v w) s ws (value_after v w).
Proof using.
  intros Ht. eapply ends_bind; [apply ends_NEXT|]. cbn beta iota. rewrite decide_True by done. apply ends_ret.
Qed.

Lemma ends_save t s ws v : ends (save_type t) s ws v t (upd_db (put_type (type_name t) t) s) ws v.
Proof using. eapply ends_bind; [apply ends_upd|apply ends_ret]. Qed.

(** The string of a word that is not a number. *)
Lemma value_of v w :
  word_ok w = true → word_value v w = match w with
                                      | WStr s | WType s | WWin s | WQuoted s => s
                                      | WTime n => dec (n * 60)
                                      | _ => word_value v w
                                      end.
Proof using.
  intros Hw. pose proof (clean_not_nul _ (word_clean _ Hw)) as Hn. unfold word_value.
  destruct w as [s t|s|s|s|n|n| | |s]; cbn [word_text] in Hn; try done; cbn [value_after]; try by apply string_value.
  - cbn [word_ok] in Hw. apply andb_prop in Hw as [Hw%Z.leb_le _]. apply string_value.
    eapply str_all_imp; [|apply dec_aux_digits; lia]. intros d Hd. by apply digit_start.
  - apply string_value. rewrite !str_all_app in Hn. by apply andb_prop in Hn as [_ [Hn _]%andb_prop].
Qed.

Lemma ends_value t w x s ws v :
  word_ok w = true → word_token w = t → (∀ v, word_value v w = x) → ends (expect t) s (w :: ws) v x s ws (value_after v w).
Proof using. intros Hw Ht Hx. rewrite <- (Hx v). by apply ends_expect. Qed.

Lemma ends_string x w s ws v :
  word_ok (WStr w) = true →
  ends (SERVER_STRING x) s (WStr w :: ws) v () (upd_config (set_string x w) s) ws (value_after v (WStr w)).
Proof using.
  intros Hw. eapply ends_bind; [by apply ends_expect|]. rewrite (value_of _ _ Hw). apply ends_upd.
Qed.

Lemma u32_value n v : is_s32 n → settled v (WNum (u32 n)) = true → atoi (word_value v (WNum (u32 n))) = n.
Proof using.
  intros Hn Hs. rewrite number_value by (done || apply u32_range). rewrite s32_u32. by apply s32_id.
Qed.

Lemma put_window_twice n w w' d : put_window n w' (put_window n w d) = put_window n w' d.
Proof using. unfold put_window. cbn. by rewrite insert_insert_eq. Qed.

Lemma severity_read status :
  status ∈ [WARNING; CRITICAL; UNKNOWN] → type_severity (dump_severity status) = Some status.
Proof using. rewrite !elem_of_cons. intros [->|[->|[->|Hn%elem_of_nil]]]; done. Qed.

(** The definition of a type ends as it was printed. *)
Lemma ends_type f t s ws v :
  (3 ≤ f)%nat → item_ok (IType t) → all_settled v (drop 1 (item_words (IType t))) = true →
  ends (do_type f) s (drop 1 (item_words (IType t)) ++ ws) v () (item_run (IType t) s) ws
    (foldl value_after v (drop 1 (item_words (IType t)))).
Proof using.
  intros Hf [Hok (Hfr & [sum Hsum] & Hst)] Hset. destruct f as [|[|[|f]]]; [lia..|].
  pose proof (severity_read _ Hst) as Hsev. destruct t as [name fresh status summary].
  cbn [type_name type_freshness type_status type_summary] in *. subst summary.
  cbn [item_words drop type_name type_freshness type_status type_summary or_null default id foldl app] in *.
  do 8 (apply Forall_cons in Hok as [? Hok]).
  cbn [all_settled settled andb] in Hset. rewrite !andb_true_r in Hset.
  assert (is_s32 fresh) as Hfr' by (unfold is_u16, is_s32 in *; lia).
  pose (ty := λ f st sm, mk_type name f st sm).
  assert (item_run (IType (mk_type name fresh status (Some sum))) s =
    upd_db (put_type name (ty fresh status (Some sum))) (upd_db (put_type name (ty fresh status None))
      (upd_db (put_type name (ty fresh WARNING None)) (upd_db (put_type name (ty 300 WARNING None)) s)))) as ->.
  { unfold upd_db. cbn [srv_db srv_keys srv_config srv_interval item_run type_name]. by rewrite !put_type_twice. }
  unfold do_type. eapply ends_bind; [by apply ends_expect|]. rewrite (value_of v (WType name)) by done.
  eapply ends_bind; [apply ends_save|]. eapply ends_bind; [by apply ends_expect|].
  eapply (ends_bind _ _ _ _ _ (ty fresh status (Some sum))); [|apply ends_ret].
  cbn [type_body]. eapply ends_bind; [apply ends_NEXT|]. cbn beta iota. cbn [word_token].
  eapply ends_bind; [by apply ends_expect|]. rewrite u32_value, u16_id by done.
  eapply ends_bind; [apply ends_save|]. cbn [type_body]. eapply ends_bind; [apply ends_NEXT|]. cbn beta iota. cbn [word_token].
  rewrite (value_of _ (WStr (dump_severity status))), Hsev by done. cbn [type_name type_freshness type_status type_summary].
  eapply ends_bind; [apply ends_save|]. eapply ends_bind; [by apply ends_expect|]. rewrite (value_of _ (WQuoted sum)) by done.
  eapply ends_bind; [apply ends_save|]. cbn [type_body]. eapply ends_bind; [apply ends_NEXT|]. apply ends_ret.
Qed.

Lemma ends_window_target w x s ws v :
  word_ok (window_word w) = true → is_s32 (window_time w) → settled v (window_word w) = true →
  (∀ n, window_name w = Some n → windows (srv_db s) !! n = Some w) →
  let v' := value_after v (window_word w) in
  ends window_target s (window_word w :: x :: ws) v (Some w, (word_token x, word_value v' x))
    (upd_db (put_anon w) s) ws (value_after v' x).
Proof using.
  intros Hok Ht Hs Hw v'. subst v'. destruct w as [[n|] time]; unfold window_word, put_anon in *; cbn [window_name window_time] in *.
  - eapply ends_bind; [apply ends_NEXT|]. cbn beta iota. cbn [word_token].
    eapply ends_bind; [apply ends_server|]. eapply ends_bind; [apply ends_NEXT|].
    rewrite (value_of _ (WWin n)), (Hw n) by done. replace (upd_db _ s) with s by (by destruct s). apply ends_ret.
  - eapply ends_bind; [apply ends_NEXT|]. cbn beta iota zeta. cbn [word_token]. rewrite u32_value by done.
    eapply ends_bind; [apply ends_upd|]. eapply ends_bind; [apply ends_NEXT|]. apply ends_ret.
Qed.

Lemma ends_entry f k w n s ws v :
  item_ok (IEntry k w n) → item_pre (IEntry k w n) s → settled v (window_word w) = true →
  ends (directive f now (entry_key k).2) s (window_word w :: WStr n :: ws) v () (item_run (IEntry k w n) s) ws
    (value_after (value_after v (window_word w)) (WStr n)).
Proof using.
  intros [Hok Hw] Hpre Hs. do 3 (apply Forall_cons in Hok as [? Hok]).
  pose proof (ends_window_target w (WStr n) s ws v ltac:(done) Hw Hs Hpre) as Ht. cbv zeta in Ht. rewrite value_of in Ht by done.
  destruct k; (eapply ends_bind; [exact Ht|]); cbn beta iota; cbn [word_token].
  - exact (ends_upd (upd_db (put_entry ECounter w n)) _ _ _).
  - exact (ends_upd (upd_db (put_entry ESample w n)) _ _ _).
  - exact (ends_upd (upd_db (put_entry ERate w n)) _ _ _).
Qed.

(** A directive that was printed does again what it says. *)
Lemma ends_item f i s ws v :
  (3 ≤ f)%nat → item_ok i → item_pre i s → all_settled v (item_words i) = true →
  ∃ k t args, item_words i = WKey k t :: args ∧
    ends (directive f now t) s (args ++ ws) (value_after v (WKey k t)) () (item_run i s) ws (foldl value_after v (item_words i)).
Proof using.
  intros Hf Hok Hpre Hset.
  destruct i as [x u|n|n|n|a b|t|t n|n time|k w n]; (eexists _, _, _; split; [reflexivity|]); cbn [item_words key fst snd app foldl all_settled settled andb] in *;
    rewrite ?andb_true_r in Hset; cbn [directive].
  - destruct Hok as [Hok Hx]. do 2 (apply Forall_cons in Hok as [? Hok]).
    destruct x; try (by apply ends_string); exfalso; apply Hx; rewrite !elem_of_cons; auto.
  - destruct Hok as [_ Hn]. eapply ends_bind; [apply ends_NEXT|]. cbn beta iota. cbn [word_token].
    eapply ends_bind; [apply ends_upd|]. rewrite u32_value by done. exact (ends_upd (upd_config (set_events_max n)) _ _ _).
  - destruct Hok as [Hok _]. do 2 (apply Forall_cons in Hok as [? Hok]).
    eapply ends_bind; [apply ends_NEXT|]. cbn beta iota. cbn [word_token].
    eapply ends_bind; [apply ends_upd|]. rewrite (value_of _ (WTime n)) by done.
    cbn [word_ok] in H1. apply andb_prop in H1 as [H1%Z.leb_le H2%Z.ltb_lt].
    rewrite <- (str_app_nil_r (dec (n * 60))), atoi_dec_end by (done || unfold is_s32; lia).
    exact (ends_upd (upd_config (set_events_max (n * 60))) _ _ _).
  - destruct Hok as [_ Hn]. eapply ends_bind; [apply ends_NEXT|]. cbn beta iota. rewrite u32_value by done. apply ends_upd.
  - destruct Hok as [Hok _]. do 3 (apply Forall_cons in Hok as [? Hok]).
    eapply ends_bind; [by apply ends_string|]. by apply (ends_string s_log_facility).
  - apply (ends_type f t s ws (value_after v (WKey "type" T_TYPE))); [done|done|].
    cbn [item_words drop all_settled settled andb]. by rewrite !andb_true_r.
  - destruct Hok as [Hok _]. do 3 (apply Forall_cons in Hok as [? Hok]).
    unfold do_state. eapply ends_bind.
    { eapply ends_bind; [apply ends_NEXT|]. cbn beta iota. cbn [word_token]. eapply ends_bind; [apply ends_server|].
      eapply ends_bind; [apply ends_NEXT|]. apply ends_ret. }
    rewrite (value_of _ (WType (type_name t))), (value_of _ (WStr n)) by done. cbn [item_pre] in Hpre. rewrite Hpre.
    cbn beta iota. cbn [word_token]. apply ends_upd.
  - destruct Hok as [Hok Ht]. do 3 (apply Forall_cons in Hok as [? Hok]).
    eapply ends_bind; [by apply ends_expect|]. rewrite (value_of _ (WWin n)) by done.
    eapply ends_bind; [apply ends_upd|]. eapply ends_bind; [by apply ends_expect|]. rewrite u32_value by done.
    replace (item_run _ s) with (upd_db (put_window n (mk_window (Some n) time)) (upd_db (put_window n (mk_window (Some n) 0)) s)).
    + apply ends_upd.
    + unfold upd_db. cbn [srv_db item_run]. by rewrite put_window_twice.
  - by apply ends_entry.
Qed.

(** ** A file of directives *)

Fixpoint items_pre (its : list item) (s : server_t) : Prop :=
  match its with
  | [] => True
  | i :: its' => item_pre i s ∧ items_pre its' (item_run i s)
  end.
Definition items_run (its : list item) (s : server_t) : server_t := foldl (λ s i, item_run i s) s its.

Lemma directives_items fuel its s v p :
  (length its + 4 ≤ fuel)%nat → Forall item_ok its → items_pre its s → all_settled v (its ≫= item_words) = true →
  reads p (its ≫= item_words) → p_value p = v →
  ∃ p', directives fuel now (mk_cfg p s None None) = (Done (), mk_cfg p' (items_run its s) None None) ∧ p_eof p' = true.
Proof using.
  intros Hf Hok. revert fuel s v p Hf. induction Hok as [|i its Hi Hok IH]; intros fuel s v p Hf Hpre Hset Hr Hv;
    (destruct fuel as [|fuel]; [cbn [length] in Hf; lia|]); cbn [directives].
  - destruct (reads_nil _ Hr) as (p' & El & He). exists p'. split; [|done].
    unfold mbind, Cfg_bind, lex_m. cbn [c_p]. by rewrite El.
  - destruct Hpre as [Hpre Hpres]. change ((i :: its) ≫= item_words) with (item_words i ++ (its ≫= item_words)) in *.
    rewrite all_settled_app in Hset. apply andb_prop in Hset as [Hs1 Hs2]. cbn [length] in Hf.
    destruct (ends_item fuel i s (its ≫= item_words) v ltac:(lia) Hi Hpre Hs1) as (k & t & args & Ew & He).
    rewrite Ew in Hr. destruct (ends_lex (WKey k t) s (args ++ (its ≫= item_words)) v p Hr Hv) as (p1 & E1 & Hr1 & Hv1).
    destruct (He p1 Hr1 Hv1) as (p2 & E2 & Hr2 & Hv2).
    destruct (IH fuel (item_run i s) _ p2 ltac:(lia) Hpres Hs2 Hr2 Hv2) as (p3 & E3 & He3).
    exists p3. split; [|done]. unfold mbind, Cfg_bind. rewrite E1. cbn [word_token]. by rewrite E2.
Qed.

Lemma configure_items fuel xs its s :
  (length its + 4 ≤ fuel)%nat → Forall (λ x, piece_ok x = true) xs → words_of xs = its ≫= item_words →
  Forall item_ok its → items_pre its (upd_db init_db s) → all_settled "" (its ≫= item_words) = true →
  configure fuel now (Some (text_of xs)) s = (Some 0, items_run its (upd_db init_db s)).
Proof using.
  intros Hf Hxs Hws Hok Hpre Hset. unfold configure. pose proof (reads_init xs Hxs) as Hr. rewrite Hws in Hr.
  destruct (directives_items fuel its (upd_db init_db s) "" _ Hf Hok Hpre Hset Hr eq_refl) as (p' & E & He).
  rewrite E. cbn [c_p c_s]. by rewrite He.
Qed.
End interpreter.
