(* ===== verification/DumpFacts.v ===== *)
(** * Theorems on the aggregator's command

    The dump of a configuration ([bolo aggr -D]) can be used as a
    configuration: it is read back to the same settings and tables.  What it
    leaves out, and the exit codes of the command. *)

From S2P Require Import Prelude CLib Vigor Bytes Data Binf Core CoreFacts Config LexFacts ConfigFacts Startup Dump PrintFacts.
From Stdlib Require Import Ascii.

Section dump.
Context `{VL : VigorLaws} `{Pcre} (now : Z).

(** ** The directives of a dump *)

Definition max_item (c : config_t) : item :=
  if cfg_events_keep c =? EVENTS_KEEP_NUMBER then IMaxNumber (cfg_events_max c)
  else IMaxTime (cfg_events_max c / 60).

Definition setting_items (c : config_t) : list item :=
  [ISet s_listener (or_null (cfg_listener c)); ISet s_controller (or_null (cfg_controller c));
   ISet s_broadcast (or_null (cfg_broadcast c)); ISet s_runas_user (or_null (cfg_runas_user c));
   ISet s_runas_group (or_null (cfg_runas_group c)); ISet s_pidfile (or_null (cfg_pidfile c));
   ISet s_savefile (or_null (cfg_savefile c)); ISet s_keysfile (or_null (cfg_keysfile c));
   max_item c; IGrace (cfg_grace_period c); ILog (or_null (cfg_log_level c)) (or_null (cfg_log_facility c))].

Definition type_items (d : db_t) : list item := (λ kt, IType kt.2) <$> for_each (types d).
Definition state_items (d : db_t) : list item := (λ ks, IState (state_type ks.2) (state_name ks.2)) <$> for_each (states d).
Definition window_items (d : db_t) : list item := (λ kw, IWindow kw.1 (window_time kw.2)) <$> for_each (windows d).
Definition counter_items (d : db_t) : list item := (λ kc, IEntry ECounter (counter_window kc.2) (counter_name kc.2)) <$> for_each (counters d).
Definition sample_items (d : db_t) : list item := (λ ks, IEntry ESample (sample_window ks.2) (sample_name ks.2)) <$> for_each (samples d).
Definition rate_items (d : db_t) : list item := (λ kr, IEntry ERate (rate_window kr.2) (rate_name kr.2)) <$> for_each (rates d).

Definition dump_items (s : server_t) : list item :=
  let d := srv_db s in
  setting_items (srv_config s) ++ type_items d ++ state_items d ++ window_items d ++
  counter_items d ++ sample_items d ++ rate_items d.

(** ** The lines of a dump *)

(** The blanks behind a setting's keyword. *)
Definition setting_line (x : setting) (v : string) : piece :=
  Words [("", key (setting_key x)); (blanks (12 - String.length (setting_key x).1), WStr v)].

Definition flat_line (i : item) : piece :=
  Words (match item_words i with [] => [] | w :: ws => ("", w) :: ((" ",.) <$> ws) end).

Definition type_lines (t : type_t) : list piece :=
  let sev := dump_severity (type_status t) in
  [Words [("", WKey "type" T_TYPE); (" ", WType (type_name t)); (" ", WOpen)];
   Words [("    ", WKey "freshness" T_FRESHNESS); (" ", WNum (u32 (type_freshness t)))];
   Words [("    ", WStr sev); (blanks (9 - String.length sev) +:+ " ", WQuoted (or_null (type_summary t)))];
   Words [("", WClose)]; Blank].

Definition max_line (c : config_t) : piece :=
  match item_words (max_item c) with
  | [k; n] => Words [("", k); ("  ", n)]
  | _ => Blank
  end.

Definition group_lines (its : list item) : list piece :=
  (flat_line <$> its) ++ match its with [] => [] | _ => [Blank] end.

Definition setting_lines (file : string) (c : config_t) : list piece :=
  [Comment " bolo configuration"; Comment (" (from " +:+ file +:+ ")"); Blank;
   setting_line s_listener (or_null (cfg_listener c)); setting_line s_controller (or_null (cfg_controller c));
   setting_line s_broadcast (or_null (cfg_broadcast c)); Blank;
   setting_line s_runas_user (or_null (cfg_runas_user c)); setting_line s_runas_group (or_null (cfg_runas_group c));
   setting_line s_pidfile (or_null (cfg_pidfile c)); Blank;
   setting_line s_savefile (or_null (cfg_savefile c)); setting_line s_keysfile (or_null (cfg_keysfile c));
   max_line c; Blank;
   flat_line (IGrace (cfg_grace_period c));
   flat_line (ILog (or_null (cfg_log_level c)) (or_null (cfg_log_facility c))); Blank].

Definition dump_lines (file : string) (s : server_t) : list piece :=
  let d := srv_db s in
  setting_lines file (srv_config s) ++
  (for_each (types d) ≫= λ kt, type_lines kt.2) ++
  group_lines (state_items d) ++ group_lines (window_items d) ++
  group_lines (counter_items d) ++ group_lines (sample_items d) ++
  (flat_line <$> rate_items d).

(** ** The text is that of the lines *)

Lemma text_of_app xs ys : text_of (xs ++ ys) = text_of xs +:+ text_of ys.
Proof using. unfold text_of. by rewrite fmap_app, str_concat_app. Qed.

Lemma words_of_app xs ys : words_of (xs ++ ys) = words_of xs ++ words_of ys.
Proof using. apply bind_app. Qed.

(** Settings whose events are kept in whole minutes. *)
Definition printable_max (c : config_t) : Prop :=
  cfg_events_keep c ∈ [EVENTS_KEEP_NUMBER; EVENTS_KEEP_TIME] ∧
  (cfg_events_keep c = EVENTS_KEEP_TIME → 0 ≤ cfg_events_max c ∧ cfg_events_max c mod 60 = 0).

Lemma u32_small n : 0 ≤ n < 2 ^ 31 → u32 n = n.
Proof using. intros Hn. apply u32_id. unfold is_u32. lia. Qed.

Lemma wline_text_cons b w l : wline_text ((b, w) :: l) = b +:+ word_text w +:+ wline_text l.
Proof using. change (wline_text ?l) with (words_text l +:+ nl). rewrite words_text_cons. by rewrite !str_app_assoc. Qed.

(** Texts that differ in how they are put together. *)
Ltac same_text :=
  cbn [piece_text]; rewrite ?wline_text_cons; cbn [word_text key fst snd setting_key entry_key];
  rewrite ?str_app_assoc; reflexivity.

Lemma max_line_text c :
  is_s32 (cfg_events_max c) → printable_max c → piece_text (max_line c) = "max.events  " +:+ dump_max_events c +:+ nl.
Proof using.
  intros Hs [Hk Hm]. unfold max_line, max_item, dump_max_events.
  destruct (Z.eqb_spec (cfg_events_keep c) EVENTS_KEEP_NUMBER) as [E|E]; cbn [item_words].
  - same_text.
  - destruct Hm as [H0 H1]; [rewrite !elem_of_cons in Hk; destruct Hk as [?|[?|?%elem_of_nil]]; done|].
    unfold is_s32 in Hs. unfold fmt_u. rewrite Z.quot_div_nonneg, u32_small by zlia. same_text.
Qed.

Lemma settings_text file c :
  is_s32 (cfg_events_max c) → printable_max c → text_of (setting_lines file c) = dump_settings file c.
Proof using.
  intros Hs Hm. unfold setting_lines. rewrite !text_of_cons, max_line_text by done.
  unfold setting_line, flat_line, dump_settings, text_of. cbn [item_words fmap list_fmap String.concat piece_text].
  same_text.
Qed.

Definition window_defined (d : db_t) (w : window_t) : Prop :=
  is_s32 (window_time w) ∧ ∀ n, window_name w = Some n → windows d !! n = Some w.

(** A server as a configuration leaves it: settings that are set, types and
    windows under their names, and entries as they are created, whose type or
    window is the one that is defined now. *)
Record dumpable (s : server_t) : Prop := {
  dp_settings : Forall is_Some
    (let c := srv_config s in
     [cfg_listener c; cfg_controller c; cfg_broadcast c; cfg_runas_user c; cfg_runas_group c; cfg_pidfile c;
      cfg_savefile c; cfg_keysfile c; cfg_log_level c; cfg_log_facility c]);
  dp_max : is_s32 (cfg_events_max (srv_config s)) ∧ printable_max (srv_config s);
  dp_grace : is_s32 (cfg_grace_period (srv_config s));
  dp_types : map_Forall (λ k t, type_name t = k ∧ is_u16 (type_freshness t) ∧ is_Some (type_summary t) ∧
                                 type_status t ∈ [WARNING; CRITICAL; UNKNOWN]) (types (srv_db s));
  dp_windows : map_Forall (λ k w, window_name w = Some k ∧ is_s32 (window_time w)) (windows (srv_db s));
  dp_states : map_Forall (λ k st, st = new_state now k (state_type st) ∧
                                  types (srv_db s) !! type_name (state_type st) = Some (state_type st)) (states (srv_db s));
  dp_counters : map_Forall (λ k c, c = new_counter k (counter_window c) ∧ window_defined (srv_db s) (counter_window c))
                  (counters (srv_db s));
  dp_samples : map_Forall (λ k x, x = new_sample k (sample_window x) ∧ window_defined (srv_db s) (sample_window x))
                 (samples (srv_db s));
  dp_rates : map_Forall (λ k x, x = new_rate k (rate_window x) ∧ window_defined (srv_db s) (rate_window x))
               (rates (srv_db s));
}.

(** What holds of every entry of a table holds in its enumeration. *)
Lemma for_each_Forall {A} (P : string → A → Prop) (m : gmap string A) :
  map_Forall P m → Forall (λ kv, P kv.1 kv.2) (for_each m).
Proof using VL.
  intros Hm. apply Forall_forall. intros [k v] Hin. apply elem_of_for_each in Hin. by apply Hm.
Qed.

Lemma type_lines_text k t : type_name t = k → text_of (type_lines t) = dump_type (k, t).
Proof using.
  intros <-. unfold type_lines, dump_type, text_of, pad_right. cbn [fmap list_fmap String.concat]. same_text.
Qed.

Lemma types_text l :
  Forall (λ kt : string * type_t, type_name kt.2 = kt.1) l →
  text_of (l ≫= λ kt, type_lines kt.2) = String.concat "" (dump_type <$> l).
Proof using.
  induction 1 as [|[k t] l Hk _ IH]; [done|]. rewrite fmap_cons, str_concat_cons, bind_cons, text_of_app.
  change ((k, t).2) with t. by rewrite (type_lines_text k t), IH.
Qed.

Lemma flat_text {A} (item_of : A → item) (text : A → string) l :
  Forall (λ x, piece_text (flat_line (item_of x)) = text x) l →
  text_of (flat_line <$> (item_of <$> l)) = String.concat "" (text <$> l).
Proof using.
  induction 1 as [|x l Hx _ IH]; [done|]. by rewrite !fmap_cons, str_concat_cons, text_of_cons, Hx, IH.
Qed.

Lemma group_text {A} (item_of : A → item) (text : A → string) l :
  Forall (λ x, piece_text (flat_line (item_of x)) = text x) l →
  text_of (group_lines (item_of <$> l)) = dump_group text l.
Proof using.
  intros Hl. unfold group_lines. rewrite text_of_app, (flat_text _ _ _ Hl). unfold dump_group. by destruct l.
Qed.

Lemma entry_text k w n :
  piece_text (flat_line (IEntry k w n)) = dump_entry_of (entry_key k).1 w n.
Proof using.
  assert (match window_name w with Some n => n | None => fmt_u (window_time w) end = word_text (window_word w)) as Ew.
  { unfold window_word. by destruct (window_name w). }
  unfold flat_line, dump_entry_of. rewrite Ew. destruct k; cbn [item_words fmap list_fmap]; same_text.
Qed.

Lemma dump_text file s : dumpable s → text_of (dump_lines file s) = dump_config file s.
Proof using VL.
  intros Hs. destruct (dp_max s Hs) as [Hm1 Hm2]. unfold dump_lines, dump_config. rewrite !text_of_app, settings_text by done.
  rewrite types_text by (apply (for_each_Forall (λ k t, type_name t = k)); eapply map_Forall_impl; [apply (dp_types s Hs)|]; by intros k t [? _]).
  unfold state_items, window_items, counter_items, sample_items, rate_items.
  rewrite (group_text _ dump_state), (group_text _ dump_window).
  - rewrite (group_text _ _ (for_each (counters _))) by (apply Forall_true; intros x; apply entry_text).
    rewrite (group_text _ _ (for_each (samples _))) by (apply Forall_true; intros x; apply entry_text).
    by rewrite (flat_text _ _ (for_each (rates _))) by (apply Forall_true; intros x; apply entry_text).
  - apply Forall_true. intros [k w]. unfold flat_line, dump_window, fmt_u. cbn [item_words fmap list_fmap fst snd]. same_text.
  - apply Forall_true. intros [k st]. unfold flat_line, dump_state. cbn [item_words fmap list_fmap fst snd]. same_text.
Qed.

Lemma flat_words its : words_of (flat_line <$> its) = its ≫= item_words.
Proof using.
  induction its as [|i its IH]; [done|]. rewrite fmap_cons, bind_cons.
  change (words_of (?x :: ?xs)) with (piece_words x ++ words_of xs). rewrite IH. f_equal.
  unfold flat_line. cbn [piece_words]. destruct (item_words i) as [|w ws]; [done|]. cbn. f_equal.
  induction ws as [|w' ws IHw]; [done|]. cbn. by f_equal.
Qed.

Lemma group_words its : words_of (group_lines its) = its ≫= item_words.
Proof using.
  unfold group_lines. rewrite words_of_app, flat_words. destruct its as [|i its]; [done|].
  change (words_of [Blank]) with (@nil word). by rewrite app_nil_r.
Qed.

Lemma types_words (l : list (string * type_t)) :
  words_of (l ≫= λ kt, type_lines kt.2) = ((λ kt, IType kt.2) <$> l) ≫= item_words.
Proof using.
  induction l as [|[k t] l IH]; [done|]. rewrite fmap_cons, !bind_cons, words_of_app, IH. done.
Qed.

Lemma settings_words file c : words_of (setting_lines file c) = setting_items c ≫= item_words.
Proof using.
  unfold setting_lines, setting_items, max_line, max_item. by destruct (cfg_events_keep c =? EVENTS_KEEP_NUMBER).
Qed.

Lemma dump_words file s : words_of (dump_lines file s) = dump_items s ≫= item_words.
Proof using.
  unfold dump_lines, dump_items. rewrite !words_of_app, !bind_app, settings_words, types_words, !group_words, flat_words. done.
Qed.

(** ** The directives are those of a configuration *)

Lemma gaps_words l : gaps_ok l = true → Forall (λ w, word_ok w = true) l.*2.
Proof using.
  induction l as [|[b w] l IH]; [constructor|]. cbn [gaps_ok]. intros [[_ Hw]%andb_prop Hl]%andb_prop. constructor; [done|by apply IH].
Qed.

Lemma pieces_words xs : Forall (λ x, piece_ok x = true) xs → Forall (λ w, word_ok w = true) (words_of xs).
Proof using.
  induction 1 as [|x xs Hx _ IH]; [constructor|]. change (words_of (x :: xs)) with (piece_words x ++ words_of xs).
  apply Forall_app. split; [|done]. destruct x as [|t|l]; [constructor..|]. cbn [piece_ok piece_words] in *.
  apply andb_prop in Hx as [Hl _]. destruct l as [|[b w] l]; [done|].
  apply andb_prop in Hl as [[[_ Hw]%andb_prop Hg]%andb_prop _]. constructor; [done|by apply gaps_words].
Qed.

Lemma dump_ranges s : dumpable s → Forall item_range (dump_items s).
Proof using VL.
  intros Hs. destruct (dp_max s Hs) as [Hm1 [Hk Hm2]]. unfold dump_items, setting_items, max_item.
  repeat (apply Forall_app; split).
  - assert (∀ x, x ∉ [s_log_level; s_log_facility] ↔ x ≠ s_log_level ∧ x ≠ s_log_facility) as Hx.
    { intros x. rewrite !not_elem_of_cons. pose proof (not_elem_of_nil x). tauto. }
    repeat (apply Forall_cons; split); try (by apply Hx); try done.
    + by destruct (cfg_events_keep (srv_config s) =? EVENTS_KEEP_NUMBER).
    + apply (dp_grace s Hs).
  - apply Forall_fmap, (for_each_Forall (λ _ t, item_range (IType t))). eapply map_Forall_impl; [apply (dp_types s Hs)|].
    by intros k t [_ ?].
  - by apply Forall_fmap, Forall_true.
  - apply Forall_fmap, (for_each_Forall (λ k w, item_range (IWindow k (window_time w)))).
    eapply map_Forall_impl; [apply (dp_windows s Hs)|]. by intros k w [_ ?].
  - apply Forall_fmap, (for_each_Forall (λ k x, item_range (IEntry ECounter (counter_window x) (counter_name x)))).
    eapply map_Forall_impl; [apply (dp_counters s Hs)|]. by intros k x [_ [? _]].
  - apply Forall_fmap, (for_each_Forall (λ k x, item_range (IEntry ESample (sample_window x) (sample_name x)))).
    eapply map_Forall_impl; [apply (dp_samples s Hs)|]. by intros k x [_ [? _]].
  - apply Forall_fmap, (for_each_Forall (λ k x, item_range (IEntry ERate (rate_window x) (rate_name x)))).
    eapply map_Forall_impl; [apply (dp_rates s Hs)|]. by intros k x [_ [? _]].
Qed.

Lemma dump_items_ok file s :
  dumpable s → Forall (λ x, piece_ok x = true) (dump_lines file s) → Forall item_ok (dump_items s).
Proof using VL.
  intros Hs Hxs%pieces_words. rewrite dump_words in Hxs. apply Forall_bind in Hxs. apply Forall_and.
  split; [done|by apply dump_ranges].
Qed.

(** ** What they do *)

Definition insert_all {A} (l : list (string * A)) (m : gmap string A) : gmap string A :=
  foldl (λ m kv, <[kv.1 := kv.2]> m) m l.

Lemma insert_all_union {A} (l : list (string * A)) m : NoDup l.*1 → insert_all l m = list_to_map l ∪ m.
Proof using.
  revert m. induction l as [|[k v] l IH]; intros m Hnd; cbn; [by rewrite map_empty_union|].
  cbn in Hnd. apply NoDup_cons in Hnd as [Hk Hnd]. unfold insert_all in IH. rewrite IH by done.
  rewrite <- insert_union_l, <- insert_union_r; [done|]. by apply not_elem_of_list_to_map.
Qed.

(** Inserting the entries of a table one by one gives the table. *)
Lemma insert_all_table {A} (f : string * A → string * A) (m : gmap string A) :
  map_Forall (λ k v, f (k, v) = (k, v)) m → insert_all (f <$> for_each m) ∅ = m.
Proof using VL.
  intros Hf. assert (f <$> for_each m = for_each m) as ->.
  { rewrite <- (list_fmap_id (for_each m)) at 2. apply list_fmap_ext. intros i [k v] Hi.
    apply Hf, elem_of_for_each. by eapply list_elem_of_lookup_2. }
  rewrite insert_all_union by apply for_each_NoDup. rewrite map_union_empty.
  rewrite (list_to_map_proper (for_each m) (map_to_list m)); [apply list_to_map_to_list|apply for_each_NoDup|apply for_each_perm].
Qed.

Lemma items_run_app a b s : items_run now (a ++ b) s = items_run now b (items_run now a s).
Proof using. apply foldl_app. Qed.

Lemma items_pre_app a b s : items_pre now (a ++ b) s ↔ items_pre now a s ∧ items_pre now b (items_run now a s).
Proof using. revert s. induction a as [|i a IH]; intros s; cbn; [tauto|]. rewrite IH. tauto. Qed.

(** A property of the server that the directives keep and need. *)
Lemma items_pre_inv (I : server_t → Prop) its s :
  Forall (λ i, ∀ s, I s → item_pre i s ∧ I (item_run now i s)) its → I s → items_pre now its s.
Proof using.
  intros Hi. revert s. induction Hi as [|i its Hi _ IH]; intros s Hs; [done|]. destruct (Hi s Hs) as [H1 H2]. split; [done|by apply IH].
Qed.

Lemma items_run_db {A} (item_of : A → item) (step : A → db_t → db_t) l s :
  (∀ x s, item_run now (item_of x) s = upd_db (step x) s) →
  items_run now (item_of <$> l) s = upd_db (λ d, foldl (λ d x, step x d) d l) s.
Proof using.
  intros Hstep. revert s. induction l as [|x l IH]; intros s; [by destruct s|].
  change (items_run now (item_of <$> x :: l) s) with (items_run now (item_of <$> l) (item_run now (item_of x) s)).
  by rewrite IH, Hstep.
Qed.

Definition with_types (m : gmap string type_t) (d : db_t) : db_t :=
  mk_db _ (states d) (counters d) (samples d) (rates d) (events d) (events_count d)
    (state_matches d) (counter_matches d) (sample_matches d) (rate_matches d) m (windows d) (anon_windows d).
Definition with_windows (m : gmap string window_t) (d : db_t) : db_t :=
  mk_db _ (states d) (counters d) (samples d) (rates d) (events d) (events_count d)
    (state_matches d) (counter_matches d) (sample_matches d) (rate_matches d) (types d) m (anon_windows d).
Definition with_anon (l : list window_t) (d : db_t) : db_t :=
  mk_db _ (states d) (counters d) (samples d) (rates d) (events d) (events_count d)
    (state_matches d) (counter_matches d) (sample_matches d) (rate_matches d) (types d) (windows d) l.

Lemma put_anon_with w d : ∃ a, put_anon w d = with_anon a d.
Proof using. unfold put_anon. destruct (window_name w); [exists (anon_windows d); by destruct d|by eexists]. Qed.

Lemma types_run (l : list (string * type_t)) s :
  items_run now ((λ kt, IType kt.2) <$> l) s =
    upd_db (λ d, with_types (insert_all ((λ kt, (type_name kt.2, kt.2)) <$> l) (types d)) d) s.
Proof using.
  rewrite (items_run_db _ (λ kt, put_type (type_name kt.2) kt.2)) by done. unfold upd_db. f_equal.
  generalize (srv_db s). induction l as [|kt l IH]; intros d; [by destruct d|]. cbn [foldl]. by rewrite IH.
Qed.

Lemma states_run (l : list (string * state_t)) s :
  items_run now ((λ ks, IState (state_type ks.2) (state_name ks.2)) <$> l) s =
    upd_db (λ d, set_states (insert_all ((λ ks, (state_name ks.2, new_state now (state_name ks.2) (state_type ks.2))) <$> l) (states d)) d) s.
Proof using.
  rewrite (items_run_db _ (λ ks, put_state (state_name ks.2) (new_state now (state_name ks.2) (state_type ks.2)))) by done.
  unfold upd_db. f_equal. generalize (srv_db s). induction l as [|ks l IH]; intros d; [by destruct d|]. cbn [foldl]. by rewrite IH.
Qed.

Lemma windows_run (l : list (string * window_t)) s :
  items_run now ((λ kw, IWindow kw.1 (window_time kw.2)) <$> l) s =
    upd_db (λ d, with_windows (insert_all ((λ kw, (kw.1, mk_window (Some kw.1) (window_time kw.2))) <$> l) (windows d)) d) s.
Proof using.
  rewrite (items_run_db _ (λ kw, put_window kw.1 (mk_window (Some kw.1) (window_time kw.2)))) by done.
  unfold upd_db. f_equal. generalize (srv_db s). induction l as [|kw l IH]; intros d; [by destruct d|]. cbn [foldl]. by rewrite IH.
Qed.

Lemma counters_run (l : list (string * counter_t)) s :
  ∃ a, items_run now ((λ kx, IEntry ECounter (counter_window kx.2) (counter_name kx.2)) <$> l) s =
    upd_db (λ d, with_anon a (set_counters (insert_all ((λ kx, (counter_name kx.2, new_counter (counter_name kx.2) (counter_window kx.2))) <$> l)
                                              (counters d)) d)) s.
Proof using.
  rewrite (items_run_db _ (λ kx d, put_entry ECounter (counter_window kx.2) (counter_name kx.2) (put_anon (counter_window kx.2) d))) by done.
  unfold upd_db. generalize (srv_db s). intros d.
  assert (∃ a, foldl (λ d kx, put_entry ECounter (counter_window kx.2) (counter_name kx.2) (put_anon (counter_window kx.2) d)) d l =
    with_anon a (set_counters (insert_all ((λ kx, (counter_name kx.2, new_counter (counter_name kx.2) (counter_window kx.2))) <$> l) (counters d)) d)) as [a Ea].
  { revert d. induction l as [|kx l IH]; intros d; [exists (anon_windows d); by destruct d|]. cbn [foldl].
    destruct (put_anon_with (counter_window kx.2) d) as [a ->].
    destruct (IH (put_entry ECounter (counter_window kx.2) (counter_name kx.2) (with_anon a d))) as [a' ->]. by exists a'. }
  exists a. by rewrite Ea.
Qed.

Lemma samples_run (l : list (string * sample_t double)) s :
  ∃ a, items_run now ((λ kx, IEntry ESample (sample_window kx.2) (sample_name kx.2)) <$> l) s =
    upd_db (λ d, with_anon a (set_samples (insert_all ((λ kx, (sample_name kx.2, new_sample (sample_name kx.2) (sample_window kx.2))) <$> l)
                                              (samples d)) d)) s.
Proof using.
  rewrite (items_run_db _ (λ kx d, put_entry ESample (sample_window kx.2) (sample_name kx.2) (put_anon (sample_window kx.2) d))) by done.
  unfold upd_db. generalize (srv_db s). intros d.
  assert (∃ a, foldl (λ d kx, put_entry ESample (sample_window kx.2) (sample_name kx.2) (put_anon (sample_window kx.2) d)) d l =
    with_anon a (set_samples (insert_all ((λ kx, (sample_name kx.2, new_sample (sample_name kx.2) (sample_window kx.2))) <$> l) (samples d)) d)) as [a Ea].
  { revert d. induction l as [|kx l IH]; intros d; [exists (anon_windows d); by destruct d|]. cbn [foldl].
    destruct (put_anon_with (sample_window kx.2) d) as [a ->].
    destruct (IH (put_entry ESample (sample_window kx.2) (sample_name kx.2) (with_anon a d))) as [a' ->]. by exists a'. }
  exists a. by rewrite Ea.
Qed.

Lemma rates_run (l : list (string * rate_t)) s :
  ∃ a, items_run now ((λ kx, IEntry ERate (rate_window kx.2) (rate_name kx.2)) <$> l) s =
    upd_db (λ d, with_anon a (set_rates (insert_all ((λ kx, (rate_name kx.2, new_rate (rate_name kx.2) (rate_window kx.2))) <$> l)
                                              (rates d)) d)) s.
Proof using.
  rewrite (items_run_db _ (λ kx d, put_entry ERate (rate_window kx.2) (rate_name kx.2) (put_anon (rate_window kx.2) d))) by done.
  unfold upd_db. generalize (srv_db s). intros d.
  assert (∃ a, foldl (λ d kx, put_entry ERate (rate_window kx.2) (rate_name kx.2) (put_anon (rate_window kx.2) d)) d l =
    with_anon a (set_rates (insert_all ((λ kx, (rate_name kx.2, new_rate (rate_name kx.2) (rate_window kx.2))) <$> l) (rates d)) d)) as [a Ea].
  { revert d. induction l as [|kx l IH]; intros d; [exists (anon_windows d); by destruct d|]. cbn [foldl].
    destruct (put_anon_with (rate_window kx.2) d) as [a ->].
    destruct (IH (put_entry ERate (rate_window kx.2) (rate_name kx.2) (with_anon a d))) as [a' ->]. by exists a'. }
  exists a. by rewrite Ea.
Qed.

(** ** Settings *)

(** The configuration that is read back: the settings that are dumped, and
    the others as they were. *)
Definition reread_config (c c0 : config_t) : config_t :=
  mk_config (cfg_listener c) (cfg_controller c) (cfg_broadcast c) (cfg_beacon c0) (cfg_nsca_port c0)
    (cfg_log_level c) (cfg_log_facility c) (cfg_pidfile c) (cfg_runas_user c) (cfg_runas_group c)
    (cfg_savefile c) (cfg_keysfile c) (cfg_save_size c0) (cfg_interval c0)
    (cfg_events_max c) (cfg_events_keep c) (cfg_grace_period c).

Lemma or_null_some x : is_Some x → Some (or_null x) = x.
Proof using. by intros [v ->]. Qed.

Lemma settings_run s s0 :
  dumpable s → items_run now (setting_items (srv_config s)) s0 = upd_config (reread_config (srv_config s)) s0.
Proof using.
  intros Hs. pose proof (dp_settings s Hs) as Hset. cbv zeta in Hset. destruct (dp_max s Hs) as [_ [Hk Hm]].
  do 10 (apply Forall_cons in Hset as [?%or_null_some Hset]).
  assert (items_run now [max_item (srv_config s)] =
    λ s1, upd_config (set_events_max (cfg_events_max (srv_config s))) (upd_config (set_events_keep (cfg_events_keep (srv_config s))) s1)) as Emax.
  { unfold max_item. destruct (Z.eqb_spec (cfg_events_keep (srv_config s)) EVENTS_KEEP_NUMBER) as [->|Hne]; [done|].
    assert (cfg_events_keep (srv_config s) = EVENTS_KEEP_TIME) as E.
    { rewrite !elem_of_cons in Hk. destruct Hk as [?|[?|?%elem_of_nil]]; done. }
    destruct (Hm E) as [H0' H1']. rewrite E. unfold items_run. cbn [foldl item_run].
    by replace (cfg_events_max (srv_config s) / 60 * 60) with (cfg_events_max (srv_config s)) by zlia. }
  unfold setting_items. change (?a :: ?b :: ?c :: ?d :: ?e :: ?f :: ?g :: ?h :: ?m :: ?l) with ([a; b; c; d; e; f; g; h] ++ [m] ++ l).
  rewrite !items_run_app, Emax. clear Emax Hk Hm. destruct s0 as [d ks c0 iv]. destruct c0.
  cbv beta iota zeta delta [items_run foldl item_run upd_config reread_config srv_db srv_keys srv_config srv_interval set_string
    set_events_max set_events_keep set_grace_period]. fold (srv_config s).
  repeat match goal with E : Some (or_null ?x) = ?x |- _ => rewrite E; clear E end. done.
Qed.

(** The tables that are read back. *)
Definition reread_db (d : db_t) (anon : list window_t) : db_t :=
  mk_db _ (states d) (counters d) (samples d) (rates d) [] 0 [] [] [] [] (types d) (windows d) anon.

Lemma tables_reread s (d := srv_db s) :
  dumpable s →
  insert_all ((λ kt, (type_name kt.2, kt.2)) <$> for_each (types d)) ∅ = types d ∧
  insert_all ((λ ks, (state_name ks.2, new_state now (state_name ks.2) (state_type ks.2))) <$> for_each (states d)) ∅ = states d ∧
  insert_all ((λ kw, (kw.1, mk_window (Some kw.1) (window_time kw.2))) <$> for_each (windows d)) ∅ = windows d ∧
  insert_all ((λ kx, (counter_name kx.2, new_counter (counter_name kx.2) (counter_window kx.2))) <$> for_each (counters d)) ∅ = counters d ∧
  insert_all ((λ kx, (sample_name kx.2, new_sample (sample_name kx.2) (sample_window kx.2))) <$> for_each (samples d)) ∅ = samples d ∧
  insert_all ((λ kx, (rate_name kx.2, new_rate (rate_name kx.2) (rate_window kx.2))) <$> for_each (rates d)) ∅ = rates d.
Proof using VL.
  intros Hs. subst d. split_and!; apply insert_all_table; intros k x Hx; cbn [fst snd].
  - by destruct (dp_types s Hs k x Hx) as [-> _].
  - destruct (dp_states s Hs k x Hx) as [E _]. rewrite E. done.
  - destruct (dp_windows s Hs k x Hx) as [E _]. destruct x as [n t]. cbn [window_name window_time] in *. by subst n.
  - destruct (dp_counters s Hs k x Hx) as [E _]. rewrite E. done.
  - destruct (dp_samples s Hs k x Hx) as [E _]. rewrite E. done.
  - destruct (dp_rates s Hs k x Hx) as [E _]. rewrite E. done.
Qed.

(** The fields of a server that is built field by field. *)
Ltac reduce_db :=
  cbn [srv_db srv_config srv_keys srv_interval states counters samples rates types windows events events_count
    state_matches counter_matches sample_matches rate_matches anon_windows].

Lemma dump_run s :
  dumpable s → ∃ anon, items_run now (dump_items s) default_server =
    mk_server _ (reread_db (srv_db s) anon) ∅ (reread_config (srv_config s) default_config) (srv_interval default_server).
Proof using VL.
  intros Hs. destruct (tables_reread s Hs) as (Et & Es & Ew & Ec & Em & Er).
  unfold dump_items. rewrite !items_run_app, settings_run by done.
  set (c := reread_config (srv_config s) default_config). set (i := srv_interval default_server).
  change (upd_config (reread_config (srv_config s)) default_server) with
    (mk_server _ (mk_db _ ∅ ∅ ∅ ∅ [] 0 [] [] [] [] ∅ ∅ []) ∅ c i).
  unfold type_items. rewrite types_run. unfold upd_db, with_types. reduce_db. rewrite Et.
  unfold state_items. rewrite states_run. unfold upd_db, set_states. reduce_db. rewrite Es.
  unfold window_items. rewrite windows_run. unfold upd_db, with_windows. reduce_db. rewrite Ew.
  unfold counter_items. edestruct (counters_run (for_each (counters (srv_db s)))) as [a1 ->].
  unfold upd_db, with_anon, set_counters. reduce_db. rewrite Ec.
  unfold sample_items. edestruct (samples_run (for_each (samples (srv_db s)))) as [a2 ->].
  unfold upd_db, with_anon, set_samples. reduce_db. rewrite Em.
  unfold rate_items. edestruct (rates_run (for_each (rates (srv_db s)))) as [a3 ->].
  unfold upd_db, with_anon, set_rates. reduce_db. rewrite Er. by exists a3.
Qed.

Lemma items_pre_none its s : Forall (λ i, ∀ s, item_pre i s) its → items_pre now its s.
Proof using.
  intros Hi. apply (items_pre_inv (λ _, True)); [|done]. eapply Forall_impl; [exact Hi|]. intros i Hp s' _. by split.
Qed.

(** Entries whose windows are those of the table. *)
Lemma entries_pre {A} k (win : A → window_t) (name : A → string) (l : list (string * A)) d s :
  Forall (λ kx, window_defined d (win kx.2)) l → windows (srv_db s) = windows d →
  items_pre now ((λ kx, IEntry k (win kx.2) (name kx.2)) <$> l) s.
Proof using.
  intros Hl. apply (items_pre_inv (λ s, windows (srv_db s) = windows d)). apply Forall_fmap.
  eapply Forall_impl; [exact Hl|]. intros [n x] [_ Hw] s' Es. cbn [fst snd] in *. split; [intros m Hm; rewrite Es; by apply Hw|].
  rewrite <- Es. destruct s' as [d' ks c iv]. cbn. destruct (put_anon_with (win x) d') as [a ->]. by destruct k.
Qed.

Lemma dump_pre s : dumpable s → items_pre now (dump_items s) default_server.
Proof using VL.
  intros Hs. destruct (tables_reread s Hs) as (Et & _ & Ew & _).
  unfold dump_items. rewrite !items_pre_app, settings_run by done.
  set (s1 := upd_config _ default_server). unfold type_items, state_items, window_items, counter_items, sample_items, rate_items.
  assert (types (srv_db (items_run now ((λ kt, IType kt.2) <$> for_each (types (srv_db s))) s1)) = types (srv_db s)) as ET
    by (rewrite types_run; exact Et).
  set (s2 := items_run now _ s1) in *.
  assert (windows (srv_db s2) = ∅) as EW2 by (subst s2; by rewrite types_run).
  clearbody s2. rewrite states_run. set (s3 := upd_db _ s2).
  assert (windows (srv_db (items_run now ((λ kw, IWindow kw.1 (window_time kw.2)) <$> for_each (windows (srv_db s))) s3)) = windows (srv_db s)) as EW.
  { rewrite windows_run. cbn. rewrite EW2. exact Ew. }
  set (s4 := items_run now _ s3) in *. clearbody s4.
  edestruct (counters_run (for_each (counters (srv_db s))) s4) as [a1 ->].
  edestruct (samples_run (for_each (samples (srv_db s)))) as [a2 ->].
  split_and!.
  - apply items_pre_none. unfold setting_items, max_item. destruct (_ =? _); repeat constructor.
  - by apply items_pre_none, Forall_fmap, Forall_true.
  - apply (items_pre_inv (λ s', types (srv_db s') = types (srv_db s))); [|done]. apply Forall_fmap, Forall_forall.
    intros [k st] Hin s' Es. apply elem_of_for_each, (dp_states s Hs) in Hin as [_ Hin]. split; [|done]. cbn. by rewrite Es.
  - by apply items_pre_none, Forall_fmap, Forall_true.
  - apply (entries_pre _ _ _ _ (srv_db s)); [|done]. apply (for_each_Forall (λ k x, window_defined (srv_db s) (counter_window x))).
    eapply map_Forall_impl; [apply (dp_counters s Hs)|]. by intros k x [_ ?].
  - apply (entries_pre _ _ _ _ (srv_db s)); [|done]. apply (for_each_Forall (λ k x, window_defined (srv_db s) (sample_window x))).
    eapply map_Forall_impl; [apply (dp_samples s Hs)|]. by intros k x [_ ?].
  - apply (entries_pre _ _ _ _ (srv_db s)); [|done]. apply (for_each_Forall (λ k x, window_defined (srv_db s) (rate_window x))).
    eapply map_Forall_impl; [apply (dp_rates s Hs)|]. by intros k x [_ ?].
Qed.

(** ** The round trip *)

(** Every line of the dump can be read, and no digit of an earlier value is
    left behind a number when it is. *)
Definition readable (file : string) (s : server_t) : bool :=
  forallb piece_ok (dump_lines file s) && all_settled "" (words_of (dump_lines file s)).

(** C23: an aggregator that reads a dump accepts it and has exactly what the
    dump prints: the settings that are printed ([reread_config]: listener,
    controller, broadcast, log, pidfile, user and group, savefile, keysfile,
    max.events and grace period) and the types, states, windows, counters,
    samples and rates.  What is not printed is not kept: the beacon, the NSCA
    port, the size of the savefile and the interval are those of a fresh
    start, and the tables of match rules are empty ([reread_db]).  The dump
    must be [readable]: every line has the form of its item, and no number is
    read right after a longer one, of which the lexer would keep the last
    digits (see [dump_stale_digits]).  The configuration must be [dumpable]:
    its settings are set, its numbers fit, its entries are as configured and
    their types and windows are those of the tables. *)
Theorem dump_config_roundtrip fuel file s :
  dumpable s → readable file s = true → (length (dump_items s) + 4 ≤ fuel)%nat →
  ∃ s', configure fuel now (Some (dump_config file s)) default_server = (Some 0, s') ∧
    srv_config s' = reread_config (srv_config s) default_config ∧
    (∃ anon, srv_db s' = reread_db (srv_db s) anon) ∧ srv_interval s' = srv_interval default_server.
Proof using VL.
  intros Hs [Hx Hset]%andb_prop Hf. rewrite dump_words in Hset.
  assert (Forall (λ x, piece_ok x = true) (dump_lines file s)) as Hxs.
  { apply Forall_forall. intros x Hin. rewrite forallb_forall in Hx. apply Hx. by apply list_elem_of_In. }
  rewrite <- (dump_text file s Hs). destruct (dump_run s Hs) as [anon E].
  eexists. split; [|split; [|split; [|]]].
  - apply (configure_items now fuel _ (dump_items s)); [done|done|apply dump_words|by eapply dump_items_ok|by apply dump_pre|done].
  - change (upd_db init_db default_server) with default_server. by rewrite E.
  - change (upd_db init_db default_server) with default_server. rewrite E. by exists anon.
  - change (upd_db init_db default_server) with default_server. by rewrite E.
Qed.
End dump.

(** ** Examples *)

Module DumpExample.
Definition minute : window_t := mk_window (Some "@minute") 60.
Definition service : type_t := mk_type ":service" 300 CRITICAL (Some "no news").
Definition conf (max keep : Z) : config_t :=
  mk_config (Some DEFAULT_LISTENER) (Some DEFAULT_CONTROLLER) (Some DEFAULT_BROADCAST) (Some "tcp://*:2996") 0
    (Some "error") (Some "daemon") (Some "/var/run/bolo.pid") (Some "bolo") (Some "bolo")
    (Some "/var/lib/bolo/save.db") (Some "/var/lib/bolo/keys.db") 4 0 max keep 15.
Definition db : db_t (H := ref_pcre) :=
  mk_db ref_pcre {["host.disk" := new_state 1000 "host.disk" service]}
    {["host.logins" := new_counter "host.logins" minute; "host.boots" := new_counter "host.boots" (mk_window None 300)]}
    ∅ ∅ [] 0 [] [] [] [] {[":service" := service]} {["@minute" := minute]} [].
Definition srv (max keep : Z) : server_t (H := ref_pcre) := mk_server ref_pcre db ∅ (conf max keep) (mk_interval 1000 2 60 15).
End DumpExample.

Lemma example_dumpable : dumpable (H := ref_pcre) 1000 (DumpExample.srv 60 EVENTS_KEEP_TIME).
Proof.
  constructor; cbn.
  - repeat constructor; by eexists.
  - split; [by cint|]. split; [by right; left|]. intros _. split; [by cint|done].
  - by cint.
  - apply map_Forall_singleton. split_and!; [done|by cint|by eexists|by right; left].
  - apply map_Forall_singleton. split; [done|by cint].
  - apply map_Forall_singleton. split; [done|vm_compute; reflexivity].
  - apply map_Forall_insert_2; [|apply map_Forall_singleton]; (split; [done|split; [by cint|]]);
      [intros n [= <-]; vm_compute; reflexivity|done].
  - apply map_Forall_empty.
  - apply map_Forall_empty.
Qed.

Lemma dump_config_roundtrip_witness :
  ∃ s', configure (H := ref_vigor) (H0 := ref_pcre) 30 1000
          (Some (dump_config (H := ref_vigor) (H0 := ref_pcre) "/etc/bolo.conf" (DumpExample.srv 60 EVENTS_KEEP_TIME))) default_server = (Some 0, s') ∧
    counters (srv_db s') = counters DumpExample.db ∧ cfg_events_max (srv_config s') = 60.
Proof.
  destruct (dump_config_roundtrip (VL := ref_vigor_laws) (H := ref_pcre) 1000 30 "/etc/bolo.conf" (DumpExample.srv 60 EVENTS_KEEP_TIME))
    as (s' & E & Ec & (anon & Ed) & _); [exact example_dumpable|vm_compute; reflexivity|apply Nat.leb_le; vm_compute; reflexivity|].
  exists s'. split; [exact E|]. split; [rewrite Ed; reflexivity|rewrite Ec; reflexivity].
Defined.

(** A hundred events and a grace period of 15 seconds are read back as a
    grace period of 150 seconds: the number is not terminated, and the last
    digit of the one before it is still there. *)
Lemma dump_stale_digits :
  match configure (H := ref_vigor) (H0 := ref_pcre) 30 1000
          (Some (dump_config (H := ref_vigor) (H0 := ref_pcre) "/etc/bolo.conf" (DumpExample.srv 100 EVENTS_KEEP_NUMBER))) default_server with
  | (rc, s') => rc = Some 0 ∧ cfg_events_max (srv_config s') = 100 ∧ cfg_grace_period (srv_config s') = 150
  end.
Proof. vm_compute. split_and!; reflexivity. Qed.
