(* ===== verification/Threads.v ===== *)
(** * The threads of a subscriber: src/bolo_subscriber.c

    Every subscriber is a set of threads over in-process sockets: the
    supervisor, which waits for a signal and publishes TERMINATE; the
    scheduler, which publishes TOCK; the monitor; and the threads of the
    subscriber itself.  The answers of the 0MQ and thread libraries are
    arguments. *)

From S2P Require Import Prelude CLib Vigor Bytes Data Binf Core Config Pdu Subscriber Startup.

(** ** Connections *)

(** Whether [zmq_socket] gave a socket, then the answers of the calls that
    follow on it. *)
Definition open_socket (socket : bool) (rcs : list Z) : Z :=
  if socket then first_error rcs else -1.

Definition bolo_subscriber_init (sigmask : Z) : Z := sigmask.

Definition bolo_subscriber_connect_monitor (socket : bool) (connect : Z) : Z :=
  open_socket socket [connect].

Definition bolo_subscriber_connect_scheduler (socket : bool) (connect setsockopt : Z) : Z :=
  open_socket socket [connect; setsockopt].

Definition bolo_subscriber_connect_supervisor (socket : bool) (connect setsockopt : Z) : Z :=
  open_socket socket [connect; setsockopt].

(** ** Reactors

    What a thread has done when these messages have reached its handler, in
    the order in which they arrived: the messages after one that makes the
    handler stop are not looked at. *)
Section handle_all.
Context `{Vigor} {S O R Sock : Type}.

Fixpoint handle_all (halts : R → bool) (react : Sock → pdu_t → M S O R)
    (msgs : list (Sock * pdu_t)) : M S O bool :=
  match msgs with
  | [] => mret false
  | (s, p) :: rest =>
      r ← react s p;
      if halts r then mret true else handle_all halts react rest
  end.
End handle_all.

(** The sockets of a subscriber's thread, by what is at the other end: the
    supervisor, the scheduler, the aggregator, another thread of the same
    subscriber. *)
Inductive tsocket := TControl | TTock | TSubscriber | TQueue | TOther.
Inductive treaction := TContinue | THalt.

Definition thalts (r : treaction) : bool := match r with THalt => true | TContinue => false end.

Section threads.
Context `{Vigor}.

(** The messages to the monitor: the time an operation took, in
    milliseconds, and one more of something. *)
Definition perf (name : string) (spent : Z) : pdu_t :=
  pdu_extend (pdu_make "SAMPLE" [name]) (fmt_f (ddiv (d_of_Z spent) (d_of_Z 1000))).

Definition count (name : string) : pdu_t := pdu_make "COUNT" [name].

(** ** The monitor *)

(** The answers of the libraries during [bolo_subscriber_monitor_thread]. *)
Record monitor_wiring := mk_monitor_wiring {
  mw_control : bool * Z * Z;
  mw_tock : bool * Z * Z;
  mw_input : bool * Z;
  mw_submission : bool * Z;
  mw_reactor : bool;
  mw_set_control : Z;
  mw_set_tock : Z;
  mw_set_input : Z;
}.

(** The thread that is started, when the sockets are in place; the answer
    of [pthread_create] is not looked at. *)
Definition bolo_subscriber_monitor_thread (prefix : string) (w : monitor_wiring) : Z * option monitor_t :=
  let '(s1, c1, o1) := mw_control w in
  let '(s2, c2, o2) := mw_tock w in
  let rc := first_error
    [bolo_subscriber_connect_supervisor s1 c1 o1; bolo_subscriber_connect_scheduler s2 c2 o2;
     open_socket (mw_input w).1 [(mw_input w).2];
     open_socket (mw_submission w).1 [(mw_submission w).2];
     if mw_reactor w then 0 else -1;
     mw_set_control w; mw_set_tock w; mw_set_input w] in
  (rc, if rc =? 0 then Some (mk_monitor prefix ∅) else None).

(** ** The scheduler and the supervisor *)

(** The ticks sent, and whether the thread has ended. *)
Fixpoint sub_scheduler_thread (polls : list polled) : list pdu_t * bool :=
  match polls with
  | [] => ([], false)
  | PollError :: _ => ([], true)
  | PollTimeout :: ps => let '(o, e) := sub_scheduler_thread ps in (pdu_make "TOCK" [] :: o, e)
  | PollMessage p :: ps => if streq (pdu_type p) "TERMINATE" then ([], true) else sub_scheduler_thread ps
  end.

Definition bolo_subscriber_scheduler_thread (control : bool * Z * Z) (tick : bool * Z) (pthread : Z) : Z :=
  let '(s, c, o) := control in
  first_error [bolo_subscriber_connect_supervisor s c o; open_socket tick.1 [tick.2]; pthread].

(** The answers of [sigwait], a return code and a signal. *)
Fixpoint sub_supervise (waits : list (Z * Z)) : option (list pdu_t) :=
  match waits with
  | [] => None
  | (rc, sig) :: ws =>
      let sig := if rc =? 0 then sig else SIGTERM in
      if (sig =? SIGTERM) || (sig =? SIGINT) then Some [pdu_make "TERMINATE" []] else sub_supervise ws
  end.

(** The return code and what was sent, [None] while no signal has come. *)
Definition bolo_subscriber_supervisor (socket : bool) (bind : Z) (waits : list (Z * Z))
    : option (Z * list pdu_t) :=
  if negb socket then Some (-1, [])
  else if negb (bind =? 0) then Some (bind, [])
  else match sub_supervise waits with Some o => Some (0, o) | None => None end.
End threads.
