(* ===== verification/Cache.v ===== *)
(** * The cache: src/bolo/cmd_cache.c

    [bolo cache] subscribes to an aggregator, relays everything it receives
    to its own subscribers, and keeps the last message of every name; a
    REPEAT request makes it send them all again. *)

From S2P Require Import Prelude CLib Vigor Bytes Data Binf Core Config Pdu Subscriber Startup Threads.

Inductive csocket := CControl | CSubscriber | CListen | COther.
Inductive creaction := CContinue | CHalt.

Definition chalts (r : creaction) : bool := match r with CHalt => true | CContinue => false end.

Section cache.
Context `{Vigor}.

(** The messages are those sent on the broadcast socket. *)
Record dispatcher_t := mk_dispatcher { disp_pdus : gmap string pdu_t }.

Abbreviation D := (M dispatcher_t pdu_t).

(** The name under which a message is kept, when it is kept. *)
Definition cache_key (p : pdu_t) : option string :=
  if streq (pdu_type p) "COUNTER" || streq (pdu_type p) "SAMPLE" || streq (pdu_type p) "RATE"
  then pdu_string p 2
  else if streq (pdu_type p) "STATE" then pdu_string p 1
  else None.

Definition store (key : string) (p : pdu_t) : D () :=
  modify (λ d, mk_dispatcher (<[key := pdu_dup p]> (disp_pdus d))).

Definition on_subscriber (p : pdu_t) : D () :=
  emit (pdu_dup p) ≫= λ _,
  match cache_key p with Some key => store key p | None => mret () end.

Definition on_listen (p : pdu_t) : D () :=
  if streq (pdu_type p) "REPEAT" then
    get ≫= λ d, for_each_m (λ kv : string * pdu_t, emit (pdu_dup kv.2)) (for_each (disp_pdus d))
  else mret ().

Definition _dispatcher_reactor (s : csocket) (p : pdu_t) : D creaction :=
  match s with
  | CControl => mret CHalt
  | CSubscriber => on_subscriber p ≫= λ _, mret CContinue
  | CListen => on_listen p ≫= λ _, mret CContinue
  | COther => mret CHalt
  end.

(** The answers of the libraries during [dispatcher_thread]. *)
Record dispatcher_wiring := mk_dispatcher_wiring {
  dw_control : bool * Z * Z;
  dw_subscriber : bool * Z * Z;   (* zmq_setsockopt, then vzmq_connect_af *)
  dw_listen : bool * Z;
  dw_broadcast : bool * Z;
  dw_reactor : bool;
  dw_set_control : Z;
  dw_set_subscriber : Z;
  dw_set_listen : Z;
  dw_pthread : Z;
}.

Definition dispatcher_thread (w : dispatcher_wiring) : Z * option dispatcher_t :=
  let '(s1, c1, o1) := dw_control w in
  let '(s2, o2, c2) := dw_subscriber w in
  let rc := first_error
    [bolo_subscriber_connect_supervisor s1 c1 o1; open_socket s2 [o2; c2];
     open_socket (dw_listen w).1 [(dw_listen w).2];
     open_socket (dw_broadcast w).1 [(dw_broadcast w).2];
     if dw_reactor w then 0 else -1;
     dw_set_control w; dw_set_subscriber w; dw_set_listen w; dw_pthread w] in
  (rc, if rc =? 0 then Some (mk_dispatcher ∅) else None).
End cache.
