(* ===== verification/CacheFacts.v ===== *)
(** * Theorems on the cache and on the threads of a subscriber

    The cache relays every message as it comes, and a REPEAT sends the last
    message of every name and nothing else; what the kernel publishes is
    kept under its own name; a signal stops every thread. *)

From S2P Require Import Prelude CLib Vigor Bytes Data Binf Core CoreFacts Windowed Reactor ReactorFacts KernelFacts Config Pdu Subscriber Startup Threads Cache.

(** ** Handling a sequence *)

Section handle.
Context `{Vigor} {S O R Sock : Type} (halts : R → bool) (react : Sock → pdu_t → M S O R).

Lemma handle_all_cons s p rest st r st1 o1 :
  react s p st = Ok (r, st1, o1) → halts r = false →
  handle_all halts react ((s, p) :: rest) st = out_app o1 (handle_all halts react rest st1).
Proof.
  intros Hr Hh. cbn [handle_all]. rewrite (M_run_bind _ _ _ _ _ _ Hr). cbv beta. by rewrite Hh.
Qed.

Lemma handle_all_stop s p rest st r st1 o1 :
  react s p st = Ok (r, st1, o1) → halts r = true →
  handle_all halts react ((s, p) :: rest) st = Ok (true, st1, o1).
Proof.
  intros Hr Hh. cbn [handle_all]. rewrite (M_run_bind _ _ _ _ _ _ Hr). cbv beta. rewrite Hh.
  cbn. by rewrite app_nil_r.
Qed.
End handle.

(** Sending one message for every element. *)
Lemma for_each_m_emit {S O A} (f : A → O) (l : list A) (s : S) :
  for_each_m (λ x, emit (f x)) l s = Ok ((), s, f <$> l).
Proof.
  induction l as [|x l IH]; [done|]. cbn [for_each_m]. rewrite M_emit_bind, IH. done.
Qed.

Lemma list_filter_in {A} (P Q : A → Prop) `{!∀ x, Decision (P x), !∀ x, Decision (Q x)} (l : list A) :
  (∀ x, x ∈ l → P x ↔ Q x) → filter P l = filter Q l.
Proof.
  induction l as [|x l IH]; intros Hl; [done|]. rewrite !filter_cons, IH by (intros; apply Hl; by right).
  pose proof (Hl x (list_elem_of_here _ _)) as Hx. destruct (decide (P x)), (decide (Q x)); tauto || done.
Qed.

Section cache.
Context `{VL : VigorLaws}.

(** ** One message *)

Definition put_pdu (p : pdu_t) (m : gmap string pdu_t) : gmap string pdu_t :=
  match cache_key p with Some k => <[k := pdu_dup p]> m | None => m end.

Lemma on_subscriber_run p d :
  _dispatcher_reactor CSubscriber p d =
  Ok (CContinue, mk_dispatcher (put_pdu p (disp_pdus d)), [pdu_dup p]).
Proof using.
  destruct d as [m]. unfold _dispatcher_reactor, on_subscriber, put_pdu. mstep.
  by destruct (cache_key p).
Qed.

Lemma on_listen_run p d :
  _dispatcher_reactor CListen p d =
  Ok (CContinue, d, if streq (pdu_type p) "REPEAT" then (λ kv, pdu_dup kv.2) <$> for_each (disp_pdus d)
                    else []).
Proof using.
  unfold _dispatcher_reactor, on_listen. destruct (streq _ _); mstep; [|done].
  erewrite M_run_bind; [|apply for_each_m_emit]. cbn. by rewrite app_nil_r.
Qed.

(** ** A sequence of messages *)

(** What the aggregator sent, out of everything that arrived. *)
Definition received (msgs : list (csocket * pdu_t)) : list pdu_t :=
  omap (λ '(s, p), match s with CSubscriber => Some p | _ => None end) msgs.

(** Neither the supervisor nor an unknown socket is involved. *)
Definition no_stop (msgs : list (csocket * pdu_t)) : Prop :=
  Forall (λ sp, sp.1 = CSubscriber ∨ sp.1 = CListen) msgs.

(** The last message of a name. *)
Definition latest (ps : list pdu_t) (k : string) : option pdu_t :=
  last (filter (λ p, cache_key p = Some k) ps).

Lemma handle_stores msgs d :
  no_stop msgs →
  ∃ out, handle_all chalts _dispatcher_reactor msgs d =
    Ok (false, mk_dispatcher (foldl (λ m p, put_pdu p m) (disp_pdus d) (received msgs)), out).
Proof using.
  intros Hm. revert d. induction Hm as [|[s p] msgs Hs _ IH]; intros d.
  - exists []. by destruct d.
  - cbn [fst] in Hs. destruct Hs as [-> | ->].
    + erewrite handle_all_cons; [|apply on_subscriber_run|done].
      edestruct IH as [out ->]. by eexists.
    + erewrite handle_all_cons; [|apply on_listen_run|done].
      edestruct IH as [out ->]. by eexists.
Qed.

Lemma handle_relays ps d :
  ∃ d', handle_all chalts _dispatcher_reactor ((CSubscriber,.) <$> ps) d = Ok (false, d', pdu_dup <$> ps).
Proof using.
  revert d. induction ps as [|p ps IH]; intros d; [by eexists|].
  rewrite fmap_cons. erewrite handle_all_cons; [|apply on_subscriber_run|done].
  edestruct IH as [d' ->]. by eexists.
Qed.

(** The table holds, for every name, the last message of that name. *)
Lemma stored_latest ps k :
  foldl (λ m p, put_pdu p m) ∅ ps !! k = pdu_dup <$> latest ps k.
Proof using.
  induction ps as [|p ps IH] using rev_ind; [done|].
  rewrite foldl_snoc. unfold latest in *. rewrite filter_app, last_app. unfold put_pdu at 1.
  rewrite filter_cons, filter_nil.
  destruct (decide (cache_key p = Some k)) as [E|E]; cbn [last].
  - rewrite E. by rewrite lookup_insert_eq.
  - rewrite <- IH. destruct (cache_key p) as [k'|]; [|done].
    apply lookup_insert_ne. congruence.
Qed.

(** The frames of a duplicate. *)
Lemma frames_dup_dup p : pdu_frames (pdu_dup (pdu_dup p)) = pdu_frames p.
Proof using VL. by rewrite !frames_dup. Qed.

Lemma repeat_run p m :
  pdu_type p = "REPEAT" →
  _dispatcher_reactor CListen p (mk_dispatcher m) =
  Ok (CContinue, mk_dispatcher m, (λ kv, pdu_dup kv.2) <$> for_each m).
Proof using. intros Hp. rewrite on_listen_run, Hp. done. Qed.

(** ** Claims *)

(** Whatever the cache has received, a REPEAT request sends exactly one
    message per key, and it is frame for frame the last one the aggregator
    sent under that key. *)
Lemma repeat_latest_key msgs req :
  no_stop msgs → pdu_type req = "REPEAT" →
  ∃ out names sent d,
    handle_all chalts _dispatcher_reactor msgs (mk_dispatcher ∅) = Ok (false, d, out) ∧
    _dispatcher_reactor CListen req d = Ok (CContinue, d, sent) ∧
    NoDup names ∧
    (∀ k, k ∈ names ↔ is_Some (latest (received msgs) k)) ∧
    Forall2 (λ k p, pdu_frames <$> latest (received msgs) k = Some (pdu_frames p)) names sent.
Proof using VL.
  intros Hm Hreq. destruct (handle_stores msgs (mk_dispatcher ∅) Hm) as [out Hrun].
  set (m := foldl _ _ _) in Hrun.
  assert (∀ k, m !! k = pdu_dup <$> latest (received msgs) k) as Hk by (intros k; apply stored_latest).
  exists out, (for_each m).*1, ((λ kv, pdu_dup kv.2) <$> for_each m), (mk_dispatcher m).
  split; [done|]. split; [by apply repeat_run|]. split; [apply for_each_NoDup|]. split.
  - intros k. rewrite list_elem_of_fmap. split.
    + intros ([k' v] & -> & Hin%elem_of_for_each). rewrite Hk in Hin. cbn.
      by apply fmap_Some in Hin as (? & -> & _).
    + intros [p Hp]. exists (k, pdu_dup p). split; [done|]. apply elem_of_for_each. by rewrite Hk, Hp.
  - apply Forall2_fmap_l, Forall2_fmap_r, Forall_Forall2_diag, Forall_forall. intros [k v] Hin%elem_of_for_each.
    rewrite Hk in Hin. apply fmap_Some in Hin as (p & Hp & ->). cbn. rewrite Hp. cbn.
    by rewrite frames_dup_dup.
Qed.

(** What a metric or a state message is about: its type and its name. *)
Definition subject (p : pdu_t) : option (string * string) :=
  match pdu_frames p with
  | [] => None
  | t :: fs =>
      if decide (t ∈ ["COUNTER"; "SAMPLE"; "RATE"]) then pair t <$> fs !! 1%nat
      else if decide (t = "STATE") then pair t <$> fs !! 0%nat
      else None
  end.

(** No name is used by messages of two types. *)
Definition one_type (ps : list pdu_t) : Prop :=
  ∀ p q t t' k, p ∈ ps → q ∈ ps → subject p = Some (t, k) → subject q = Some (t', k) → t = t'.

(** The last message of a type and a name. *)
Definition latest_of (ps : list pdu_t) (tk : string * string) : option pdu_t :=
  last (filter (λ p, subject p = Some tk) ps).

Lemma cache_key_subject p : cache_key p = snd <$> subject p.
Proof using VL.
  unfold cache_key, subject. pose proof (type_frames p) as T. rewrite !string_frames by lia.
  destruct (pdu_frames p) as [|t fs]; [done|]. injection T as ->. change (Z.to_nat 2) with 2%nat.
  change (Z.to_nat 1) with 1%nat. cbn [lookup list_lookup]. unfold streq.
  destruct (decide (t = "COUNTER")) as [->|N1]; [by destruct fs as [|? [|? ?]]|].
  destruct (decide (t = "SAMPLE")) as [->|N2]; [by destruct fs as [|? [|? ?]]|].
  destruct (decide (t = "RATE")) as [->|N3]; [by destruct fs as [|? [|? ?]]|].
  destruct (decide (t = "STATE")) as [->|N4]; [by destruct fs as [|? [|? ?]]|].
  rewrite <- String.eqb_neq in N1, N2, N3, N4. rewrite N1, N2, N3, N4. rewrite String.eqb_neq in N1, N2, N3, N4.
  rewrite !decide_False; [done..|]. rewrite !elem_of_cons, elem_of_nil.
  tauto.
Qed.

Lemma latest_subject ps t k :
  one_type ps → (∃ p, p ∈ ps ∧ subject p = Some (t, k)) → latest ps k = latest_of ps (t, k).
Proof using VL.
  intros Ho (p & Hp & Ht). unfold latest, latest_of. f_equal. apply list_filter_in. intros q Hq.
  rewrite cache_key_subject. split; [|by intros ->].
  intros ([t' k'] & Hs & ->)%fmap_Some. cbn in *. by rewrite (Ho _ _ _ _ _ Hp Hq Ht Hs).
Qed.

Lemma latest_of_Some ps tk q : latest_of ps tk = Some q → q ∈ ps ∧ subject q = Some tk.
Proof using. intros Hl%last_Some_elem_of. by apply list_elem_of_filter in Hl as [? ?]. Qed.

Lemma latest_Some ps k q : latest ps k = Some q → q ∈ ps ∧ cache_key q = Some k.
Proof using. intros Hl%last_Some_elem_of. by apply list_elem_of_filter in Hl as [? ?]. Qed.

Lemma subject_type p t k : subject p = Some (t, k) → pdu_type p = t.
Proof using VL.
  unfold subject. pose proof (type_frames p) as T. destruct (pdu_frames p) as [|u fs]; [done|].
  injection T as ->. repeat case_decide; by intros (? & _ & [= -> _])%fmap_Some || done.
Qed.

(** The subject kept under a key. *)
Definition subject_at (ps : list pdu_t) (k : string) : string * string :=
  (default EmptyString (pdu_type <$> latest ps k), k).

Lemma latest_at ps k p :
  one_type ps → latest ps k = Some p → latest_of ps (subject_at ps k) = Some p.
Proof using VL.
  intros Ho Hl. pose proof (latest_Some _ _ _ Hl) as [Hin Hk]. rewrite cache_key_subject in Hk.
  apply fmap_Some in Hk as ([t k'] & Hs & Hk). cbn in Hk. subst k'.
  unfold subject_at. rewrite Hl. cbn. rewrite (subject_type _ _ _ Hs). rewrite <- (latest_subject _ t k); [done..|].
  by exists p.
Qed.

Lemma subject_at_latest ps t k p :
  one_type ps → latest_of ps (t, k) = Some p → subject_at ps k = (t, k) ∧ latest ps k = Some p.
Proof using VL.
  intros Ho Hl. pose proof (latest_of_Some _ _ _ Hl) as [Hin Hs].
  assert (latest ps k = Some p) as Hk by (rewrite (latest_subject _ t k); eauto).
  split; [|done]. unfold subject_at. rewrite Hk. cbn. by rewrite (subject_type _ _ _ Hs).
Qed.

(** C13: when no name is used by two types of message (a state and a metric,
    or two metrics, of one name share an entry, see [cache_name_collision]),
    a REPEAT request after any sequence of messages sends exactly one message
    for every type and name of state and metric that was seen, and it is,
    frame for frame and with its timestamps, the last one the aggregator sent
    for that type and name. *)
Theorem cache_repeat_latest msgs req :
  no_stop msgs → one_type (received msgs) → pdu_type req = "REPEAT" →
  ∃ out subjects sent d,
    handle_all chalts _dispatcher_reactor msgs (mk_dispatcher ∅) = Ok (false, d, out) ∧
    _dispatcher_reactor CListen req d = Ok (CContinue, d, sent) ∧
    NoDup subjects ∧
    (∀ tk, tk ∈ subjects ↔ ∃ p, p ∈ received msgs ∧ subject p = Some tk) ∧
    Forall2 (λ tk p, pdu_frames <$> latest_of (received msgs) tk = Some (pdu_frames p)) subjects sent.
Proof using VL.
  intros Hm Ho Hreq. destruct (repeat_latest_key msgs req Hm Hreq) as (out & names & sent & d & Hrun & Hsend & Hnd & Hin & Hall).
  exists out, (subject_at (received msgs) <$> names), sent, d. do 2 (split; [done|]). split.
  { apply NoDup_fmap_2; [|done]. by intros ? ? [= _ ?]. }
  split.
  - intros [t k]. rewrite list_elem_of_fmap. split.
    + intros (k' & [= -> ->] & Hk). apply Hin in Hk as [p Hp].
      exists p. apply latest_of_Some. exact (latest_at _ _ _ Ho Hp).
    + intros (p & Hp & Hs). destruct (latest_of (received msgs) (t, k)) as [q|] eqn:Hq.
      * apply subject_at_latest in Hq as [Hat Hl]; [|done]. exists k. split; [done|]. by apply Hin; eexists.
      * apply last_None in Hq. exfalso. eapply elem_of_nil. rewrite <- Hq. by apply list_elem_of_filter.
  - apply Forall2_fmap_l. eapply Forall2_impl; [exact Hall|]. intros k p. cbn.
    intros (q & Hq & Hf)%fmap_Some. rewrite (latest_at _ _ _ Ho Hq). cbn. by rewrite Hf.
Qed.

(** The cache is a transparent proxy: what the aggregator sends is
    relayed at once, unchanged and in the same order. *)
Theorem cache_transparent ps d :
  ∃ d' out, handle_all chalts _dispatcher_reactor ((CSubscriber,.) <$> ps) d = Ok (false, d', out) ∧
    pdu_frames <$> out = pdu_frames <$> ps.
Proof using VL.
  destruct (handle_relays ps d) as [d' Hrun]. exists d', (pdu_dup <$> ps). split; [done|].
  rewrite <- list_fmap_compose. apply list_fmap_ext. intros i p _. apply frames_dup.
Qed.

(** Names are shared by all types of message: of two messages of
    different types under one name, a REPEAT only sends the later one. *)
Theorem cache_name_collision p q k req :
  cache_key p = Some k → cache_key q = Some k → pdu_type p ≠ pdu_type q → pdu_type req = "REPEAT" →
  ∃ d out, handle_all chalts _dispatcher_reactor [(CSubscriber, p); (CSubscriber, q)] (mk_dispatcher ∅)
    = Ok (false, d, out) ∧
  ∃ sent, _dispatcher_reactor CListen req d = Ok (CContinue, d, [sent]) ∧ pdu_frames sent = pdu_frames q.
Proof using VL.
  intros Hp Hq _ Hreq. destruct (handle_stores [(CSubscriber, p); (CSubscriber, q)] (mk_dispatcher ∅)) as [out Hrun].
  { repeat constructor. }
  eexists _, out. split; [apply Hrun|]. exists (pdu_dup (pdu_dup q)).
  split; [|apply frames_dup_dup].
  rewrite repeat_run by done. repeat f_equal. cbn. unfold put_pdu. rewrite Hp, Hq.
  rewrite insert_insert_eq. assert (for_each (<[k := pdu_dup q]> (∅ : gmap string pdu_t)) = [(k, pdu_dup q)]) as ->;
    [|done].
  apply Permutation_singleton_r. rewrite for_each_perm, map_to_list_insert by done. by rewrite map_to_list_empty.
Qed.
End cache.

(** ** What the kernel publishes *)

Section published.
Context `{VL : VigorLaws} `{Pcre}.

(** The messages a run of the kernel sends on its broadcast socket. *)
Definition broadcasts (o : list output) : list pdu_t :=
  omap (λ x, match x with Send Broadcast p => Some p | _ => None end) o.

Lemma key_metric p t ts name fs :
  t = "COUNTER" ∨ t = "SAMPLE" ∨ t = "RATE" →
  pdu_frames p = t :: ts :: name :: fs → cache_key p = Some name.
Proof using VL.
  intros Ht Hp. unfold cache_key. rewrite (pdu_type_of _ _ _ Hp), string_frames, Hp by lia.
  by destruct Ht as [-> | [-> | ->]].
Qed.

Lemma key_state p name fs : pdu_frames p = "STATE" :: name :: fs → cache_key p = Some name.
Proof using VL.
  intros Hp. unfold cache_key. rewrite (pdu_type_of _ _ _ Hp), !string_frames, Hp by lia. done.
Qed.

Lemma key_none p t fs : t = "TRANSITION" ∨ t = "EVENT" → pdu_frames p = t :: fs → cache_key p = None.
Proof using VL.
  intros Ht Hp. unfold cache_key. rewrite (pdu_type_of _ _ _ Hp). by destruct Ht as [-> | ->].
Qed.

Lemma received_subscriber ps : received ((CSubscriber,.) <$> ps) = ps.
Proof using. unfold received. induction ps as [|p ps IH]; [done|]. cbn. by f_equal. Qed.

(** What the kernel publishes about a state, a counter, a sample or a
    rate is kept by the cache under the name of that state, counter, sample
    or rate; transitions and events are only relayed. *)
Theorem published_keys :
  (∀ s k o k', broadcast_state s k = Ok ((), k', o) → cache_key <$> broadcasts o = [Some (state_name s)]) ∧
  (∀ c k o k', broadcast_counter c k = Ok ((), k', o) → cache_key <$> broadcasts o = [Some (counter_name c)]) ∧
  (∀ s k o k', broadcast_sample s k = Ok ((), k', o) → cache_key <$> broadcasts o = [Some (sample_name s)]) ∧
  (∀ r k o k', broadcast_rate r k = Ok ((), k', o) → cache_key <$> broadcasts o = [Some (rate_name r)]) ∧
  (∀ s k o k', broadcast_transition s k = Ok ((), k', o) → cache_key <$> broadcasts o = [None]) ∧
  (∀ ev k o k', broadcast_event ev k = Ok ((), k', o) → cache_key <$> broadcasts o = [None]).
Proof using VL.
  split_and!; intros x k o k';
    unfold broadcast_state, broadcast_counter, broadcast_sample, broadcast_rate, broadcast_transition,
      broadcast_event; try (destruct (winstart _ _); [mstep|done]); intros Hrun;
    assert (∀ p, Ok ((), k, [Send Broadcast p]) = Ok ((), k', o) → cache_key <$> broadcasts o = [cache_key p])
      as Ho by (by intros p [= _ <-]);
    rewrite (Ho _ Hrun); f_equal;
    solve [ eapply key_state; rewrite frames_extend_all, frames_make; reflexivity
          | eapply key_metric; [|rewrite frames_extend_all, frames_make; reflexivity]; auto
          | eapply key_none; [|rewrite frames_extend_all, frames_make; reflexivity]; auto ].
Qed.

(** From the agent to the cache: once the kernel has accepted a STATE
    message for a state that it does not ignore, the cache that listens to
    it holds that state as it now is (its time, fresh, the reported status
    and text) under the name of the state, ready to be repeated. *)
Theorem state_reaches_cache e p k ts name code msg s db' d :
  pdu_frames p = ["STATE"; ts; name; code; msg] → name ≠ EmptyString → msg ≠ EmptyString →
  find_state (time_s e) (k_db k) name = (Some s, db') → state_ignore s = 0 →
  ∃ k' o d' out,
    _kernel_reactor e Listener p k = Ok (Continue, k', o) ∧
    handle_all chalts _dispatcher_reactor ((CSubscriber,.) <$> broadcasts o) d = Ok (false, d', out) ∧
    pdu_frames <$> disp_pdus d' !! state_name s =
      Some ["STATE"; state_name s; fmt_i (s32 (u32 (strtoul ts))); "fresh"; statstr (u8 (atoi code)); msg].
Proof using VL.
  intros Hp Hn Hm Hfind Hi.
  pose proof (put_state_run e p k _ _ _ _ _ _ _ Hp Hn Hm Hfind) as Hrun. cbn zeta in Hrun.
  rewrite Hi in Hrun. cbn [Z.eqb] in Hrun.
  set (s' := update_state _ _ _ _) in Hrun.
  set (q := state_pdu "STATE" s').
  assert (pdu_frames q = "STATE" :: state_name s' :: state_frames s') as Hq.
  { unfold q, state_pdu. by rewrite frames_extend_all, frames_make. }
  destruct (handle_stores ((CSubscriber,.) <$> broadcasts (update_sends (u8 (atoi code)) s s')) d) as [out Ho].
  { apply Forall_fmap, Forall_true. by left. }
  eexists _, (update_sends (u8 (atoi code)) s s'), _, out. split_and!; [|exact Ho|].
  - unfold _kernel_reactor, on_listener. dispatch Hp. rewrite (M_run_bind _ _ _ _ _ _ Hrun).
    unfold out_app, mret, M_ret. by rewrite app_nil_r.
  - cbn [disp_pdus]. rewrite received_subscriber. unfold update_sends, broadcasts. rewrite omap_app, foldl_app.
    cbn [omap list_omap foldl]. unfold put_pdu at 1. fold q. rewrite (key_state q _ _ Hq).
    change (state_name s') with (state_name s). rewrite lookup_insert_eq.
    change (pdu_frames <$> Some ?x) with (Some (pdu_frames x)). by rewrite frames_dup, Hq.
Qed.
End published.

(** ** Stopping *)

Section stop.
Context `{VL : VigorLaws}.

Lemma supervise_quiet quiet rest :
  Forall (λ w, w.1 = 0 ∧ w.2 ≠ SIGTERM ∧ w.2 ≠ SIGINT) quiet →
  sub_supervise (quiet ++ rest) = sub_supervise rest.
Proof using.
  induction 1 as [|[rc sig] quiet (Hrc & Ht & Hi) _ IH]; [done|]. cbn [fst snd] in *. subst rc.
  cbn. apply Z.eqb_neq in Ht as ->. apply Z.eqb_neq in Hi as ->. apply IH.
Qed.

(** C37: the first signal that matters (or a failure to wait for one) makes
    the supervisor publish a message on which the scheduler, the monitor
    and the cache all stop, whatever follows. *)
Theorem subscriber_shutdown quiet rc sig rest polls msgs now r mon d :
  Forall (λ w, w.1 = 0 ∧ w.2 ≠ SIGTERM ∧ w.2 ≠ SIGINT) quiet →
  rc ≠ 0 ∨ sig = SIGTERM ∨ sig = SIGINT →
  ∃ p,
    bolo_subscriber_supervisor true 0 (quiet ++ (rc, sig) :: rest) = Some (0, [p]) ∧
    sub_scheduler_thread (PollMessage p :: polls) = ([], true) ∧
    _monitor_reactor now r MControl p mon = Ok (MHalt, mon, []) ∧
    handle_all chalts _dispatcher_reactor ((CControl, p) :: msgs) d = Ok (true, d, []).
Proof using VL.
  intros Hq Hsig. exists (pdu_make "TERMINATE" []).
  assert (pdu_type (pdu_make "TERMINATE" []) = "TERMINATE") as Ht by (eapply pdu_type_of; apply frames_make).
  split_and!.
  - unfold bolo_subscriber_supervisor. cbn [negb Z.eqb]. rewrite supervise_quiet by done.
    cbn [sub_supervise]. destruct (Z.eqb_spec rc 0) as [->|?]; [|done].
    destruct Hsig as [? | [-> | ->]]; done.
  - cbn [sub_scheduler_thread]. by rewrite Ht.
  - cbn [_monitor_reactor]. by rewrite Ht.
  - done.
Qed.
End stop.

(** ** Examples *)

Module CacheExample.
Abbreviation V := ref_vigor.
Definition up : @pdu_t V := ("STATE", ["host.disk"; "1995"; "fresh"; "OK"; "fine"]).
Definition full : @pdu_t V := ("STATE", ["host.disk"; "2055"; "fresh"; "CRITICAL"; "full"]).
Definition logins : @pdu_t V := ("COUNTER", ["1980"; "host.logins"; "7"]).
Definition disk_rate : @pdu_t V := ("RATE", ["1980"; "host.disk"; "60"; "1.0e+00"]).
Definition repeat : @pdu_t V := ("REPEAT", []).
Definition msgs : list (csocket * @pdu_t V) :=
  [(CSubscriber, up); (CListen, repeat); (CSubscriber, logins); (CSubscriber, full)].
End CacheExample.

Lemma cache_repeat_latest_witness :
  ∃ out subjects sent d,
    handle_all (H := ref_vigor) chalts _dispatcher_reactor CacheExample.msgs (mk_dispatcher ∅) = Ok (false, d, out) ∧
    _dispatcher_reactor CListen CacheExample.repeat d = Ok (CContinue, d, sent) ∧
    NoDup subjects ∧
    (∀ tk, tk ∈ subjects ↔ ∃ p, p ∈ received (V := ref_vigor) CacheExample.msgs ∧ subject p = Some tk) ∧
    Forall2 (λ tk p, pdu_frames <$> latest_of (V := ref_vigor) (received CacheExample.msgs) tk = Some (pdu_frames p))
      subjects sent.
Proof.
  apply (cache_repeat_latest (VL := ref_vigor_laws)); [| |reflexivity].
  - repeat (apply Forall_cons; split; [by (left + right)|]). apply Forall_nil. done.
  - intros p q t t' k Hp Hq. change (received _) with [CacheExample.up; CacheExample.logins; CacheExample.full] in Hp, Hq.
    repeat (apply elem_of_cons in Hp as [->|Hp]); [..|by apply elem_of_nil in Hp];
    repeat (apply elem_of_cons in Hq as [->|Hq]); try (by apply elem_of_nil in Hq);
    intros E1 E2; vm_compute in E1, E2; congruence.
Defined.

Lemma cache_name_collision_witness :
  ∃ d out, handle_all (H := ref_vigor) chalts _dispatcher_reactor
      [(CSubscriber, CacheExample.full); (CSubscriber, CacheExample.disk_rate)] (mk_dispatcher ∅)
    = Ok (false, d, out) ∧
  ∃ sent, _dispatcher_reactor CListen CacheExample.repeat d = Ok (CContinue, d, [sent]) ∧
    pdu_frames sent = pdu_frames CacheExample.disk_rate.
Proof.
  apply (cache_name_collision (VL := ref_vigor_laws) CacheExample.full CacheExample.disk_rate "host.disk");
    try reflexivity. discriminate.
Defined.

Lemma state_reaches_cache_witness :
  ∃ k' o d' out,
    _kernel_reactor (H := ref_vigor) (H0 := ref_pcre) CoreExample.e Listener KernelExample.state_msg
      CoreExample.k = Ok (Continue, k', o) ∧
    handle_all (H := ref_vigor) chalts _dispatcher_reactor ((CSubscriber,.) <$> broadcasts o)
      (mk_dispatcher {["host.disk" := CacheExample.up]}) = Ok (false, d', out) ∧
    pdu_frames (Vigor := ref_vigor) <$> disp_pdus (H := ref_vigor) d' !! "host.disk" =
      Some ["STATE"; "host.disk"; fmt_i (s32 (u32 (strtoul "1995"))); "fresh"; statstr (u8 (atoi "2")); "full"].
Proof.
  apply (state_reaches_cache (VL := ref_vigor_laws) (H := ref_pcre) CoreExample.e KernelExample.state_msg
    CoreExample.k "1995" "host.disk" "2" "full" CoreExample.disk CoreExample.db);
    first [reflexivity|discriminate].
Defined.

Lemma subscriber_shutdown_witness :
  ∃ p,
    bolo_subscriber_supervisor (H := ref_vigor) true 0 ([(0, 17)] ++ (0, SIGINT) :: []) = Some (0, [p]) ∧
    sub_scheduler_thread (PollMessage p :: [PollTimeout]) = ([], true) ∧
    _monitor_reactor 1 2 MControl p (mk_monitor "sys" ∅) = Ok (MHalt, mk_monitor "sys" ∅, []) ∧
    handle_all chalts _dispatcher_reactor ((CControl, p) :: CacheExample.msgs) (mk_dispatcher ∅)
      = Ok (true, mk_dispatcher ∅, []).
Proof.
  apply (subscriber_shutdown (VL := ref_vigor_laws)); [|right; right; reflexivity].
  repeat constructor; discriminate.
Defined.
