(* ===== verification/Agent.v ===== *)
(** * The agent: src/dbolo/main.c

    dbolo runs the commands of its file at their intervals, reads what they
    print line by line, and submits every line as a message.  It reconnects
    when the beacon of the aggregator is not heard.

    The file of commands ([s_parse]), the collection of output ([s_sink]),
    the beacon ([beacon_timer], [beacon_ping]) and one turn of the main loop
    ([agent_turn]).  The answers of the operating system are arguments; the
    heartbeat of libvigor is an interface. *)

From S2P Require Import Prelude CLib Vigor Data Pdu Core.
From Stdlib Require Import Ascii SpecFloat.
From Stdlib Require String.

(** ** IEEE 754 binary32

    [float] expressions are evaluated in [float]. *)

Definition f_of_Z (z : Z) : spec_float := binary_normalize 24 128 z 0 false.
Definition fmul : spec_float → spec_float → spec_float := SFmul 24 128.
Definition fdiv : spec_float → spec_float → spec_float := SFdiv 24 128.

(** [(uint64_t)f] *)
Definition f_to_u64 (f : spec_float) : res Z :=
  match d_trunc f with
  | Some z => if (0 <=? z) && (z <? 2 ^ 64) then Ok z else Fault BadConversion
  | None => Fault BadConversion
  end.

(** ** Data *)

Definition AGENT_SOCKET_LIFETIME_MS : Z := 7000.
Definition BUFFER_SIZE : nat := Z.to_nat 8192.
Definition AGENT_RAND_MAX : Z := 2147483647.

Record socket_t := mk_socket {
  sock_open : bool;               (* zocket is not NULL *)
  sock_lifetime : Z;              (* int *)
  sock_expires : Z;               (* int64_t *)
}.

(** The first [nread] bytes of [buffer]; the byte after them is NUL whenever
    the code reads the buffer as a string. *)
Record command_t := mk_command {
  cmd_interval : Z;               (* int *)
  cmd_exec : string;
  cmd_next_run : Z;               (* uint64_t *)
  cmd_pid : Z;
  cmd_fd : Z;
  cmd_buffer : string;
}.

Definition set_buffer (b : string) (c : command_t) : command_t :=
  mk_command (cmd_interval c) (cmd_exec c) (cmd_next_run c) (cmd_pid c) (cmd_fd c) b.

(** ** The file of commands *)

(** [x = x * 10 + ...] on [int] *)
Fixpoint scan_x (x : Z) (a : string) : Z * string :=
  match a with
  | String c a' => if isdigit c then scan_x (s32 (s32 (x * 10) + digit_val c)) a' else (x, a)
  | EmptyString => (x, a)
  end.

Definition unit_seconds (c : ascii) : option Z :=
  if Ascii.eqb c "h" then Some 3600
  else if Ascii.eqb c "m" then Some 60
  else if Ascii.eqb c "s" then Some 1
  else None.

(** One line, as [fgets] returned it: the seconds and the command; [None]
    for a line that is skipped. *)
Definition parse_command (line : string) : option (Z * string) :=
  let line := cstr line in
  if negb (has_char LF line) then None
  else
    let a := skip_space (cut_last LF line) in
    if negb (Ascii.eqb (head_char a) "@") then None
    else
      let '(x, a) := scan_x 0 (tail_str a) in
      if x =? 0 then None
      else
        match unit_seconds (head_char a) with
        | None => None
        | Some u =>
            let x := s32 (x * u) in
            let a := tail_str a in
            if x <? 0 then None
            else if negb (isspace (head_char a)) then None
            else Some (x, skip_space a)
        end.

(** [rand() * OPTIONS.splay * x / RAND_MAX], converted to [unsigned int] *)
Definition splay_offset (splay : spec_float) (r x : Z) : res Z :=
  d_to_u32 (fdiv (fmul (fmul (f_of_Z r) splay) (f_of_Z x)) (f_of_Z AGENT_RAND_MAX)).

Definition new_command (time_s offset x : Z) (exec : string) : command_t :=
  mk_command (s32 (x * 1000)) exec (u64 ((u64 time_s + offset) * 1000)) (-1) (-1) EmptyString.

(** What is waiting in a pipe, in the pieces in which [read] hands it out;
    an empty piece is an answer of 0 or -1. *)
Abbreviation pipe := (list string).

Section agent.
Context `{Vigor}.

(** [rands] are the values of [rand()], one for each command. *)
Fixpoint parse_lines (time_s : Z) (splay : spec_float) (rands : list Z) (lines : list string)
    (cmds : list command_t) : res (list command_t) :=
  match lines with
  | [] => mret cmds
  | line :: lines' =>
      match parse_command line with
      | None => parse_lines time_s splay rands lines' cmds
      | Some (x, exec) =>
          offset ← splay_offset splay (default 0 (head rands)) x;
          parse_lines time_s splay (tail rands) lines' (list_push cmds (new_command time_s offset x exec))
      end
  end.

(** [file] is the text found at the path. *)
Definition s_parse (time_s : Z) (splay : spec_float) (rands : list Z) (file : option string)
    (cmds : list command_t) : res (Z * list command_t) :=
  match file with
  | None => mret (1, cmds)
  | Some text =>
      cmds ← parse_lines time_s splay rands (fgets_lines (String.length text) BUFFER_SIZE text) cmds;
      mret (0, cmds)
  end.

(** ** Collecting output *)

Definition read (n : nat) (p : pipe) : string * pipe :=
  match p with
  | [] => (EmptyString, [])
  | piece :: rest =>
      if (String.length piece <=? n)%nat then (piece, rest)
      else (take_str n piece, drop_str n piece :: rest)
  end.

(** The line up to the first newline and what follows it; [strchr] stops at
    the first NUL. *)
Definition next_line (b : string) : option (string * string) :=
  if has_char LF (cstr b) then Some (take_while (is_not LF) b, tail_str (skip_while (is_not LF) b))
  else None.

Abbreviation A := (M command_t pdu_t).

(** Every turn takes a character out of the buffer. *)
Fixpoint send_lines (fuel : nat) (now : Z) : A () :=
  match fuel with
  | O => mret ()
  | S f =>
      get ≫= λ cmd,
      match next_line (cmd_buffer cmd) with
      | None => mret ()
      | Some (line, rest) =>
          lift (bolo_stream_pdu now line) ≫= λ pdu,
          match pdu with Some p => emit p | None => mret () end ≫= λ _,
          modify (set_buffer rest) ≫= λ _,
          send_lines f now
      end
  end.

(** What is left in the pipe.  Every turn takes a byte out of the pipe. *)
Fixpoint sink_loop (fuel : nat) (now : Z) (p : pipe) : A pipe :=
  match fuel with
  | O => mret p
  | S f =>
      get ≫= λ cmd,
      let '(got, p) := read (BUFFER_SIZE - 1 - String.length (cmd_buffer cmd)) p in
      if (String.length got =? 0)%nat then mret p
      else
        modify (set_buffer (cmd_buffer cmd +:+ got)) ≫= λ _,
        get ≫= λ cmd,
        send_lines (String.length (cmd_buffer cmd)) now ≫= λ _,
        sink_loop f now p
  end.

Definition pipe_bytes (p : pipe) : nat := String.length (String.concat EmptyString p).

Definition s_sink (now : Z) (p : pipe) : A pipe := sink_loop (S (pipe_bytes p)) now p.
End agent.

(** ** Connections *)

(** What the agent does, besides its own state. *)
Inductive action `{Vigor} :=
| Submit (p : pdu_t)              (* on the socket to the aggregator *)
| Connect                         (* a new socket to the aggregator *)
| Subscribe                       (* beacon_close, then beacon_connect *)
| Backoff                         (* sleep *)
| Start (i : nat) (now : Z).      (* command number i is started *)

(** The heartbeat of libvigor: [hb_miss] answers 0 when too many beats were
    missed. *)
Class Heartbeat := {
  hb_t : Type;
  hb_interval : hb_t → Z;
  hb_adjust : Z → spec_float → hb_t → hb_t;   (* sets interval and backoff *)
  hb_miss : hb_t → Z * hb_t;
  hb_ping : hb_t → hb_t;
}.

Record bsocket_t `{Heartbeat} := mk_bsocket {
  b_bfd : Z;
  b_reconnects : Z;               (* int *)
  b_expires : Z;                  (* uint64_t *)
  b_hb : hb_t;
}.
Arguments mk_bsocket {_}.

(** The answers of the libraries during [beacon_connect]. *)
Record beacon_answers := mk_beacon_answers {
  ba_connect : Z;
  ba_setsockopt : Z;
  ba_getsockopt : Z;
  ba_fd : Z;
  ba_epoll : Z;
}.

Definition s_socket (lifetime : Z) : socket_t := mk_socket false lifetime 0.

(** [beacon_socket]; the memory of [vmalloc] is zero. *)
Definition beacon_socket `{Heartbeat} (now : Z) (hb : hb_t) : bsocket_t := mk_bsocket 0 0 (u64 now) hb.

Section beacon.
Context `{Vigor} `{Heartbeat}.

Definition s_reconnect (now : Z) (s : socket_t) : socket_t * list action :=
  if now <? sock_expires s then (s, [])
  else (mk_socket true (sock_lifetime s) (now + sock_lifetime s), [Connect]).

(** The return code and the file descriptor that is now watched. *)
Definition beacon_connect (a : beacon_answers) (bfd : Z) : Z * Z :=
  if negb (ba_connect a =? 0) then (1, bfd)
  else if negb (ba_setsockopt a =? 0) then (1, bfd)
  else if negb (ba_getsockopt a =? 0) then (1, bfd)
  else (if negb (ba_epoll a =? 0) then 2 else 0, ba_fd a).

Definition all_fine : beacon_answers := mk_beacon_answers 0 0 0 0 0.

(** At most [tries] attempts, each with its answers. *)
Fixpoint subscribe (tries : nat) (ans : list beacon_answers) (bfd : Z) : Z * list action :=
  match tries with
  | O => (bfd, [])
  | S t =>
      let '(rc, bfd) := beacon_connect (default all_fine (head ans)) bfd in
      if 0 <? rc then let '(bfd, o) := subscribe t (tail ans) bfd in (bfd, Subscribe :: o)
      else (bfd, [Subscribe])
  end.

(** [max] is [OPTIONS.reconnects]; the comparison of the clock with the
    expiry is unsigned. *)
Definition beacon_timer (now max : Z) (ans : list beacon_answers) (s : bsocket_t) (ps : socket_t)
    : bsocket_t * socket_t * list action :=
  if b_expires s <? u64 now then
    let expires := u64 (b_expires s + hb_interval (b_hb s)) in
    let '(rc, hb) := hb_miss (b_hb s) in
    if rc =? 0 then
      if b_reconnects s <? max then
        let '(ps, o) := s_reconnect now ps in
        let '(bfd, o') := subscribe 3 ans (b_bfd s) in
        (mk_bsocket bfd (b_reconnects s + 2) expires hb, ps, o ++ o')
      else (mk_bsocket (b_bfd s) 0 expires hb, ps, [Backoff])
    else (mk_bsocket (b_bfd s) (b_reconnects s) expires hb, ps, [])
  else (s, ps, []).

(** [2 - ts / now] in [uint64_t], converted to [float]. *)
Definition latency (ts now : Z) : res spec_float :=
  if now =? 0 then Fault DivByZero else Ok (f_of_Z (u64 (2 - ts / now))).

(** One message from the beacon.  [strtol] is converted to [uint32_t]. *)
Definition beacon_message (now : Z) (p : pdu_t) (s : bsocket_t) : res bsocket_t :=
  if streq (pdu_type p) "BEACON" then
    ts ← deref (pdu_string p 1);
    interval ← deref (pdu_string p 2);
    let interval := u32 (strtol interval) in
    latency ← latency (strtoul ts) now;
    expires ← f_to_u64 (fmul latency (f_of_Z (interval + now)));
    mret (mk_bsocket (b_bfd s) (if 0 <? b_reconnects s then b_reconnects s - 1 else b_reconnects s)
            expires (hb_ping (hb_adjust interval latency (b_hb s))))
  else mret s.

Fixpoint beacon_ping (now : Z) (ps : list pdu_t) (s : bsocket_t) : res bsocket_t :=
  match ps with
  | [] => mret s
  | p :: ps' => s ← beacon_message now p s; beacon_ping now ps' s
  end.

(** ** The main loop *)

(** An event of [epoll_wait]: the file descriptor, whether it can be read,
    and what is there. *)
Record event := mk_ev { ev_fd : Z; ev_in : bool; ev_pipe : pipe; ev_beacon : list pdu_t }.

(** The answers of the system about one command. *)
Record answers := mk_answers {
  an_exited : bool;               (* waitpid gives the child *)
  an_pipe : pipe;                 (* what the child has left to read *)
  an_pipe_ok : bool;              (* pipe() succeeds *)
  an_pid : Z;                     (* fork(): the child, or -1 *)
  an_fd : Z;
}.

Record agent_t := mk_agent {
  ag_sock : socket_t;
  ag_beacon : option bsocket_t;
  ag_commands : list command_t;
}.

(** The output of [s_sink] as actions. *)
Definition sink (now : Z) (p : pipe) (c : command_t) : res (command_t * list action) :=
  match s_sink now p c with
  | Ok (_, c, o) => Ok (c, Submit <$> o)
  | Fault f => Fault f
  end.

(** The first command that owns the file descriptor. *)
Fixpoint sink_event (now fd : Z) (p : pipe) (cmds : list command_t)
    : res (list command_t * list action) :=
  match cmds with
  | [] => mret ([], [])
  | c :: cmds' =>
      if fd =? cmd_fd c then '(c, o) ← sink now p c; mret (c :: cmds', o)
      else '(cmds', o) ← sink_event now fd p cmds'; mret (c :: cmds', o)
  end.

Definition on_event (now ms : Z) (ev : event) (ag : agent_t) : res (agent_t * list action) :=
  if negb (ev_in ev) then mret (ag, [])
  else
    match ag_beacon ag with
    | Some b =>
        if ev_fd ev =? b_bfd b then
          b ← beacon_ping ms (ev_beacon ev) b; mret (mk_agent (ag_sock ag) (Some b) (ag_commands ag), [])
        else
          '(cmds, o) ← sink_event now (ev_fd ev) (ev_pipe ev) (ag_commands ag);
          mret (mk_agent (ag_sock ag) (Some b) cmds, o)
    | None =>
        '(cmds, o) ← sink_event now (ev_fd ev) (ev_pipe ev) (ag_commands ag);
        mret (mk_agent (ag_sock ag) None cmds, o)
    end.

Fixpoint on_events (now ms : Z) (evs : list event) (ag : agent_t) : res (agent_t * list action) :=
  match evs with
  | [] => mret (ag, [])
  | ev :: evs' =>
      '(ag, o1) ← on_event now ms ev ag;
      '(ag, o2) ← on_events now ms evs' ag;
      mret (ag, o1 ++ o2)
  end.

(** One command, number [i]: a child that has exited is reaped, a command
    that is due is started.  [now] is in seconds, [ms] in milliseconds.
    The result of [fork] is not tested: when there is no child ([an_pid] is
    -1) nothing runs, but the command takes the pipe and its next run is
    moved all the same. *)
Definition run_command (now ms : Z) (i : nat) (an : answers) (c : command_t)
    : res (command_t * list action) :=
  if 0 <? cmd_pid c then
    if an_exited an then
      '(c, o) ← sink now (an_pipe an) c;
      mret (mk_command (cmd_interval c) (cmd_exec c) (cmd_next_run c) (-1) (-1) (cmd_buffer c), o)
    else mret (c, [])
  else if cmd_next_run c <? ms then
    if an_pipe_ok an then
      mret (mk_command (cmd_interval c) (cmd_exec c) (u64 (ms + cmd_interval c)) (an_pid an) (an_fd an)
              EmptyString,
            if 0 <? an_pid an then [Start i ms] else [])
    else mret (c, [])
  else mret (c, []).

Fixpoint run_commands (now ms : Z) (i : nat) (ans : list answers) (cmds : list command_t) {struct cmds}
    : res (list command_t * list action) :=
  match cmds, ans with
  | c :: cmds', an :: ans' =>
      '(c, o1) ← run_command now ms i an c;
      '(cmds', o2) ← run_commands now ms (S i) ans' cmds';
      mret (c :: cmds', o1 ++ o2)
  | _, _ => mret (cmds, [])
  end.

(** The clocks, the events and the answers of one turn of the loop. *)
Record turn := mk_turn {
  t_now : Z;                      (* time_s *)
  t_ms : Z;                       (* time_ms at the start of the turn *)
  t_ping : Z;                     (* time_ms in beacon_ping *)
  t_connect : list beacon_answers;
  t_events : list event;
  t_answers : list answers;
}.

Definition beacon_turn (max : Z) (t : turn) (ag : agent_t) : agent_t * list action :=
  match ag_beacon ag with
  | None => (ag, [])
  | Some b =>
      let '(b, s, o) := beacon_timer (t_ms t) max (t_connect t) b (ag_sock ag) in
      (mk_agent s (Some b) (ag_commands ag), o)
  end.

Definition agent_turn (max : Z) (t : turn) (ag : agent_t) : res (agent_t * list action) :=
  let ms := t_ms t - t_ms t mod 1000 in
  let '(ag, o1) := beacon_turn max t ag in
  '(ag, o2) ← on_events (t_now t) (t_ping t) (t_events t) ag;
  '(cmds, o3) ← run_commands (t_now t) ms 0 (t_answers t) (ag_commands ag);
  mret (mk_agent (ag_sock ag) (ag_beacon ag) cmds, o1 ++ o2 ++ o3).

Fixpoint agent_run (max : Z) (ts : list turn) (ag : agent_t) : res (agent_t * list action) :=
  match ts with
  | [] => mret (ag, [])
  | t :: ts' =>
      '(ag, o1) ← agent_turn max t ag;
      '(ag, o2) ← agent_run max ts' ag;
      mret (ag, o1 ++ o2)
  end.
End beacon.
