(* ===== verification/AgentFacts.v ===== *)
(** * Theorems on the agent

    However the output of a command arrives, exactly its complete lines are
    submitted; the file of commands is read as it is written; a command that
    is due is started, never twice at a time and never more often than its
    interval says.  Where the arithmetic of intervals and of the beacon goes
    wrong, the theorem says how. *)

From S2P Require Import Prelude CLib Vigor Data Pdu Core CoreFacts Agent.
From Stdlib Require Import Ascii SpecFloat.
From Stdlib Require String.

(** ** Lines *)

(** The complete lines of a text, and what follows the last newline. *)
Fixpoint lines_of (b : string) : list string * string :=
  match b with
  | EmptyString => ([], EmptyString)
  | String c b' =>
      let '(ls, r) := lines_of b' in
      if Ascii.eqb LF c then (EmptyString :: ls, r)
      else match ls with [] => ([], String c r) | l :: ls' => (String c l :: ls', r) end
  end.

Lemma lines_of_app a b :
  lines_of (a +:+ b) =
  let '(la, ra) := lines_of a in let '(lb, rb) := lines_of (ra +:+ b) in (la ++ lb, rb).
Proof.
  induction a as [|c a IH].
  - change ((EmptyString : string) +:+ b) with b. cbn [lines_of].
    change ((EmptyString : string) +:+ b) with b. by destruct (lines_of b).
  - rewrite str_app_cons. cbn [lines_of]. rewrite IH. destruct (lines_of a) as [la ra].
    destruct (Ascii.eqb LF c) eqn:Ec.
    + by destruct (lines_of (ra +:+ b)).
    + destruct la as [|l la].
      * rewrite str_app_cons. cbn [lines_of]. rewrite Ec. by destruct (lines_of (ra +:+ b)) as [[|] ?].
      * by destruct (lines_of (ra +:+ b)).
Qed.

(** The remainder is one unfinished line. *)
Lemma lines_of_rest b : lines_of (lines_of b).2 = ([], (lines_of b).2).
Proof.
  induction b as [|c b IH]; [done|]. cbn [lines_of]. destruct (lines_of b) as [ls r]; cbn [snd] in *.
  destruct (Ascii.eqb LF c) eqn:Ec; [done|]. destruct ls; cbn [snd]; [|done].
  cbn [lines_of]. by rewrite IH, Ec.
Qed.

Lemma lines_of_none b r : lines_of b = ([], r) → b = r.
Proof.
  revert r. induction b as [|c b IH]; intros r; [by intros [= <-]|].
  cbn [lines_of]. destruct (lines_of b) as [ls r']. destruct (Ascii.eqb LF c); [done|].
  destruct ls; [|done]. intros [= <-]. by rewrite (IH r').
Qed.

(** An unfinished line is part of what it continues to. *)
Definition first_part (x : list string * string) : string :=
  match x.1 with [] => x.2 | l :: _ => l end.

Lemma unfinished_length a b :
  lines_of a = ([], a) → (String.length a ≤ String.length (first_part (lines_of (a +:+ b))))%nat.
Proof.
  induction a as [|c a IH]; intros Ha; [cbn; lia|].
  cbn [lines_of] in Ha. destruct (lines_of a) as [ls r] eqn:E.
  destruct (Ascii.eqb LF c) eqn:Ec; [done|]. destruct ls; [|done]. injection Ha as ->.
  specialize (IH eq_refl). rewrite str_app_cons. cbn [lines_of]. destruct (lines_of (a +:+ b)) as [[|l lb] rb].
  - rewrite Ec. cbn in *. lia.
  - rewrite Ec. cbn in *. lia.
Qed.

Definition no_nul (s : string) : Prop := str_all not_nul s = true.

Lemma no_nul_app a b : no_nul (a +:+ b) ↔ no_nul a ∧ no_nul b.
Proof. unfold no_nul. rewrite str_all_app. apply andb_true_iff. Qed.

Lemma cstr_no_nul s : no_nul s → cstr s = s.
Proof.
  unfold no_nul, cstr. induction s as [|c s IH]; [done|].
  cbn [str_all take_while]. intros [-> Hs]%andb_prop. by rewrite IH.
Qed.

Lemma no_nul_rest b : no_nul b → no_nul (lines_of b).2.
Proof.
  unfold no_nul. induction b as [|c b IH]; [done|]. cbn [lines_of str_all]. intros [Hc Hb]%andb_prop.
  specialize (IH Hb). destruct (lines_of b) as [ls r]. destruct (Ascii.eqb LF c); [done|].
  destruct ls; [|done]. cbn in *. by rewrite Hc.
Qed.

(** The code's search for a newline, on a text without NUL. *)
Lemma next_line_spec b :
  no_nul b →
  match lines_of b with
  | ([], _) => next_line b = None
  | (l :: ls, r) => ∃ rest, next_line b = Some (l, rest) ∧ lines_of rest = (ls, r) ∧ no_nul rest
                     ∧ (String.length rest < String.length b)%nat
  end.
Proof.
  intros Hb. unfold next_line. rewrite cstr_no_nul by done.
  induction b as [|c b IH]; [done|]. unfold no_nul in Hb. cbn [lines_of str_all has_char take_while skip_while] in *.
  apply andb_prop in Hb as [Hc Hb]. specialize (IH Hb). 
  change (is_not LF c) with (negb (Ascii.eqb LF c)).
  destruct (lines_of b) as [ls r] eqn:E. destruct (Ascii.eqb LF c) eqn:Ec; cbn [negb orb].
  - exists b. cbn [tail_str String.length]. split_and!; [done..|lia].
  - destruct ls as [|l ls].
    + destruct (has_char LF b); [done|]. done.
    + destruct IH as (rest & Hn & ? & ? & ?). destruct (has_char LF b); [|done].
      injection Hn as Hl Hr. exists rest. rewrite Hl, Hr. cbn [String.length]. split_and!; [done..|lia].
Qed.

(** ** Collecting output *)

Section sink.
Context `{VL : VigorLaws}.

(** The messages of a sequence of lines. *)
Fixpoint stream_lines (now : Z) (ls : list string) : res (list pdu_t) :=
  match ls with
  | [] => mret []
  | l :: ls' =>
      p ← bolo_stream_pdu now l;
      ps ← stream_lines now ls';
      mret (match p with Some p => [p] | None => [] end ++ ps)
  end.

Lemma stream_lines_app now l1 l2 :
  stream_lines now (l1 ++ l2) =
  (o1 ← stream_lines now l1; o2 ← stream_lines now l2; mret (o1 ++ o2)).
Proof using.
  induction l1 as [|l l1 IH]; cbn.
  - by destruct (stream_lines now l2).
  - destruct (bolo_stream_pdu now l); [cbn|done]. rewrite IH.
    destruct (stream_lines now l1); [cbn|done]. destruct (stream_lines now l2); [cbn|done].
    by rewrite app_assoc.
Qed.

(** The end of a run: the messages sent, or the fault of a line. *)
Definition ends {A} (a : A) (c : command_t) (o : res (list pdu_t)) : res (A * command_t * list pdu_t) :=
  match o with Ok o => Ok (a, c, o) | Fault f => Fault f end.

Lemma set_buffer_buffer b b' c : set_buffer b (set_buffer b' c) = set_buffer b c.
Proof using. done. Qed.

Lemma send_lines_run fuel now c :
  no_nul (cmd_buffer c) → (String.length (cmd_buffer c) ≤ fuel)%nat →
  send_lines fuel now c =
  ends () (set_buffer (lines_of (cmd_buffer c)).2 c) (stream_lines now (lines_of (cmd_buffer c)).1).
Proof using.
  revert c. induction fuel as [|fuel IH]; intros c Hb Hf.
  - destruct c as [? ? ? ? ? b]. cbn in *. by destruct b; [|cbn in Hf; lia].
  - cbn [send_lines]. mstep. pose proof (next_line_spec _ Hb) as Hn.
    destruct (lines_of (cmd_buffer c)) as [ls r] eqn:E. destruct ls as [|l ls].
    + rewrite Hn. cbn [fst snd stream_lines]. rewrite <- (lines_of_none _ _ E). by destruct c.
    + destruct Hn as (rest & -> & Hrest & Hnr & Hlen). cbn [fst snd stream_lines].
      destruct (bolo_stream_pdu now l) as [p|f]; [|done]. mstep.
      assert (∀ c', c' = set_buffer rest c → send_lines fuel now c' =
                ends () (set_buffer r c) (stream_lines now ls)) as Hrun.
      { intros c' ->. rewrite IH by (cbn [cmd_buffer set_buffer] in *; done || lia).
        cbn [cmd_buffer set_buffer]. by rewrite Hrest. }
      destruct p as [p|]; mstep; rewrite (Hrun _ eq_refl); cbn;
        by destruct (stream_lines now ls).
Qed.

Definition pieces (p : pipe) : Prop := Forall (λ s, s ≠ EmptyString) p.

Abbreviation text_of p := (String.concat EmptyString p).

Lemma read_spec n p :
  pieces p → p ≠ [] → (0 < n)%nat →
  ∃ got p', read n p = (got, p') ∧ (0 < String.length got)%nat ∧ text_of p = got +:+ text_of p' ∧ pieces p'.
Proof using.
  intros Hp Hne Hn. destruct p as [|s p]; [done|]. apply Forall_cons in Hp as [Hs Hp].
  assert (0 < String.length s)%nat as Hl by (destruct s; [done|cbn; lia]).
  unfold read. destruct (Nat.leb_spec (String.length s) n) as [Hle|Hgt].
  - exists s, p. by rewrite str_concat_cons.
  - exists (take_str n s), (drop_str n s :: p). rewrite take_str_length, Nat.min_l by lia.
    split_and!; [done|lia| |].
    + by rewrite !str_concat_cons, <- str_app_assoc, take_drop_str.
    + apply Forall_cons. split; [|done]. intros Hd. apply (f_equal String.length) in Hd.
      rewrite drop_str_length in Hd. cbn in Hd. lia.
Qed.

(** Every line, the unfinished one included, fits the buffer. *)
Definition short (b : string) : Prop :=
  Forall (λ l, String.length l < BUFFER_SIZE - 1)%nat (lines_of b).1 ∧
  (String.length (lines_of b).2 < BUFFER_SIZE - 1)%nat.

Lemma short_app a b : short (a +:+ b) → short ((lines_of a).2 +:+ b).
Proof using.
  unfold short. rewrite lines_of_app. destruct (lines_of a) as [la ra]. cbn [snd].
  destruct (lines_of (ra +:+ b)) as [lb rb]. cbn [fst snd]. intros [[_ ?]%Forall_app ?]. done.
Qed.

Lemma short_prefix a b : short (a +:+ b) → lines_of a = ([], a) → (String.length a < BUFFER_SIZE - 1)%nat.
Proof using.
  intros [Hl Hr] Ha. pose proof (unfinished_length a b Ha) as Hu. unfold first_part in Hu.
  destruct (lines_of (a +:+ b)) as [[|l ls] r]; cbn [fst snd] in *; [lia|].
  apply Forall_cons in Hl as [? _]. lia.
Qed.

Lemma text_length got p p' :
  text_of p = got +:+ text_of p' → pipe_bytes p = (String.length got + pipe_bytes p')%nat.
Proof using. unfold pipe_bytes. intros ->. apply str_length_app. Qed.

Lemma sink_loop_run fuel now p c :
  pieces p → no_nul (cmd_buffer c +:+ text_of p) → short (cmd_buffer c +:+ text_of p) →
  lines_of (cmd_buffer c) = ([], cmd_buffer c) → (pipe_bytes p < fuel)%nat →
  sink_loop fuel now p c =
  ends [] (set_buffer (lines_of (cmd_buffer c +:+ text_of p)).2 c)
    (stream_lines now (lines_of (cmd_buffer c +:+ text_of p)).1).
Proof using.
  revert p c. induction fuel as [|fuel IH]; intros p c Hp Hnul Hs Hb Hf; [lia|].
  cbn [sink_loop]. mstep.
  destruct (decide (p = [])) as [->|Hne].
  { cbn [read]. cbn [String.concat]. rewrite str_app_nil_r, Hb. by destruct c. }
  pose proof (short_prefix _ _ Hs Hb) as Hlen.
  destruct (read_spec (BUFFER_SIZE - 1 - String.length (cmd_buffer c)) p) as (got & p' & -> & Hg & Ht & Hp');
    [done|done|lia|].
  destruct (Nat.eqb_spec (String.length got) 0); [lia|]. mstep.
  rewrite Ht, <- str_app_assoc in Hnul, Hs |- *. apply text_length in Ht.
  apply no_nul_app in Hnul as [Hn1 Hn2]. rewrite lines_of_app.
  apply short_app in Hs. pose proof (no_nul_rest _ Hn1) as Hnr. pose proof (lines_of_rest (cmd_buffer c +:+ got)) as Hrr.
  pose proof (send_lines_run (String.length (cmd_buffer c +:+ got)) now (set_buffer (cmd_buffer c +:+ got) c) Hn1
    (le_n _)) as Hsend.
  change (cmd_buffer (set_buffer ?x c)) with x in *.
  unfold mbind at 1, M_bind at 1. rewrite Hsend. destruct (lines_of (cmd_buffer c +:+ got)) as [la ra].
  cbn [fst snd] in *. destruct (stream_lines now la) as [o1|f] eqn:E1; cbn [ends].
  - rewrite IH; [|done|by apply no_nul_app|done|done|lia].
    cbn [set_buffer cmd_buffer]. destruct (lines_of (ra +:+ text_of p')) as [lb rb]. cbn [fst snd].
    rewrite stream_lines_app, E1. cbn. by destruct (stream_lines now lb).
  - destruct (lines_of (ra +:+ text_of p')) as [lb rb]. cbn [fst snd]. by rewrite stream_lines_app, E1.
Qed.

(** C10: the agent submits exactly the complete lines of what a command
    prints, in order, each as the message it stands for, in whatever pieces
    the output arrives; the unfinished rest waits in the buffer.  A line
    that faults is the fault of the run.  This holds for text without NUL
    whose lines fit the buffer. *)
Theorem sink_submits_lines now p c :
  pieces p → no_nul (cmd_buffer c +:+ text_of p) → short (cmd_buffer c +:+ text_of p) →
  lines_of (cmd_buffer c) = ([], cmd_buffer c) →
  s_sink now p c =
  ends [] (set_buffer (lines_of (cmd_buffer c +:+ text_of p)).2 c)
    (stream_lines now (lines_of (cmd_buffer c +:+ text_of p)).1).
Proof using. intros. apply sink_loop_run; auto with lia. Qed.

(** A line that fills the buffer blocks the command: once 8191 bytes
    without a newline are buffered, nothing more is read or submitted,
    whatever the command prints. *)
Theorem full_buffer_blocks now s p c :
  (String.length (cmd_buffer c) = BUFFER_SIZE - 1)%nat → s ≠ EmptyString →
  s_sink now (s :: p) c = Ok (s :: p, c, []).
Proof using.
  intros Hb Hs. unfold s_sink. cbn [sink_loop]. mstep. rewrite Hb, Nat.sub_diag.
  cbn [read]. destruct s as [|ch s]; [done|]. reflexivity.
Qed.
End sink.

(** ** The file of commands *)

Lemma scan_digits_mono s acc : 0 ≤ acc → acc ≤ (scan_digits acc s).1.
Proof.
  revert acc. induction s as [|c s IH]; intros acc H; cbn [scan_digits]; [cbn; lia|].
  destruct (isdigit c) eqn:E; cbn [fst]; [|lia].
  assert (0 ≤ digit_val c) by (unfold digit_val, isdigit in *; lia).
  etrans; [|apply IH; lia]. lia.
Qed.

(** The agent's own scanner of numbers agrees with the library's as long as
    the number fits. *)
Lemma scan_x_digits s x : 0 ≤ x → (scan_digits x s).1 < 2 ^ 31 → scan_x x s = scan_digits x s.
Proof.
  revert x. induction s as [|c s IH]; intros x Hx Hs; [done|]. cbn [scan_digits scan_x] in *.
  destruct (isdigit c) eqn:E; [|done].
  assert (0 ≤ digit_val c) by (unfold digit_val, isdigit in *; lia).
  pose proof (scan_digits_mono s (x * 10 + digit_val c)) as Hm.
  rewrite (s32_id (x * 10)) by (unfold is_s32; lia). rewrite s32_id by (unfold is_s32; lia).
  apply IH; [lia|done].
Qed.

(** An entry of the file: a number, a unit and a command. *)
Record entry := mk_entry { en_n : Z; en_unit : ascii; en_exec : string }.

Definition en_seconds (e : entry) : Z := en_n e * default 0 (unit_seconds (en_unit e)).

Definition entry_text (e : entry) : string :=
  "@" +:+ dec (en_n e) +:+ str1 (en_unit e) +:+ " " +:+ en_exec e.

(** A line of the file: an entry, or a comment. *)
Inductive fline := Entry (e : entry) | Comment (s : string).

Definition fline_text (l : fline) : string :=
  match l with Entry e => entry_text e +:+ nl | Comment s => "#" +:+ s +:+ nl end.

Definition plain (s : string) : Prop := str_all (is_not LF) s = true ∧ no_nul s.

Definition entry_ok (e : entry) : Prop :=
  0 < en_n e ∧ is_Some (unit_seconds (en_unit e)) ∧ en_seconds e < 2147484 ∧
  plain (en_exec e) ∧ isspace (head_char (en_exec e)) = false ∧
  (String.length (entry_text e) < BUFFER_SIZE - 1)%nat.

Definition fline_ok (l : fline) : Prop :=
  match l with
  | Entry e => entry_ok e
  | Comment s => plain s ∧ (String.length s < BUFFER_SIZE - 2)%nat
  end.

Lemma plain_app a b : plain (a +:+ b) ↔ plain a ∧ plain b.
Proof. unfold plain, no_nul. rewrite !str_all_app, !andb_true_iff. tauto. Qed.

Lemma digits_plain s : str_all isdigit s = true → plain s.
Proof.
  intros Hs. split; (eapply str_all_imp; [|exact Hs]); intros c Hc; unfold not_nul, is_not.
  - destruct (Ascii.eqb_spec LF c) as [<-|]; [by vm_compute in Hc|done].
  - destruct (Ascii.eqb_spec NUL c) as [<-|]; [by vm_compute in Hc|done].
Qed.

Lemma dec_digits n : 0 ≤ n → str_all isdigit (dec n) = true.
Proof. intros. by apply dec_aux_digits. Qed.

Lemma unit_cases c u :
  unit_seconds c = Some u → (c = "h" ∧ u = 3600 ∨ c = "m" ∧ u = 60 ∨ c = "s" ∧ u = 1)%char.
Proof.
  unfold unit_seconds. destruct (Ascii.eqb_spec c "h"); [naive_solver|].
  destruct (Ascii.eqb_spec c "m"); [naive_solver|]. destruct (Ascii.eqb_spec c "s"); naive_solver.
Qed.

Lemma entry_plain e : entry_ok e → plain (entry_text e).
Proof.
  intros (Hn & [u Hu] & _ & He & _). unfold entry_text. rewrite !plain_app. split; [done|].
  split; [apply digits_plain, dec_digits; lia|]. split; [|done].
  apply unit_cases in Hu as [[-> _] | [[-> _] | [-> _]]]; done.
Qed.

(** A whole line, without its newline. *)
Lemma parse_line_body b :
  plain b →
  parse_command (b +:+ nl) =
  let a := skip_space b in
  if negb (Ascii.eqb (head_char a) "@") then None
  else
    let '(x, a) := scan_x 0 (tail_str a) in
    if x =? 0 then None
    else match unit_seconds (head_char a) with
         | None => None
         | Some u =>
             if s32 (x * u) <? 0 then None
             else if negb (isspace (head_char (tail_str a))) then None
             else Some (s32 (x * u), skip_space (tail_str a))
         end.
Proof.
  intros [Hl Hn]. unfold parse_command.
  rewrite cstr_no_nul by (apply no_nul_app; done).
  rewrite has_char_app, orb_true_r. cbn [negb]. by rewrite cut_last_end.
Qed.

Lemma parse_entry e :
  entry_ok e → parse_command (entry_text e +:+ nl) = Some (en_seconds e, en_exec e).
Proof.
  intros He. rewrite parse_line_body by by apply entry_plain.
  destruct He as (Hn & [u Hu] & Hs & _ & Hsp & _). destruct e as [n c exec]. unfold entry_text, en_seconds in *.
  cbn [en_n en_unit en_exec] in *. rewrite Hu in *. cbn [from_option id] in *.
  rewrite str_app_cons, str_app_nil_l. cbn [skip_space skip_while head_char tail_str].
  change (isspace "@") with false. cbn [head_char tail_str]. change (Ascii.eqb "@" "@") with true. cbn [negb].
  assert (isdigit (head_char (str1 c +:+ " " +:+ exec)) = false ∧ 1 ≤ u) as [Hd Hu1].
  { apply unit_cases in Hu as [[-> ->] | [[-> ->] | [-> ->]]]; done. }
  assert (n ≤ n * u) as Hnu by nia.
  rewrite scan_x_digits; [|lia|rewrite scan_digits_dec by (done || lia); cbn [fst]; lia].
  rewrite scan_digits_dec by (done || lia).
  cbn [fst snd]. destruct (Z.eqb_spec n 0); [lia|].
  unfold str1. rewrite !str_app_cons, !str_app_nil_l. cbn [head_char tail_str]. rewrite Hu.
  rewrite s32_id by (unfold is_s32; lia). destruct (Z.ltb_spec (n * u) 0); [lia|].
  change (negb (isspace " ")) with false. cbn iota. f_equal. f_equal.
  cbn [skip_space skip_while]. change (isspace " ") with true. cbn iota. by apply skip_while_head.
Qed.

Lemma parse_comment s : plain s → parse_command (("#" +:+ s) +:+ nl) = None.
Proof.
  intros Hs. rewrite parse_line_body by by apply plain_app. done.
Qed.

Lemma fline_is_line l : fline_ok l → is_line BUFFER_SIZE (fline_text l).
Proof.
  destruct l as [e|s]; cbn [fline_ok fline_text].
  - intros He. exists (entry_text e). split; [done|]. split; [by apply entry_plain|].
    destruct He as (_ & _ & _ & _ & _ & ?). lia.
  - intros [[Hs _] Hl]. exists ("#" +:+ s). split; [by rewrite str_app_assoc|]. split; [done|].
    rewrite str_length_app. cbn [String.length]. lia.
Qed.

Section parse.
Context `{VL : VigorLaws}.

Definition entries (ls : list fline) : list entry :=
  omap (λ l, match l with Entry e => Some e | Comment _ => None end) ls.

(** A command as it should be scheduled: first after [off] seconds, then
    every so many milliseconds. *)
Definition scheduled (now : Z) (e : entry) (off : Z) : command_t :=
  mk_command (en_seconds e * 1000) (en_exec e) (u64 ((u64 now + off) * 1000)) (-1) (-1) EmptyString.

Lemma seconds_nonneg e : entry_ok e → 0 ≤ en_seconds e.
Proof using.
  intros (Hn & [u Hu] & _). unfold en_seconds. rewrite Hu.
  apply unit_cases in Hu as [[_ ->] | [[_ ->] | [_ ->]]]; cbn; lia.
Qed.

Lemma new_command_scheduled now off e :
  entry_ok e → new_command now off (en_seconds e) (en_exec e) = scheduled now e off.
Proof using.
  intros He. pose proof (seconds_nonneg e He). destruct He as (_ & _ & Hs & _).
  unfold new_command, scheduled. rewrite s32_id by (unfold is_s32; lia). done.
Qed.

(** The offset of every entry is defined. *)
Definition offsets (splay : spec_float) (rands : list Z) (es : list entry) (offs : list Z) : Prop :=
  length rands = length es ∧
  Forall2 (λ re off, splay_offset splay re.1 (en_seconds re.2) = Ok off) (zip rands es) offs.

Lemma parse_lines_run now splay rands ls offs cmds :
  Forall fline_ok ls → offsets splay rands (entries ls) offs →
  parse_lines now splay rands (fline_text <$> ls) cmds =
  Ok (cmds ++ zip_with (scheduled now) (entries ls) offs).
Proof using VL.
  intros Hls. revert rands offs cmds.
  induction Hls as [|l ls Hl _ IH]; intros rands offs cmds [Hr Ho].
  - cbn. by rewrite app_nil_r.
  - rewrite fmap_cons. cbn [parse_lines]. destruct l as [e|s]; cbn [fline_text].
    + cbn in Hr, Ho. destruct rands as [|r rands]; [done|]. cbn in Ho.
      inversion Ho as [|? off ? offs' Hoff Ho']; subst. cbn [fst snd] in Hoff.
      rewrite parse_entry by done. cbn [head from_option tail]. cbn in Hl |- *.
      change (from_option id 0 (Some r)) with r. rewrite Hoff. cbn.
      rewrite IH with (offs := offs'); [|split; [by injection Hr|done]].
      rewrite list_push_app, <- app_assoc, new_command_scheduled by done. done.
    + rewrite <- str_app_assoc, parse_comment by apply Hl. by apply IH.
Qed.

(** C29: the file of commands is read as it is written: every entry gives the
    command it names, with its interval in milliseconds and its first run
    after the chosen offset, in the order of the file; comments give
    nothing. *)
Theorem s_parse_roundtrip now splay rands ls offs :
  Forall fline_ok ls → offsets splay rands (entries ls) offs →
  s_parse now splay rands (Some (String.concat EmptyString (fline_text <$> ls))) [] =
  Ok (0, zip_with (scheduled now) (entries ls) offs).
Proof using VL.
  intros Hls Ho.
  assert (Forall (is_line BUFFER_SIZE) (fline_text <$> ls)) as Hl.
  { apply Forall_fmap. eapply Forall_impl; [done|]. apply fline_is_line. }
  unfold s_parse. rewrite fgets_lines_concat by (done || by apply concat_lines_length with BUFFER_SIZE).
  by rewrite (parse_lines_run _ _ _ _ offs).
Qed.
End parse.

(** ** Scheduling *)

(** Commands that differ in what is buffered. *)
Definition buffered (c c' : command_t) : Prop := ∃ b, c' = set_buffer b c.

#[export] Instance buffered_preorder : PreOrder buffered.
Proof.
  split.
  - intros c. exists (cmd_buffer c). by destruct c.
  - intros c1 c2 c3 [b ->] [b' ->]. by exists b'.
Qed.

Section schedule.
Context `{VL : VigorLaws} `{Heartbeat}.

Lemma send_lines_buffered fuel now c c0 :
  buffered c0 c → wp True (send_lines fuel now) (λ _ c', buffered c0 c') c.
Proof using.
  revert c. induction fuel as [|fuel IH]; intros c Hc; [done|]. cbn [send_lines].
  apply wp_bind, wp_get. destruct (next_line (cmd_buffer c)) as [[l rest]|]; [|done].
  apply wp_bind, wp_lift; [|done]. intros p _. apply wp_bind.
  destruct p; apply wp_bind, wp_modify || (apply wp_emit; apply wp_bind, wp_modify); apply IH;
    (etrans; [exact Hc|by eexists]).
Qed.

Lemma sink_loop_buffered fuel now p c c0 :
  buffered c0 c → wp True (sink_loop fuel now p) (λ _ c', buffered c0 c') c.
Proof using.
  revert p c. induction fuel as [|fuel IH]; intros p c Hc; [done|]. cbn [sink_loop].
  apply wp_bind, wp_get. destruct (read _ p) as [got p']. destruct (String.length got =? 0)%nat; [done|].
  apply wp_bind, wp_modify, wp_bind, wp_get, wp_bind.
  eapply wp_mono; [apply (send_lines_buffered _ _ _ c0)|].
  - etrans; [exact Hc|by eexists].
  - intros ? c' Hc'. by apply IH.
Qed.

(** The moments at which command [i] is started. *)
Definition starts (i : nat) (o : list action) : list Z :=
  omap (λ a, match a with Start j ms => if decide (j = i) then Some ms else None | _ => None end) o.

Lemma starts_app i o1 o2 : starts i (o1 ++ o2) = starts i o1 ++ starts i o2.
Proof using. apply omap_app. Qed.

Lemma sink_buffered now p c c' o i :
  sink now p c = Ok (c', o) → buffered c c' ∧ starts i o = [].
Proof using.
  unfold sink. pose proof (sink_loop_buffered (S (pipe_bytes p)) now p c c (reflexivity c)) as Hw.
  unfold wp, s_sink in *. destruct (sink_loop _ _ _ _) as [[[p' c1] o1]|]; [|done].
  intros [= <- <-]. split; [done|]. unfold starts. induction o1 as [|x o1 IH]; [done|]. exact IH.
Qed.

Lemma sink_event_buffered now fd p cmds cmds' o i :
  sink_event now fd p cmds = Ok (cmds', o) → Forall2 buffered cmds cmds' ∧ starts i o = [].
Proof using.
  revert cmds' o. induction cmds as [|c cmds IH]; intros cmds' o; cbn [sink_event].
  - intros [= <- <-]. done.
  - destruct (fd =? cmd_fd c).
    + intros ([c1 o1] & Hs & [= <- <-])%bind_Ok. apply (sink_buffered _ _ _ _ _ i) in Hs as [Hc Ho].
      split; [|done]. constructor; [done|reflexivity].
    + intros ([cs o1] & Hs & [= <- <-])%bind_Ok. apply IH in Hs as [Hc Ho].
      split; [|done]. by constructor.
Qed.

Lemma on_event_buffered now ms ev ag ag' o i :
  on_event now ms ev ag = Ok (ag', o) →
  Forall2 buffered (ag_commands ag) (ag_commands ag') ∧ starts i o = [].
Proof using.
  unfold on_event. destruct (ev_in ev); cbn [negb]; [|by intros [= <- <-]].
  destruct (ag_beacon ag) as [b|].
  - destruct (ev_fd ev =? b_bfd b).
    + by intros (b' & _ & [= <- <-])%bind_Ok.
    + intros ([cs o1] & Hs & [= <- <-])%bind_Ok. by apply (sink_event_buffered _ _ _ _ _ _ i) in Hs.
  - intros ([cs o1] & Hs & [= <- <-])%bind_Ok. by apply (sink_event_buffered _ _ _ _ _ _ i) in Hs.
Qed.

Lemma on_events_buffered now ms evs ag ag' o i :
  on_events now ms evs ag = Ok (ag', o) →
  Forall2 buffered (ag_commands ag) (ag_commands ag') ∧ starts i o = [].
Proof using.
  revert ag o. induction evs as [|ev evs IH]; intros ag o; cbn [on_events]; [by intros [= <- <-]|].
  intros ([ag1 o1] & H1 & ([ag2 o2] & H2 & [= -> <-])%bind_Ok)%bind_Ok.
  apply (on_event_buffered _ _ _ _ _ _ i) in H1 as [Hc1 Ho1]. apply IH in H2 as [Hc2 Ho2].
  split; [by etrans|]. by rewrite starts_app, Ho1, Ho2.
Qed.

(** Whether a turn tries to start a command, and whether a child runs it. *)
Definition tries_now (ms : Z) (an : answers) (c : command_t) : bool :=
  negb (0 <? cmd_pid c) && (cmd_next_run c <? ms) && an_pipe_ok an.

Definition starts_now (ms : Z) (an : answers) (c : command_t) : bool :=
  tries_now ms an c && (0 <? an_pid an).

(** What a turn does to a command. *)
Definition turned (ms : Z) (an : answers) (c c' : command_t) : Prop :=
  cmd_interval c' = cmd_interval c ∧ cmd_exec c' = cmd_exec c ∧
  cmd_next_run c' = (if tries_now ms an c then u64 (ms + cmd_interval c) else cmd_next_run c) ∧
  cmd_pid c' = (if tries_now ms an c then an_pid an
                else if (0 <? cmd_pid c) && an_exited an then -1 else cmd_pid c).

Lemma run_command_turned now ms i an c c' o :
  run_command now ms i an c = Ok (c', o) →
  turned ms an c c' ∧ ∀ j, starts j o = if decide (j = i) then (if starts_now ms an c then [ms] else []) else [].
Proof using.
  unfold run_command, turned, starts_now, tries_now. destruct (0 <? cmd_pid c) eqn:Ep; cbn [negb andb].
  - destruct (an_exited an).
    + intros ([c1 o1] & Hs & [= <- <-])%bind_Ok.
      pose proof (λ j, sink_buffered _ _ _ _ _ j Hs) as Hb.
      destruct (Hb O) as [[b ->] _]. split; [done|]. intros j. destruct (Hb j) as [_ ->]. by case_decide.
    + intros [= <- <-]. split; [done|]. intros j. by case_decide.
  - destruct (cmd_next_run c <? ms); [|intros [= <- <-]; split; [done|]; intros; by case_decide].
    destruct (an_pipe_ok an); [|intros [= <- <-]; split; [done|]; intros; by case_decide].
    intros [= <- <-]. split; [done|]. intros j. unfold starts. destruct (0 <? an_pid an); cbn; by repeat case_decide.
Qed.

Lemma run_commands_turned now ms k ans cmds cmds' o :
  run_commands now ms k ans cmds = Ok (cmds', o) →
  length cmds' = length cmds ∧
  (∀ j, (j < k)%nat → starts j o = []) ∧
  ∀ i c an, cmds !! i = Some c → ans !! i = Some an →
    (∃ c', cmds' !! i = Some c' ∧ turned ms an c c') ∧
    starts (k + i) o = if starts_now ms an c then [ms] else [].
Proof using.
  revert k ans cmds' o. induction cmds as [|c cmds IH]; intros k ans cmds' o; cbn [run_commands].
  { intros [= <- <-]%ret_Ok. split_and!; done. }
  destruct ans as [|an ans]; [by intros [= <- <-]%ret_Ok|].
  intros ([c1 o1] & Hc & ([cs o2] & Hcs & [= <- <-])%bind_Ok)%bind_Ok.
  apply run_command_turned in Hc as [Ht Hs]. apply IH in Hcs as (Hlen & Hlt & Hi).
  split_and!; [cbn; by rewrite Hlen| |].
  - intros j Hj. rewrite starts_app, Hs, Hlt by lia. rewrite decide_False by lia. done.
  - intros i c0 an0. destruct i as [|i]; cbn.
    + intros [= <-] [= <-]. split; [by exists c1|].
      rewrite starts_app, Hs, decide_True by lia. rewrite Hlt by lia. by rewrite app_nil_r.
    + intros Hc Ha. destruct (Hi _ _ _ Hc Ha) as [? Hst]. split; [done|].
      rewrite starts_app, Hs, decide_False by lia. by rewrite Nat.add_succ_r.
Qed.

Lemma buffered_starts ms an c c1 : buffered c c1 → starts_now ms an c1 = starts_now ms an c.
Proof using. by intros [b ->]. Qed.

Lemma buffered_turned ms an c c1 c2 : buffered c c1 → turned ms an c1 c2 → turned ms an c c2.
Proof using. by intros [b ->]. Qed.

Lemma subscribe_no_start tries ans bfd i : starts i (subscribe tries ans bfd).2 = [].
Proof using.
  revert ans bfd. induction tries as [|t IH]; intros ans bfd; [done|]. cbn [subscribe].
  destruct (beacon_connect _ _) as [rc bfd']. destruct (0 <? rc); [|done].
  specialize (IH (tail ans) bfd'). by destruct (subscribe _ _ _).
Qed.

Lemma beacon_turn_commands max t ag ag' o i :
  beacon_turn max t ag = (ag', o) → ag_commands ag' = ag_commands ag ∧ starts i o = [].
Proof using.
  unfold beacon_turn. destruct (ag_beacon ag) as [b|]; [|by intros [= <- <-]].
  unfold beacon_timer. destruct (_ <? _); [|by intros [= <- <-]].
  destruct (hb_miss _) as [rc hb]. destruct (rc =? 0); [|by intros [= <- <-]].
  destruct (_ <? max); [|by intros [= <- <-]].
  unfold s_reconnect. pose proof (subscribe_no_start 3 (t_connect t) (b_bfd b) i) as Hs.
  destruct (subscribe _ _ _) as [bfd o2]. destruct (_ <? _); intros [= <- <-]; done.
Qed.

Lemma Z_ltb_bool x y : bool_decide (x < y) = (x <? y).
Proof using. destruct (Z.ltb_spec x y); first [by rewrite bool_decide_true|by rewrite bool_decide_false by lia]. Qed.

Lemma starts_tries ms an c : starts_now ms an c = true → tries_now ms an c = true.
Proof using. unfold starts_now. by intros [? _]%andb_prop. Qed.

(** One turn of the main loop, for one command. *)
Lemma turn_command max t ag ag' o i c an :
  agent_turn max t ag = Ok (ag', o) → ag_commands ag !! i = Some c → t_answers t !! i = Some an →
  let ms := t_ms t - t_ms t mod 1000 in
  (∃ c', ag_commands ag' !! i = Some c' ∧ turned ms an c c') ∧
  starts i o = if starts_now ms an c then [ms] else [].
Proof using.
  unfold agent_turn. intros Hr Hc Ha. destruct (beacon_turn max t ag) as [ag1 o1] eqn:Hb.
  apply (beacon_turn_commands _ _ _ _ _ i) in Hb as [Hb Ho1].
  apply bind_Ok in Hr as ([ag2 o2] & He & Hr). apply bind_Ok in Hr as ([cs o3] & Hcs & [= <- <-]).
  apply (on_events_buffered _ _ _ _ _ _ i) in He as [He Ho2]. rewrite Hb in He.
  apply run_commands_turned in Hcs as (_ & _ & Hi).
  destruct (Forall2_lookup_l _ _ _ _ _ He Hc) as (c1 & Hc1 & Hbuf).
  destruct (Hi _ _ _ Hc1 Ha) as [(c2 & Hc2 & Ht) Hs]. cbn [Nat.add] in Hs.
  rewrite (buffered_starts _ _ _ _ Hbuf) in Hs. split.
  - exists c2. split; [done|]. by eapply buffered_turned.
  - by rewrite !starts_app, Ho1, Ho2, Hs.
Qed.

(** C11: in every turn of the agent that does not fault, a command is started
    if and only if none of its children is running, its time has come, the
    system can make a pipe and [fork] gives a child.  Its next run is moved
    one interval after this turn exactly when it was due, not running and a
    pipe could be made - also when [fork] fails, so that the run is skipped
    - and nothing else changes its schedule.  Afterwards its child is the
    one [fork] gave, none when the old one was reaped, and the old one
    otherwise. *)
Theorem turn_starts_due max t ag ag' o i c an :
  agent_turn max t ag = Ok (ag', o) → ag_commands ag !! i = Some c → t_answers t !! i = Some an →
  let ms := t_ms t - t_ms t mod 1000 in
  let due := bool_decide (cmd_pid c ≤ 0 ∧ cmd_next_run c < ms) && an_pipe_ok an in
  starts i o = (if due && bool_decide (0 < an_pid an) then [ms] else []) ∧
  ∃ c', ag_commands ag' !! i = Some c' ∧
    cmd_interval c' = cmd_interval c ∧ cmd_exec c' = cmd_exec c ∧
    cmd_next_run c' = (if due then u64 (ms + cmd_interval c) else cmd_next_run c) ∧
    cmd_pid c' = (if due then an_pid an
                  else if bool_decide (0 < cmd_pid c) && an_exited an then -1 else cmd_pid c).
Proof using.
  intros Hr Hc Ha ms due. rewrite !Z_ltb_bool.
  assert (due = tries_now ms an c) as ->.
  { unfold due, tries_now. destruct (Z.ltb_spec 0 (cmd_pid c)), (Z.ltb_spec (cmd_next_run c) ms);
      cbn [negb andb]; first [rewrite bool_decide_true by lia|rewrite bool_decide_false by lia]; done. }
  destruct (turn_command _ _ _ _ _ _ _ _ Hr Hc Ha) as [(c' & ? & Hi & He & Hn & Hp) ?].
  split; [done|]. by exists c'.
Qed.

(** Enough answers for every command, and clocks that leave room for the
    interval. *)
Definition turn_ok (n : nat) (interval : Z) (t : turn) : Prop :=
  (n ≤ length (t_answers t))%nat ∧ 0 ≤ t_ms t ∧ t_ms t + interval < 2 ^ 64.

Lemma run_starts max ts ag ag' o i c :
  agent_run max ts ag = Ok (ag', o) → ag_commands ag !! i = Some c → 0 ≤ cmd_interval c →
  Forall (turn_ok (S i) (cmd_interval c)) ts →
  Sorted (λ a b, a + cmd_interval c < b) (starts i o) ∧
  (∀ a, head (starts i o) = Some a → cmd_next_run c < a).
Proof using.
  intros Hr Hc Hi Hts. revert ag c o Hr Hc Hi Hts. induction ts as [|t ts IH]; intros ag c o Hr Hc Hi Hts.
  { apply ret_Ok in Hr as [= <- <-]. split; [constructor|done]. }
  cbn [agent_run] in Hr. apply bind_Ok in Hr as ([ag1 o1] & H1 & Hr).
  apply bind_Ok in Hr as ([ag2 o2] & H2 & [= -> <-]).
  apply Forall_cons in Hts as [(Hlen & Hms & Hroom) Hts].
  destruct (lookup_lt_is_Some_2 (t_answers t) i) as [an Ha]; [lia|].
  destruct (turn_command _ _ _ _ _ _ _ _ H1 Hc Ha) as [(c1 & Hc1 & Hi1 & _ & Hn1 & _) Hs].
  rewrite <- Hi1 in Hi, Hts. destruct (IH _ _ _ H2 Hc1 Hi Hts) as [Hsort Hhd].
  rewrite Hi1 in Hsort. rewrite starts_app, Hs.
  set (ms := t_ms t - t_ms t mod 1000) in *.
  destruct (starts_now ms an c) eqn:E.
  - pose proof (starts_tries _ _ _ E) as Et. rewrite Et in Hn1.
    assert (cmd_next_run c < ms) as Hlt by (unfold tries_now in Et; lia).
    rewrite u64_id in Hn1 by (unfold ms, is_u64; rewrite Hi1 in Hi; zlia).
    cbn [app]. split; [|by intros a [= <-]]. constructor; [done|].
    destruct (starts i o2) as [|b l]; [constructor|]. constructor. rewrite <- Hn1. by apply Hhd.
  - cbn [app]. split; [done|]. intros a Ha'. specialize (Hhd a Ha'). rewrite Hn1 in Hhd.
    destruct (tries_now ms an c) eqn:Et; [|done]. assert (cmd_next_run c < ms) as Hlt by (unfold tries_now in Et; lia).
    rewrite u64_id in Hhd by (unfold ms, is_u64; rewrite Hi1 in Hi; zlia). rewrite Hi1 in Hi. lia.
Qed.

(** C12: over any run of the agent two starts of one command are more than its
    interval apart, whatever the clock and the children do. *)
Theorem starts_spaced max ts ag ag' o i c :
  agent_run max ts ag = Ok (ag', o) → ag_commands ag !! i = Some c → 0 ≤ cmd_interval c →
  Forall (turn_ok (S i) (cmd_interval c)) ts →
  Sorted (λ a b, a + cmd_interval c < b) (starts i o).
Proof using. intros Hr Hc Hi Hts. by eapply run_starts. Qed.

(** An interval of 2147484 seconds (about 25 days) or more overflows when
    it is converted to milliseconds: the command is due again in the very
    turn in which it was started, and runs without pause. *)
Theorem long_interval_runs_on now off x exec max t ag ag' o i an :
  2147484 ≤ x ≤ 4294967 → 2 ^ 31 + 1000 ≤ t_ms t < 2 ^ 63 →
  cmd_next_run (new_command now off x exec) < t_ms t - t_ms t mod 1000 → an_pipe_ok an = true → 0 < an_pid an →
  agent_turn max t ag = Ok (ag', o) →
  ag_commands ag !! i = Some (new_command now off x exec) → t_answers t !! i = Some an →
  let ms := t_ms t - t_ms t mod 1000 in
  starts i o = [ms] ∧ ∃ c', ag_commands ag' !! i = Some c' ∧ cmd_next_run c' < ms.
Proof using.
  intros Hx Hms Hdue Hp Hpid Hr Hc Ha ms.
  destruct (turn_command _ _ _ _ _ _ _ _ Hr Hc Ha) as [(c' & Hc' & _ & _ & Hn & _) Hs]. fold ms in Hs, Hn, Hdue.
  assert (starts_now ms an (new_command now off x exec) = true) as E.
  { unfold starts_now, tries_now. rewrite Hp. apply Z.ltb_lt in Hdue, Hpid. by rewrite Hdue, Hpid. }
  rewrite (starts_tries _ _ _ E) in Hn. rewrite E in Hs. split; [done|]. exists c'. split; [done|]. rewrite Hn.
  cbn [new_command cmd_interval].
  assert (s32 (x * 1000) = x * 1000 - 2 ^ 32) as -> by (unfold s32; zlia).
  rewrite u64_id; unfold ms, is_u64; zlia.
Qed.
End schedule.

(** ** Examples *)

Module AgentExample.
Abbreviation V := ref_vigor.

(** Beats are counted; three misses are too many. *)
Definition ref_hb : Heartbeat := {|
  hb_t := Z * Z;
  hb_interval h := h.1;
  hb_adjust i _ h := (i, h.2);
  hb_miss h := (if 3 <=? h.2 + 1 then 0 else 1, (h.1, h.2 + 1));
  hb_ping h := (h.1, 0);
|}.

Definition half : spec_float := S754_finite false 8388608 (-24).
Definition cmd : command_t := mk_command 60000 "/bin/stats" 5000 (-1) (-1) "COUN".
Definition output : pipe := ["TER 1 lo"; "gins 3" +:+ nl +:+ "# no"; "te" +:+ nl +:+ "RATE"].
Definition full : command_t := mk_command 60000 "/bin/stats" 5000 12 5 (pad_zeros (BUFFER_SIZE - 1) EmptyString).
Definition file : list fline :=
  [Comment " collectors"; Entry (mk_entry 60 "s" "/bin/stats -a"); Entry (mk_entry 2 "h" "/bin/logs")].

Definition fine : answers := mk_answers true [] true 77 5.
Definition at_ (ms : Z) : @turn V := mk_turn (ms / 1000) ms ms [] [] [fine].
Definition agent : @agent_t ref_hb := mk_agent (s_socket AGENT_SOCKET_LIFETIME_MS) None [cmd].
Definition agent_of (next : Z) (pid fd : Z) : @agent_t ref_hb :=
  mk_agent (s_socket AGENT_SOCKET_LIFETIME_MS) None [mk_command 60000 "/bin/stats" next pid fd EmptyString].
Definition monthly : command_t := new_command 1700000000 0 2592000 "/bin/report".
Definition monthly_agent : @agent_t ref_hb := mk_agent (s_socket AGENT_SOCKET_LIFETIME_MS) None [monthly].
Definition monthly_started : @agent_t ref_hb :=
  mk_agent (s_socket AGENT_SOCKET_LIFETIME_MS) None
    [mk_command (s32 2592000000) "/bin/report" (1700000060000 + s32 2592000000) 77 5 EmptyString].
End AgentExample.

Lemma sink_submits_lines_witness :
  s_sink (H := ref_vigor) 1000 AgentExample.output AgentExample.cmd =
  Ok ([], set_buffer "RATE" AgentExample.cmd,
      [("COUNTER", ["1"; "logins"; "3"]) : @pdu_t ref_vigor]).
Proof.
  etrans; [apply sink_submits_lines|].
  - repeat constructor; discriminate.
  - reflexivity.
  - split; [|apply Nat.ltb_lt; vm_compute; reflexivity].
    repeat (apply Forall_cons; split; [apply Nat.ltb_lt; vm_compute; reflexivity|]). by apply Forall_nil.
  - reflexivity.
  - vm_compute. reflexivity.
Defined.

Lemma full_buffer_blocks_witness :
  s_sink (H := ref_vigor) 1000 AgentExample.output AgentExample.full = Ok (AgentExample.output, AgentExample.full, []).
Proof. apply full_buffer_blocks; [vm_compute; reflexivity|discriminate]. Defined.

Lemma s_parse_roundtrip_witness :
  s_parse (H := ref_vigor) 1700000000 AgentExample.half [1073741824; 0]
    (Some (String.concat EmptyString (fline_text <$> AgentExample.file))) [] =
  Ok (0, [mk_command 60000 "/bin/stats -a" 1700000015000 (-1) (-1) EmptyString;
          mk_command 7200000 "/bin/logs" 1700000000000 (-1) (-1) EmptyString]).
Proof.
  etrans; [apply (s_parse_roundtrip (VL := ref_vigor_laws)) with (offs := [15; 0])|].
  - repeat (apply Forall_cons; split; [|]); [..|by apply Forall_nil].
    + split; [done|apply Nat.ltb_lt; vm_compute; reflexivity].
    + split_and!; first [done|by eexists|apply Nat.ltb_lt; vm_compute; reflexivity].
    + split_and!; first [done|by eexists|apply Nat.ltb_lt; vm_compute; reflexivity].
  - split; [reflexivity|]. repeat constructor; vm_compute; reflexivity.
  - vm_compute. reflexivity.
Defined.

Lemma turn_starts_due_witness :
  starts 0 [Start (H := ref_vigor) 0 10000] = [10000] ∧
  ∃ c', ag_commands (AgentExample.agent_of 70000 77 5) !! 0%nat = Some c' ∧
    cmd_interval c' = 60000 ∧ cmd_exec c' = "/bin/stats" ∧ cmd_next_run c' = u64 (10000 + 60000) ∧
    cmd_pid c' = 77.
Proof.
  apply (turn_starts_due (V := ref_vigor) (H := AgentExample.ref_hb) 8 (AgentExample.at_ 10250) AgentExample.agent
    (AgentExample.agent_of 70000 77 5) [Start 0 10000] 0 AgentExample.cmd AgentExample.fine);
    vm_compute; reflexivity.
Defined.

Lemma starts_spaced_witness :
  Sorted (λ a b, a + 60000 < b) (starts 0 [Start (H := ref_vigor) 0 10000; Start 0 71000]).
Proof.
  apply (starts_spaced (V := ref_vigor) (H := AgentExample.ref_hb) 8
    [AgentExample.at_ 10250; AgentExample.at_ 20000; AgentExample.at_ 71000] AgentExample.agent
    (AgentExample.agent_of 131000 77 5) _ 0 AgentExample.cmd);
    [vm_compute; reflexivity|reflexivity|cbn; lia|].
  repeat constructor; cbn; lia.
Defined.

Lemma long_interval_runs_on_witness :
  starts 0 [Start (H := ref_vigor) 0 1700000060000] = [1700000060000] ∧
  ∃ c', ag_commands AgentExample.monthly_started !! 0%nat = Some c' ∧ cmd_next_run c' < 1700000060000.
Proof.
  apply (long_interval_runs_on (V := ref_vigor) (H := AgentExample.ref_hb) 1700000000 0 2592000 "/bin/report" 8
    (AgentExample.at_ 1700000060500) AgentExample.monthly_agent AgentExample.monthly_started _ 0
    AgentExample.fine);
    try (vm_compute; reflexivity); cbn; lia.
Defined.
