(* ===== verification/BeaconFacts.v ===== *)
(** * Theorems on the agent's beacon

    The expiry of a beacon is computed in [float] from a quotient of
    integers; what that makes of it. *)

From S2P Require Import Prelude CLib FloatFacts Vigor Bytes Data Pdu Binf Core CoreFacts Agent AgentFacts.
From Stdlib Require Import SpecFloat.

(** ** Rounding to 24 bits *)

(** Rounding never goes below the truncation to 24 bits. *)
Lemma round_aux_lower mx ex n :
  0 ≤ n → 2 ^ (23 + n) ≤ mx < 2 ^ (24 + n) → -149 ≤ ex + n ≤ 100 →
  ∃ m e, binary_round_aux 24 128 false mx ex loc_Exact = S754_finite false m e ∧
    2 ^ 23 ≤ Z.pos m < 2 ^ 24 ∧
    (e = ex + n ∧ mx / 2 ^ n ≤ Z.pos m ∨ e = ex + n + 1 ∧ mx / 2 ^ n ≤ 2 * Z.pos m).
Proof.
  intros Hn Hmx He. unfold binary_round_aux, shr_fexp.
  rewrite (Zdigits2_unique mx (24 + n)) by (lia || by replace (24 + n - 1) with (23 + n) by lia).
  assert (fexp 24 128 (24 + n + ex) - ex = n) as -> by (unfold fexp, emin; lia).
  set (q := mx / 2 ^ n).
  assert (2 ^ 23 ≤ q < 2 ^ 24) as Hq.
  { assert (0 < 2 ^ n) by (apply Z.pow_pos_nonneg; lia). rewrite !Z.pow_add_r in Hmx by lia. unfold q.
    split; [apply Z.div_le_lower_bound; lia|apply Z.div_lt_upper_bound; lia]. }
  assert (∃ r, shr (shr_record_of_loc mx loc_Exact) ex n = (r, ex + n) ∧ shr_m r = q) as (r & -> & Hr).
  { destruct n as [|p|p]; [|eexists; split; [done|apply iter_shr; cbn; lia]|lia].
    exists (shr_record_of_loc mx loc_Exact). rewrite Z.add_0_r. split; [done|]. unfold q. cbn. by rewrite Z.div_1_r. }
  pose proof (round_nearest_even_bounds (shr_m r) (loc_of_shr_record r)) as Hb. rewrite Hr in Hb |- *.
  set (q' := round_nearest_even q _) in *. clearbody q'.
  destruct (decide (q' = 2 ^ 24)) as [->|Hne].
  - change (Zdigits2 (2 ^ 24)) with 25.
    assert (fexp 24 128 (25 + (ex + n)) - (ex + n) = 1) as -> by (unfold fexp, emin; lia).
    change (shr (shr_record_of_loc (2 ^ 24) loc_Exact) (ex + n) 1)
      with (Build_shr_record (2 ^ 23) false false, ex + n + 1).
    cbn [shr_m]. change (2 ^ 23) with (Z.pos 8388608). cbn iota.
    destruct (Z.leb_spec (ex + n + 1) (128 - 24)); [|lia].
    eexists _, _. split; [done|]. split; [lia|]. right. lia.
  - rewrite (Zdigits2_unique q' 24) by (cbn; lia).
    assert (fexp 24 128 (24 + (ex + n)) - (ex + n) = 0) as -> by (unfold fexp, emin; lia).
    cbn [shr shr_record_of_loc shr_m]. destruct q' as [|p|p]; [lia| |lia].
    destruct (Z.leb_spec (ex + n) (128 - 24)); [|lia].
    eexists _, _. split; [done|]. split; [lia|]. left. lia.
Qed.

(** The times in question: a count of milliseconds of 41 bits (the years
    2004 to 2039). *)
Definition in_range (z : Z) : Prop := 2 ^ 40 ≤ z < 2 ^ 41.

Lemma f_of_Z_lower z :
  in_range z → ∃ m e, f_of_Z z = S754_finite false m e ∧ 2 ^ 23 ≤ Z.pos m < 2 ^ 24 ∧
    (e = 17 ∧ z / 2 ^ 17 ≤ Z.pos m ∨ e = 18 ∧ z / 2 ^ 17 ≤ 2 * Z.pos m).
Proof.
  unfold in_range. intros Hz. destruct z as [|p|p]; [lia| |lia]. unfold f_of_Z, binary_normalize, binary_round.
  assert (Z.pos (digits2_pos p) = 41) as Hd by (apply (Zdigits2_unique (Z.pos p) 41); cbn; lia).
  rewrite Hd. change (shl_align p 0 (fexp 24 128 (41 + 0))) with (p, 0).
  destruct (round_aux_lower (Z.pos p) 0 17) as (m & e & -> & Hm & Hc); [lia|cbn; lia|lia|].
  exists m, e. auto.
Qed.

Definition f_two : spec_float := f_of_Z 2.

Lemma double_lower z :
  in_range z → ∃ t, f_to_u64 (fmul f_two (f_of_Z z)) = Ok t ∧ 2 * z - 2 ^ 18 ≤ t.
Proof.
  intros Hz. destruct (f_of_Z_lower z Hz) as (m & e & -> & Hm & Hc). unfold in_range in Hz.
  change f_two with (S754_finite false 8388608 (-22)). cbn [fmul SFmul xorb].
  destruct (round_aux_lower (Z.pos (8388608 * m)) (-22 + e) 23) as (m' & e' & Hr & Hm' & Hc').
  { lia. }
  { change (2 ^ (23 + 23)) with (2 ^ 23 * 2 ^ 23). change (2 ^ (24 + 23)) with (2 ^ 24 * 2 ^ 23). lia. }
  { lia. }
  unfold fmul, SFmul. cbn [xorb]. rewrite Hr.
  assert (Z.pos (8388608 * m) / 2 ^ 23 = Z.pos m) as Hq.
  { rewrite Pos2Z.inj_mul, Z.mul_comm. by apply Z.div_mul. }
  rewrite Hq in Hc'. unfold f_to_u64, d_trunc.
  destruct (Z.leb_spec 0 e'); [|lia].
  assert (Z.pos m' * 2 ^ e' < 2 ^ 64 ∧ 2 * z - 2 ^ 18 ≤ Z.pos m' * 2 ^ e') as [Hhi Hlo].
  { assert (2 * z - 2 ^ 18 ≤ 2 ^ 18 * (z / 2 ^ 17)) by zlia.
    assert (18 ≤ e' ≤ 20) by lia.
    assert (e' = 18 ∨ e' = 19 ∨ e' = 20) as [-> | [-> | ->]] by lia; lia. }
  destruct (Z.leb_spec 0 (Z.pos m' * 2 ^ e')); [|lia]. destruct (Z.ltb_spec (Z.pos m' * 2 ^ e') (2 ^ 64)); [|lia].
  by eexists.
Qed.

(** ** The beacon *)

Lemma strtol_fmt_lu n : 0 ≤ n < 2 ^ 63 → strtol (fmt_lu n) = n.
Proof.
  intros Hn. unfold strtol, fmt_lu. rewrite u64_id by (unfold is_u64; lia).
  rewrite <- (str_app_nil_r (dec n)). rewrite scan_int_dec by (done || lia). unfold clamp. lia.
Qed.

Section beacon.
Context `{VL : VigorLaws} `{Pcre} `{Heartbeat}.

(** [2 - ts / now] is 2 for every message that took some time to arrive. *)
Lemma latency_two ts now : 0 ≤ ts < now → latency ts now = Ok f_two.
Proof using.
  intros Ht. unfold latency. destruct (Z.eqb_spec now 0); [lia|].
  rewrite Z.div_small by lia. done.
Qed.

Lemma beacon_message_run now p s ts iv fs :
  pdu_frames p = "BEACON" :: ts :: iv :: fs → strtoul ts < now → in_range (u32 (strtol iv) + now) →
  ∃ s', beacon_message now p s = Ok s' ∧ 2 * (u32 (strtol iv) + now) - 2 ^ 18 ≤ b_expires s'.
Proof using VL.
  intros Hp Hts Hr. unfold beacon_message.
  assert (pdu_string p 1 = Some ts) as -> by (by rewrite string_frames, Hp by lia).
  assert (pdu_string p 2 = Some iv) as -> by (by rewrite string_frames, Hp by lia).
  rewrite (pdu_type_of _ _ _ Hp), streq_refl. unfold mbind, res_bind. cbn [deref].
  destruct (double_lower _ Hr) as (t & Hd & Ht).
  pose proof (strtoul_range ts) as [? _].
  rewrite latency_two, Hd by done. by eexists.
Qed.

(** The expiry of the beacon is useless: [2 - ts / now] is an integer
    division, so that a beacon from the kernel that was sent before it is
    received doubles the date instead of adding the travel time, and the
    timer does nothing for as long again as has passed since 1970, however
    long the aggregator is silent. *)
Theorem beacon_never_expires e iv k now s :
  0 ≤ time_ms e < now → is_u16 iv → in_range (iv * 1000 + now) →
  ∃ p k' s',
    beacon_sweep e iv k = Ok ((), k', [Send Beacon p]) ∧
    beacon_message now p s = Ok s' ∧
    ∀ later max ans ps, 0 ≤ later ≤ 2 * (iv * 1000 + now) - 2 ^ 18 →
      beacon_timer later max ans s' ps = (s', ps, []).
Proof using VL.
  intros Ht Hiv Hr. unfold is_u16, in_range in *.
  assert (time_ms e < 2 ^ 63) as Hsmall by lia.
  pose proof (beacon_message_run now
    (pdu_extend_all (pdu_make "BEACON" []) [fmt_lu (time_ms e); fmt_lu (u16 iv * 1000)]) s
    (fmt_lu (time_ms e)) (fmt_lu (u16 iv * 1000)) []) as Hm.
  rewrite strtoul_fmt_lu, u16_id, u64_id in Hm by (unfold is_u64, is_u16; lia).
  rewrite strtol_fmt_lu, u32_id in Hm by (unfold is_u32; lia).
  destruct Hm as (s' & Hm & Hx); [by rewrite frames_extend_all, frames_make|lia|done|].
  eexists _, k, s'. split_and!; [done|by rewrite u16_id by done|].
  intros later max ans ps Hl. unfold beacon_timer. rewrite u64_id by (unfold is_u64; lia).
  destruct (Z.ltb_spec (b_expires s') later); [lia|done].
Qed.
End beacon.

(** ** Example *)

Module BeaconExample.
Definition e : env := mk_env 1700000000 1700000000000 all_ok true true true "no such file".
Definition sock : @bsocket_t AgentExample.ref_hb := mk_bsocket (H := AgentExample.ref_hb) 7 0 1700000000000 (60000, 0).
End BeaconExample.

Lemma beacon_never_expires_witness :
  ∃ p k' s',
    beacon_sweep (H := ref_vigor) (H0 := ref_pcre) BeaconExample.e 60 CoreExample.k = Ok ((), k', [Send Beacon p]) ∧
    beacon_message (H := ref_vigor) 1700000000005 p BeaconExample.sock = Ok s' ∧
    ∀ later max ans ps, 0 ≤ later ≤ 2 * (60 * 1000 + 1700000000005) - 2 ^ 18 →
      beacon_timer (H := ref_vigor) later max ans s' ps = (s', ps, []).
Proof.
  apply (beacon_never_expires (VL := ref_vigor_laws) BeaconExample.e 60 CoreExample.k);
    unfold is_u16, in_range; cbn; lia.
Defined.
