(* ===== verification/OpenTSDB.v ===== *)
(** * The OpenTSDB receiver: src/opentsdb2bolo/main.c

    Clients connect and send lines of the form [put METRIC TIMESTAMP VALUE
    TAG ...]; each becomes a SAMPLE message.  [s_listen], the translation of
    a line ([s_send]), and the handling of connections and of what they send
    in the main loop.  The answers of the operating system are arguments. *)

From S2P Require Import Prelude CLib Vigor Data Pdu Core Agent.
From Stdlib Require Import Ascii.
From Stdlib Require String.

(** ** Listening *)

Definition DEFAULT_PORT : Z := 13321.

(** The answers of [inet_pton], [socket], [bind] and [listen]. *)
Record listen_answers := mk_listen_answers {
  la_pton : Z;
  la_socket : Z;
  la_bind : Z;
  la_listen : Z;
}.

(** The file descriptor, or -1. *)
Definition s_listen (a : listen_answers) (bindto : string) : Z :=
  let buf := take_while (is_not ":") bindto in
  let port := match skip_while (is_not ":") bindto with
              | EmptyString => DEFAULT_PORT
              | String _ p => atoi p
              end in
  if (port <? 0) || (65535 <? port) then -1
  else if negb (streq buf "*") && negb (la_pton a =? 0) then -1
  else if la_socket a <? 0 then la_socket a
  else if negb (la_bind a =? 0) then -1
  else if negb (la_listen a =? 0) then -1
  else la_socket a.

(** ** A line *)

(** A word, and what follows it and its blanks. *)
Definition word (a : string) : string * string :=
  (take_while not_space a, skip_space (skip_while not_space a)).

(** The tags, each followed by a comma; every turn takes a character. *)
Fixpoint tags (fuel : nat) (a : string) : string :=
  match fuel, a with
  | S f, String _ _ => let '(w, a) := word a in w +:+ "," +:+ tags f a
  | _, _ => EmptyString
  end.

Definition name_size (buf : string) : Z := strlen buf + 32.

(** The message; the name is written to memory of [name_size] bytes. *)
Definition sample_of (buf : string) : option (string * string * string) :=
  if String.prefix "put " buf then
    let '(metric, a) := word (drop_str 4 buf) in
    let '(ts, a) := word a in
    let '(value, a) := word a in
    let name := tags (String.length a) a +:+ "metric=" +:+ metric in
    Some (ts, name, value)
  else None.

Section receiver.
Context `{Vigor}.

(** [sent] is the answer of [pdu_send_and_free]. *)
Definition s_send (sent : Z) (buf : string) : res (Z * list pdu_t) :=
  match sample_of buf with
  | None => mret (-1, [])
  | Some (ts, name, value) =>
      if strlen name + 1 <=? name_size buf
      then mret (if sent =? 0 then 0 else 1, [pdu_make "SAMPLE" [ts; name; value]])
      else Fault OutOfBounds
  end.

(** ** Connections *)

Definition BUFSIZE : nat := Z.to_nat 8192.

(** All 8192 bytes of the buffer are kept: the code reads bytes that are left
    over from earlier lines. *)
Record client_t := mk_client {
  cl_fd : Z;
  cl_buffer : string;
  cl_nread : nat;
}.

(** Writing [data] over the buffer, from offset [pos]. *)
Definition write_at (pos : nat) (data mem : string) : string :=
  take_str pos mem +:+ data +:+ drop_str (pos + String.length data) mem.

(** [strchr(buffer + pos, '\n')], as an offset into the buffer. *)
Definition find_eol (pos : nat) (mem : string) : option nat :=
  let s := cstr (drop_str pos mem) in
  if has_char LF s then Some (pos + String.length (take_while (is_not LF) s))%nat else None.

(** The loop over the lines, [eol] being the offset of the first newline.
    The newline becomes a terminator; the rest is moved to the start. *)
Fixpoint lines_loop (fuel : nat) (eol : option nat) (mem : string) (nread : nat)
    : res (string * nat * list pdu_t) :=
  match fuel, eol with
  | S f, Some e =>
      let mem := write_at e (str1 NUL) mem in
      '(_, o1) ← s_send 0 (cstr mem);
      let n := S e in
      if (nread <? n)%nat then Fault OutOfBounds
      else
        let nread := (nread - n)%nat in
        let mem := write_at 0 (take_str nread (drop_str n mem)) mem in
        '(mem, nread, o2) ← lines_loop f (find_eol 0 mem) mem nread;
        mret (mem, nread, o1 ++ o2)
  | _, _ => mret (mem, nread, [])
  end.

(** [data] is what [read] stored, empty at the end of the stream; it goes to
    the start of the buffer.  The loop takes one line at a time, and every
    line has at least its newline. *)
Definition on_data (data : string) (c : client_t) : res (client_t * list pdu_t) :=
  let mem := write_at 0 data (cl_buffer c) in
  let n := String.length data in
  let eof := (n =? 0)%nat in
  let '(mem, nread) :=
    if eof && negb (cl_nread c =? 0)%nat
    then (write_at (cl_nread c) (str1 LF) mem, S (cl_nread c)) else (mem, cl_nread c) in
  let mem := write_at (nread + n) (str1 NUL) mem in
  let eol := find_eol nread mem in
  '(mem, nread, o) ← lines_loop BUFSIZE eol mem (nread + n);
  mret (mk_client (if eof then -1 else cl_fd c) mem nread, o).

(** The bytes [read] may store. *)
Definition room (c : client_t) : nat := (Z.to_nat 8189 - cl_nread c)%nat.

(** ** The main loop *)

(** A connection is accepted into the first free slot, when there is one and
    the descriptor can be watched. *)
Fixpoint add_client (fd : Z) (cs : list client_t) : option (list client_t) :=
  match cs with
  | [] => None
  | c :: cs' =>
      if cl_fd c =? -1 then Some (mk_client fd (cl_buffer c) 0 :: cs')
      else match add_client fd cs' with Some cs' => Some (c :: cs') | None => None end
  end.

(** [acceptfd] is the answer of [accept], [epoll] that of [epoll_ctl]. *)
Definition on_accept (acceptfd epoll : Z) (cs : list client_t) : list client_t :=
  if acceptfd <? 0 then cs
  else match add_client acceptfd cs with
       | Some cs' => if epoll =? -1 then cs else cs'
       | None => cs
       end.

(** Data for the first client with this descriptor. *)
Fixpoint on_readable (fd : Z) (data : string) (cs : list client_t) : res (list client_t * list pdu_t) :=
  match cs with
  | [] => mret ([], [])
  | c :: cs' =>
      if cl_fd c =? fd then '(c, o) ← on_data data c; mret (c :: cs', o)
      else '(cs', o) ← on_readable fd data cs'; mret (c :: cs', o)
  end.

Definition new_client : client_t := mk_client (-1) (String.concat EmptyString (replicate BUFSIZE (str1 NUL))) 0.
End receiver.
