(* ===== verification/OpenTSDBFacts.v ===== *)
(** * Theorems on the OpenTSDB receiver

    A line is translated as documented and never overflows the buffer of the
    name; when lines arrive whole, exactly they are translated, in order.
    When a line is split, it is lost, and a chunk of data can make the
    receiver run past its buffer. *)

From S2P Require Import Prelude CLib Vigor Data Pdu Core CoreFacts Agent AgentFacts OpenTSDB.
From Stdlib Require Import Ascii.
From Stdlib Require String.

(** ** A line *)

Definition is_token (w : string) : Prop := w ≠ EmptyString ∧ str_all not_space w = true.

Lemma word_spec w a :
  str_all not_space w = true → isspace (head_char a) = true ∨ a = EmptyString →
  word (w +:+ a) = (w, skip_space a).
Proof.
  intros Hw Ha. unfold word.
  assert (not_space (head_char a) = false ∨ a = EmptyString) as Ha' by (unfold not_space; destruct Ha as [-> | ->]; auto).
  by rewrite take_while_app, skip_while_app.
Qed.

Lemma skip_token w a : is_token w → skip_space (w +:+ a) = w +:+ a.
Proof.
  intros [Hne Hw]. destruct w as [|c w]; [done|]. apply skip_while_head. rewrite str_app_cons.
  cbn [head_char str_all] in *. apply andb_prop in Hw as [Hc _]. unfold not_space in Hc. by destruct (isspace c).
Qed.

(** The rest of a line: each token preceded by a blank. *)
Definition spaced (ws : list string) : string := String.concat EmptyString ((λ w, " " +:+ w) <$> ws).

Lemma spaced_cons w ws : spaced (w :: ws) = " " +:+ w +:+ spaced ws.
Proof. unfold spaced. by rewrite fmap_cons, str_concat_cons, str_app_assoc. Qed.

Lemma spaced_head ws : isspace (head_char (spaced ws)) = true ∨ spaced ws = EmptyString.
Proof. destruct ws as [|w ws]; [by right|left]. by rewrite spaced_cons. Qed.

(** What follows the blank of a sequence of tokens. *)
Lemma skip_spaced w ws : is_token w → skip_space (spaced (w :: ws)) = w +:+ spaced ws.
Proof.
  intros Hw. rewrite spaced_cons, str_app_cons, str_app_nil_l. cbn [skip_space skip_while].
  change (isspace " ") with true. cbn iota. by apply skip_token.
Qed.

Lemma word_spaced w w' ws : is_token w → is_token w' → word (w +:+ spaced (w' :: ws)) = (w, w' +:+ spaced ws).
Proof. intros Hw Hw'. rewrite word_spec by (apply Hw || apply spaced_head). by rewrite skip_spaced. Qed.

Definition tag_text (ts : list string) : string := String.concat EmptyString ((λ t, t +:+ ",") <$> ts).

Lemma tags_spec ts fuel :
  Forall is_token ts → (String.length (skip_space (spaced ts)) ≤ fuel)%nat →
  tags fuel (skip_space (spaced ts)) = tag_text ts.
Proof.
  intros Hts. revert fuel. induction Hts as [|t ts Ht Hts IH]; intros fuel Hf; [by destruct fuel|].
  rewrite skip_spaced in Hf |- * by done. pose proof Ht as [Hne Hns]. rewrite str_length_app in Hf.
  assert (tags fuel (t +:+ spaced ts) =
          match fuel with
          | O => EmptyString
          | S f => let '(w, a) := word (t +:+ spaced ts) in w +:+ "," +:+ tags f a
          end) as -> by (destruct t; [done|by destruct fuel]).
  destruct fuel as [|fuel]; [destruct t; [done|cbn in Hf; lia]|].
  rewrite word_spec by (done || apply spaced_head). rewrite IH.
  - unfold tag_text. rewrite fmap_cons, str_concat_cons. by rewrite str_app_assoc.
  - destruct ts as [|t' ts]; [cbn; lia|]. apply Forall_cons in Hts as [Ht' _].
    rewrite skip_spaced by done. rewrite spaced_cons, !str_length_app in Hf. rewrite str_length_app.
    destruct t; [done|]. cbn [String.length] in Hf. lia.
Qed.

(** A well-formed line is translated as documented: the time, the tags
    and the metric joined into a name, and the value. *)
Theorem put_line_translated metric ts value tgs :
  is_token metric → is_token ts → is_token value → Forall is_token tgs →
  sample_of ("put " +:+ metric +:+ spaced (ts :: value :: tgs)) =
  Some (ts, tag_text tgs +:+ "metric=" +:+ metric, value).
Proof.
  intros Hm Ht Hv Hg. unfold sample_of.
  assert (∀ s, String.prefix "put " ("put " +:+ s) = true) as -> by (by intros []).
  change (drop_str 4 ("put " +:+ ?s)) with s.
  rewrite word_spaced, word_spaced by done.
  rewrite word_spec by (apply Hv || apply spaced_head). by rewrite tags_spec.
Qed.

(** ** The memory of the name *)

Lemma word_length a : (String.length (word a).1 + String.length (word a).2 ≤ String.length a)%nat.
Proof.
  unfold word, skip_space. cbn [fst snd].
  pose proof (skip_while_length isspace (skip_while not_space a)).
  pose proof (f_equal String.length (take_skip_while not_space a)) as Ha. rewrite str_length_app in Ha. lia.
Qed.

Lemma word_shorter a :
  (word a).2 = EmptyString ∨ (String.length (word a).1 + 1 + String.length (word a).2 ≤ String.length a)%nat.
Proof.
  unfold word, skip_space. cbn [fst snd].
  pose proof (take_skip_while not_space a) as Ha. set (r := skip_while not_space a) in *.
  assert (not_space (head_char r) = false ∨ r = EmptyString) as Hr.
  { unfold r. clear. induction a as [|c a IH]; [by right|]. cbn [skip_while]. destruct (not_space c) eqn:E; [done|by left]. }
  destruct r as [|c r]; [by left|]. right. destruct Hr as [Hr|?]; [|done]. cbn [head_char] in Hr.
  unfold not_space in Hr. cbn [skip_while]. destruct (isspace c); [|done].
  pose proof (skip_while_length isspace r). apply (f_equal String.length) in Ha.
  rewrite str_length_app in Ha. cbn [String.length] in Ha. lia.
Qed.

Lemma tags_length fuel a : (String.length (tags fuel a) ≤ S (String.length a))%nat.
Proof.
  revert a. induction fuel as [|fuel IH]; intros [|c a]; cbn [tags]; try (cbn; lia).
  pose proof (word_length (String c a)) as Hl. pose proof (word_shorter (String c a)) as Hs.
  destruct (word (String c a)) as [w r]. cbn [fst snd] in *. rewrite !str_length_app.
  change (String.length ",") with 1%nat.
  destruct Hs as [-> | Hs]; [destruct fuel; cbn [tags String.length] in *; lia|]. specialize (IH r). lia.
Qed.

Lemma prefix_length p s : String.prefix p s = true → (String.length p ≤ String.length s)%nat.
Proof.
  revert s. induction p as [|c p IH]; intros [|d s]; cbn [String.prefix String.length]; try (done || lia).
  destruct (ascii_dec c d); [|done]. intros ?%IH. lia.
Qed.

Lemma name_fits buf ts name value :
  sample_of buf = Some (ts, name, value) → strlen name + 1 ≤ name_size buf.
Proof.
  unfold sample_of, name_size, strlen. destruct (String.prefix "put " buf) eqn:Hp; [|done].
  apply prefix_length in Hp. change (String.length "put ") with 4%nat in Hp.
  pose proof (drop_str_length 4 buf) as Hb. set (b := drop_str 4 buf) in *. clearbody b.
  pose proof (word_length b) as H1. destruct (word b) as [metric a1]. cbn [fst snd] in H1.
  pose proof (word_length a1) as H2. destruct (word a1) as [w2 a2]. cbn [fst snd] in H2.
  pose proof (word_length a2) as H3. destruct (word a2) as [w3 a3]. cbn [fst snd] in H3.
  intros [= _ <- _]. rewrite !str_length_app. pose proof (tags_length (String.length a3) a3).
  change (String.length "metric=") with 7%nat. lia.
Qed.

(** ** Bytes *)

Lemma write_at_app a y x b :
  String.length y = String.length x → write_at (String.length a) x (a +:+ y +:+ b) = a +:+ x +:+ b.
Proof.
  intros Hy. unfold write_at. rewrite take_str_app. f_equal. f_equal.
  rewrite <- Hy, <- str_length_app, <- str_app_assoc. apply drop_str_app.
Qed.

Lemma write_at_start x s : write_at 0 x s = x +:+ drop_str (String.length x) s.
Proof. unfold write_at, take_str. by destruct s. Qed.

Lemma cstr_prefix l z : no_nul l → cstr (l +:+ z) = l +:+ cstr z.
Proof.
  unfold no_nul, cstr. induction l as [|c l IH]; [done|]. rewrite !str_app_cons. cbn [str_all take_while].
  intros [-> Hl]%andb_prop. by rewrite IH.
Qed.

Lemma cstr_nul z : cstr (str1 NUL +:+ z) = EmptyString.
Proof. done. Qed.

Lemma find_eol_line l z : plain l → find_eol 0 (l +:+ nl +:+ z) = Some (String.length l).
Proof.
  intros [Hl Hn]. unfold find_eol. change (drop_str 0 ?s) with (drop_str (String.length EmptyString) (EmptyString +:+ s)).
  rewrite drop_str_app, cstr_prefix by done.
  change (cstr (nl +:+ z)) with (String LF (cstr z)). rewrite has_char_app. cbn [has_char].
  change (Ascii.eqb LF LF) with true. cbn [orb]. rewrite orb_true_r.
  rewrite take_while_app; [done|done|]. left. done.
Qed.

Lemma find_eol_none l z : plain l → find_eol 0 (l +:+ str1 NUL +:+ z) = None.
Proof.
  intros [Hl Hn]. unfold find_eol. change (drop_str 0 ?s) with (drop_str (String.length EmptyString) (EmptyString +:+ s)).
  rewrite drop_str_app, cstr_prefix, cstr_nul, str_app_nil_r by done. by rewrite has_char_none.
Qed.

(** ** Whole lines *)

Definition whole (ls : list string) : string := String.concat EmptyString ((λ l, l +:+ nl) <$> ls).

Lemma whole_cons l ls : whole (l :: ls) = l +:+ nl +:+ whole ls.
Proof. unfold whole. by rewrite fmap_cons, str_concat_cons, str_app_assoc. Qed.

Section receiver.
Context `{VL : VigorLaws}.

(** The messages of a line. *)
Definition samples (l : string) : list pdu_t :=
  match sample_of l with
  | Some (ts, name, value) => [pdu_make "SAMPLE" [ts; name; value]]
  | None => []
  end.

Lemma s_send_samples sent l : ∃ rc, s_send sent l = Ok (rc, samples l).
Proof using.
  unfold s_send, samples. destruct (sample_of l) as [[[ts name] value]|] eqn:E; [|by eexists].
  apply name_fits in E. destruct (Z.leb_spec (strlen name + 1) (name_size l)); [by eexists|lia].
Qed.

Lemma lines_loop_run ls tail fuel :
  Forall plain ls → (length ls ≤ fuel)%nat → (ls = [] → find_eol 0 tail = None) →
  ∃ mem, lines_loop fuel (find_eol 0 (whole ls +:+ tail)) (whole ls +:+ tail) (String.length (whole ls)) =
           Ok (mem, O, concat (samples <$> ls)) ∧
         String.length mem = String.length (whole ls +:+ tail).
Proof using.
  intros Hls. revert tail fuel. induction Hls as [|l ls Hl Hls IH]; intros tail fuel Hf Ht.
  { change (whole []) with (EmptyString : string). rewrite str_app_nil_l, Ht by done. exists tail. by destruct fuel. }
  destruct fuel as [|fuel]; [cbn in Hf; lia|]. rewrite whole_cons, !str_app_assoc, find_eol_line by done.
  cbn [lines_loop]. rewrite write_at_app by done.
  rewrite cstr_prefix, cstr_nul, str_app_nil_r by apply Hl.
  destruct (s_send_samples 0 l) as [rc ->]. cbn [mbind res_bind].
  rewrite str_length_app, str_length_app. change (String.length nl) with 1%nat.
  destruct (Nat.ltb_spec (String.length l + (1 + String.length (whole ls))) (S (String.length l))); [lia|].
  replace (String.length l + (1 + String.length (whole ls)) - S (String.length l))%nat
    with (String.length (whole ls)) by lia.
  assert (drop_str (S (String.length l)) (l +:+ str1 NUL +:+ whole ls +:+ tail) = whole ls +:+ tail) as ->.
  { rewrite <- str_app_assoc. replace (S (String.length l)) with (String.length (l +:+ str1 NUL))
      by (rewrite str_length_app; cbn; lia). apply drop_str_app. }
  rewrite take_str_app, write_at_start.
  set (tail' := drop_str (String.length (whole ls)) _).
  destruct (IH tail' fuel) as (mem & -> & Hmem); [cbn in Hf; lia| |].
  - intros ->. unfold tail'. change (String.length (whole [])) with O.
    change (drop_str 0 ?s) with (drop_str (String.length EmptyString) (EmptyString +:+ s)).
    rewrite drop_str_app. by apply find_eol_none.
  - exists mem. split; [done|]. rewrite Hmem, str_length_app. unfold tail'. rewrite drop_str_length.
    rewrite !str_length_app. cbn [String.length nl str1]. lia.
Qed.

(** A client whose last line was complete. *)
Definition idle (c : client_t) : Prop := cl_nread c = O ∧ String.length (cl_buffer c) = BUFSIZE.

Lemma whole_length ls : (length ls ≤ String.length (whole ls))%nat.
Proof using.
  induction ls as [|l ls IH]; [cbn; lia|]. rewrite whole_cons, !str_length_app. cbn [length String.length nl str1]. lia.
Qed.

Lemma on_data_whole ls c :
  idle c → ls ≠ [] → Forall plain ls → (String.length (whole ls) ≤ room c)%nat →
  ∃ c', on_data (whole ls) c = Ok (c', concat (samples <$> ls)) ∧ idle c' ∧ cl_fd c' = cl_fd c.
Proof using.
  intros [Hn Hb] Hne Hls Hlen. unfold room in Hlen. rewrite Hn in Hlen. unfold BUFSIZE in Hb.
  pose proof (whole_length ls) as Hl.
  assert (0 < String.length (whole ls))%nat as Hpos by (destruct ls; [done|cbn [length] in Hl; lia]).
  unfold on_data. rewrite Hn. destruct (Nat.eqb_spec (String.length (whole ls)) 0); [lia|]. cbn [andb Nat.add].
  rewrite write_at_start. set (rest := drop_str _ _).
  assert (String.length rest = (Z.to_nat 8192 - String.length (whole ls))%nat) as Hrest
    by (unfold rest; by rewrite drop_str_length, Hb).
  destruct rest as [|ch rest]; [cbn [String.length] in Hrest; lia|].
  change (String ch rest) with (str1 ch +:+ rest). rewrite write_at_app by done.
  destruct (lines_loop_run ls (str1 NUL +:+ rest) BUFSIZE Hls) as (mem & -> & Hmem); [unfold BUFSIZE; lia|done|].
  cbn [mbind res_bind]. eexists. split; [done|]. split; [|done]. split; [done|].
  cbn [cl_buffer]. rewrite Hmem, !str_length_app. cbn [String.length str1] in Hrest |- *. unfold BUFSIZE. lia.
Qed.

(** The reads of one client, one after the other. *)
Fixpoint feed (chunks : list string) (c : client_t) : res (client_t * list pdu_t) :=
  match chunks with
  | [] => mret (c, [])
  | d :: chunks' =>
      '(c, o1) ← on_data d c;
      '(c, o2) ← feed chunks' c;
      mret (c, o1 ++ o2)
  end.

(** As long as every read of a client ends at the end of a line, the
    receiver never faults and submits one message for every well-formed line,
    in order, and nothing else. *)
Theorem whole_lines_translated chunks c :
  idle c → Forall (λ ls, ls ≠ [] ∧ Forall plain ls ∧ String.length (whole ls) ≤ Z.to_nat 8189)%nat chunks →
  ∃ c', feed (whole <$> chunks) c = Ok (c', concat (samples <$> concat chunks)) ∧ idle c' ∧ cl_fd c' = cl_fd c.
Proof using.
  intros Hc Hch. revert c Hc. induction Hch as [|ls chunks (Hne & Hp & Hl) _ IH]; intros c Hc; [by exists c|].
  destruct (on_data_whole ls c Hc Hne Hp) as (c1 & H1 & Hc1 & Hf1).
  { unfold room. destruct Hc as [-> _]. lia. }
  destruct (IH c1 Hc1) as (c2 & H2 & Hc2 & Hf2). exists c2.
  rewrite fmap_cons. cbn [feed]. rewrite H1. cbn [mbind res_bind]. rewrite H2. cbn [mbind res_bind].
  split; [|split; [done|congruence]].
  cbn [concat]. rewrite fmap_app, concat_app. done.
Qed.
End receiver.

(** ** Where it goes wrong *)

Module ReceiverExample.
Abbreviation V := ref_vigor.
Definition c : client_t := mk_client 9 (cl_buffer new_client) 0.
Definition load (ts v : string) : string := "put load " +:+ ts +:+ " " +:+ v +:+ " host=a job=b".
Definition sample (ts v : string) : @pdu_t V := ("SAMPLE", [ts; "host=a,job=b,metric=load"; v]).
(** The messages of a session, when it does not fault. *)
Definition sent (r : res (client_t * list (@pdu_t V))) : option (list (@pdu_t V)) :=
  match r with Ok (_, o) => Some o | Fault _ => None end.
End ReceiverExample.

(** A line that arrives in two pieces is lost, because the second piece is
    stored over the first; and so is a last line without a newline, because
    the search for the newline that the code adds starts after it. *)
Theorem split_line_lost :
  ReceiverExample.sent (feed (V := ref_vigor)
    [ReceiverExample.load "17" "0.5" +:+ nl +:+ "put load 18"; " 0.7 host=a job=b" +:+ nl] ReceiverExample.c)
  = Some [ReceiverExample.sample "17" "0.5"] ∧
  ReceiverExample.sent (feed (V := ref_vigor) [ReceiverExample.load "17" "0.5"; EmptyString] ReceiverExample.c)
  = Some [].
Proof. split; vm_compute; reflexivity. Qed.

(** A single read can drive the receiver out of its buffer: after a long
    and a short line, the beginning of a third one is followed by bytes left
    over from before, a newline among them, and the count of bytes becomes
    negative. *)
Theorem stale_newline_overflows :
  feed (V := ref_vigor) ["AAAA" +:+ nl +:+ "B" +:+ nl +:+ "CCC"] ReceiverExample.c = Fault OutOfBounds.
Proof. vm_compute. reflexivity. Qed.

(** An address can not be listened on: the answer 1 with which
    [inet_pton] reports success is taken for an error, and only the wildcard
    works. *)
Theorem listen_address_refused a host port :
  str_all (is_not ":") host = true → host ≠ "*" → la_pton a = 1 →
  s_listen a host = -1 ∧ s_listen a (host +:+ ":" +:+ port) = -1.
Proof.
  intros Hh Hne Ha. assert (streq host "*" = false) as Hs by by apply streq_neq.
  unfold s_listen. rewrite Ha. split.
  - rewrite <- (str_app_nil_r host), take_while_app, skip_while_app by auto. by rewrite Hs.
  - rewrite take_while_app, skip_while_app by auto. rewrite Hs. by case_step.
Qed.

(** ** Examples *)

Lemma put_line_translated_witness :
  sample_of "put load 17 0.5 host=a job=b" = Some ("17", "host=a,job=b,metric=load", "0.5").
Proof.
  apply (put_line_translated "load" "17" "0.5" ["host=a"; "job=b"]); repeat constructor; discriminate.
Defined.

Lemma whole_lines_translated_witness :
  ∃ c', feed (V := ref_vigor) (whole <$> [[ReceiverExample.load "17" "0.5"; "bogus"]; [ReceiverExample.load "18" "0.7"]])
          ReceiverExample.c =
        Ok (c', [ReceiverExample.sample "17" "0.5"; ReceiverExample.sample "18" "0.7"]) ∧
        idle c' ∧ cl_fd c' = 9.
Proof.
  apply (whole_lines_translated (V := ref_vigor)
    [[ReceiverExample.load "17" "0.5"; "bogus"]; [ReceiverExample.load "18" "0.7"]] ReceiverExample.c).
  - split; [reflexivity|]. vm_compute. reflexivity.
  - repeat (apply Forall_cons; split); try apply Forall_nil; try done;
      (split_and!; [discriminate|repeat constructor|apply Nat.leb_le; vm_compute; reflexivity]).
Defined.

Lemma listen_address_refused_witness :
  s_listen (mk_listen_answers 1 5 0 0) "10.244.0.6" = -1 ∧
  s_listen (mk_listen_answers 1 5 0 0) "10.244.0.6:13381" = -1.
Proof. apply (listen_address_refused _ "10.244.0.6" "13381"); [reflexivity|discriminate|reflexivity]. Defined.
