(* ===== verification/Meta.v ===== *)
(** * The meta subscriber: src/bolo2meta/main.c

    bolo2meta counts what the aggregator publishes, by type; messages that
    are not of a known shape are counted as bogons.  The counts go to the
    monitor of the subscriber. *)

From S2P Require Import Prelude CLib Vigor Bytes Data Binf Core Config Pdu Subscriber Startup Threads Cache.

Section meta.
Context `{Vigor}.

(** The metric a message is counted under. *)
Definition meta_metric (p : pdu_t) : string :=
  let t := pdu_type p in
  let n := pdu_size p in
  if streq t "COUNTER" then if n =? 4 then "counter" else "bogon.counter"
  else if streq t "SAMPLE" then if n =? 9 then "sample" else "bogon.sample"
  else if streq t "RATE" then if n =? 5 then "rate" else "bogon.rate"
  else if streq t "STATE" then if n =? 6 then "state" else "bogon.state"
  else if streq t "TRANSITION" then if n =? 6 then "transition" else "bogon.transition"
  else if streq t "EVENT" then if n =? 4 then "event" else "bogon.event"
  else if streq t "SET.KEYS" then
    if (Z.rem n 2 =? 1) && (3 <=? n) then "setkeys" else "bogon.setkeys"
  else "bogon.unknown".

(** The messages are those sent to the monitor. *)
Definition meta_reactor (s : csocket) (p : pdu_t) : M unit pdu_t creaction :=
  match s with
  | CControl => mret CHalt
  | CSubscriber =>
      emit (pdu_make "COUNT" [meta_metric p]) ≫= λ _,
      emit (pdu_make "COUNT" ["total"]) ≫= λ _,
      mret CContinue
  | _ => mret CHalt
  end.

(** The answers of the libraries while the thread is set up. *)
Record meta_wiring := mk_meta_wiring {
  mt_control : bool * Z * Z;
  mt_monitor : bool * Z;
  mt_subscriber : bool * Z * Z;   (* zmq_setsockopt, then vzmq_connect_af *)
  mt_reactor : bool;
  mt_set_control : Z;
  mt_set_subscriber : Z;
  mt_pthread : Z;
}.

Definition meta_dispatcher_thread (w : meta_wiring) : Z :=
  let '(s1, c1, o1) := mt_control w in
  let '(s2, o2, c2) := mt_subscriber w in
  first_error
    [bolo_subscriber_connect_supervisor s1 c1 o1;
     bolo_subscriber_connect_monitor (mt_monitor w).1 (mt_monitor w).2;
     open_socket s2 [o2; c2];
     if mt_reactor w then 0 else -1; mt_set_control w; mt_set_subscriber w; mt_pthread w].
End meta.
