(* ===== verification/Published.v ===== *)
(** * What the kernel publishes

    Whatever the kernel receives, every message on its broadcast socket has
    one of the seven shapes the subscribers know: none is a bogon to
    bolo2meta, and the cache and the RRD subscriber find the fields where
    they look for them. *)

From S2P Require Import Prelude CLib Vigor Bytes Data DataFacts Binf Core CoreFacts Windowed Reactor ReactorFacts Config Pdu Subscriber Startup Threads Cache CacheFacts Meta.

(** ** Output of a run

    [emits P m]: every message a run of [m] sends satisfies [P]. *)

Definition emits {S O A} (P : O → Prop) (m : M S O A) : Prop :=
  ∀ s, match m s with Ok (_, _, o) => Forall P o | Fault _ => True end.

Section emits.
Context {S O : Type} (P : O → Prop).

Lemma emits_ret {A} (a : A) : emits P (mret a : M S O A).
Proof. intros s. constructor. Qed.
Lemma emits_get : emits P (get : M S O S).
Proof. intros s. constructor. Qed.
Lemma emits_modify f : emits P (modify f : M S O ()).
Proof. intros s. constructor. Qed.
Lemma emits_lift {A} (r : res A) : emits P (lift r : M S O A).
Proof. intros s. destruct r; constructor. Qed.
Lemma emits_emit o : P o → emits P (emit o : M S O ()).
Proof. intros Ho s. repeat constructor. exact Ho. Qed.

Lemma emits_bind {A B} (m : M S O A) (f : A → M S O B) :
  emits P m → (∀ a, emits P (f a)) → emits P (m ≫= f).
Proof.
  intros Hm Hf s. unfold mbind, M_bind. specialize (Hm s). destruct (m s) as [[[a s1] o1]|]; [|done].
  specialize (Hf a s1). destruct (f a s1) as [[[b s2] o2]|]; [|done]. by apply Forall_app.
Qed.

Lemma emits_for_each {A} (body : A → M S O ()) l :
  (∀ x, emits P (body x)) → emits P (for_each_m body l).
Proof. intros Hb. induction l as [|x l IH]; [apply emits_ret|]. cbn [for_each_m]. by apply emits_bind. Qed.
End emits.

Create HintDb emits.
#[export] Hint Resolve emits_ret emits_get emits_modify emits_lift : emits.

(** Follows the structure of a handler. *)
Ltac emits_step :=
  match goal with
  | |- emits _ (_ ≫= _) => apply emits_bind; [|intros ?]
  | |- emits _ (for_each_m _ _) => apply emits_for_each; intros ?
  | |- emits _ (if ?b then _ else _) => destruct b
  | |- emits _ (match ?x with _ => _ end) => destruct x
  | |- _ => solve [auto with emits]
  end.

Section published.
Context `{VL : VigorLaws} `{Pcre}.

(** The shapes of published messages, by their frames. *)
Inductive published_shape : list string → Prop :=
| shape_state t name ts stale status summary :
    t = "STATE" ∨ t = "TRANSITION" → published_shape [t; name; ts; stale; status; summary]
| shape_event ts name extra : published_shape ["EVENT"; ts; name; extra]
| shape_counter ts name v : published_shape ["COUNTER"; ts; name; v]
| shape_sample ts name n min max sum mean var :
    published_shape ["SAMPLE"; ts; name; n; min; max; sum; mean; var]
| shape_rate ts name w v : published_shape ["RATE"; ts; name; w; v]
| shape_setkeys c : c ≠ [] → published_shape ("SET.KEYS" :: pair_frames c).

Definition well_sent (o : output) : Prop :=
  match o with Send Broadcast p => published_shape (pdu_frames p) | _ => True end.

Abbreviation K := (M kernel_t output).

Lemma send_other s p : s ≠ Broadcast → emits well_sent (send s p).
Proof using. intros Hs. apply emits_emit. by destruct s. Qed.

Lemma emits_modify_db f : emits well_sent (modify_db f).
Proof using. apply emits_modify. Qed.
Lemma emits_get_db : emits well_sent get_db.
Proof using. unfold get_db. repeat emits_step. Qed.

Lemma emits_publish p fs : pdu_frames p = fs → published_shape fs → emits well_sent (send Broadcast p).
Proof using. intros Hp Hs. apply emits_emit. cbn. by rewrite Hp. Qed.

Ltac publish := eapply emits_publish; [rewrite frames_extend_all, frames_make; reflexivity|constructor; auto].

Lemma emits_broadcast_state s : emits well_sent (broadcast_state s).
Proof using VL. publish. Qed.
Lemma emits_broadcast_transition s : emits well_sent (broadcast_transition s).
Proof using VL. publish. Qed.
Lemma emits_broadcast_event ev : emits well_sent (broadcast_event ev).
Proof using VL. publish. Qed.
Lemma emits_broadcast_counter c : emits well_sent (broadcast_counter c).
Proof using VL. apply emits_bind; [apply emits_lift|intros ts]. publish. Qed.
Lemma emits_broadcast_sample s : emits well_sent (broadcast_sample s).
Proof using VL. apply emits_bind; [apply emits_lift|intros ts]. publish. Qed.
Lemma emits_broadcast_rate r : emits well_sent (broadcast_rate r).
Proof using VL. apply emits_bind; [apply emits_lift|intros ts]. publish. Qed.

Lemma setkeys_frames c : pdu_frames (setkeys_pdu c) = "SET.KEYS" :: pair_frames c.
Proof using VL. unfold setkeys_pdu. by rewrite frames_extend_all, frames_make. Qed.

Lemma emits_broadcast_setkeys : emits well_sent broadcast_setkeys.
Proof using VL.
  intros k. unfold broadcast_setkeys. mstep.
  destruct (setkeys_loop_spec (for_each (k_keys k)) [] k) as (chunks & c & E & _ & Hall & _); [cbn; lia|].
  change (pdu_make "SET.KEYS" [], 0) with (setkeys_pdu [], Z.of_nat (length (@nil (string * string)))).
  rewrite (M_run_bind _ _ _ _ _ _ E).
  assert (Forall well_sent ((λ x, Send Broadcast (setkeys_pdu x)) <$> chunks)) as Hc.
  { apply Forall_fmap. eapply Forall_impl; [exact Hall|]. intros x Hx. cbn. rewrite setkeys_frames.
    constructor. by destruct x. }
  destruct c as [|x c].
  - change (0 <? Z.of_nat (length [])) with false. unfold out_app, mret, M_ret. by rewrite app_nil_r.
  - change (0 <? Z.of_nat (length (x :: c))) with true. unfold out_app, send, emit.
    apply Forall_app. split; [done|]. repeat constructor. cbn [well_sent]. rewrite setkeys_frames. by constructor.
Qed.

#[local] Hint Resolve emits_modify_db emits_get_db emits_broadcast_state emits_broadcast_transition
  emits_broadcast_event emits_broadcast_counter emits_broadcast_sample emits_broadcast_rate
  emits_broadcast_setkeys : emits.
#[local] Hint Extern 1 (emits well_sent (send _ _)) => apply send_other; done : emits.
#[local] Hint Extern 1 (emits well_sent (emit _)) => apply emits_emit; done : emits.
#[local] Hint Extern 1 (emits well_sent (frame _ _)) => apply emits_lift : emits.

Lemma emits_tick ts : emits well_sent (tick_aggregates ts).
Proof using VL.
  unfold tick_aggregates. repeat emits_step; unfold tick_counter, tick_sample, tick_rate; repeat emits_step.
Qed.

Lemma emits_on_tock e : emits well_sent (on_tock e).
Proof using VL.
  pose proof emits_tick. unfold on_tock, beacon_sweep, check_freshness, freshness_step, do_binf_write, do_save_keys.
  repeat emits_step; try done.
Qed.

Lemma emits_get_keys_loop p ixs a : emits well_sent (get_keys_loop p ixs a).
Proof using. revert a. induction ixs as [|i ixs IH]; intros a; cbn [get_keys_loop]; repeat emits_step; apply IH. Qed.

Lemma emits_sample_values ts p ixs s : emits well_sent (sample_values ts p ixs s).
Proof using. revert s. induction ixs as [|i ixs IH]; intros s; cbn [sample_values]; repeat emits_step; apply IH. Qed.

Lemma emits_set_keys_loop p n i : emits well_sent (set_keys_loop p n i).
Proof using. revert i. induction n as [|n IH]; intros i; cbn [set_keys_loop]; repeat emits_step; apply IH. Qed.

#[local] Hint Resolve emits_get_keys_loop emits_sample_values emits_set_keys_loop : emits.

Lemma emits_on_management e p : emits well_sent (on_management e p).
Proof using VL.
  unfold on_management, mgmt_state, mgmt_dump, mgmt_get_keys, mgmt_del_keys, mgmt_search_keys, mgmt_get_events,
    mgmt_savestate, mgmt_forget, do_binf_write, do_binf_sync, do_save_keys.
  repeat emits_step.
Qed.

Lemma emits_on_listener e p : emits well_sent (on_listener e p).
Proof using VL.
  unfold on_listener, put_state_pdu, put_counter_pdu, put_sample_pdu, put_rate_pdu, put_event_pdu, set_keys_pdu.
  repeat emits_step.
Qed.

Lemma emits_reactor e s p : emits well_sent (_kernel_reactor e s p).
Proof using VL.
  unfold _kernel_reactor. pose proof (emits_on_tock e). pose proof (emits_on_management e p).
  pose proof (emits_on_listener e p). repeat first [assumption|emits_step].
Qed.

Lemma reaction_shapes e s p k r k' o :
  _kernel_reactor e s p k = Ok (r, k', o) → Forall (λ q, published_shape (pdu_frames q)) (broadcasts o).
Proof using VL.
  intros Hr. pose proof (emits_reactor e s p k) as Ho. rewrite Hr in Ho. clear Hr.
  induction Ho as [|x o Hx _ IH]; [constructor|]. unfold broadcasts in *. cbn [omap list_omap].
  destruct x as [[] q|? ? ?|? ?|? ?]; try exact IH. by constructor.
Qed.

Lemma length_pairs c : length (pair_frames c) = (2 * length c)%nat.
Proof using. unfold pair_frames. induction c as [|x c IH]; [done|]. cbn in *. lia. Qed.

Lemma shape_understood q :
  published_shape (pdu_frames q) →
  meta_metric q ∈ ["state"; "transition"; "event"; "counter"; "sample"; "rate"; "setkeys"].
Proof using VL.
  intros Hq. unfold meta_metric. rewrite size_frames.
  remember (pdu_frames q) as fs eqn:Hf. symmetry in Hf.
  destruct Hq as [t ? ? ? ? ? Ht| | | | |c Hc]; rewrite (pdu_type_of _ _ _ Hf);
    try (destruct Ht as [-> | ->]); try (cbn; set_solver).
  cbn [length]. rewrite length_pairs. cbn [streq].
  assert (0 < length c)%nat by (destruct c; [done|cbn; lia]).
  change (streq "SET.KEYS" ?x) with (String.eqb "SET.KEYS" x). cbn [String.eqb Ascii.eqb Bool.eqb].
  assert (Z.rem (Z.of_nat (S (2 * length c))) 2 = 1) as ->.
  { rewrite Z.rem_mod_nonneg by lia. zlia. }
  destruct (Z.leb_spec 3 (Z.of_nat (S (2 * length c)))); [cbn; set_solver|lia].
Qed.

(** C9: whatever message the kernel reacts to, and on whatever socket, every
    message it publishes has one of the seven documented shapes, so that
    bolo2meta counts it under its own type and never as a bogon. *)
Theorem published_understood e s p k r k' o :
  _kernel_reactor e s p k = Ok (r, k', o) →
  Forall (λ q, published_shape (pdu_frames q) ∧
               meta_metric q ∈ ["state"; "transition"; "event"; "counter"; "sample"; "rate"; "setkeys"])
    (broadcasts o).
Proof using VL.
  intros Hr%reaction_shapes. eapply Forall_impl; [exact Hr|]. intros q Hq. split; [done|by apply shape_understood].
Qed.
End published.

(** ** Example *)

Lemma published_understood_witness :
  Forall (λ q : @pdu_t ref_vigor, published_shape (pdu_frames q) ∧
               meta_metric q ∈ ["state"; "transition"; "event"; "counter"; "sample"; "rate"; "setkeys"])
    [("TRANSITION", ["host.disk"; "1995"; "fresh"; "CRITICAL"; "full"]);
     ("STATE", ["host.disk"; "1995"; "fresh"; "CRITICAL"; "full"])].
Proof.
  apply (published_understood (VL := ref_vigor_laws) (H := ref_pcre) CoreExample.e Listener
    (("STATE", ["1995"; "host.disk"; "2"; "full"]) : @pdu_t ref_vigor) CoreExample.k Continue
    (set_db (H0 := ref_pcre) (put_state (H := ref_pcre) "host.disk"
       (mk_state Example1.local "host.disk" 1995 2295 CRITICAL "full" 0 0) CoreExample.db) CoreExample.k)
    [Send Broadcast (("TRANSITION", ["host.disk"; "1995"; "fresh"; "CRITICAL"; "full"]) : @pdu_t ref_vigor);
     Send Broadcast (("STATE", ["host.disk"; "1995"; "fresh"; "CRITICAL"; "full"]) : @pdu_t ref_vigor)]).
  vm_compute. reflexivity.
Defined.
