(* ===== verification/Rrd.v ===== *)
(** * The RRD subscriber: src/bolo2rrd/main.c

    A dispatcher receives what the aggregator publishes, finds the file of
    each metric in a map (kept in a text file), and hands the message to a
    creator, when the file does not exist yet, or to an updater.  The
    creator and the updater call librrd.

    librrd, the SHA-1 of libvigor and the file system are arguments. *)

From S2P Require Import Prelude CLib Vigor Bytes Data Binf Core Config Pdu Subscriber Startup Threads.
From Stdlib Require Import Ascii.
From Stdlib Require String.

(** ** Files *)

Record rrdfile_t := mk_rrdfile {
  rf_parent0 : string;
  rf_parent1 : string;
  rf_abspath : string;
  rf_relpath : string;
  rf_name : string;
  rf_type : string;
}.

(** The first characters of the digest; a digest of less than four
    characters makes the code read past its terminator. *)
Definition rrdfile_parse (root name type sha1 : string) : res rrdfile_t :=
  match sha1 with
  | String a (String b (String c (String d _))) =>
      let ab := str1 a +:+ str1 b in
      let cd := str1 c +:+ str1 d in
      let relpath := ab +:+ "/" +:+ cd +:+ "/" +:+ sha1 in
      Ok (mk_rrdfile (root +:+ "/" +:+ ab) (root +:+ "/" +:+ ab +:+ "/" +:+ cd)
            (root +:+ "/" +:+ relpath +:+ ".rrd") relpath name type)
  | _ => Fault OutOfBounds
  end.

(** [sha1_hex]: [sha1_data] of libvigor, in hexadecimal. *)
Class Sha1 := { sha1_hex : string → string }.
Class Sha1Laws (H : Sha1) : Prop := {
  sha1_length s : String.length (sha1_hex s) = 40%nat;
  sha1_chars s : str_all isalnum (sha1_hex s) = true;
}.

Definition rrd_filename `{Sha1} (root metric type : string) : res rrdfile_t :=
  rrdfile_parse root metric type (sha1_hex metric).

(** ** The map of files *)

Record rrdmap_t := mk_rrdmap {
  map_hash : gmap string rrdfile_t;
  map_file : string;
  map_tmpfile : string;
}.

(** Carrying the dot past [n] characters. *)
Fixpoint move_dot (n : nat) (s : string) : string :=
  match n, s with
  | S n', String c s' => String c (move_dot n' s')
  | _, _ => String "." s
  end.

(** The dot of [".file"] is moved to the place of the last slash of it, that
    is, behind the last slash of [db]. *)
Definition rrdmap_new (db : string) : rrdmap_t :=
  let t := if has_char "/" db then move_dot (S (String.length (cut_last "/" db))) db else "." +:+ db in
  mk_rrdmap ∅ db t.

(** One line of the file; [None] for a line that is skipped. *)
Definition map_line (root buf : string) : option (res (string * rrdfile_t)) :=
  let buf := cut_last LF buf in
  if negb (has_char " " buf) then None
  else
    let type := after_last " " buf in
    let buf := cut_last " " buf in
    if negb (has_char " " buf) then None
    else
      let name := tail_str (skip_while (is_not " ") buf) in
      let buf := take_while (is_not " ") buf in
      let type := if streq name type then "UNDEFINED" else type in
      if negb (has_char "/" buf) then None
      else Some (f ← rrdfile_parse root name type (after_last "/" buf); mret (name, f)).

Fixpoint map_lines (root : string) (lines : list string) (m : gmap string rrdfile_t)
    : res (gmap string rrdfile_t) :=
  match lines with
  | [] => mret m
  | l :: lines' =>
      match map_line root l with
      | None => map_lines root lines' m
      | Some r => '(name, f) ← r; map_lines root lines' (<[name := f]> m)
      end
  end.

Definition MAP_LINE : nat := Z.to_nat 8192.

(** [text] is what is found at the path of the map; its return code is
    always 0. *)
Definition rrdmap_read (text : option string) (root : string) (m : rrdmap_t) : res rrdmap_t :=
  match text with
  | None => mret m
  | Some t =>
      h ← map_lines root (fgets_lines (String.length t) MAP_LINE t) (map_hash m);
      mret (mk_rrdmap h (map_file m) (map_tmpfile m))
  end.

Definition map_entry (f : rrdfile_t) : string :=
  rf_relpath f +:+ " " +:+ rf_name f +:+ " " +:+ rf_type f +:+ nl.

Section rrd.
Context `{Vigor} `{Sha1}.

(** The text that replaces the file; [None] when it cannot be opened. *)
Definition rrdmap_write (opened : bool) (m : rrdmap_t) : option string :=
  if opened then
    Some (String.concat EmptyString ((λ kv : string * rrdfile_t, map_entry kv.2) <$> for_each (map_hash m)))
  else None.

(** ** The dispatcher *)

(** What the threads send and do. *)
Inductive raction :=
| ToCreator (p : pdu_t)
| ToUpdater (p : pdu_t)
| ToMonitor (p : pdu_t)
| WriteMap (text : option string)
| Mkdir (dir : string)
| RrdCreate (file : string) (step start : Z) (args : list string)
| RrdUpdate (file : string) (update : string).

Record rdispatcher := mk_rdispatcher { rd_map : rrdmap_t; rd_root : string }.

Abbreviation RD := (M rdispatcher raction).

Definition put_file (name : string) (f : rrdfile_t) (d : rdispatcher) : rdispatcher :=
  mk_rdispatcher (mk_rrdmap (<[name := f]> (map_hash (rd_map d))) (map_file (rd_map d)) (map_tmpfile (rd_map d)))
    (rd_root d).

(** The messages that are recorded. *)
Definition is_metric (p : pdu_t) : bool :=
  (streq (pdu_type p) "COUNTER" && (pdu_size p =? 4))
  || (streq (pdu_type p) "SAMPLE" && (pdu_size p =? 9))
  || (streq (pdu_type p) "RATE" && (pdu_size p =? 5)).

(** The file of a metric.  A type that was not known is taken from the
    message (the pointer itself is kept; here its text). *)
Definition metric_file (name type : string) : RD rrdfile_t :=
  get ≫= λ d,
  match map_hash (rd_map d) !! name with
  | None => lift (rrd_filename (rd_root d) name type) ≫= λ f,
            modify (put_file name f) ≫= λ _, mret f
  | Some f =>
      if streq (rf_type f) "UNDEFINED" then
        let f := mk_rrdfile (rf_parent0 f) (rf_parent1 f) (rf_abspath f) (rf_relpath f) (rf_name f) type in
        modify (put_file name f) ≫= λ _, mret f
      else mret f
  end.

(** Frames 3 and up. *)
Definition data_frames (p : pdu_t) : list string :=
  omap (λ i, pdu_string p (Z.of_nat i)) (seq 3 (Z.to_nat (pdu_size p) - 3)).

(** [present] says of a path whether the file exists (and the caching daemon,
    when there is one, knows it); [spent] is the measured time. *)
Definition on_metric (present : string → bool) (spent : Z) (p : pdu_t) : RD () :=
  if negb (is_metric p) then mret ()
  else
    lift (deref (pdu_string p 2)) ≫= λ name,
    metric_file name (pdu_type p) ≫= λ f,
    (if negb (present (rf_abspath f)) then
       emit (ToCreator (pdu_make "CREATE" [rf_parent0 f; rf_parent1 f; rf_abspath f; pdu_type p]))
     else
       lift (deref (pdu_string p 1)) ≫= λ ts,
       emit (ToUpdater (pdu_extend_all (pdu_make "UPDATE" [rf_abspath f; ts; pdu_type p]) (data_frames p))))
    ≫= λ _,
    emit (ToMonitor (perf "dispatch.time.s" spent)).

(** [opened] says whether the map file can be written. *)
Definition rrd_dispatcher_reactor (present : string → bool) (opened : bool) (spent : Z)
    (s : tsocket) (p : pdu_t) : RD treaction :=
  match s with
  | TControl =>
      if streq (pdu_type p) "TERMINATE" then
        get ≫= λ d, emit (WriteMap (rrdmap_write opened (rd_map d))) ≫= λ _, mret THalt
      else mret TContinue
  | TTock => get ≫= λ d, emit (WriteMap (rrdmap_write opened (rd_map d))) ≫= λ _, mret TContinue
  | TSubscriber => on_metric present spent p ≫= λ _, mret TContinue
  | _ => mret THalt
  end.

(** ** The creator *)

Definition ds (name : string) : string := "DS:" +:+ name +:+ ":GAUGE:120:U:U".

Definition create_args (rras type : string) : option (list string) :=
  if streq type "COUNTER" then Some (strings_split (ds "x" +:+ " " +:+ rras) " ")
  else if streq type "SAMPLE" then
    Some (strings_split (ds "n" +:+ " " +:+ ds "min" +:+ " " +:+ ds "max" +:+ " " +:+ ds "sum" +:+ " " +:+
                         ds "mean" +:+ " " +:+ ds "var" +:+ " " +:+ rras) " ")
  else if streq type "RATE" then Some (strings_split (ds "value" +:+ " " +:+ rras) " ")
  else None.

Abbreviation RC := (M unit raction).

(** [rc] is the answer of [rrd_create_r], [now] the clock. *)
Definition on_create (present : string → bool) (rras : string) (now spent rc : Z) (p : pdu_t) : RC () :=
  if negb (streq (pdu_type p) "CREATE") then mret ()
  else
    lift (deref (pdu_string p 3)) ≫= λ file,
    if present file then emit (ToMonitor (pdu_make "COUNT" ["create.misdirects"]))
    else
      lift (deref (pdu_string p 1)) ≫= λ dir, emit (Mkdir dir) ≫= λ _,
      lift (deref (pdu_string p 2)) ≫= λ dir, emit (Mkdir dir) ≫= λ _,
      lift (deref (pdu_string p 4)) ≫= λ type,
      (match create_args rras type with
       | Some args => emit (RrdCreate file 60 (s32 (now - 365 * 86400)) args) ≫= λ _, mret rc
       | None => mret (-1)
       end) ≫= λ rc,
      if rc =? 0 then
        emit (ToMonitor (perf "create.time.s" spent)) ≫= λ _,
        emit (ToMonitor (pdu_make "COUNT" ["create.ops"]))
      else emit (ToMonitor (pdu_make "COUNT" ["create.errors"])).

Definition _creator_reactor (present : string → bool) (rras : string) (now spent rc : Z)
    (s : tsocket) (p : pdu_t) : RC treaction :=
  match s with
  | TControl => mret (if streq (pdu_type p) "TERMINATE" then THalt else TContinue)
  | TQueue => on_create present rras now spent rc p ≫= λ _, mret TContinue
  | _ => mret THalt
  end.

(** ** The updater *)

(** The argument of [rrd_update_r]. *)
Definition update_text (p : pdu_t) (ts type : string) : res (option string) :=
  let n := pdu_size p - 4 in
  if streq type "COUNTER" && (n =? 1) then
    value ← deref (pdu_string p 4); mret (Some (ts +:+ ":" +:+ value))
  else if streq type "SAMPLE" && (n =? 6) then
    n ← deref (pdu_string p 4);
    min ← deref (pdu_string p 5);
    max ← deref (pdu_string p 6);
    sum ← deref (pdu_string p 7);
    mean ← deref (pdu_string p 8);
    var ← deref (pdu_string p 9);
    mret (Some (ts +:+ ":" +:+ n +:+ ":" +:+ min +:+ ":" +:+ max +:+ ":" +:+ sum +:+ ":" +:+ mean +:+ ":" +:+ var))
  else if streq type "RATE" && (n =? 2) then
    value ← deref (pdu_string p 5); mret (Some (ts +:+ ":" +:+ value))
  else mret None.

(** [enoent] says whether [errno] is [ENOENT] when the file is missing. *)
Definition on_update (present : string → bool) (enoent : bool) (spent rc : Z) (p : pdu_t) : RC () :=
  if negb (streq (pdu_type p) "UPDATE") then mret ()
  else
    lift (deref (pdu_string p 1)) ≫= λ file,
    if negb (present file) then
      emit (ToMonitor (pdu_make "COUNT" [if enoent then "update.misdirects" else "update.errors"]))
    else
      lift (deref (pdu_string p 2)) ≫= λ ts,
      lift (deref (pdu_string p 3)) ≫= λ type,
      lift (update_text p ts type) ≫= λ update,
      (match update with
       | Some u => emit (RrdUpdate file u) ≫= λ _, mret rc
       | None => mret (-1)
       end) ≫= λ rc,
      if rc =? 0 then
        emit (ToMonitor (perf "update.time.s" spent)) ≫= λ _,
        emit (ToMonitor (pdu_make "COUNT" ["update.ops"]))
      else emit (ToMonitor (pdu_make "COUNT" ["update.errors"])).

Definition _updater_reactor (present : string → bool) (enoent : bool) (spent rc : Z)
    (s : tsocket) (p : pdu_t) : RC treaction :=
  match s with
  | TControl => mret (if streq (pdu_type p) "TERMINATE" then THalt else TContinue)
  | TQueue => on_update present enoent spent rc p ≫= λ _, mret TContinue
  | _ => mret THalt
  end.

(** ** Starting the threads *)

(** The answers of the libraries while a thread is set up. *)
Record rrd_wiring := mk_rrd_wiring {
  rw_control : bool * Z * Z;
  rw_monitor : bool * Z;
  rw_tock : bool * Z * Z;
  rw_subscriber : bool * Z * Z;
  rw_updates : bool * Z;
  rw_creates : bool * Z;
  rw_queue : bool * Z;
  rw_reactor : bool;
  rw_sets : list Z;               (* reactor_set, in order *)
  rw_pthread : Z;
}.

Definition rrd_dispatcher_thread (root mapfile : string) (text : option string) (w : rrd_wiring)
    : res (Z * option rdispatcher) :=
  m ← rrdmap_read text root (rrdmap_new mapfile);
  let '(s1, c1, o1) := rw_control w in
  let '(s2, c2, o2) := rw_tock w in
  let '(s3, o3, c3) := rw_subscriber w in
  let rc := first_error
    ([bolo_subscriber_connect_supervisor s1 c1 o1;
      bolo_subscriber_connect_monitor (rw_monitor w).1 (rw_monitor w).2;
      bolo_subscriber_connect_scheduler s2 c2 o2; open_socket s3 [o3; c3];
      open_socket (rw_updates w).1 [(rw_updates w).2];
      open_socket (rw_creates w).1 [(rw_creates w).2];
      if rw_reactor w then 0 else -1] ++ take 3 (rw_sets w) ++ [rw_pthread w]) in
  mret (rc, if rc =? 0 then Some (mk_rdispatcher m root) else None).

(** [creator_thread] and [updater_thread] make the same calls. *)
Definition creator_thread (w : rrd_wiring) : Z :=
  let '(s1, c1, o1) := rw_control w in
  first_error
    ([bolo_subscriber_connect_supervisor s1 c1 o1;
      bolo_subscriber_connect_monitor (rw_monitor w).1 (rw_monitor w).2;
      open_socket (rw_queue w).1 [(rw_queue w).2];
      if rw_reactor w then 0 else -1] ++ take 2 (rw_sets w) ++ [rw_pthread w]).

Definition updater_thread (w : rrd_wiring) : Z :=
  let '(s1, c1, o1) := rw_control w in
  first_error
    ([bolo_subscriber_connect_supervisor s1 c1 o1;
      bolo_subscriber_connect_monitor (rw_monitor w).1 (rw_monitor w).2;
      open_socket (rw_queue w).1 [(rw_queue w).2];
      if rw_reactor w then 0 else -1] ++ take 2 (rw_sets w) ++ [rw_pthread w]).
End rrd.
