(* ===== verification/RrdFacts.v ===== *)
(** * Theorems on the RRD subscriber

    The map of files survives a restart; a published metric reaches the file
    of its name as one update with its time and values, and the file was
    created with as many data sources. *)

From S2P Require Import Prelude CLib Vigor Bytes Data DataFacts Binf Core CoreFacts Windowed Reactor ReactorFacts KernelFacts Config Pdu Subscriber Startup Threads Cache CacheFacts Meta Published Agent AgentFacts Rrd.
From Stdlib Require Import Ascii.
From Stdlib Require String.

(** ** Strings *)

Lemma move_dot_app a b : move_dot (String.length a) (a +:+ b) = a +:+ "." +:+ b.
Proof. induction a as [|c a IH]; [done|]. rewrite !str_app_cons. cbn [String.length move_dot]. by rewrite IH. Qed.

(** The temporary file is hidden, in the directory of the map. *)
Lemma tmpfile_hidden dir file :
  lacks "/" file → map_tmpfile (rrdmap_new (dir +:+ "/" +:+ file)) = dir +:+ "/." +:+ file.
Proof.
  intros Hf. unfold rrdmap_new. cbn [map_tmpfile]. change ("/" +:+ file) with (str1 "/" +:+ file).
  rewrite has_char_mid, cut_last_mid by done.
  rewrite <- str_app_assoc. replace (S (String.length dir)) with (String.length (dir +:+ str1 "/"))
    by (rewrite str_length_app; cbn; lia).
  rewrite move_dot_app, str_app_assoc. done.
Qed.

(** ** The map *)

Lemma alnum_lacks s : str_all isalnum s = true → lacks " " s ∧ lacks "/" s ∧ lacks LF s.
Proof.
  intros Hs. split_and!; (eapply str_all_imp; [|exact Hs]); intros c Hc; unfold is_not;
    match goal with |- negb (Ascii.eqb ?x c) = true => destruct (Ascii.eqb_spec x c) as [<-|]; [by vm_compute in Hc|done] end.
Qed.

(** The entries the format can hold. *)
Definition storable_file (root : string) (k : string) (f : rrdfile_t) : Prop :=
  (∃ sha1, str_all isalnum sha1 = true ∧ rrdfile_parse root k (rf_type f) sha1 = Ok f) ∧
  lacks LF k ∧ lacks LF (rf_type f) ∧ lacks " " (rf_type f) ∧ k ≠ rf_type f ∧
  (String.length (map_entry f) < MAP_LINE)%nat.

(** The parts of a path. *)
Lemma parse_relpath root k t sha1 f :
  rrdfile_parse root k t sha1 = Ok f → str_all isalnum sha1 = true →
  ∃ dirs, rf_relpath f = dirs +:+ str1 "/" +:+ sha1 ∧ lacks " " (rf_relpath f) ∧ lacks LF (rf_relpath f) ∧
          rf_name f = k ∧ rf_type f = t.
Proof.
  intros Hf Hs. destruct (alnum_lacks _ Hs) as (Hb & _ & Hl).
  destruct sha1 as [|a [|b [|c [|d s]]]]; try done. cbn in Hf. injection Hf as <-. cbn [rf_relpath rf_name rf_type].
  set (sha := String a (String b (String c (String d s)))) in *.
  assert (∀ ch, ch ≠ "/"%char → lacks ch sha →
    lacks ch ((str1 a +:+ str1 b) +:+ "/" +:+ (str1 c +:+ str1 d) +:+ "/" +:+ sha)) as Hparts.
  { intros ch Hne Hch. assert (lacks ch "/") as Hsl.
    { unfold lacks. cbn. unfold is_not. by destruct (Ascii.eqb_spec ch "/"). }
    pose proof Hch as Hch'. change sha with ((str1 a +:+ str1 b) +:+ (str1 c +:+ str1 d) +:+ s) in Hch'.
    apply lacks_app in Hch' as [? [? _]%lacks_app]. do 4 (apply lacks_app; split; [done|]). done. }
  exists ((str1 a +:+ str1 b) +:+ "/" +:+ (str1 c +:+ str1 d)). split; [by rewrite !str_app_assoc|].
  split; [by apply Hparts|]. split; [by apply Hparts|done].
Qed.

(** Reading the three fields of a line. *)
Lemma map_line_fields root rel dirs sha1 k t :
  rel = dirs +:+ str1 "/" +:+ sha1 → lacks " " rel → lacks "/" sha1 → lacks " " t → lacks LF (rel +:+ k +:+ t) →
  map_line root (rel +:+ " " +:+ k +:+ " " +:+ t +:+ nl) =
  Some (f ← rrdfile_parse root k (if streq k t then "UNDEFINED" else t) sha1; mret (k, f)).
Proof.
  intros Hrel Hb Hsl Htb Hlf. unfold map_line. change " " with (str1 " ").
  replace (rel +:+ str1 " " +:+ k +:+ str1 " " +:+ t +:+ nl)
    with (((rel +:+ str1 " " +:+ k) +:+ str1 " " +:+ t) +:+ str1 LF +:+ EmptyString)
    by (rewrite str_app_nil_r, !str_app_assoc; done).
  rewrite cut_last_mid, has_char_mid by done. cbn [negb].
  rewrite after_last_mid, cut_last_mid, has_char_mid by done. cbn [negb].
  destruct (split_first " " rel k Hb) as [-> ->].
  rewrite Hrel, has_char_mid. cbn [negb]. by rewrite after_last_mid.
Qed.

Lemma map_entry_line root k f : storable_file root k f → is_line MAP_LINE (map_entry f).
Proof.
  intros ((sha1 & Hs & Hf) & Hk & Ht & _ & _ & Hlen).
  destruct (parse_relpath _ _ _ _ _ Hf Hs) as (dirs & _ & _ & Hl & Hn & _).
  exists (rf_relpath f +:+ " " +:+ rf_name f +:+ " " +:+ rf_type f). unfold map_entry in *.
  rewrite !str_app_assoc. split; [done|]. split.
  - change " " with (str1 " "). fold (lacks LF). rewrite Hn.
    apply lacks_app. split; [done|]. apply lacks_app. split; [done|]. apply lacks_app. split; [done|].
    apply lacks_app. done.
  - rewrite !str_length_app in *. cbn [String.length nl str1] in *. lia.
Qed.

Lemma map_entry_read root k f : storable_file root k f → map_line root (map_entry f) = Some (Ok (k, f)).
Proof.
  intros ((sha1 & Hs & Hf) & Hk & Ht & Htb & Hne & _).
  destruct (parse_relpath _ _ _ _ _ Hf Hs) as (dirs & Hrel & Hb & Hl & Hn & _).
  destruct (alnum_lacks _ Hs) as (_ & Hsl & _).
  unfold map_entry. rewrite Hn, (map_line_fields root _ dirs sha1) by (rewrite ?lacks_app; done).
  apply streq_neq in Hne as ->. by rewrite Hf.
Qed.

Lemma map_lines_run root l m :
  Forall (λ kv, storable_file root kv.1 kv.2) l →
  map_lines root (map_entry <$> l.*2) m = Ok (update_all (λ _ f, Some f) l m).
Proof.
  intros Hl. revert m. induction Hl as [|[k f] l Hf _ IH]; intros m; [done|].
  cbn [fmap list_fmap map_lines snd fst] in *. rewrite (map_entry_read root k f Hf). cbn [mbind res_bind].
  by rewrite IH.
Qed.

Section map.
Context `{VL : VigorLaws}.

Lemma map_restored (m : gmap string rrdfile_t) : update_all (λ _ f, Some f) (for_each m) ∅ = m.
Proof using VL.
  apply map_eq. intros k. destruct (m !! k) as [f|] eqn:E.
  - rewrite (update_all_in _ _ _ k f); [done|apply for_each_NoDup|by apply elem_of_for_each].
  - rewrite update_all_not_in; [done|]. intros ([k' f] & -> & Hin%elem_of_for_each)%list_elem_of_fmap.
    cbn in E. congruence.
Qed.

(** The map of files survives a restart: reading what [rrdmap_write] left
    restores every entry of the map, paths and types included, for names
    that are one line and differ from their type. *)
Theorem rrdmap_roundtrip root m db :
  map_Forall (storable_file root) (map_hash m) →
  ∃ text, rrdmap_write true m = Some text ∧
    rrdmap_read (Some text) root (rrdmap_new db) =
      Ok (mk_rrdmap (map_hash m) db (map_tmpfile (rrdmap_new db))).
Proof using VL.
  intros Hm. eexists. split; [done|]. unfold rrdmap_read.
  assert (Forall (λ kv, storable_file root kv.1 kv.2) (for_each (map_hash m))) as Hl.
  { apply Forall_forall. intros [k f] Hin%elem_of_for_each. by apply Hm. }
  replace ((λ kv : string * rrdfile_t, map_entry kv.2) <$> for_each (map_hash m))
    with (map_entry <$> (for_each (map_hash m)).*2) by (by rewrite <- list_fmap_compose).
  assert (Forall (is_line MAP_LINE) (map_entry <$> (for_each (map_hash m)).*2)) as Hlines.
  { apply Forall_fmap, Forall_fmap. eapply Forall_impl; [exact Hl|]. intros [k f]. apply map_entry_line. }
  rewrite fgets_lines_concat by (done || by apply concat_lines_length with MAP_LINE).
  cbn [map_hash rrdmap_new]. rewrite map_lines_run by done. cbn [mbind res_bind].
  by rewrite map_restored.
Qed.
End map.

(** A metric that is named like its type loses it: the code takes the line
    for one of an older format. *)
Theorem rrdmap_name_is_type root k f :
  (∃ sha1, str_all isalnum sha1 = true ∧ rrdfile_parse root k k sha1 = Ok f) → lacks LF k → lacks " " k →
  ∃ g, map_line root (map_entry f) = Some (Ok (k, g)) ∧ rf_type g = "UNDEFINED".
Proof.
  intros (sha1 & Hs & Hf) Hk Hkb.
  destruct (parse_relpath _ _ _ _ _ Hf Hs) as (dirs & Hrel & Hb & Hl & Hn & Ht).
  destruct (alnum_lacks _ Hs) as (_ & Hsl & _).
  unfold map_entry. rewrite Hn, Ht, (map_line_fields root _ dirs sha1) by (rewrite ?lacks_app; done).
  rewrite streq_refl. destruct sha1 as [|a [|b [|c [|d s]]]]; try done. by eexists.
Qed.

(** ** From a message to the file *)

Lemma omap_lookup_seq {A} (pre l : list A) :
  omap (λ i, (pre ++ l) !! i) (seq (length pre) (length l)) = l.
Proof.
  revert pre. induction l as [|x l IH]; intros pre; [done|]. cbn [length seq].
  cbn [omap list_omap]. rewrite list_lookup_middle by done. f_equal.
  specialize (IH (pre ++ [x])). rewrite length_app, <- app_assoc in IH. cbn in IH.
  by rewrite Nat.add_1_r in IH.
Qed.

Lemma omap_pointwise {A B} (f g : A → option B) (l : list A) : (∀ x, f x = g x) → omap f l = omap g l.
Proof. intros Hfg. induction l as [|x l IH]; [done|]. cbn [omap list_omap]. rewrite Hfg. by rewrite IH. Qed.

(** The values of a metric that go to its file: of a rate, not its window. *)
Definition rrd_values (t : string) (data : list string) : list string :=
  if streq t "RATE" then tail data else data.

(** The three shapes of published metrics. *)
Inductive metric_shape : string → list string → Prop :=
| counter_shape v : metric_shape "COUNTER" [v]
| sample_shape n min max sum mean var : metric_shape "SAMPLE" [n; min; max; sum; mean; var]
| rate_shape w v : metric_shape "RATE" [w; v].

Section pipeline.
Context `{VL : VigorLaws} `{SL : Sha1Laws}.

Lemma data_frames_spec p t ts name data :
  pdu_frames p = t :: ts :: name :: data → data_frames p = data.
Proof using VL.
  intros Hp. unfold data_frames. rewrite size_frames, Nat2Z.id, Hp. cbn [length].
  replace (S (S (S (length data))) - 3)%nat with (length data) by lia.
  etrans; [|apply (omap_lookup_seq [t; ts; name] data)]. apply omap_pointwise. intros i. rewrite string_frames, Nat2Z.id by lia. by rewrite Hp.
Qed.

Lemma shape_is_metric p t ts name data :
  pdu_frames p = t :: ts :: name :: data → metric_shape t data → is_metric p = true.
Proof using VL.
  intros Hp Hs. unfold is_metric. rewrite size_frames, (pdu_type_of _ _ _ Hp), Hp. by destruct Hs.
Qed.

Lemma pdu_string_at p i s : 0 ≤ i → pdu_frames p !! Z.to_nat i = Some s → pdu_string p i = Some s.
Proof using VL. intros Hi Hs. by rewrite string_frames, Hs. Qed.

(** Reads the frames of a message given as a list. *)
Ltac string_of Hu i := try (erewrite (pdu_string_at _ i); [|lia|rewrite Hu; reflexivity]).
Ltac strings_of Hu :=
  string_of Hu 1; string_of Hu 2; string_of Hu 3; string_of Hu 4; string_of Hu 5; string_of Hu 6;
  string_of Hu 7; string_of Hu 8; string_of Hu 9.

(** The file a name is recorded in. *)
Definition file_of (root name type : string) (f : rrdfile_t) : Prop := rrd_filename root name type = Ok f.

Lemma file_of_total root name type : ∃ f, file_of root name type f ∧ rf_type f = type.
Proof using SL.
  unfold file_of, rrd_filename. pose proof (sha1_length name) as Hl.
  destruct (sha1_hex name) as [|a [|b [|c [|d s]]]]; try done. by eexists.
Qed.

(** The argument of the update, for a message the dispatcher made. *)
Lemma update_text_shape u path ts t data :
  metric_shape t data → pdu_frames u = "UPDATE" :: path :: ts :: t :: data →
  update_text u ts t = Ok (Some (String.concat ":" (ts :: rrd_values t data))).
Proof using VL.
  intros Hs Hu. unfold update_text. rewrite size_frames, Hu.
  destruct Hs; cbn [length]; strings_of Hu; reflexivity.
Qed.

(** What an updater does with one update: [rc] is the answer of librrd, and
    [enoent] what the system says of a file that is not there. *)
Definition updater_output (there enoent : bool) (spent rc : Z) (path ts t : string) (data : list string)
    : list raction :=
  if there then
    RrdUpdate path (String.concat ":" (ts :: rrd_values t data)) ::
    (if rc =? 0 then [ToMonitor (perf "update.time.s" spent); ToMonitor (pdu_make "COUNT" ["update.ops"])]
     else [ToMonitor (pdu_make "COUNT" ["update.errors"])])
  else [ToMonitor (pdu_make "COUNT" [if enoent then "update.misdirects" else "update.errors"])].

Lemma updater_run (present : string → bool) enoent spent rc u path ts t data :
  metric_shape t data → pdu_frames u = "UPDATE" :: path :: ts :: t :: data →
  _updater_reactor present enoent spent rc TQueue u () =
  Ok (TContinue, (), updater_output (present path) enoent spent rc path ts t data).
Proof using VL.
  intros Hs Hu. unfold _updater_reactor, on_update, updater_output.
  rewrite (pdu_type_of _ _ _ Hu), streq_refl. cbn [negb].
  strings_of Hu. cbn [deref]. mstep. destruct (present path); cbn [negb]; mstep; [|done].
  rewrite (update_text_shape u path ts t data) by done. mstep. by destruct (rc =? 0); mstep.
Qed.

(** What a creator does with one request; [rc] is the answer of librrd. *)
Definition creator_output (there : bool) (now spent rc : Z) (f : rrdfile_t) (args : list string) : list raction :=
  if there then [ToMonitor (pdu_make "COUNT" ["create.misdirects"])]
  else
    [Mkdir (rf_parent0 f); Mkdir (rf_parent1 f); RrdCreate (rf_abspath f) 60 (s32 (now - 365 * 86400)) args] ++
    (if rc =? 0 then [ToMonitor (perf "create.time.s" spent); ToMonitor (pdu_make "COUNT" ["create.ops"])]
     else [ToMonitor (pdu_make "COUNT" ["create.errors"])]).

Lemma creator_run (present : string → bool) rras now spent rc u f t args :
  pdu_frames u = ["CREATE"; rf_parent0 f; rf_parent1 f; rf_abspath f; t] → create_args rras t = Some args →
  _creator_reactor present rras now spent rc TQueue u () =
  Ok (TContinue, (), creator_output (present (rf_abspath f)) now spent rc f args).
Proof using VL.
  intros Hu Ha. unfold _creator_reactor, on_create, creator_output.
  rewrite (pdu_type_of _ _ _ Hu), streq_refl. cbn [negb].
  strings_of Hu. cbn [deref]. mstep. destruct (present (rf_abspath f)); mstep; [done|].
  rewrite Ha. mstep. by destruct (rc =? 0); mstep.
Qed.

(** The file a dispatcher uses for a metric, and its map afterwards: the one
    of the map, which gets the type of the metric when it has none, or else a
    new one, from the digest of the name. *)
Definition metric_entry (name type : string) (d : rdispatcher) (f : rrdfile_t) (d' : rdispatcher) : Prop :=
  match map_hash (rd_map d) !! name with
  | None => file_of (rd_root d) name type f ∧ d' = put_file name f d
  | Some g =>
      if decide (rf_type g = "UNDEFINED")
      then f = mk_rrdfile (rf_parent0 g) (rf_parent1 g) (rf_abspath g) (rf_relpath g) (rf_name g) type ∧
           d' = put_file name f d
      else f = g ∧ d' = d
  end.

Lemma metric_file_entry name type d :
  ∃ f d', metric_entry name type d f d' ∧ metric_file name type d = Ok (f, d', []).
Proof using SL.
  unfold metric_entry, metric_file. mstep. destruct (map_hash (rd_map d) !! name) as [g|].
  - unfold streq. case_decide as E.
    + rewrite E. eexists _, _. split; [done|]. by mstep.
    + apply streq_neq in E. unfold streq in E. rewrite E. by eexists _, _.
  - destruct (file_of_total (rd_root d) name type) as (f & Hf & _). eexists f, _. split; [done|].
    unfold file_of in Hf. rewrite Hf. by mstep.
Qed.

Lemma create_args_shape t data ws :
  metric_shape t data → ws ≠ [] → Forall is_word ws →
  ∃ dss, create_args (String.concat " " ws) t = Some (dss ++ ws) ∧ length dss = length (rrd_values t data).
Proof using VL.
  intros Hs Hne Hws.
  assert (∀ d l, l ≠ [] → d +:+ " " +:+ String.concat " " l = String.concat " " (d :: l)) as Hjoin by (by intros d []).
  assert (∀ dss, dss ≠ [] → Forall is_word dss →
    strings_split (String.concat " " (dss ++ ws)) " " = dss ++ ws) as Hsplit.
  { intros dss Hd Hw. apply strings_split_words; [by destruct dss|by apply Forall_app]. }
  destruct Hs; unfold create_args; cbn [streq]; rewrite !Hjoin by done.
  - exists [ds "x"]. split; [|done]. f_equal. apply (Hsplit [ds "x"]); [done|]. by repeat constructor.
  - exists [ds "n"; ds "min"; ds "max"; ds "sum"; ds "mean"; ds "var"]. split; [|done]. f_equal.
    apply (Hsplit [ds "n"; ds "min"; ds "max"; ds "sum"; ds "mean"; ds "var"]); [done|]. by repeat constructor.
  - exists [ds "value"]. split; [|done]. f_equal. apply (Hsplit [ds "value"]); [done|]. by repeat constructor.
Qed.

(** One metric through the dispatcher. *)
Lemma dispatch_metric (present : string → bool) opened spent p t ts name data d :
  pdu_frames p = t :: ts :: name :: data → metric_shape t data →
  ∃ f d' u, metric_entry name t d f d' ∧
    pdu_frames u = (if present (rf_abspath f) then "UPDATE" :: rf_abspath f :: ts :: t :: data
                    else ["CREATE"; rf_parent0 f; rf_parent1 f; rf_abspath f; t]) ∧
    rrd_dispatcher_reactor present opened spent TSubscriber p d =
      Ok (TContinue, d', [(if present (rf_abspath f) then ToUpdater u else ToCreator u);
                          ToMonitor (perf "dispatch.time.s" spent)]).
Proof using VL SL.
  intros Hp Hs. destruct (metric_file_entry name t d) as (f & d' & He & Hf).
  unfold rrd_dispatcher_reactor, on_metric. rewrite (shape_is_metric _ _ _ _ _ Hp Hs). cbn [negb].
  strings_of Hp. cbn [deref]. rewrite (pdu_type_of _ _ _ Hp), (data_frames_spec _ _ _ _ _ Hp). mstep.
  rewrite (M_run_bind _ _ _ _ _ _ Hf), out_app_nil. cbv beta.
  destruct (present (rf_abspath f)) eqn:E; cbn [negb].
  - exists f, d', (pdu_extend_all (pdu_make "UPDATE" [rf_abspath f; ts; t]) data). rewrite E. split; [done|].
    split; [by rewrite frames_extend_all, frames_make|]. by mstep.
  - exists f, d', (pdu_make "CREATE" [rf_parent0 f; rf_parent1 f; rf_abspath f; t]). rewrite E. split; [done|].
    split; [apply frames_make|]. by mstep.
Qed.
End pipeline.

Section kernel_to_rrd.
Context `{VL : VigorLaws} `{SL : Sha1Laws} `{Pcre}.

Lemma published_metric q :
  published_shape (pdu_frames q) → pdu_type q ∈ ["COUNTER"; "SAMPLE"; "RATE"] →
  ∃ ts name data, pdu_frames q = pdu_type q :: ts :: name :: data ∧ metric_shape (pdu_type q) data.
Proof using VL.
  intros Hs Ht. remember (pdu_frames q) as fs eqn:Hf. symmetry in Hf.
  assert (∀ t l, fs = t :: l → pdu_type q = t) as Hty by (intros t l ->; by eapply pdu_type_of).
  destruct Hs as [t ? ? ? ? ? Hst| | | | |]; rewrite (Hty _ _ eq_refl) in Ht |- *;
    try (eexists _, _, _; split; [done|constructor]).
  all: try (destruct Hst as [-> | ->]); apply (bool_decide_pack _) in Ht; by vm_compute in Ht.
Qed.

(** C14: from the kernel to the file: whatever the kernel reacts to, a counter,
    sample or rate that it publishes makes the dispatcher of the RRD
    subscriber choose the file of that name (adding it to the map when it is
    new).  When the dispatcher finds the file, it sends one message to an
    updater, which, if it finds the file too, asks librrd for exactly one
    update of that file, with the published time and values (of a rate,
    without its window), and reports success or failure as librrd answers.
    When the dispatcher does not find the file - always so for the first
    message of a metric - nothing is updated: a creator makes the two
    directories and the file, with as many data sources as an update has
    values, and the value of that message is not recorded. *)
Theorem reaction_recorded e s p k r k' o q (present : string → bool) opened spent d :
  _kernel_reactor e s p k = Ok (r, k', o) → q ∈ broadcasts o → pdu_type q ∈ ["COUNTER"; "SAMPLE"; "RATE"] →
  ∃ ts name data f d' u,
    pdu_frames q = pdu_type q :: ts :: name :: data ∧ metric_entry name (pdu_type q) d f d' ∧
    if present (rf_abspath f) then
      rrd_dispatcher_reactor present opened spent TSubscriber q d =
        Ok (TContinue, d', [ToUpdater u; ToMonitor (perf "dispatch.time.s" spent)]) ∧
      ∀ present' enoent spent' rc,
        _updater_reactor present' enoent spent' rc TQueue u () =
        Ok (TContinue, (), updater_output (present' (rf_abspath f)) enoent spent' rc (rf_abspath f) ts (pdu_type q) data)
    else
      rrd_dispatcher_reactor present opened spent TSubscriber q d =
        Ok (TContinue, d', [ToCreator u; ToMonitor (perf "dispatch.time.s" spent)]) ∧
      ∀ present' ws now spent' rc, ws ≠ [] → Forall is_word ws →
        ∃ dss, length dss = length (rrd_values (pdu_type q) data) ∧
          _creator_reactor present' (String.concat " " ws) now spent' rc TQueue u () =
          Ok (TContinue, (), creator_output (present' (rf_abspath f)) now spent' rc f (dss ++ ws)).
Proof using VL SL.
  intros Hr Hq Ht. apply reaction_shapes in Hr. rewrite Forall_forall in Hr.
  destruct (published_metric q (Hr q Hq) Ht) as (ts & name & data & Hf & Hs).
  destruct (dispatch_metric present opened spent q _ ts name data d Hf Hs) as (f & d' & u & He & Hu & Hrun).
  exists ts, name, data, f, d', u. split; [done|]. split; [done|].
  destruct (present (rf_abspath f)); (split; [done|]).
  - intros. by apply updater_run.
  - intros present' ws now spent' rc Hws Hw.
    destruct (create_args_shape _ _ ws Hs Hws Hw) as (dss & Ha & Hlen). exists dss. split; [done|].
    by eapply creator_run.
Qed.
End kernel_to_rrd.

(** ** Examples *)

Module RrdExample.
Abbreviation V := ref_vigor.
Definition ref_sha1 : Sha1 := {| sha1_hex _ := "0123456789abcdef0123456789abcdef01234567" |}.
Definition load : rrdfile_t :=
  mk_rrdfile "/rrd/01" "/rrd/01/23" "/rrd/01/23/0123456789abcdef0123456789abcdef01234567.rrd"
    "01/23/0123456789abcdef0123456789abcdef01234567" "host load" "COUNTER".
Definition m : rrdmap_t := mk_rrdmap {["host load" := load]} "/rrd/map" "/rrd/.map".
Definition d : rdispatcher := mk_rdispatcher m "/rrd".
Definition empty : rdispatcher := mk_rdispatcher (rrdmap_new "/rrd/map") "/rrd".
Definition msg : @pdu_t V := ("COUNTER", ["120"; "host load"; "7"]).
(** A counter whose window closes with the next increment. *)
Definition counter (last v : Z) : counter_t := mk_counter Example1.minute "host load" last v 0.
Definition kernel (c : counter_t) : @kernel_t ref_pcre :=
  set_db (H0 := ref_pcre) (put_counter (H := ref_pcre) "host load" c CoreExample.db) CoreExample.k.
Definition k : @kernel_t ref_pcre := kernel (counter 130 7).
Definition k' : @kernel_t ref_pcre := kernel (counter 190 1).
Definition increment : @pdu_t V := ("COUNTER", ["190"; "host load"; "1"]).
End RrdExample.

Lemma ref_sha1_laws : Sha1Laws RrdExample.ref_sha1.
Proof. by split. Qed.

Lemma rrdmap_roundtrip_witness :
  ∃ text, rrdmap_write (H := ref_vigor) true RrdExample.m = Some text ∧
    rrdmap_read (Some text) "/rrd" (rrdmap_new "/rrd/map") =
      Ok (mk_rrdmap {["host load" := RrdExample.load]} "/rrd/map" "/rrd/.map").
Proof.
  apply (rrdmap_roundtrip (VL := ref_vigor_laws) "/rrd" RrdExample.m "/rrd/map").
  apply map_Forall_singleton. split_and!; try done; [|apply Nat.ltb_lt; vm_compute; reflexivity].
  by exists "0123456789abcdef0123456789abcdef01234567".
Defined.

Lemma rrdmap_name_is_type_witness :
  ∃ g, map_line "/rrd" (map_entry (mk_rrdfile "/rrd/01" "/rrd/01/23" "/rrd/01/23/0123.rrd" "01/23/0123" "RATE" "RATE"))
       = Some (Ok ("RATE", g)) ∧ rf_type g = "UNDEFINED".
Proof. apply rrdmap_name_is_type; [by exists "0123"|reflexivity|reflexivity]. Defined.

Lemma reaction_recorded_witness :
  ∃ ts name data f d' u,
    pdu_frames RrdExample.msg = "COUNTER" :: ts :: name :: data ∧
    metric_entry (H := RrdExample.ref_sha1) name "COUNTER" RrdExample.d f d' ∧
    (if true then
      rrd_dispatcher_reactor (H := ref_vigor) (H0 := RrdExample.ref_sha1) (λ _, true) true 4 TSubscriber
        RrdExample.msg RrdExample.d =
        Ok (TContinue, d', [ToUpdater u; ToMonitor (perf "dispatch.time.s" 4)]) ∧
      ∀ present' enoent spent' rc,
        _updater_reactor present' enoent spent' rc TQueue u () =
        Ok (TContinue, (), updater_output (present' (rf_abspath f)) enoent spent' rc (rf_abspath f) ts "COUNTER" data)
     else
      rrd_dispatcher_reactor (H := ref_vigor) (H0 := RrdExample.ref_sha1) (λ _, true) true 4 TSubscriber
        RrdExample.msg RrdExample.d =
        Ok (TContinue, d', [ToCreator u; ToMonitor (perf "dispatch.time.s" 4)]) ∧
      ∀ present' ws now spent' rc, ws ≠ [] → Forall is_word ws →
        ∃ dss, length dss = length (rrd_values "COUNTER" data) ∧
          _creator_reactor present' (String.concat " " ws) now spent' rc TQueue u () =
          Ok (TContinue, (), creator_output (present' (rf_abspath f)) now spent' rc f (dss ++ ws))).
Proof.
  apply (reaction_recorded (VL := ref_vigor_laws) (SL := ref_sha1_laws) (H0 := ref_pcre) CoreExample.e Listener
    RrdExample.increment RrdExample.k Continue RrdExample.k' [Send Broadcast RrdExample.msg] RrdExample.msg
    (λ _, true) true 4 RrdExample.d).
  - vm_compute. reflexivity.
  - by left.
  - by left.
Defined.
