(* ===== verification/Pg.v ===== *)
(** * The PostgreSQL subscriber: src/bolo2pg/main.c

    A dispatcher receives what the aggregator publishes and hands states,
    transitions and events to a pool of inserters, which write them to the
    database; a reconciler periodically merges the staged states.  To keep
    the load down, the dispatcher skips a state that is OK and that it has
    forwarded before.

    libpq is an argument: every definition takes the outcome of the calls it
    makes, and the statements with their parameters are its output. *)

From S2P Require Import Prelude CLib Vigor Bytes Data Binf Core Config Pdu Subscriber Startup Threads.
From Stdlib Require Import Ascii.

Section pg.
Context `{Vigor}.

(** What the threads send and do. *)
Inductive pgaction :=
| ToInserters (p : pdu_t)
| PgMonitor (p : pdu_t)
| ExecPrepared (statement : string) (params : list string)
| Exec (sql : string).

(** ** The inserters *)

Abbreviation PI := (M unit pgaction).

(** What is reported about an operation: its time and one more success, or
    one more failure. *)
Definition report (what : string) (ok : bool) (spent : Z) : PI () :=
  if ok then
    emit (PgMonitor (perf (what +:+ ".time.s") spent)) ≫= λ _,
    emit (PgMonitor (count (what +:+ ".ops")))
  else emit (PgMonitor (count (what +:+ ".errors"))).

(** Frame [i], as a parameter of a statement. *)
Definition param (p : pdu_t) (i : Z) : PI string := lift (deref (pdu_string p i)).

(** [ok] is whether the statement was executed, [spent] the time it took. *)
Definition insert_state (ok : bool) (spent : Z) (p : pdu_t) : PI () :=
  param p 1 ≫= λ name,
  param p 4 ≫= λ code,
  param p 5 ≫= λ summary,
  param p 2 ≫= λ ts,
  emit (ExecPrepared "INSERT_STAGING" [name; code; summary; ts]) ≫= λ _,
  report "state:insert" ok spent.

Definition insert_event (ok : bool) (spent : Z) (p : pdu_t) : PI () :=
  param p 2 ≫= λ name,
  param p 3 ≫= λ extra,
  param p 1 ≫= λ ts,
  emit (ExecPrepared "INSERT_EVENT" [name; extra; ts]) ≫= λ _,
  report "event:insert" ok spent.

Definition _inserter_reactor (ok : bool) (spent : Z) (s : tsocket) (p : pdu_t) : PI treaction :=
  match s with
  | TControl => mret (if streq (pdu_type p) "TERMINATE" then THalt else TContinue)
  | TQueue =>
      (if streq (pdu_type p) "STATE" && (pdu_size p =? 6) then insert_state ok spent p
       else if streq (pdu_type p) "EVENT" && (pdu_size p =? 4) then insert_event ok spent p
       else mret ()) ≫= λ _,
      mret TContinue
  | _ => mret THalt
  end.

(** ** The reconciler *)

Definition _reconciler_reactor (ok : bool) (spent : Z) (s : tsocket) (p : pdu_t) : PI treaction :=
  match s with
  | TControl => mret (if streq (pdu_type p) "TERMINATE" then THalt else TContinue)
  | TTock =>
      emit (Exec "SELECT reconcile()") ≫= λ _,
      report "reconcile" ok spent ≫= λ _,
      mret TContinue
  | _ => mret THalt
  end.

(** ** The dispatcher *)

Record pg_dispatcher := mk_pg_dispatcher { pg_seen : gset string }.

Abbreviation PD := (M pg_dispatcher pgaction).

(** [hash_set(&dispatcher->seen, state, SEEN)] *)
Definition see (state : string) : PD () :=
  modify (λ d, mk_pg_dispatcher ({[state]} ∪ pg_seen d)).

Definition dispatch_state (p : pdu_t) : PD () :=
  lift (deref (pdu_string p 1)) ≫= λ state,
  lift (deref (pdu_string p 4)) ≫= λ code,
  get ≫= λ d,
  if negb (streq code "OK") || negb (bool_decide (state ∈ pg_seen d)) then
    see state ≫= λ _, emit (ToInserters (pdu_dup p))
  else emit (PgMonitor (count "dispatch.skips")).

Definition dispatch_transition (p : pdu_t) : PD () :=
  lift (deref (pdu_string p 1)) ≫= λ state,
  see state ≫= λ _,
  emit (ToInserters (pdu_dup_as p "STATE")).

(** A message of another kind is left without a report. *)
Definition pg_on_subscriber (spent : Z) (p : pdu_t) : PD () :=
  let timed (m : PD ()) := m ≫= λ _, emit (PgMonitor (perf "dispatch.time.s" spent)) in
  if streq (pdu_type p) "STATE" && (pdu_size p =? 6) then timed (dispatch_state p)
  else if streq (pdu_type p) "TRANSITION" && (pdu_size p =? 6) then timed (dispatch_transition p)
  else if streq (pdu_type p) "EVENT" && (pdu_size p =? 4) then
    timed (emit (ToInserters (pdu_dup_as p "EVENT")))
  else mret ().

Definition pg_dispatcher_reactor (spent : Z) (s : tsocket) (p : pdu_t) : PD treaction :=
  match s with
  | TControl => mret (if streq (pdu_type p) "TERMINATE" then THalt else TContinue)
  | TSubscriber => pg_on_subscriber spent p ≫= λ _, mret TContinue
  | _ => mret THalt
  end.

(** ** Starting the threads *)

(** The answers of the libraries while a thread is set up. *)
Record pg_wiring := mk_pg_wiring {
  pw_control : bool * Z * Z;
  pw_monitor : bool * Z;
  pw_tock : bool * Z * Z;
  pw_subscriber : bool * Z * Z;   (* zmq_setsockopt, then vzmq_connect_af *)
  pw_queue : bool * Z;            (* the PULL or PUSH end of the queue *)
  pw_reactor : bool;
  pw_set_control : Z;
  pw_set_other : Z;               (* the queue, the tock or the subscriber *)
  pw_connectdb : bool;            (* PQconnectdb gave a connection *)
  pw_status : bool;               (* ... which is CONNECTION_OK *)
  pw_prepare_staging : bool;
  pw_prepare_event : bool;
  pw_pthread : Z;
}.

Definition ok_or_fail (b : bool) : Z := if b then 0 else -1.

Definition inserter_thread (w : pg_wiring) : Z :=
  let '(s1, c1, o1) := pw_control w in
  first_error
    [bolo_subscriber_connect_supervisor s1 c1 o1;
     bolo_subscriber_connect_monitor (pw_monitor w).1 (pw_monitor w).2;
     open_socket (pw_queue w).1 [(pw_queue w).2];
     ok_or_fail (pw_reactor w); pw_set_control w; pw_set_other w;
     ok_or_fail (pw_connectdb w); ok_or_fail (pw_status w);
     ok_or_fail (pw_prepare_staging w); ok_or_fail (pw_prepare_event w);
     pw_pthread w].

Definition reconciler_thread (w : pg_wiring) : Z :=
  let '(s1, c1, o1) := pw_control w in
  let '(s2, c2, o2) := pw_tock w in
  first_error
    [bolo_subscriber_connect_supervisor s1 c1 o1;
     bolo_subscriber_connect_monitor (pw_monitor w).1 (pw_monitor w).2;
     bolo_subscriber_connect_scheduler s2 c2 o2;
     ok_or_fail (pw_reactor w); pw_set_control w; pw_set_other w;
     ok_or_fail (pw_connectdb w); ok_or_fail (pw_status w);
     pw_pthread w].

Definition pg_dispatcher_thread (w : pg_wiring) : Z * option pg_dispatcher :=
  let '(s1, c1, o1) := pw_control w in
  let '(s2, o2, c2) := pw_subscriber w in
  let rc := first_error
    [bolo_subscriber_connect_supervisor s1 c1 o1;
     bolo_subscriber_connect_monitor (pw_monitor w).1 (pw_monitor w).2;
     open_socket s2 [o2; c2];
     open_socket (pw_queue w).1 [(pw_queue w).2];
     ok_or_fail (pw_reactor w); pw_set_control w; pw_set_other w;
     pw_pthread w] in
  (rc, if rc =? 0 then Some (mk_pg_dispatcher ∅) else None).
End pg.

(** ** Credentials *)

Definition CREDS : nat := 256.

(** [file] is the text of the file, when it can be opened: the return code,
    the user and the password. *)
Definition s_read_creds (file : option string) : Z * option (string * string) :=
  match file ≫= fgets CREDS with
  | None => (1, None)
  | Some (line, _) =>
      let buf := cstr line in
      if has_char ":" buf && has_char LF buf then
        let buf := cut_last LF buf in
        (0, Some (take_while (is_not ":") buf, tail_str (skip_while (is_not ":") buf)))
      else (1, None)
  end.

Definition pg_dsn (host port database : string) (creds : option (string * string)) : string :=
  let dsn := "host=" +:+ host +:+ " port=" +:+ port +:+ " dbname=" +:+ database in
  match creds with
  | Some (user, pass) => dsn +:+ " user=" +:+ user +:+ " password=" +:+ pass
  | None => dsn
  end.

(** The metrics that are announced to the monitor. *)
Definition pg_metrics : list (string * string) :=
  [("COUNT", "insert.ops"); ("COUNT", "reconcile.ops"); ("COUNT", "insert.errors");
   ("COUNT", "reconcile.errors"); ("COUNT", "dispatch.skips");
   ("SAMPLE", "dispatch.time.s"); ("SAMPLE", "insert.time.s"); ("SAMPLE", "reconcile.time.s")].
