(* ===== verification/PgFacts.v ===== *)
(** * Theorems on the PostgreSQL subscriber

    The dispatcher does not forward every state, but nothing is lost: the
    last status it forwards of every state is the last one published, as long
    as a return to OK is announced by a transition, which the kernel does. *)

From S2P Require Import Prelude CLib Vigor Bytes Data DataFacts Binf Core CoreFacts Windowed Reactor ReactorFacts KernelFacts Safety Config Pdu Subscriber SubscriberFacts Startup Threads Cache CacheFacts Pg.
From Stdlib Require Import Ascii.

(** ** Reports of states *)

Section reports.
Context `{VL : VigorLaws}.

(** What a message says about a state: whether it is a transition, the name
    of the state and its status. *)
Definition news (p : pdu_t) : option (bool * string * string) :=
  if (streq (pdu_type p) "STATE" || streq (pdu_type p) "TRANSITION") && (pdu_size p =? 6) then
    name ← pdu_string p 1; code ← pdu_string p 4; Some (streq (pdu_type p) "TRANSITION", name, code)
  else None.

Definition reports (ps : list pdu_t) : list (bool * string * string) := omap news ps.

(** The status board: the last status reported of every state. *)
Definition post (b : gmap string string) (r : bool * string * string) : gmap string string :=
  <[r.1.2 := r.2]> b.
Definition board (b : gmap string string) (rs : list (bool * string * string)) : gmap string string :=
  foldl post b rs.

(** A state is only reported as OK, without a transition, when the board has
    nothing or the same about it. *)
Fixpoint announced (b : gmap string string) (rs : list (bool * string * string)) : Prop :=
  match rs with
  | [] => True
  | (tr, name, code) as r :: rs' =>
      (tr = true ∨ code ≠ "OK" ∨ b !! name = None ∨ b !! name = Some "OK") ∧ announced (post b r) rs'
  end.

Lemma reports_app ps qs : reports (ps ++ qs) = reports ps ++ reports qs.
Proof using. apply omap_app. Qed.
Lemma board_app b r1 r2 : board b (r1 ++ r2) = board (board b r1) r2.
Proof using. apply foldl_app. Qed.
Lemma announced_app b r1 r2 : announced b (r1 ++ r2) ↔ announced b r1 ∧ announced (board b r1) r2.
Proof using.
  revert b. induction r1 as [|[[tr n] c] r1 IH]; intros b; cbn; [tauto|].
  rewrite IH. unfold board. cbn. tauto.
Qed.

Lemma news_frames p t name ts stale code summary :
  pdu_frames p = [t; name; ts; stale; code; summary] → t = "STATE" ∨ t = "TRANSITION" →
  news p = Some (streq t "TRANSITION", name, code).
Proof using VL.
  intros Hp Ht. unfold news. rewrite size_frames, (pdu_type_of _ _ _ Hp), !string_frames, Hp by lia.
  by destruct Ht as [-> | ->].
Qed.

Lemma news_other p t fs :
  pdu_frames p = t :: fs → t ≠ "STATE" → t ≠ "TRANSITION" → news p = None.
Proof using VL.
  intros Hp H1%streq_neq H2%streq_neq. unfold news. by rewrite (pdu_type_of _ _ _ Hp), H1, H2.
Qed.

(** ** The dispatcher *)

Definition to_inserters (o : list pgaction) : list pdu_t :=
  omap (λ x, match x with ToInserters p => Some p | _ => None end) o.

Lemma news_dup p : news (pdu_dup p) = news p.
Proof using VL.
  unfold news. rewrite !size_frames, !string_frames, frames_dup by lia.
  assert (pdu_type (pdu_dup p) = pdu_type p) as ->; [|done].
  pose proof (type_frames (pdu_dup p)) as Hd. rewrite frames_dup, <- type_frames in Hd. by injection Hd.
Qed.

Lemma type_dup_as p t : pdu_type (pdu_dup_as p t) = t.
Proof using VL. eapply pdu_type_of, frames_dup_as. Qed.

(** A transition is forwarded as the report of a state. *)
Lemma news_dup_as p tr name code :
  pdu_frames p ≠ [] → news p = Some (tr, name, code) →
  news (pdu_dup_as p "STATE") = Some (false, name, code).
Proof using VL.
  unfold news. rewrite type_dup_as, !size_frames, !string_frames, frames_dup_as by lia.
  intros Hne. destruct (pdu_frames p) as [|t fs]; [done|]. cbn [tail].
  destruct ((streq (pdu_type p) "STATE" || streq (pdu_type p) "TRANSITION") && _) eqn:E; [|done].
  apply andb_true_iff in E as [_ E]. change (length (?x :: fs)) with (S (length fs)) in *. rewrite E.
  change (streq "STATE" "STATE") with true. cbn [orb andb].
  change ((?x :: fs) !! Z.to_nat 1) with (fs !! 0%nat). change ((?x :: fs) !! Z.to_nat 4) with (fs !! 3%nat).
  destruct (fs !! 0%nat); [|done]. cbn. destruct (fs !! 3%nat); [|done]. cbn. by intros [= _ <- <-].
Qed.

Lemma frames_nonempty p : pdu_frames p ≠ [].
Proof using VL. intros E. pose proof (type_frames p) as H. by rewrite E in H. Qed.

(** One message, seen from outside. *)
Lemma dispatcher_step spent p d :
  ∃ d' out, pg_dispatcher_reactor spent TSubscriber p d = Ok (TContinue, d', out) ∧
  match news p with
  | None => d' = d ∧ reports (to_inserters out) = []
  | Some (tr, name, code) =>
      if (tr : bool) || negb (streq code "OK") || negb (bool_decide (name ∈ pg_seen d)) then
        d' = mk_pg_dispatcher ({[name]} ∪ pg_seen d) ∧ reports (to_inserters out) = [(false, name, code)]
      else d' = d ∧ reports (to_inserters out) = []
  end.
Proof using VL.
  unfold pg_dispatcher_reactor, pg_on_subscriber, news.
  destruct (streq (pdu_type p) "STATE") eqn:Hs; cbn [orb andb].
  - apply streq_eq in Hs. rewrite Hs. change (streq "STATE" "TRANSITION") with false.
    change (streq "STATE" "EVENT") with false. cbn [andb].
    destruct (Z.eqb_spec (pdu_size p) 6) as [H6|H6]; [|by eexists _, _].
    destruct (pdu_string_Some p 1) as [name Hn]; [lia|]. destruct (pdu_string_Some p 4) as [code Hc]; [lia|].
    assert (news p = Some (false, name, code)) as Hnews.
    { unfold news. rewrite Hs, H6, Hn, Hc. done. }
    rewrite Hn, Hc. cbn [mbind option_bind orb]. unfold dispatch_state. rewrite Hn, Hc.
    cbn [deref]. mstep.
    destruct (negb (streq code "OK") || negb (bool_decide (name ∈ pg_seen d))); unfold see; mstep.
    + eexists _, _. split; [reflexivity|]. split; [done|]. cbn. by rewrite news_dup, Hnews.
    + by eexists _, _.
  - destruct (streq (pdu_type p) "TRANSITION") eqn:Ht; cbn [andb].
    + apply streq_eq in Ht. rewrite Ht. change (streq "TRANSITION" "EVENT") with false. cbn [andb].
      destruct (Z.eqb_spec (pdu_size p) 6) as [H6|H6]; [|by eexists _, _].
      destruct (pdu_string_Some p 1) as [name Hn]; [lia|]. destruct (pdu_string_Some p 4) as [code Hc]; [lia|].
      assert (news p = Some (true, name, code)) as Hnews.
      { unfold news. rewrite Ht, H6, Hn, Hc. done. }
      rewrite Hn, Hc. cbn [mbind option_bind orb]. unfold dispatch_transition. rewrite Hn.
      cbn [deref]. unfold see. mstep. eexists _, _. split; [reflexivity|]. split; [done|]. cbn.
      by rewrite (news_dup_as _ _ _ _ (frames_nonempty p) Hnews).
    + destruct (streq (pdu_type p) "EVENT" && (pdu_size p =? 4)); [|by eexists _, _].
      eexists _, _. split; [reflexivity|]. split; [done|]. cbn.
      by rewrite (news_other (pdu_dup_as p "EVENT") _ _ (frames_dup_as _ _)).
Qed.

(** The dispatcher's table is the domain of the board, and the board of what
    it forwards is the board of what it receives. *)
Lemma dispatcher_mirrors spent ps b d :
  pg_seen d = dom b → announced b (reports ps) →
  ∃ d' out,
    handle_all thalts (pg_dispatcher_reactor spent) ((TSubscriber,.) <$> ps) d = Ok (false, d', out) ∧
    board b (reports (to_inserters out)) = board b (reports ps) ∧
    Forall (λ r, r.1.1 = false) (reports (to_inserters out)).
Proof using VL.
  revert b d. induction ps as [|p ps IH]; intros b d Hd Ha; [by eexists _, _|].
  destruct (dispatcher_step spent p d) as (d1 & o1 & E & Hp).
  assert (announced (board b (reports [p])) (reports ps)) as Ha'.
  { change (p :: ps) with ([p] ++ ps) in Ha. rewrite reports_app, announced_app in Ha. apply Ha. }
  assert (Forall (λ r, r.1.1 = false) (reports (to_inserters o1))) as Hf1.
  { destruct (news p) as [[[tr name] code]|]; [|by destruct Hp as [_ ->]].
    destruct (_ || negb (bool_decide (name ∈ pg_seen d))); destruct Hp as [_ ->]; by repeat constructor. }
  assert (pg_seen d1 = dom (board b (reports [p])) ∧
          board b (reports (to_inserters o1)) = board b (reports [p])) as [Hd1 Hb1].
  { unfold reports, board in *. cbn [omap list_omap] in *. destruct (news p) as [[[tr name] code]|].
    2: { destruct Hp as [-> ->]. done. }
    destruct Ha as [Ha _]. cbn [foldl]. unfold post. cbn [fst snd].
    destruct (tr || negb (streq code "OK") || negb (bool_decide (name ∈ pg_seen d))) eqn:Hf.
    - destruct Hp as [-> Hp]. cbn [pg_seen]. rewrite Hd. split; [by rewrite dom_insert_L|].
      unfold to_inserters in *. by rewrite Hp.
    - destruct Hp as [-> Hp]. unfold to_inserters in *. rewrite Hp. cbn [foldl].
      apply orb_false_iff in Hf as [[Htr Hok%negb_false_iff%streq_eq]%orb_false_iff Hin%negb_false_iff%bool_decide_eq_true_1].
      subst tr code. rewrite Hd in Hin. apply elem_of_dom in Hin as [c Hc].
      assert (c = "OK") as ->.
      { destruct Ha as [?|[?|[?|?]]]; congruence. }
      rewrite insert_id by done. done. }
  destruct (IH _ _ Hd1 Ha') as (d2 & o2 & E2 & Hb2 & Hf2). eexists d2, (o1 ++ o2).
  change (p :: ps) with ([p] ++ ps). unfold to_inserters in *.
  rewrite omap_app, !reports_app, !board_app, Hb1. split_and!; [|done|by apply Forall_app].
  cbn [app]. rewrite fmap_cons. erewrite handle_all_cons; [|exact E|done]. by rewrite E2.
Qed.

(** ** The inserters *)

(** What an inserter does with the report of a state. *)
Lemma inserter_row ok spent q name code :
  news q = Some (false, name, code) →
  ∃ summary ts rest,
    _inserter_reactor ok spent TQueue q () =
      Ok (TContinue, (), ExecPrepared "INSERT_STAGING" [name; code; summary; ts] :: rest) ∧
    rest = if ok then [PgMonitor (perf "state:insert.time.s" spent); PgMonitor (count "state:insert.ops")]
           else [PgMonitor (count "state:insert.errors")].
Proof using VL.
  unfold news. destruct (_ && (pdu_size q =? 6)) eqn:E; [|done]. apply andb_prop in E as [Ht H6%Z.eqb_eq].
  destruct (pdu_string_Some q 1) as [n Hn]; [lia|]. destruct (pdu_string_Some q 4) as [c Hc]; [lia|].
  destruct (pdu_string_Some q 5) as [summary Hs]; [lia|]. destruct (pdu_string_Some q 2) as [ts Hts]; [lia|].
  rewrite Hn, Hc. cbn. intros [= Htr <- <-]. rewrite Htr, orb_false_r in Ht.
  exists summary, ts, (if ok then [PgMonitor (perf "state:insert.time.s" spent); PgMonitor (count "state:insert.ops")]
                       else [PgMonitor (count "state:insert.errors")]).
  unfold _inserter_reactor, insert_state, param. rewrite Ht, H6, Hn, Hc, Hs, Hts.
  cbn [andb deref]. change (6 =? 6) with true. mstep. unfold report.
  destruct ok; mstep; split; reflexivity.
Qed.
End reports.

(** ** What the kernel announces *)

Section announces.
Context `{VL : VigorLaws} `{Pcre}.

(** Every state is kept under its name, and one that is OK was last reported
    as OK, or not at all. *)
Definition board_agrees (b : gmap string string) (k : kernel_t) : Prop :=
  map_Forall (λ n s, state_name s = n ∧ (state_status s = 0 → b !! n = None ∨ b !! n = Some "OK"))
    (states (k_db k)).

(** Everything that is sent is announced, and the agreement is kept. *)
Definition tells (k : kernel_t) (o : list output) (k' : kernel_t) : Prop :=
  ∀ b, board_agrees b k →
    announced b (reports (broadcasts o)) ∧ board_agrees (board b (reports (broadcasts o))) k'.

#[local] Instance tells_run : RunRelation tells.
Proof using.
  split.
  - intros k b Hb. done.
  - intros k1 o1 k2 o2 k3 H1 H2 b Hb. unfold broadcasts. rewrite omap_app, reports_app, announced_app, board_app.
    destruct (H1 b Hb) as [A1 B1]. by destruct (H2 _ B1) as [A2 B2].
Qed.

Lemma tells_emit o : (∀ p, o ≠ Send Broadcast p) → respects tells (emit o).
Proof using.
  intros Ho. apply respects_emit. intros k b Hb. unfold broadcasts. cbn.
  destruct o as [[] p|? ? ?|? ?|? ?]; try done. by destruct (Ho p).
Qed.

Lemma tells_publish p t fs :
  pdu_frames p = t :: fs → t ≠ "STATE" → t ≠ "TRANSITION" → respects tells (send Broadcast p).
Proof using VL.
  intros Hp H1 H2. apply respects_emit. intros k b Hb. unfold broadcasts, reports. cbn.
  by rewrite (news_other _ _ _ Hp).
Qed.

Lemma tells_modify_db f : (∀ d, states (f d) = states d) → respects tells (modify_db f).
Proof using. intros Hf. apply respects_modify. intros k b Hb. split; [done|]. unfold board_agrees. cbn. by rewrite Hf. Qed.

Lemma tells_set_keys f : respects tells (modify (λ k, set_keys (f k) k)).
Proof using. apply respects_modify. by intros k b Hb. Qed.
Lemma tells_set_tick f : respects tells (modify (set_tick f)).
Proof using. apply respects_modify. by intros k b Hb. Qed.
Lemma tells_set_sweep f : respects tells (modify (set_sweep f)).
Proof using. apply respects_modify. by intros k b Hb. Qed.
Lemma tells_set_freshness f : respects tells (modify (set_freshness f)).
Proof using. apply respects_modify. by intros k b Hb. Qed.
Lemma tells_set_savestate f : respects tells (modify (set_savestate f)).
Proof using. apply respects_modify. by intros k b Hb. Qed.
Lemma tells_get_db : respects tells get_db.
Proof using. unfold get_db. repeat respects_step. Qed.

#[local] Hint Resolve tells_set_keys tells_set_tick tells_set_sweep tells_set_freshness tells_set_savestate
  tells_get_db : respects.
#[local] Hint Extern 1 (respects tells (send _ _)) => apply tells_emit; congruence : respects.
#[local] Hint Extern 1 (respects tells (emit _)) => apply tells_emit; congruence : respects.
#[local] Hint Extern 1 (respects tells (frame _ _)) => apply respects_lift, tells_run : respects.
#[local] Hint Extern 1 (respects tells (modify_db _)) => apply tells_modify_db; intros; done : respects.

Ltac publish := eapply tells_publish; [rewrite frames_extend_all, frames_make; reflexivity|done|done].

Lemma tells_event ev : respects tells (broadcast_event ev).
Proof using VL. publish. Qed.
Lemma tells_counter c : respects tells (broadcast_counter c).
Proof using VL. unfold broadcast_counter. respects_step; [respects_step|]. publish. Qed.
Lemma tells_sample c : respects tells (broadcast_sample c).
Proof using VL. unfold broadcast_sample. respects_step; [respects_step|]. publish. Qed.
Lemma tells_rate c : respects tells (broadcast_rate c).
Proof using VL. unfold broadcast_rate. respects_step; [respects_step|]. publish. Qed.

#[local] Hint Resolve tells_event tells_counter tells_sample tells_rate : respects.

(** The messages under construction have the type SET.KEYS. *)
Lemma tells_setkeys_loop l c n : respects tells (setkeys_loop (setkeys_pdu c, n) l).
Proof using VL.
  revert c n. induction l as [|[key [v|]] l IH]; intros c n; cbn [setkeys_loop]; [respects_step| |].
  - unfold setkeys_step. cbn [fst snd]. rewrite setkeys_pdu_snoc.
    destruct (n + 1 =? 30).
    + intros k a k' o. mstep. intros E. destruct (setkeys_loop _ l k) as [[[a1 k1] o1]|] eqn:E1; [|done].
      cbn in E. injection E as <- <- <-.
      apply (run_rel_trans (R := tells) k [Send Broadcast (setkeys_pdu (c ++ [(key, v)]))] k o1 k1).
      * eapply (tells_publish _ "SET.KEYS"); [unfold setkeys_pdu; by rewrite frames_extend_all, frames_make|done|done|done].
      * exact (IH [] 0 k _ _ _ E1).
    + intros k a k' o. mstep. apply IH.
  - unfold setkeys_step. cbn [fst snd]. intros k a k' o. mstep. apply IH.
Qed.

Lemma tells_broadcast_setkeys : respects tells broadcast_setkeys.
Proof using VL.
  unfold broadcast_setkeys. intros k a k' o. mstep.
  destruct (setkeys_loop_spec (for_each (k_keys k)) [] k) as (chunks & c & E & _); [cbn; lia|].
  change (pdu_make "SET.KEYS" [], 0) with (setkeys_pdu [], Z.of_nat (length (@nil (string * string)))).
  rewrite (M_run_bind _ _ _ _ _ _ E). intros Hr.
  destruct (0 <? Z.of_nat (length c)).
  - injection Hr as <- <- <-. eapply (run_rel_trans (R := tells)).
    + eapply tells_setkeys_loop, E.
    + eapply (tells_publish _ "SET.KEYS"); [unfold setkeys_pdu; by rewrite frames_extend_all, frames_make|done|done|done].
  - injection Hr as <- <- <-. eapply (run_rel_trans (R := tells)); [eapply tells_setkeys_loop, E|apply run_rel_refl].
Qed.

(** *** States *)

Lemma statstr_OK c : statstr c = "OK" → c = 0.
Proof using.
  unfold statstr. intros E. destruct (3 <? c) eqn:H3; [done|]. by destruct c as [|[[[]| |]|[[]| |]|]|].
Qed.

Lemma state_pdu_news t s :
  t = "STATE" ∨ t = "TRANSITION" →
  news (state_pdu t s) = Some (streq t "TRANSITION", state_name s, statstr (state_status s)).
Proof using VL.
  intros Ht. eapply news_frames; [|done]. unfold state_pdu. by rewrite frames_extend_all, frames_make.
Qed.

(** The messages about a state that has changed. *)
Definition state_sends (tr : bool) (s : state_t) : list output :=
  (if tr then [Send Broadcast (state_pdu "TRANSITION" s)] else []) ++ [Send Broadcast (state_pdu "STATE" s)].

Lemma tells_update k n s s' (tr : bool) :
  states (k_db k) !! n = Some s → state_name s' = state_name s →
  (tr = false → state_status s' = state_status s) →
  tells k (state_sends tr s') (set_db (put_state n s' (k_db k)) k).
Proof using VL.
  intros Hs Hn Htr b Hb. destruct (Hb n s Hs) as [Hname Hok].
  assert (∀ b', (∀ m, m ≠ n → b' !! m = b !! m) → b' !! n = Some (statstr (state_status s')) →
    board_agrees b' (set_db (put_state n s' (k_db k)) k)) as Hagree.
  { intros b' Hne Heq m x. cbn. destruct (decide (m = n)) as [->|Hm].
    - rewrite lookup_insert_eq. intros [= <-]. split; [congruence|]. intros H0. right. by rewrite Heq, H0.
    - rewrite lookup_insert_ne by done. intros Hx. destruct (Hb m x Hx) as [? ?]. by rewrite Hne. }
  unfold state_sends, broadcasts, reports. destruct tr; cbn [app omap list_omap].
  - rewrite !state_pdu_news by auto. cbn [announced board foldl post fst snd].
    change (streq "TRANSITION" "TRANSITION") with true. change (streq "STATE" "TRANSITION") with false.
    unfold post; cbn [fst snd]; rewrite !Hn, !Hname, !lookup_insert_eq. split_and!; [by left| |done|].
    + destruct (decide (statstr (state_status s') = "OK")) as [->|?]; auto.
    + apply Hagree; unfold post; cbn [fst snd].
      * intros m Hm. by rewrite !lookup_insert_ne by done.
      * by rewrite lookup_insert_eq.
  - rewrite state_pdu_news by auto. cbn [announced board foldl post fst snd].
    change (streq "STATE" "TRANSITION") with false. rewrite Hn, Hname. split_and!; [|done|].
    + destruct (decide (statstr (state_status s') = "OK")) as [E|?]; [|auto].
      apply statstr_OK in E. rewrite Htr in E by done. auto.
    + apply Hagree; unfold post; cbn [fst snd].
      * intros m Hm. by rewrite lookup_insert_ne by done.
      * by rewrite lookup_insert_eq.
Qed.

Lemma find_state_tells now d n found d' k :
  k_db k = d → find_state now d n = (found, d') →
  tells k [] (set_db d' k) ∧ (∀ s, found = Some s → states d' !! n = Some s).
Proof using.
  intros Hk. unfold find_state. destruct (states d !! n) as [s|] eqn:Es.
  - intros [= <- <-]. split; [|by intros ? [= <-]]. rewrite <- Hk. by intros b Hb.
  - destruct (first_match _ n) as [re|]; intros [= <- <-].
    + split; [|intros ? [= <-]; apply lookup_insert_eq]. intros b Hb. split; [done|].
      unfold board_agrees in *. cbn. apply map_Forall_insert_2; [done|]. by rewrite <- Hk.
    + split; [|done]. rewrite <- Hk. by intros b Hb.
Qed.

Lemma tells_put_state e p : respects tells (put_state_pdu e p).
Proof using VL.
  unfold put_state_pdu. do 2 (respects_step; [respects_step|]).
  destruct (pdu_string p 2) as [[|c name]|], (pdu_string p 4) as [[|c' msg]|];
    try (apply respects_ret, tells_run).
  intros k ? k' o. mstep. destruct (find_state (time_s e) (k_db k) (String c name)) as [found d] eqn:Ef. mstep.
  destruct (find_state_tells _ _ _ _ _ k eq_refl Ef) as [Ht Hs]. intros Hrun.
  change o with ([] ++ o). apply (run_rel_trans (R := tells) _ _ _ _ _ Ht).
  destruct found as [s|]; [|by injection Hrun as _ <- <-; apply run_rel_refl].
  specialize (Hs s eq_refl). destruct (state_ignore s =? 0); [|by injection Hrun as _ <- <-; apply run_rel_refl].
  revert Hrun. mstep. set (s' := update_state _ _ _ s). set (tr := negb (state_stale s =? 0) || _).
  intros Hrun. assert (k' = set_db (put_state (String c name) s' (k_db (set_db d k))) (set_db d k) ∧ o = state_sends tr s')
    as [-> ->].
  { destruct tr; revert Hrun; mstep; intros [= <- <-]; done. }
  apply (tells_update _ _ s); [done|done|]. intros [_ Hst%negb_false_iff%Z.eqb_eq]%orb_false_iff. by rewrite Hst.
Qed.

Lemma tells_freshness_loop now l k o k' :
  NoDup l.*1 → Forall (λ kv, states (k_db k) !! kv.1 = Some kv.2) l →
  for_each_m (freshness_step now) l k = Ok ((), k', o) → tells k o k'.
Proof using VL.
  revert k o. induction l as [|[n s] l IH]; intros k o Hnd Hl; cbn [for_each_m].
  - intros [= <- <-]. apply run_rel_refl.
  - rewrite fmap_cons in Hnd. apply NoDup_cons in Hnd as [Hn Hnd]. apply Forall_cons in Hl as [Hs Hl].
    cbn [fst snd] in Hs, Hn. unfold freshness_step at 2. destruct ((now <? state_expiry s) || negb (state_ignore s =? 0)); [mstep; by apply IH|].
    destruct (type_summary (state_type s)) as [summary|]; [|done]. cbn [deref]. mstep.
    set (s' := mark_stale _ _ s). set (tr := (state_stale s =? 0) || _). intros Hrun.
    assert (∃ o', for_each_m (freshness_step now) l (set_db (put_state n s' (k_db k)) k) = Ok ((), k', o') ∧
                  o = state_sends tr s' ++ o') as (o' & E & ->).
    { destruct tr; revert Hrun; unfold broadcast_transition, broadcast_state, send; mstep;
        destruct (for_each_m _ l _) as [[[[] k1] o1]|]; try done; cbn [out_app app]; intros [= <- <-]; by exists o1. }
    eapply (run_rel_trans (R := tells)); [|eapply IH; [done| |exact E]].
    + apply (tells_update _ _ s); [done|done|]. intros [_ Hst%negb_false_iff%Z.eqb_eq]%orb_false_iff. done.
    + apply Forall_forall. intros [m x] Hin. rewrite Forall_forall in Hl. cbn. rewrite lookup_insert_ne.
      * by apply (Hl _ Hin).
      * intros ->. apply Hn, list_elem_of_fmap. by exists (m, x).
Qed.

Lemma tells_check_freshness e : respects tells (check_freshness e).
Proof using VL.
  unfold check_freshness. intros k [] k' o. mstep. apply tells_freshness_loop.
  - apply for_each_NoDup.
  - apply Forall_forall. intros [n s] Hin%elem_of_for_each. done.
Qed.

Lemma tells_forget_states payload hit ig : respects tells (modify_db (forget_states payload hit ig)).
Proof using VL.
  apply respects_modify. intros k b Hb. split; [done|]. unfold board_agrees, forget_states. cbn.
  destruct (payload_is payload PAYLOAD_STATE); [|done]. cbn.
  eapply wf_forgotten; [exact Hb| |apply forget_table_forgotten]. done.
Qed.

Lemma tells_forget_others payload hit ig :
  respects tells (modify_db (forget_counters payload hit ig)) ∧
  respects tells (modify_db (forget_samples payload hit ig)) ∧
  respects tells (modify_db (forget_rates payload hit ig)).
Proof using.
  split_and!; apply tells_modify_db; intros d; unfold forget_counters, forget_samples, forget_rates; by case_step.
Qed.

(** *** Everything else *)

Lemma tells_forget p : respects tells (mgmt_forget p).
Proof using VL.
  unfold mgmt_forget. repeat respects_step; try apply tells_forget_states; apply tells_forget_others.
Qed.

#[local] Hint Resolve tells_broadcast_setkeys tells_put_state tells_check_freshness tells_forget : respects.

Lemma tells_get_keys_loop p ixs a : respects tells (get_keys_loop p ixs a).
Proof using. revert a. induction ixs as [|i ixs IH]; intros a; cbn [get_keys_loop]; repeat respects_step; apply IH. Qed.
Lemma tells_sample_values ts p ixs s : respects tells (sample_values ts p ixs s).
Proof using. revert s. induction ixs as [|i ixs IH]; intros s; cbn [sample_values]; repeat respects_step; apply IH. Qed.
Lemma tells_set_keys_loop p n i : respects tells (set_keys_loop p n i).
Proof using. revert i. induction n as [|n IH]; intros i; cbn [set_keys_loop]; repeat respects_step; apply IH. Qed.

#[local] Hint Resolve tells_get_keys_loop tells_sample_values tells_set_keys_loop : respects.

(** The lookups of the other tables leave the states alone. *)
Lemma find_in_states d n :
  states (find_counter d n).2 = states d ∧ states (find_sample d n).2 = states d ∧
  states (find_rate d n).2 = states d.
Proof using. unfold find_counter, find_sample, find_rate. repeat case_step; done. Qed.

Lemma tells_lookup {A} (find : db_t → option A * db_t) (f : option A → M kernel_t output ()) :
  (∀ d, states (find d).2 = states d) → (∀ x, respects tells (f x)) →
  respects tells (get_db ≫= λ db, let '(found, db) := find db in modify_db (λ _, db) ≫= λ _, f found).
Proof using.
  intros Hfind Hf k a k' o. mstep. specialize (Hfind (k_db k)). destruct (find (k_db k)) as [found d]. mstep.
  intros Hrun. change o with ([] ++ o). apply (run_rel_trans (R := tells) _ _ (set_db d k)).
  - intros b Hb. split; [done|]. unfold board_agrees. cbn in *. by rewrite Hfind.
  - by eapply Hf.
Qed.

Lemma tells_put_counter p : respects tells (put_counter_pdu p).
Proof using VL.
  unfold put_counter_pdu. do 2 (respects_step; [respects_step|]).
  destruct (pdu_string p 2) as [[|c name]|]; try (apply respects_ret, tells_run).
  apply (tells_lookup (λ d, find_counter d (String c name))); [intros; apply find_in_states|]. intros found. repeat respects_step.
Qed.

Lemma tells_put_sample p : respects tells (put_sample_pdu p).
Proof using VL.
  unfold put_sample_pdu. do 1 (respects_step; [respects_step|]).
  destruct (pdu_string p 2) as [[|c name]|]; try (apply respects_ret, tells_run).
  apply (tells_lookup (λ d, find_sample d (String c name))); [intros; apply find_in_states|]. intros found. repeat respects_step.
Qed.

Lemma tells_put_rate p : respects tells (put_rate_pdu p).
Proof using VL.
  unfold put_rate_pdu. do 2 (respects_step; [respects_step|]).
  destruct (pdu_string p 2) as [[|c name]|]; try (apply respects_ret, tells_run).
  apply (tells_lookup (λ d, find_rate d (String c name))); [intros; apply find_in_states|]. intros found. repeat respects_step.
Qed.

Lemma buffer_event_states d ev max keep d' : buffer_event d ev max keep = Ok d' → states d' = states d.
Proof using.
  unfold buffer_event. destruct (0 <? max); [|by intros [= <-]].
  intros ([l n] & _ & [= <-])%bind_Ok. done.
Qed.

Lemma tells_put_event p : respects tells (put_event_pdu p).
Proof using VL.
  unfold put_event_pdu. do 4 (respects_step; [respects_step|]). intros k ? k' o. mstep.
  destruct (buffer_event _ _ _ _) as [d|] eqn:Eb; [|done]. mstep. intros [= _ <- <-] b Hb.
  split; [done|]. unfold board_agrees. cbn. by rewrite (buffer_event_states _ _ _ _ _ Eb).
Qed.

#[local] Hint Resolve tells_put_counter tells_put_sample tells_put_rate tells_put_event : respects.

Lemma tells_reactor e s p : respects tells (_kernel_reactor e s p).
Proof using VL.
  unfold _kernel_reactor, on_tock, tick_aggregates, tick_counter, tick_sample, tick_rate, beacon_sweep,
    do_binf_write, do_save_keys, on_management, mgmt_state, mgmt_dump, mgmt_get_keys, mgmt_del_keys,
    mgmt_search_keys, mgmt_get_events, mgmt_savestate, do_binf_write, do_binf_sync, do_save_keys,
    on_listener, set_keys_pdu.
  repeat respects_step.
Qed.

Lemma wf_board_agrees k : wf_kernel k → board_agrees ∅ k.
Proof using.
  intros Hk n s Hs. destruct (wf_states _ Hk n s Hs) as [Hn _]. split; [done|]. left. apply lookup_empty.
Qed.

Lemma run_tells k0 o k : kernel_run k0 o k → tells k0 o k.
Proof using VL.
  induction 1 as [k|k1 o1 k2 o2 k3 _ IH Hs]; [apply run_rel_refl|]. destruct Hs as [e s p k4 r k4' o4 E].
  apply (run_rel_trans (R := tells) _ _ _ _ _ IH). exact (tells_reactor e s p _ _ _ _ E).
Qed.

(** C15: bolo2pg keeps up with the aggregator although it skips states: whatever
    a kernel publishes, the last status that the dispatcher forwards of every
    state is the last status that was published of it, no state is missing
    and none is added; and each forwarded report, whichever inserter it
    reaches, becomes a row with that name and status. *)
Theorem pg_mirrors_kernel k0 o k spent :
  wf_kernel k0 → kernel_run k0 o k →
  ∃ d out,
    handle_all thalts (pg_dispatcher_reactor spent) ((TSubscriber,.) <$> broadcasts o) (mk_pg_dispatcher ∅)
      = Ok (false, d, out) ∧
    board ∅ (reports (to_inserters out)) = board ∅ (reports (broadcasts o)) ∧
    ∀ q tr name code ok sp, q ∈ to_inserters out → news q = Some (tr, name, code) →
      ∃ summary ts rest, _inserter_reactor ok sp TQueue q () =
        Ok (TContinue, (), ExecPrepared "INSERT_STAGING" [name; code; summary; ts] :: rest).
Proof using VL.
  intros Hwf Hrun%run_tells. destruct (Hrun ∅ (wf_board_agrees _ Hwf)) as [Ha _].
  destruct (dispatcher_mirrors spent (broadcasts o) ∅ (mk_pg_dispatcher ∅)) as (d & out & E & Hb & Hf);
    [by rewrite dom_empty_L|done|].
  exists d, out. split_and!; [done|done|]. intros q tr name code ok sp Hq Hn.
  assert (tr = false) as ->.
  { rewrite Forall_forall in Hf. apply (Hf (tr, name, code)). apply list_elem_of_omap. by exists q. }
  destruct (inserter_row ok sp q name code Hn) as (summary & ts & rest & Er & _). by eexists _, _, _.
Qed.
End announces.

(** ** Metrics *)

Section metrics.
Context `{VL : VigorLaws}.

Definition to_monitor (o : list pgaction) : list pdu_t :=
  omap (λ x, match x with PgMonitor p => Some p | _ => None end) o.

(** What the inserters report, whatever they are given. *)
Lemma inserter_reports ok spent s p r u o :
  _inserter_reactor ok spent s p () = Ok (r, u, o) →
  Forall (λ q, q = perf "state:insert.time.s" spent ∨ q = perf "event:insert.time.s" spent ∨
               q ∈ count <$> ["state:insert.ops"; "event:insert.ops"; "state:insert.errors"; "event:insert.errors"])
    (to_monitor o).
Proof using.
  unfold _inserter_reactor. destruct s; try (by intros [= _ _ <-]).
  destruct (_ && (pdu_size p =? 6)); [|destruct (_ && (pdu_size p =? 4))].
  3: by intros [= _ _ <-].
  - unfold insert_state, param.
    destruct (pdu_string p 1), (pdu_string p 4), (pdu_string p 5), (pdu_string p 2); try done.
    cbn [deref]. unfold report. mstep.
    destruct ok; mstep; intros [= _ _ <-]; cbn; repeat constructor; set_solver.
  - unfold insert_event, param.
    destruct (pdu_string p 2), (pdu_string p 3), (pdu_string p 1); try done.
    cbn [deref]. unfold report. mstep.
    destruct ok; mstep; intros [= _ _ <-]; cbn; repeat constructor; set_solver.
Qed.

Lemma incr_count name q : q ≠ name → count_incr name (count q) = 0.
Proof using VL.
  intros Hne. unfold count_incr, count.
  rewrite (pdu_type_of _ _ _ (frames_make _ _)), size_frames, !string_frames, frames_make by lia.
  change ((?t :: ?x) !! Z.to_nat 1) with (x !! 0%nat). cbn [lookup list_lookup].
  rewrite (bool_decide_false (Some q = Some name)) by congruence. by rewrite andb_false_r.
Qed.

Definition from_inserter (q : pdu_t) : Prop :=
  ∃ ok spent s p r u o, _inserter_reactor ok spent s p () = Ok (r, u, o) ∧ q ∈ to_monitor o.

Lemma inserter_incr name q :
  name = "insert.ops" ∨ name = "insert.errors" → from_inserter q → count_incr name q = 0.
Proof using VL.
  intros Hname (ok & spent & s & p & r & u & o & E & Hq).
  pose proof (inserter_reports _ _ _ _ _ _ _ E) as Ho. rewrite Forall_forall in Ho.
  assert (∀ what, count_incr name (perf what spent) = 0) as Hperf.
  { intros what. apply (count_incr_other name _ "SAMPLE"); [|done].
    unfold perf. eapply pdu_type_of. rewrite frames_extend, frames_make. reflexivity. }
  destruct (Ho q Hq) as [->|[->|Hin]]; [done..|].
  apply list_elem_of_fmap in Hin as (what & -> & Hin). apply incr_count.
  destruct Hname as [-> | ->]; intros ->; apply (bool_decide_pack _) in Hin; by vm_compute in Hin.
Qed.

Lemma inserters_incr name l :
  name = "insert.ops" ∨ name = "insert.errors" → Forall (λ rp : Z * pdu_t, from_inserter rp.2) l →
  total_incr name l = 0.
Proof using VL.
  intros Hname. induction 1 as [|[r q] l Hq _ IH]; [done|].
  change (count_incr name q + total_incr name l = 0). by rewrite (inserter_incr name q), IH.
Qed.

(** The inserters count their work under other names than the ones that
    are announced to the monitor: whatever they insert, and whether it
    succeeds or fails, the metrics [insert.ops] and [insert.errors] are
    submitted as 0 at every tick. *)
Theorem pg_inserts_not_counted now r p l n mon m name :
  name = "insert.ops" ∨ name = "insert.errors" → ("COUNT", name) ∈ pg_metrics →
  monitor_ok n mon → 0 ≤ n → n + Z.of_nat (length l) < 2 ^ 31 →
  Forall (λ rp, 0 ≤ rp.1 ≤ RAND_MAX) l → Forall (λ rp, from_inserter rp.2) l →
  mon_metrics mon !! name = Some m → metric_type m = METRIC_TYPE_COUNT → metric_count m = 0 →
  ∃ mon1 o1 mon2 o2 q,
    on_inputs l mon = Ok ((), mon1, o1) ∧
    _monitor_reactor now r MTock p mon1 = Ok (MContinue, mon2, o2) ∧ q ∈ o2 ∧
    pdu_frames q = ["COUNTER"; fmt_i now; mon_prefix mon +:+ ":" +:+ name; "0"].
Proof using VL.
  intros Hname _ Hmon Hn Hlen Hr Hl Hm Ht H0.
  destruct (counts_submitted now r p name l n mon m) as (mon1 & o1 & mon2 & o2 & q & E1 & E2 & Hq & Hf & _); try done.
  exists mon1, o1, mon2, o2, q. split_and!; [done..|]. by rewrite Hf, H0, inserters_incr.
Qed.
End metrics.

(** ** Credentials *)

(** The credentials are read as they are written, on the first line of the
    file, for any user without a colon and any password, up to the size of
    the buffer; what follows in the file does not matter. *)
Theorem creds_read user pass rest :
  lacks ":" user → lacks LF user → lacks NUL user → lacks LF pass → lacks NUL pass →
  (String.length user + String.length pass ≤ 253)%nat →
  s_read_creds (Some (((user +:+ ":" +:+ pass) +:+ nl) +:+ rest)) = (0, Some (user, pass)).
Proof.
  intros Hc Hul Hun Hpl Hpn Hlen. unfold s_read_creds. cbn [mbind option_bind].
  rewrite fgets_line.
  2: { by rewrite !lacks_app. }
  2: { rewrite !str_length_app. cbn. unfold CREDS. lia. }
  rewrite cstr_all by (by rewrite !lacks_app). unfold nl. rewrite cut_last_end.
  rewrite (has_char_app LF), (has_char_app ":" (_ +:+ _)). change (":" +:+ pass) with (str1 ":" +:+ pass).
  rewrite has_char_mid. cbn [orb]. change (has_char LF (str1 LF)) with true. rewrite orb_true_r. cbn [andb].
  by destruct (split_first ":" user pass Hc) as [-> ->].
Qed.

(** ** Examples *)

Lemma pg_mirrors_kernel_witness :
  ∃ o d out,
    handle_all (H := ref_vigor) thalts (pg_dispatcher_reactor 3) ((TSubscriber,.) <$> broadcasts o)
      (mk_pg_dispatcher ∅) = Ok (false, d, out) ∧
    board ∅ (reports (to_inserters out)) = board ∅ (reports (broadcasts o)).
Proof.
  destruct example_run as (o & k & Hrun & _). exists o.
  destruct (pg_mirrors_kernel (VL := ref_vigor_laws) (H := ref_pcre) CoreExample.k o k 3 example_wf Hrun)
    as (d & out & E & Hb & _). by exists d, out.
Defined.

Lemma creds_read_witness : s_read_creds (Some ((("bolo" +:+ ":" +:+ "s3:cret") +:+ nl) +:+ "x")) = (0, Some ("bolo", "s3:cret")).
Proof. apply (creds_read "bolo" "s3:cret" "x"); first [reflexivity|cbn; lia]. Defined.

Module PgExample.
Definition state : @pdu_t ref_vigor := ("STATE", ["host.disk"; "1995"; "fresh"; "CRITICAL"; "full"]).
Definition mon : monitor_t := mk_monitor "sys" {["insert.ops" := new_metric METRIC_TYPE_COUNT]}.
End PgExample.

Lemma pg_inserts_not_counted_witness :
  ∃ mon1 o1 mon2 o2 q,
    on_inputs (V := ref_vigor) [(0, count "state:insert.ops")] PgExample.mon = Ok ((), mon1, o1) ∧
    _monitor_reactor (H := ref_vigor) 1000 0 MTock PgExample.state mon1 = Ok (MContinue, mon2, o2) ∧ q ∈ o2 ∧
    pdu_frames q = ["COUNTER"; fmt_i 1000; "sys" +:+ ":" +:+ "insert.ops"; "0"].
Proof.
  apply (pg_inserts_not_counted (VL := ref_vigor_laws) 1000 0 PgExample.state [(0, count (H := ref_vigor) "state:insert.ops")] 0
           PgExample.mon (new_metric METRIC_TYPE_COUNT) "insert.ops"); try reflexivity.
  - by left.
  - by left.
  - unfold monitor_ok. cbn. apply map_Forall_insert_2; [|apply map_Forall_empty].
    apply metric_ok_reset; [lia|by left].
  - repeat constructor; unfold RAND_MAX; cbn; lia.
  - repeat constructor. cbn. exists true, 3, TQueue, PgExample.state. do 3 eexists. split; [reflexivity|].
    cbn. right. left.
Defined.
