(* ===== verification/Slack.v ===== *)
(** * The Slack subscriber: src/bolo2slack/main.c

    Every transition of a state whose name matches a pattern is posted to a
    webhook, as a JSON object that is written into a buffer of a size
    computed beforehand.  libcurl reads the object through a callback. *)

From S2P Require Import Prelude CLib Vigor Bytes Data Binf Core Config Pdu Subscriber Startup Threads.
From Stdlib Require Import Ascii.

Definition in_quotes (s : string) : string := str1 QUOTE +:+ s +:+ str1 QUOTE.

(** ** Quoting *)

(** [esc] says whether the character before was a backslash. *)
Fixpoint quotedlen (esc : bool) (s : string) : Z :=
  match s with
  | EmptyString => 0
  | String c s' =>
      (if negb esc && Ascii.eqb c QUOTE then 1 else 0)
      + (if Ascii.eqb c LF || Ascii.eqb c TAB || Ascii.eqb c CR then 1 else 0)
      + 1 + quotedlen (Ascii.eqb c BACKSLASH) s'
  end.
Definition s_quotedlen (s : string) : Z := quotedlen false s.

(** The second character of an escape sequence. *)
Definition escape_char (c : ascii) : option ascii :=
  if Ascii.eqb c LF then Some "n"%char
  else if Ascii.eqb c CR then Some "r"%char
  else if Ascii.eqb c TAB then Some "t"%char
  else if Ascii.eqb c QUOTE then Some QUOTE
  else None.

(** The memory and the offset after the copy. *)
Fixpoint s_quotedcopy (dst src : string) (n len : Z) : res (string * Z) :=
  match src with
  | EmptyString => Ok (dst, n)
  | String c src' =>
      if n <? len then
        match escape_char c with
        | Some e =>
            dst ← mem_write n (str1 BACKSLASH) dst;
            let n := n + 1 in
            if n =? len then Ok (dst, n)
            else
              dst ← mem_write n (str1 e) dst;
              let n := n + 1 in
              if n =? len then Ok (dst, n) else s_quotedcopy dst src' n len
        | None => dst ← mem_write n (str1 c) dst; s_quotedcopy dst src' (n + 1) len
        end
      else Ok (dst, n)
  end.

(** ** Requests *)

Record request_t := mk_request {
  req_json : string;              (* the whole block *)
  req_len : Z;
  req_sent : Z;
}.

(** The pieces of the object between the values. *)
Definition json_avatar : string := in_quotes "icon_emoji" +:+ ":" +:+ str1 QUOTE.
Definition json_username : string := str1 QUOTE +:+ "," +:+ in_quotes "username" +:+ ":" +:+ str1 QUOTE.
Definition json_channel : string := str1 QUOTE +:+ "," +:+ in_quotes "channel" +:+ ":" +:+ str1 QUOTE.
Definition json_text : string := str1 QUOTE +:+ "," +:+ in_quotes "text" +:+ ":" +:+ str1 QUOTE.

Definition request_len (avatar username channel text : string) : Z :=
  1 + 14 + s_quotedlen avatar + 2 + 12 + s_quotedlen username + 2 + 11 + s_quotedlen channel + 2
  + 8 + s_quotedlen text + 1 + 1.

(** A piece, then a value. *)
Definition field (piece value : string) (len : Z) (m : string * Z) : res (string * Z) :=
  let '(json, n) := m in
  json ← mem_write n piece json;
  s_quotedcopy json value (n + strlen piece) len.

Definition s_new_request (avatar username channel text : string) : res request_t :=
  let len := request_len avatar username channel text in
  let json := zeros (Z.to_nat (len + 1)) in
  json ← mem_write 0 "{" json;
  m ← field json_avatar avatar len (json, 1);
  m ← field json_username username len m;
  m ← field json_channel channel len m;
  '(json, n) ← field json_text text len m;
  json ← mem_write n (str1 QUOTE) json;
  json ← mem_write (n + 1) "}" json;
  mret (mk_request json len 0).

(** The callback: at most [size] bytes are wanted.  It prints the block, and
    what is left of it, as C strings. *)
Definition s_slack_reader (size : Z) (r : request_t) : res (string * request_t) :=
  if req_len r =? req_sent r then mret (EmptyString, r)
  else
    let sent := if req_len r - req_sent r <? size then req_len r - req_sent r else size in
    _ ← mem_string 0 (req_json r);
    _ ← mem_string (req_sent r) (req_json r);
    if strlen (req_json r) <? req_sent r + sent then Fault OutOfBounds
    else mret (take_str (Z.to_nat sent) (drop_str (Z.to_nat (req_sent r)) (req_json r)),
               mk_request (req_json r) (req_len r) (req_sent r + sent)).

(** The data a transfer has got from a sequence of calls. *)
Fixpoint upload (sizes : list Z) (r : request_t) : res (string * request_t) :=
  match sizes with
  | [] => mret (EmptyString, r)
  | size :: sizes' =>
      '(chunk, r) ← s_slack_reader size r;
      '(rest, r) ← upload sizes' r;
      mret (chunk +:+ rest, r)
  end.

(** ** Notifications *)

Section slack.
Context `{Vigor} `{Pcre}.

Record slack_options := mk_slack_options {
  sl_re : pcre;
  sl_extra : pcre_extra;
  sl_webhook : string;
  sl_avatar : string;
  sl_username : string;
  sl_channel : string;
}.

Definition slack_message (name code summary : string) : string :=
  name +:+ " is now *" +:+ code +:+ "*" +:+ nl +:+ "> " +:+ summary +:+ nl.

(** The request that is posted to the webhook, if any. *)
Definition s_notify (o : slack_options) (p : pdu_t) : res (option (string * request_t)) :=
  name ← deref (pdu_string p 1);
  code ← deref (pdu_string p 4);
  summary ← deref (pdu_string p 5);
  if pcre_exec (sl_re o) (sl_extra o) name =? 0 then
    r ← s_new_request (sl_avatar o) (sl_username o) (sl_channel o) (slack_message name code summary);
    mret (Some (sl_webhook o, r))
  else mret None.

(** The body of the loop that receives messages. *)
Definition slack_receive (o : slack_options) (p : pdu_t) : res (option (string * request_t)) :=
  if streq (pdu_type p) "TRANSITION" && (pdu_size p =? 6) then s_notify o p else mret None.
End slack.
