(* ===== verification/SlackFacts.v ===== *)
(** * Theorems on the Slack subscriber

    The size of the buffer is computed exactly, and the object is what
    libcurl uploads, unless a value has a quote behind a backslash: each of
    those takes a byte that was not counted. *)

From S2P Require Import Prelude CLib Vigor Bytes Data Binf Core Config Pdu Subscriber Startup Threads Slack.
From Stdlib Require Import Ascii.

(** Decides the comparisons of given characters. *)
Ltac eval_chars :=
  repeat match goal with |- context [Ascii.eqb ?a ?b] =>
    match eval vm_compute in (Ascii.eqb a b) with
    | true => change (Ascii.eqb a b) with true
    | false => change (Ascii.eqb a b) with false
    end
  end.

(** ** Escaping *)

(** The value as it is written. *)
Fixpoint escape (s : string) : string :=
  match s with
  | EmptyString => EmptyString
  | String c s' =>
      match escape_char c with
      | Some e => String BACKSLASH (String e (escape s'))
      | None => String c (escape s')
      end
  end.

(** The quotes that stand behind a backslash. *)
Fixpoint backslash_quotes (esc : bool) (s : string) : Z :=
  match s with
  | EmptyString => 0
  | String c s' =>
      (if esc && Ascii.eqb c QUOTE then 1 else 0) + backslash_quotes (Ascii.eqb c BACKSLASH) s'
  end.

Definition plain (s : string) : Prop := backslash_quotes false s = 0.

Lemma escape_length esc s : strlen (escape s) = quotedlen esc s + backslash_quotes esc s.
Proof.
  revert esc. induction s as [|c s IH]; intros esc; [done|].
  specialize (IH (Ascii.eqb c BACKSLASH)). cbn [escape quotedlen backslash_quotes]. unfold escape_char.
  assert (∀ t c, strlen (String c t) = 1 + strlen t) as Hcons by (intros; unfold strlen; cbn [String.length]; lia).
  destruct (Ascii.eqb_spec c LF) as [->|]; [|destruct (Ascii.eqb_spec c CR) as [->|];
    [|destruct (Ascii.eqb_spec c TAB) as [->|]; [|destruct (Ascii.eqb_spec c QUOTE) as [->|]]]];
    rewrite !Hcons, IH; eval_chars; destruct esc; cbn [orb andb negb]; lia.
Qed.

Lemma quotedlen_nonneg esc s : 0 ≤ quotedlen esc s.
Proof.
  revert esc. induction s as [|c s IH]; intros esc; cbn [quotedlen]; [lia|].
  specialize (IH (Ascii.eqb c BACKSLASH)). destruct (negb esc && _), (_ || Ascii.eqb c CR); lia.
Qed.

(** ** The copy *)

(** With room, everything is copied. *)
Lemma quotedcopy_fits pre rest src len :
  (String.length (escape src) ≤ String.length rest)%nat → strlen pre + strlen (escape src) ≤ len →
  s_quotedcopy (pre +:+ rest) src (strlen pre) len =
  Ok (pre +:+ escape src +:+ drop_str (String.length (escape src)) rest, strlen pre + strlen (escape src)).
Proof.
  revert pre rest. induction src as [|c src IH]; intros pre rest Hr Hl.
  - cbn. by rewrite Z.add_0_r.
  - assert (∀ e, strlen (pre +:+ str1 e) = strlen pre + 1) as Hp.
    { intros e. unfold strlen. rewrite str_length_app. cbn. lia. }
    cbn [s_quotedcopy escape] in *. destruct (escape_char c) as [e|]; unfold strlen in Hl; cbn [String.length] in Hl, Hr;
      (destruct (Z.ltb_spec (strlen pre) len); [|unfold strlen in *; lia]).
    + rewrite mem_write_app by (cbn; lia). cbn [mbind res_bind]. rewrite <- str_app_assoc, <- (Hp BACKSLASH).
      destruct (Z.eqb_spec (strlen (pre +:+ str1 BACKSLASH)) len) as [E|E]; [rewrite Hp in E; unfold strlen in *; lia|].
      rewrite mem_write_app by (rewrite drop_str_length; cbn; lia). cbn [mbind res_bind].
      destruct rest as [|r1 [|r2 rest]]; try (cbn in Hr; lia). cbn [String.length drop_str str1 String.append].
      rewrite <- str_app_assoc. set (pre' := (pre +:+ str1 BACKSLASH) +:+ str1 e).
      assert (strlen (pre +:+ str1 BACKSLASH) + 1 = strlen pre') as ->.
      { unfold pre', strlen. rewrite !str_length_app. cbn. lia. }
      destruct (Z.eqb_spec (strlen pre') len) as [E'|E'].
      * assert (strlen (escape src) = 0) as Hz.
        { unfold pre', strlen in *. rewrite !str_length_app in E'. cbn in E'. lia. }
        destruct (escape src) as [|? ?]; [|unfold strlen in Hz; cbn in Hz; lia].
        cbn [String.length drop_str]. unfold pre'. rewrite !str_app_assoc. do 2 f_equal.
        unfold strlen. rewrite !str_length_app. cbn. lia.
      * rewrite IH; [|cbn in Hr; lia|unfold pre', strlen in *; rewrite !str_length_app; cbn; lia].
        unfold pre'. rewrite !str_app_assoc. do 2 f_equal. unfold strlen. rewrite !str_length_app. cbn [String.length str1]. lia.
    + rewrite mem_write_app by (cbn; lia). cbn [mbind res_bind]. rewrite <- str_app_assoc, <- (Hp c).
      destruct rest as [|r1 rest]; [cbn in Hr; lia|]. cbn [String.length drop_str str1].
      change (String c "") with (str1 c).
      rewrite IH; [|cbn in Hr; lia|rewrite Hp; unfold strlen in *; lia].
      rewrite !str_app_assoc. do 2 f_equal. rewrite Hp. unfold strlen. cbn [String.length]. lia.
Qed.

(** Without, it stops at the bound, within the block. *)
Lemma quotedcopy_full dst src n len :
  0 ≤ n ≤ len → len ≤ strlen dst → len ≤ n + strlen (escape src) →
  ∃ dst', s_quotedcopy dst src n len = Ok (dst', len) ∧ String.length dst' = String.length dst.
Proof.
  revert dst n. induction src as [|c src IH]; intros dst n Hn Hd Hl.
  - change (strlen (escape EmptyString)) with 0 in Hl. assert (n = len) as -> by lia. by eexists.
  - cbn [s_quotedcopy]. destruct (Z.ltb_spec n len); [|assert (n = len) as -> by lia; by eexists].
    assert (∀ i e dst, 0 ≤ i < strlen dst → ∃ d, mem_write i (str1 e) dst = Ok d ∧ String.length d = String.length dst) as Hw.
    { intros i e d Hi. destruct (mem_write i (str1 e) d) as [d'|] eqn:E; [|].
      - exists d'. split; [done|]. by eapply mem_write_length.
      - exfalso. unfold mem_write in E. destruct (Z.leb_spec 0 i); [|lia].
        destruct (Z.leb_spec (i + strlen (str1 e)) (strlen d)); [done|]. change (strlen (str1 e)) with 1 in *. lia. }
    cbn [escape] in Hl. destruct (escape_char c) as [e|]; unfold strlen in Hl at 1; cbn [String.length] in Hl.
    + destruct (Hw n BACKSLASH dst) as (d1 & -> & L1); [lia|]. cbn [mbind res_bind].
      destruct (Z.eqb_spec (n + 1) len) as [<-|?]; [by eexists|].
      destruct (Hw (n + 1) e d1) as (d2 & -> & L2); [unfold strlen in *; lia|]. cbn [mbind res_bind].
      destruct (Z.eqb_spec (n + 1 + 1) len) as [<-|?]; [eexists; split; [done|lia]|].
      destruct (IH d2 (n + 1 + 1)) as (d3 & -> & L3); [lia|unfold strlen in *; lia|unfold strlen in *; lia|].
      eexists. split; [done|lia].
    + destruct (Hw n c dst) as (d1 & -> & L1); [lia|]. cbn [mbind res_bind].
      destruct (IH d1 (n + 1)) as (d3 & -> & L3); [lia|unfold strlen in *; lia|unfold strlen in *; lia|].
      eexists. split; [done|lia].
Qed.

(** ** The object *)

Definition object (avatar username channel text : string) : string :=
  "{" +:+ json_avatar +:+ escape avatar +:+ json_username +:+ escape username +:+
  json_channel +:+ escape channel +:+ json_text +:+ escape text +:+ str1 QUOTE +:+ "}".

Lemma plain_length s : plain s → strlen (escape s) = s_quotedlen s.
Proof. intros Hs. rewrite (escape_length false), Hs. unfold s_quotedlen. lia. Qed.

(** The sizes of the pieces, as the code counts them. *)
Lemma piece_lengths :
  strlen "{" = 1 ∧ strlen json_avatar = 14 ∧ strlen json_username = 14 ∧ strlen json_channel = 13 ∧
  strlen json_text = 10 ∧ strlen (str1 QUOTE) = 1 ∧ strlen "}" = 1.
Proof. done. Qed.

Ltac lengths :=
  destruct piece_lengths as (? & ? & ? & ? & ? & ? & ?); rewrite ?str_length_app, ?strlen_app in *;
  unfold strlen in *; lia.

Lemma object_length a u c t :
  strlen (object a u c t) =
  1 + 14 + strlen (escape a) + 14 + strlen (escape u) + 13 + strlen (escape c) + 10 + strlen (escape t) + 2.
Proof. unfold object. lengths. Qed.

(** A field that fits. *)
Lemma field_fits pre k piece value len :
  strlen piece + strlen (escape value) ≤ Z.of_nat k → strlen pre + strlen piece + strlen (escape value) ≤ len →
  field piece value len (pre +:+ zeros k, strlen pre) =
  Ok ((pre +:+ piece +:+ escape value) +:+ zeros (k - String.length (piece +:+ escape value)),
      strlen (pre +:+ piece +:+ escape value)).
Proof.
  intros Hk Hl. unfold field. unfold strlen in Hk. rewrite mem_write_app by (rewrite zeros_length; lia).
  cbn [mbind res_bind]. rewrite drop_zeros, <- str_app_assoc, <- strlen_app.
  rewrite quotedcopy_fits by (rewrite ?zeros_length, ?strlen_app; lia).
  rewrite drop_zeros, <- strlen_app, !str_app_assoc, str_length_app.
  by rewrite Nat.sub_add_distr.
Qed.

Lemma write_tail pre k src :
  (String.length src ≤ k)%nat →
  mem_write (strlen pre) src (pre +:+ zeros k) = Ok ((pre +:+ src) +:+ zeros (k - String.length src)).
Proof. intros Hk. rewrite mem_write_app by (by rewrite zeros_length). by rewrite drop_zeros, str_app_assoc. Qed.

(** What has been written before the text. *)
Definition head_of (a u c : string) : string :=
  "{" +:+ json_avatar +:+ escape a +:+ json_username +:+ escape u +:+ json_channel +:+ escape c.

Lemma head_of_length a u c :
  strlen (head_of a u c) = 1 + 14 + strlen (escape a) + 14 + strlen (escape u) + 13 + strlen (escape c).
Proof. unfold head_of. lengths. Qed.

Lemma request_head a u c t k len :
  len + 1 = Z.of_nat k → strlen (head_of a u c) ≤ len →
  (json ← mem_write 0 "{" (zeros k);
   m ← field json_avatar a len (json, 1);
   m ← field json_username u len m;
   m ← field json_channel c len m;
   field json_text t len m) =
  field json_text t len
    (head_of a u c +:+ zeros (k - String.length (head_of a u c)), strlen (head_of a u c)).
Proof.
  intros Hk Hl. rewrite head_of_length in Hl.
  change (zeros k) with ("" +:+ zeros k). change 0 with (strlen "") at 1.
  rewrite write_tail by lengths. cbn [mbind res_bind]. change (("" : string) +:+ "{") with "{".
  change 1 with (strlen "{") at 1. change (String.length "{") with 1%nat.
  rewrite field_fits by lengths. cbn [mbind res_bind].
  rewrite field_fits by lengths. cbn [mbind res_bind].
  rewrite field_fits by lengths. cbn [mbind res_bind].
  assert ((k - 1 - String.length (json_avatar +:+ escape a) - String.length (json_username +:+ escape u) -
           String.length (json_channel +:+ escape c))%nat = (k - String.length (head_of a u c))%nat) as ->
    by (unfold head_of; lengths).
  unfold head_of. by rewrite !str_app_assoc.
Qed.

(** ** The request *)

Lemma request_len_nonneg a u c t : 0 ≤ request_len a u c t.
Proof.
  unfold request_len, s_quotedlen.
  pose proof (quotedlen_nonneg false a). pose proof (quotedlen_nonneg false u).
  pose proof (quotedlen_nonneg false c). pose proof (quotedlen_nonneg false t). lia.
Qed.

(** The steps of [s_new_request], with its first four fields as one. *)
Lemma new_request_steps a u c t :
  plain a → plain u → plain c →
  let len := request_len a u c t in
  s_new_request a u c t =
  ('(json, n) ← field json_text t len
     (head_of a u c +:+ zeros (Z.to_nat (len + 1) - String.length (head_of a u c)), strlen (head_of a u c));
   json ← mem_write n (str1 QUOTE) json;
   json ← mem_write (n + 1) "}" json;
   mret (mk_request json len 0)).
Proof.
  intros Ha Hu Hc len. rewrite <- (request_head a u c t).
  - unfold s_new_request. fold len. destruct (mem_write 0 "{" _); [|done]. cbn [mbind res_bind].
    destruct (field json_avatar a len _); [|done]. cbn [mbind res_bind].
    destruct (field json_username u len _); [|done]. cbn [mbind res_bind].
    by destruct (field json_channel c len _).
  - pose proof (request_len_nonneg a u c t). unfold len. lia.
  - rewrite head_of_length, !plain_length by done. pose proof (quotedlen_nonneg false t).
    unfold len, request_len, s_quotedlen in *. lia.
Qed.

Lemma new_request_plain a u c t :
  plain a → plain u → plain c → plain t →
  s_new_request a u c t = Ok (mk_request (object a u c t +:+ str1 NUL) (strlen (object a u c t)) 0).
Proof.
  intros Ha Hu Hc Ht.
  assert (request_len a u c t = strlen (object a u c t)) as Hlen.
  { rewrite object_length, !plain_length by done. unfold request_len. lia. }
  rewrite new_request_steps by done. cbv zeta. rewrite Hlen.
  pose proof (object_length a u c t) as HL. pose proof (head_of_length a u c) as Hh.
  set (len := strlen (object a u c t)) in *.
  assert (∀ s, Z.of_nat (String.length s) = strlen s) as Hs by done.
  rewrite field_fits by lengths. cbn [mbind res_bind].
  rewrite write_tail by (subst len; lengths). cbn [mbind res_bind].
  set (pre := (head_of a u c +:+ json_text +:+ escape t) +:+ str1 QUOTE).
  assert (strlen (head_of a u c +:+ json_text +:+ escape t) + 1 = strlen pre) as -> by (unfold pre; lengths).
  rewrite write_tail by (subst len pre; lengths). cbn [mbind res_bind]. unfold mret, res_ret. do 3 f_equal.
  - unfold pre, object, head_of. rewrite !str_app_assoc. reflexivity.
  - transitivity (zeros 1); [|done]. f_equal. subst len pre. lengths.
Qed.

(** ** The upload *)

Definition total (sizes : list Z) : Z := foldr Z.add 0 sizes.

Lemma total_nonneg sizes : Forall (λ n, 0 < n) sizes → 0 ≤ total sizes.
Proof. unfold total. induction 1; cbn; lia. Qed.

Lemma upload_run obj sizes s :
  Forall (λ n, 0 < n) sizes → 0 ≤ s ≤ strlen obj →
  ∃ r, upload sizes (mk_request (obj +:+ str1 NUL) (strlen obj) s) =
       Ok (take_str (Z.to_nat (total sizes)) (drop_str (Z.to_nat s) obj), r).
Proof.
  intros Hp. revert s. induction Hp as [|n sizes Hn Hp IH]; intros s Hs; [by eexists|].
  pose proof (total_nonneg sizes Hp) as Ht. cbn [upload total foldr]. fold (total sizes).
  unfold s_slack_reader. cbn [req_len req_sent req_json].
  destruct (Z.eqb_spec (strlen obj) s) as [<-|Hne].
  - destruct (IH (strlen obj)) as [r E]; [lia|]. cbn [mbind res_bind mret res_ret]. rewrite E. cbn [mbind res_bind].
    assert (drop_str (Z.to_nat (strlen obj)) obj = EmptyString) as ->.
    { unfold strlen. rewrite Nat2Z.id. rewrite <- (str_app_nil_r obj) at 2. apply drop_str_app. }
    exists r. by destruct (Z.to_nat (total sizes)), (Z.to_nat (n + total sizes)).
  - set (m := if strlen obj - s <? n then strlen obj - s else n).
    assert (0 < m ≤ strlen obj - s ∧ m ≤ n ∧ (m < n → m = strlen obj - s)) as Hm.
    { unfold m. destruct (Z.ltb_spec (strlen obj - s) n); lia. }
    clearbody m. unfold mem_string. rewrite !drop_str_app_le by (unfold strlen in *; lia).
    rewrite !has_char_app. change (has_char NUL (str1 NUL)) with true. rewrite !orb_true_r.
    cbn [mbind res_bind]. rewrite strlen_app. change (strlen (str1 NUL)) with 1.
    destruct (Z.ltb_spec (strlen obj + 1) (s + m)); [lia|]. cbn [mbind res_bind mret res_ret].
    destruct (IH (s + m)) as [r E]; [lia|]. rewrite E. cbn [mbind res_bind]. exists r. unfold mret, res_ret. do 2 f_equal.
    rewrite take_str_app_le by (rewrite drop_str_length; unfold strlen in *; lia).
    rewrite Z2Nat.inj_add, <- drop_str_drop by lia. rewrite take_str_take.
    destruct (Z.lt_ge_cases m n) as [Hlt|Hge].
    + rewrite !take_str_ge; [done|rewrite drop_str_length; unfold strlen in *; lia..].
    + f_equal. lia.
Qed.

(** ** Reading the object back

    A reader of JSON objects (RFC 8259) whose members are strings, without
    blanks between the tokens: in a string a backslash introduces an escape
    sequence, and quotes and control characters must be escaped.  The
    sequences of hexadecimal digits are never written, and not read here. *)

Definition json_escape (e : ascii) : option ascii :=
  if Ascii.eqb e "n" then Some LF
  else if Ascii.eqb e "r" then Some CR
  else if Ascii.eqb e "t" then Some TAB
  else if Ascii.eqb e QUOTE || Ascii.eqb e BACKSLASH || Ascii.eqb e "/" then Some e
  else None.

(** A string behind its opening quote, and what follows its closing one. *)
Fixpoint json_string (s : string) : option (string * string) :=
  match s with
  | EmptyString => None
  | String c s' =>
      if Ascii.eqb c QUOTE then Some (EmptyString, s')
      else if Ascii.eqb c BACKSLASH then
        match s' with
        | EmptyString => None
        | String e s'' =>
            match json_escape e, json_string s'' with Some d, Some (v, r) => Some (String d v, r) | _, _ => None end
        end
      else if code c <? 32 then None
      else match json_string s' with Some (v, r) => Some (String c v, r) | None => None end
  end.

(** [s] without the prefix [t]. *)
Fixpoint expect (t s : string) : option string :=
  match t, s with
  | EmptyString, _ => Some s
  | String c t', String d s' => if Ascii.eqb c d then expect t' s' else None
  | _, _ => None
  end.

Fixpoint json_members (fuel : nat) (s : string) : option (list (string * string)) :=
  match fuel with
  | O => None
  | S fuel' =>
      s ← expect (str1 QUOTE) s; '(k, s) ← json_string s;
      s ← expect (":" +:+ str1 QUOTE) s; '(v, s) ← json_string s;
      if streq s "}" then Some [(k, v)]
      else s ← expect "," s; rest ← json_members fuel' s; Some ((k, v) :: rest)
  end.

Definition json_object (s : string) : option (list (string * string)) :=
  s ← expect "{" s; json_members (String.length s) s.

(** The characters a value may have: no backslash, and of the control
    characters only line feeds, carriage returns and tabs. *)
Definition json_safe (c : ascii) : bool :=
  negb (Ascii.eqb c BACKSLASH) && ((32 <=? code c) || Ascii.eqb c LF || Ascii.eqb c CR || Ascii.eqb c TAB).

Lemma json_string_escape s r :
  str_all json_safe s = true → json_string (escape s +:+ str1 QUOTE +:+ r) = Some (s, r).
Proof.
  induction s as [|c s IH]; [done|]. cbn [str_all escape]. intros [Hc Hs]%andb_prop. specialize (IH Hs).
  unfold escape_char.
  destruct (Ascii.eqb_spec c LF) as [->|]; [rewrite !str_app_cons; cbn [json_string]; eval_chars; cbn iota; by rewrite IH|].
  destruct (Ascii.eqb_spec c CR) as [->|]; [rewrite !str_app_cons; cbn [json_string]; eval_chars; cbn iota; by rewrite IH|].
  destruct (Ascii.eqb_spec c TAB) as [->|]; [rewrite !str_app_cons; cbn [json_string]; eval_chars; cbn iota; by rewrite IH|].
  destruct (Ascii.eqb_spec c QUOTE) as [->|Hq]; [rewrite !str_app_cons; cbn [json_string]; eval_chars; cbn iota; by rewrite IH|].
  rewrite str_app_cons. cbn [json_string]. unfold json_safe in Hc. apply andb_prop in Hc as [Hb Hc].
  apply negb_true_iff in Hb. rewrite Hb. apply Ascii.eqb_neq in n, n0, n1, Hq.
  rewrite n, n0, n1, !orb_false_r in Hc. rewrite Hq. apply Z.leb_le in Hc.
  destruct (Z.ltb_spec (code c) 32); [lia|]. by rewrite IH.
Qed.

(** Without backslashes no quote stands behind one. *)
Lemma json_safe_plain s : str_all json_safe s = true → plain s.
Proof.
  unfold plain. induction s as [|c s IH]; [done|]. cbn [str_all backslash_quotes andb]. intros [Hc Hs]%andb_prop.
  unfold json_safe in Hc. apply andb_prop in Hc as [Hb _]. apply negb_true_iff in Hb. rewrite Hb. rewrite IH by done. lia.
Qed.

Lemma expect_app t s : expect t (t +:+ s) = Some s.
Proof. induction t as [|c t IH]; [done|]. rewrite str_app_cons. cbn [expect]. by rewrite Ascii.eqb_refl. Qed.

(** One member, the last one or not. *)
Lemma json_member fuel key v rest :
  escape key = key → str_all json_safe key = true → str_all json_safe v = true →
  json_members (S fuel) (in_quotes key +:+ ":" +:+ str1 QUOTE +:+ escape v +:+ str1 QUOTE +:+ rest) =
  if streq rest "}" then Some [(key, v)]
  else s ← expect "," rest; rest ← json_members fuel s; Some ((key, v) :: rest).
Proof.
  intros Ek Hk Hv. cbn [json_members]. unfold in_quotes. rewrite !str_app_assoc, expect_app. cbn [mbind option_bind].
  rewrite <- Ek at 1. rewrite json_string_escape by done. cbn [mbind option_bind].
  rewrite <- (str_app_assoc ":" (str1 QUOTE)), expect_app. cbn [mbind option_bind].
  by rewrite json_string_escape.
Qed.

(** The object is read back as its four members. *)
Lemma json_object_read a u c t :
  str_all json_safe a = true → str_all json_safe u = true → str_all json_safe c = true → str_all json_safe t = true →
  json_object (object a u c t) = Some [("icon_emoji", a); ("username", u); ("channel", c); ("text", t)].
Proof.
  intros Ha Hu Hc Ht. unfold json_object, object. rewrite expect_app. cbn [mbind option_bind].
  unfold json_avatar, json_username, json_channel, json_text.
  match goal with |- json_members (String.length ?s) _ = _ => assert (∃ k, String.length s = S (S (S (S k)))) as [k ->] end.
  { unfold in_quotes. rewrite !str_length_app. cbn [String.length str1]. eexists. rewrite !Nat.add_succ_l. cbn [Nat.add]. reflexivity. }
  rewrite !str_app_assoc. rewrite (json_member _ "icon_emoji" a) by done.
  rewrite (str_app_cons ","%char). change (streq (String "," _) "}") with false. cbn iota.
  change (String "," ("" +:+ ?s)) with ("," +:+ s). rewrite expect_app. cbn [mbind option_bind].
  rewrite (json_member _ "username" u) by done. change (streq ("," +:+ _) "}") with false. cbn iota.
  rewrite expect_app. cbn [mbind option_bind].
  rewrite (json_member _ "channel" c) by done. change (streq ("," +:+ _) "}") with false. cbn iota.
  rewrite expect_app. cbn [mbind option_bind].
  rewrite (json_member _ "text" t) by done. done.
Qed.

(** ** Claims *)

Section slack.
Context `{VL : VigorLaws} `{Pcre}.

(** The fields of a transition that has no quote behind a backslash. *)
Definition plain_options (o : slack_options) : Prop :=
  plain (sl_avatar o) ∧ plain (sl_username o) ∧ plain (sl_channel o).

Lemma receive_transition o p name ts stale code summary :
  pdu_frames p = ["TRANSITION"; name; ts; stale; code; summary] →
  pcre_exec (sl_re o) (sl_extra o) name = 0 →
  slack_receive o p =
  (r ← s_new_request (sl_avatar o) (sl_username o) (sl_channel o) (slack_message name code summary);
   mret (Some (sl_webhook o, r))).
Proof using VL.
  intros Hp Hre. unfold slack_receive, s_notify. rewrite (pdu_type_of _ _ _ Hp), size_frames, !string_frames, Hp by lia.
  cbn [length]. change (streq "TRANSITION" "TRANSITION" && (Z.of_nat 6 =? 6)) with true. cbn iota.
  change (["TRANSITION"; name; ts; stale; code; summary] !! Z.to_nat 1) with (Some name).
  change (["TRANSITION"; name; ts; stale; code; summary] !! Z.to_nat 4) with (Some code).
  change (["TRANSITION"; name; ts; stale; code; summary] !! Z.to_nat 5) with (Some summary).
  cbn [deref mbind res_bind]. by rewrite Hre.
Qed.

(** C33: a transition of a state whose name matches is posted to the webhook as
    one JSON object: its announced size is its length, no byte is written or
    read outside the buffer, however libcurl asks for the data it gets exactly
    that text, and reading the text as a JSON object gives the avatar, the
    user, the channel and the message back.  This is for values without
    backslashes (which are never escaped, so that they make the object
    invalid, see [slack_backslash_invalid], or with quotes overflow the
    buffer, see [slack_quotes_overflow]) and without control characters other
    than line feeds, carriage returns and tabs. *)
Theorem slack_posts_object o p name ts stale code summary sizes :
  pdu_frames p = ["TRANSITION"; name; ts; stale; code; summary] →
  pcre_exec (sl_re o) (sl_extra o) name = 0 →
  Forall (λ v, str_all json_safe v = true) [sl_avatar o; sl_username o; sl_channel o; name; code; summary] →
  let text := slack_message name code summary in
  let obj := object (sl_avatar o) (sl_username o) (sl_channel o) text in
  Forall (λ n, 0 < n) sizes → strlen obj ≤ total sizes →
  ∃ r r', slack_receive o p = Ok (Some (sl_webhook o, r)) ∧ req_len r = strlen obj ∧
          upload sizes r = Ok (obj, r') ∧
          json_object obj =
            Some [("icon_emoji", sl_avatar o); ("username", sl_username o); ("channel", sl_channel o); ("text", text)].
Proof using VL.
  intros Hp Hre Hv text obj Hsz Ht. rewrite !Forall_cons in Hv. destruct Hv as (Ha & Hu & Hc & Hn & Hk & Hm & _).
  assert (str_all json_safe text = true) as Htext.
  { unfold text, slack_message. rewrite !str_all_app, Hn, Hk, Hm. done. }
  rewrite (receive_transition o p name ts stale code summary) by done.
  rewrite new_request_plain by (by apply json_safe_plain). fold text. fold obj. cbn [mbind res_bind].
  destruct (upload_run obj sizes 0) as [r' E]; [done|pose proof (strlen_nonneg obj); lia|].
  eexists _, r'. split; [reflexivity|]. split; [reflexivity|]. split; [|by apply json_object_read]. rewrite E. do 2 f_equal.
  apply take_str_ge. cbn. unfold strlen in *. lia.
Qed.

(** A value that ends in a backslash makes the object invalid: the backslash
    is copied as it is and escapes the quote that ends the string. *)
Lemma slack_backslash_invalid :
  json_object (object ":robot_face:" "bolo" (str1 BACKSLASH) "disk is full") = None.
Proof using. vm_compute. reflexivity. Qed.

(** Every quote behind a backslash in the message takes a byte that was
    not counted: with two of them the object no longer fits, and its last
    byte is written outside the buffer. *)
Theorem slack_quotes_overflow o p name ts stale code summary :
  pdu_frames p = ["TRANSITION"; name; ts; stale; code; summary] →
  pcre_exec (sl_re o) (sl_extra o) name = 0 → plain_options o →
  2 ≤ backslash_quotes false (slack_message name code summary) →
  slack_receive o p = Fault OutOfBounds.
Proof using VL.
  intros Hp Hre (Ha & Hu & Hc) Hq. rewrite (receive_transition o p name ts stale code summary) by done.
  set (t := slack_message name code summary) in *. rewrite new_request_steps by done. cbv zeta.
  set (a := sl_avatar o) in *. set (u := sl_username o) in *. set (c := sl_channel o) in *.
  pose proof (escape_length false t) as Ht. pose proof (quotedlen_nonneg false t) as Hn.
  assert (strlen (head_of a u c) + 10 + quotedlen false t + 2 = request_len a u c t) as Hlen.
  { rewrite head_of_length, !plain_length by done. unfold request_len, s_quotedlen. lia. }
  pose proof (strlen_nonneg (head_of a u c)) as Hh.
  set (len := request_len a u c t) in *. unfold field.
  rewrite write_tail by (unfold strlen in *; change (String.length json_text) with 10%nat; lia).
  cbn [mbind res_bind]. change (strlen json_text) with 10.
  edestruct (quotedcopy_full) as (json & -> & Hj); [| |rewrite Ht; unfold t in *; lia|]; [lia| |].
  { rewrite !strlen_app. unfold strlen. rewrite zeros_length.
    change (String.length json_text) with 10%nat. unfold strlen in *. lia. }
  cbn [mbind res_bind]. rewrite !str_length_app, zeros_length in Hj.
  change (String.length json_text) with 10%nat in Hj. unfold strlen in Hlen, Hh.
  destruct (mem_write len (str1 QUOTE) json) as [json'|f] eqn:E.
  - cbn [mbind res_bind]. apply mem_write_length in E. unfold mem_write at 1, strlen.
    destruct (Z.leb_spec 0 (len + 1)); [|lia].
    destruct (Z.leb_spec (len + 1 + Z.of_nat (String.length "}")) (Z.of_nat (String.length json'))) as [Hle|]; [|done].
    cbn in Hle. lia.
  - cbn. unfold mem_write in E. destruct (_ && _); [done|]. by injection E as <-.
Qed.
End slack.

(** ** Examples *)

Module SlackExample.
Definition o : @slack_options ref_pcre :=
  @mk_slack_options ref_pcre "disk" tt "https://hooks.slack.com/x" ":robot_face:" "bolo" "#ops".
Definition p : @pdu_t ref_vigor := ("TRANSITION", ["host.disk"; "1995"; "fresh"; "CRITICAL"; "full"]).
Definition evil : string := str1 BACKSLASH +:+ str1 QUOTE +:+ str1 BACKSLASH +:+ str1 QUOTE.
Definition q : @pdu_t ref_vigor := ("TRANSITION", ["host.disk"; "1995"; "fresh"; "CRITICAL"; evil]).
End SlackExample.

Lemma slack_posts_object_witness :
  ∃ r r', slack_receive (H := ref_vigor) (H0 := ref_pcre) SlackExample.o SlackExample.p
            = Ok (Some ("https://hooks.slack.com/x", r)) ∧
          upload [100; 100] r = Ok (object ":robot_face:" "bolo" "#ops" (slack_message "host.disk" "CRITICAL" "full"), r').
Proof.
  destruct (slack_posts_object (VL := ref_vigor_laws) (H := ref_pcre) SlackExample.o SlackExample.p
    "host.disk" "1995" "fresh" "CRITICAL" "full" [100; 100]) as (r & r' & E1 & _ & E2 & _);
    [reflexivity|reflexivity|repeat constructor
    |apply Forall_cons; split; [lia|apply Forall_cons; split; [lia|by apply Forall_nil]]
    |apply Z.leb_le; vm_compute; reflexivity|].
  exists r, r'. split; assumption.
Defined.

Lemma slack_quotes_overflow_witness :
  slack_receive (H := ref_vigor) (H0 := ref_pcre) SlackExample.o SlackExample.q = Fault OutOfBounds.
Proof.
  apply (slack_quotes_overflow (VL := ref_vigor_laws) (H := ref_pcre) SlackExample.o SlackExample.q
    "host.disk" "1995" "fresh" "CRITICAL" SlackExample.evil);
    [reflexivity|reflexivity|split; [reflexivity|split; reflexivity]|apply Z.leb_le; vm_compute; reflexivity].
Defined.
