(* ===== verification/Influx.v ===== *)
(** * The InfluxDB subscriber: src/bolo2influxdb/main.c

    Counters, samples and rates are sent to InfluxDB, one line of its text
    protocol per datagram.  The name of a metric,
    [host:type:item:metric] or [host:type:metric], becomes the measurement
    and its tags. *)

From S2P Require Import Prelude CLib Vigor Bytes Data Binf Core Config Pdu Subscriber Startup Threads.
From Stdlib Require Import Ascii.

(** ** Names *)

Record influx_name := mk_influx_name {
  in_host : string;
  in_type : string;
  in_item : option string;
  in_metric : string;
}.

(** Up to the first colon, up to the second, up to the last. *)
Definition influx_split (name : string) : option influx_name :=
  if negb (has_char ":" name) then None
  else
    let host := take_while (is_not ":") name in
    let type := tail_str (skip_while (is_not ":") name) in
    if negb (has_char ":" type) then None
    else
      let p := tail_str (skip_while (is_not ":") type) in
      let type := take_while (is_not ":") type in
      Some (if has_char ":" p then mk_influx_name host type (Some (cut_last ":" p)) (after_last ":" p)
            else mk_influx_name host type None p).

(** The line: measurement and tags, fields, and the time in nanoseconds. *)
Definition influx_line (n : influx_name) (fields ts : string) : string :=
  in_metric n +:+ ",host=" +:+ in_host n +:+ ",type=" +:+ in_type n +:+
  match in_item n with Some item => ",item=" +:+ item | None => EmptyString end +:+
  " " +:+ fields +:+ " " +:+ ts +:+ "000000000" +:+ nl.

Definition PKT : Z := 65536.

(** [send(udp, pkt, len, 0)] after [len = snprintf(pkt, PKT, ...)]: the text
    is cut to the buffer, but [len] is its full length. *)
Definition datagram (text : string) : res string :=
  if strlen text <? PKT then Ok text
  else if strlen text =? PKT then Ok (take_str (Z.to_nat (PKT - 1)) text +:+ str1 NUL)
  else Fault OutOfBounds.

Section influx.
Context `{Vigor}.

Inductive influx_action :=
| Datagram (data : string)
| InfluxMonitor (p : pdu_t).

Abbreviation ID := (M unit influx_action).

Definition infl_frame (p : pdu_t) (i : Z) : ID string := lift (deref (pdu_string p i)).

(** The fields of each kind of message. *)
Definition influx_fields (p : pdu_t) : ID (option string) :=
  if streq (pdu_type p) "SAMPLE" then
    infl_frame p 3 ≫= λ n,
    infl_frame p 4 ≫= λ min,
    infl_frame p 5 ≫= λ max,
    infl_frame p 6 ≫= λ sum,
    infl_frame p 7 ≫= λ mean,
    infl_frame p 8 ≫= λ var,
    mret (Some ("n=" +:+ n +:+ ",min=" +:+ min +:+ ",max=" +:+ max +:+ ",sum=" +:+ sum +:+
                ",mean=" +:+ mean +:+ ",var=" +:+ var))
  else if streq (pdu_type p) "COUNTER" then
    infl_frame p 3 ≫= λ value, mret (Some ("value=" +:+ value))
  else if streq (pdu_type p) "RATE" then
    infl_frame p 3 ≫= λ win,
    infl_frame p 4 ≫= λ value,
    mret (Some ("window=" +:+ win +:+ ",value=" +:+ value))
  else mret None.

Definition influx_metric (p : pdu_t) : bool :=
  (streq (pdu_type p) "COUNTER" && (pdu_size p =? 4))
  || (streq (pdu_type p) "SAMPLE" && (pdu_size p =? 9))
  || (streq (pdu_type p) "RATE" && (pdu_size p =? 5)).

(** The answer of [send] is only logged. *)
Definition influx_on_subscriber (spent : Z) (p : pdu_t) : ID () :=
  if negb (influx_metric p) then mret ()
  else
    infl_frame p 1 ≫= λ ts,
    infl_frame p 2 ≫= λ name,
    match influx_split name with
    | None => mret ()
    | Some n =>
        influx_fields p ≫= λ fields,
        match fields with
        | None => mret ()
        | Some fields =>
            lift (datagram (influx_line n fields ts)) ≫= λ data,
            emit (Datagram data) ≫= λ _,
            emit (InfluxMonitor (perf "dispatch.time.s" spent))
        end
    end.

Definition influx_dispatcher_reactor (spent : Z) (s : tsocket) (p : pdu_t) : ID treaction :=
  match s with
  | TControl => mret (if streq (pdu_type p) "TERMINATE" then THalt else TContinue)
  | TTock => mret TContinue
  | TSubscriber => influx_on_subscriber spent p ≫= λ _, mret TContinue
  | _ => mret THalt
  end.
End influx.

(** ** Starting the thread *)

(** The answers of the system and of the libraries. *)
Record influx_wiring := mk_influx_wiring {
  iw_udp : Z;                     (* socket() *)
  iw_pton : string → Z;           (* inet_pton() *)
  iw_connect : Z;                 (* connect() *)
  iw_control : bool * Z * Z;
  iw_monitor : bool * Z;
  iw_tock : bool * Z * Z;
  iw_subscriber : bool * Z * Z;   (* zmq_setsockopt, then vzmq_connect_af *)
  iw_reactor : bool;
  iw_set_control : Z;
  iw_set_tock : Z;
  iw_set_subscriber : Z;
  iw_pthread : Z;
}.

(** The host and the port; [stack] is what the variable [port] holds, which
    is only assigned when there is a colon. *)
Definition influx_address (stack : Z) (influx : string) : option (string * Z) :=
  let host := take_while (is_not ":") influx in
  if has_char ":" influx then
    let port := atoi (tail_str (skip_while (is_not ":") influx)) in
    if (port <=? 0) || (65535 <? port) then None else Some (host, port)
  else Some (host, stack).

(** The return code, and the address that datagrams are sent to. *)
Definition influx_dispatcher_thread (stack : Z) (influx : string) (w : influx_wiring)
    : Z * option (string * Z) :=
  if iw_udp w <? 0 then (1, None)
  else match influx_address stack influx with
       | None => (1, None)
       | Some (host, port) =>
           if negb (iw_pton w host =? 1) then (1, None)
           else
             let '(s1, c1, o1) := iw_control w in
             let '(s2, c2, o2) := iw_tock w in
             let '(s3, o3, c3) := iw_subscriber w in
             let rc := first_error
               [iw_connect w;
                bolo_subscriber_connect_supervisor s1 c1 o1;
                bolo_subscriber_connect_monitor (iw_monitor w).1 (iw_monitor w).2;
                bolo_subscriber_connect_scheduler s2 c2 o2;
                open_socket s3 [o3; c3];
                if iw_reactor w then 0 else -1;
                iw_set_control w; iw_set_tock w; iw_set_subscriber w; iw_pthread w] in
             (rc, if rc =? 0 then Some (host, u16 port) else None)
       end.
