(* ===== verification/InfluxFacts.v ===== *)
(** * Theorems on the InfluxDB subscriber

    The parts of a name in the line are those of the name; every published
    metric with a structured name becomes one line; a line that exceeds the
    buffer is read past its end. *)

From S2P Require Import Prelude CLib Vigor Bytes Data DataFacts Binf Core CoreFacts Windowed Reactor ReactorFacts Config Pdu Subscriber Startup Threads Influx.
From Stdlib Require Import Ascii.

(** ** Names *)

(** The name that has these parts. *)
Definition influx_join (n : influx_name) : string :=
  in_host n +:+ ":" +:+ in_type n +:+ ":" +:+
  match in_item n with Some item => item +:+ ":" | None => EmptyString end +:+ in_metric n.

(** Host, type and metric have no colon; the item may. *)
Definition influx_wf (n : influx_name) : Prop :=
  lacks ":" (in_host n) ∧ lacks ":" (in_type n) ∧ lacks ":" (in_metric n).

Lemma influx_split_join n : influx_wf n → influx_split (influx_join n) = Some n.
Proof.
  destruct n as [host type item metric]. unfold influx_wf, influx_join, influx_split. cbn [in_host in_type in_item in_metric].
  intros (Hh & Ht & Hm). set (tl := match item with Some _ => _ | None => _ end +:+ metric).
  change (host +:+ ":" +:+ type +:+ ":" +:+ tl) with (host +:+ str1 ":" +:+ (type +:+ str1 ":" +:+ tl)).
  rewrite has_char_mid. cbn [negb]. destruct (split_first ":" host (type +:+ str1 ":" +:+ tl) Hh) as [-> ->].
  rewrite has_char_mid. cbn [negb]. destruct (split_first ":" type tl Ht) as [-> ->].
  unfold tl. destruct item as [item|].
  - change ((item +:+ ":") +:+ metric) with ((item +:+ str1 ":") +:+ metric). rewrite str_app_assoc.
    rewrite has_char_mid, cut_last_mid, after_last_mid by done. done.
  - change (("" : string) +:+ metric) with metric. by rewrite has_char_none.
Qed.

(** Every name that is split has those parts, and those only. *)
Lemma influx_join_split name n : influx_split name = Some n → influx_wf n ∧ influx_join n = name.
Proof.
  assert (∀ s, has_char ":" s = true →
    s = take_while (is_not ":") s +:+ str1 ":" +:+ tail_str (skip_while (is_not ":") s)) as Hfirst.
  { intros s Hs. rewrite <- (take_skip_while (is_not ":") s) at 1. f_equal.
    induction s as [|c s IH]; [done|]. cbn [has_char skip_while] in *. unfold is_not at 1 3.
    destruct (Ascii.eqb_spec ":" c) as [<-|]; [done|]. cbn [negb orb] in *. by apply IH. }
  assert (∀ s, has_char ":" s = true → s = cut_last ":" s +:+ str1 ":" +:+ after_last ":" s ∧ lacks ":" (after_last ":" s))
    as Hlast.
  { induction s as [|c s IH]; [done|]. cbn [has_char cut_last after_last]. intros Hs.
    destruct (Ascii.eqb_spec ":" c) as [<-|]; cbn [andb orb] in *.
    - destruct (has_char ":" s) eqn:E; cbn [negb].
      + destruct (IH eq_refl) as [E' ?]. split; [|done]. rewrite str_app_cons. by rewrite <- E'.
      + split; [done|by apply lacks_has].
    - destruct (IH Hs) as [E' ?]. split; [|done]. rewrite str_app_cons. by rewrite <- E'. }
  unfold influx_split. destruct (has_char ":" name) eqn:H1; [|done]. cbn [negb].
  set (rest := tail_str _). destruct (has_char ":" rest) eqn:H2; [|done]. cbn [negb].
  set (p := tail_str (skip_while (is_not ":") rest)).
  intros [= <-]. destruct (has_char ":" p) eqn:H3; cbn.
  - destruct (Hlast p H3) as [E Hm]. split; [split_and!; [apply take_while_all..|done]|].
    unfold influx_join. cbn [in_host in_type in_item in_metric]. rewrite (Hfirst name H1) at 2. fold rest.
    rewrite (Hfirst rest H2) at 2. fold p. rewrite E at 3. by rewrite !str_app_assoc.
  - split; [split_and!; [apply take_while_all..|]|].
    + by apply lacks_has.
    + unfold influx_join. cbn [in_host in_type in_item in_metric]. rewrite (Hfirst name H1) at 2. fold rest.
      rewrite (Hfirst rest H2) at 2. done.
Qed.

(** ** Messages *)

Section influx.
Context `{VL : VigorLaws}.

(** The fields that belong to a message of type [t] with these frames behind
    the name. *)
Definition metric_fields (t : string) (fs : list string) : option string :=
  if streq t "COUNTER" then
    match fs with [v] => Some ("value=" +:+ v) | _ => None end
  else if streq t "SAMPLE" then
    match fs with
    | [n; min; max; sum; mean; var] =>
        Some ("n=" +:+ n +:+ ",min=" +:+ min +:+ ",max=" +:+ max +:+ ",sum=" +:+ sum +:+
              ",mean=" +:+ mean +:+ ",var=" +:+ var)
    | _ => None
    end
  else if streq t "RATE" then
    match fs with [w; v] => Some ("window=" +:+ w +:+ ",value=" +:+ v) | _ => None end
  else None.

Lemma infl_frame_bind {B} p i s (f : string → M unit influx_action B) :
  0 ≤ i → pdu_frames p !! Z.to_nat i = Some s → (infl_frame p i ≫= f) () = f s ().
Proof using VL. intros Hi Hs. unfold infl_frame. rewrite string_frames, Hs by done. apply M_lift_bind. Qed.

(** Runs the code for a message of a known shape. *)
Ltac send_metric Hp name :=
  cbn [length];
  repeat match goal with
  | |- context [streq ?a ?b] =>
      let v := eval vm_compute in (streq a b) in change (streq a b) with v
  | |- context [Z.of_nat ?a =? ?b] =>
      let v := eval vm_compute in (Z.of_nat a =? b) in change (Z.of_nat a =? b) with v
  end;
  cbn [andb orb negb];
  do 2 (erewrite infl_frame_bind; [|lia|rewrite Hp; reflexivity]; cbv beta);
  destruct (influx_split name); [|done];
  repeat (mstep; erewrite infl_frame_bind; [|lia|rewrite Hp; reflexivity]; cbv beta); mstep;
  destruct (datagram _); [by mstep|done].

(** The dispatch on a metric, when its name can be split and when not. *)
Lemma on_metric_run spent p t ts name fs fields :
  pdu_frames p = t :: ts :: name :: fs → metric_fields t fs = Some fields →
  influx_on_subscriber spent p () =
  match influx_split name with
  | None => Ok ((), (), [])
  | Some n => match datagram (influx_line n fields ts) with
              | Ok data => Ok ((), (), [Datagram data; InfluxMonitor (perf "dispatch.time.s" spent)])
              | Fault e => Fault e
              end
  end.
Proof using VL.
  intros Hp Hf. unfold influx_on_subscriber, influx_metric, influx_fields.
  rewrite (pdu_type_of _ _ _ Hp), size_frames, Hp. unfold metric_fields in Hf.
  destruct (streq t "COUNTER") eqn:H1; [|destruct (streq t "SAMPLE") eqn:H2; [|destruct (streq t "RATE") eqn:H3; [|done]]].
  - apply streq_eq in H1 as ->. destruct fs as [|v [|]]; try done. injection Hf as <-. send_metric Hp name.
  - apply streq_eq in H2 as ->. destruct fs as [|n [|min [|max [|sum [|mean [|var [|]]]]]]]; try done.
    injection Hf as <-. send_metric Hp name.
  - apply streq_eq in H3 as ->. destruct fs as [|w [|v [|]]]; try done. injection Hf as <-. send_metric Hp name.
Qed.

(** A counter, a sample or a rate with a structured name becomes exactly
    one line for InfluxDB, with the parts of the name as measurement and
    tags (put together again they are the name), its values as fields and
    its time in nanoseconds; one whose name has less than three parts is
    dropped. *)
Theorem influx_one_line spent p t ts name fs fields :
  pdu_frames p = t :: ts :: name :: fs → metric_fields t fs = Some fields →
  (∀ n, influx_split name = Some n → strlen (influx_line n fields ts) < PKT) →
  ∃ out, influx_dispatcher_reactor spent TSubscriber p () = Ok (TContinue, (), out) ∧
  match influx_split name with
  | None => out = []
  | Some n => influx_wf n ∧ influx_join n = name ∧
              out = [Datagram (influx_line n fields ts); InfluxMonitor (perf "dispatch.time.s" spent)]
  end.
Proof using VL.
  intros Hp Hf Hlen. unfold influx_dispatcher_reactor, mbind, M_bind. rewrite (on_metric_run spent p t ts name fs fields Hp Hf).
  destruct (influx_split name) as [n|] eqn:Hn; [|by eexists].
  specialize (Hlen n eq_refl). unfold datagram. apply Z.ltb_lt in Hlen as ->. eexists. split; [reflexivity|].
  by destruct (influx_join_split name n Hn).
Qed.

(** A line that is longer than the buffer is cut, but sent with its full
    length: the bytes behind the buffer are read. *)
Theorem influx_long_line_overread spent p t ts n fs fields :
  pdu_frames p = t :: ts :: influx_join n :: fs → metric_fields t fs = Some fields → influx_wf n →
  PKT < strlen (influx_line n fields ts) →
  influx_dispatcher_reactor spent TSubscriber p () = Fault OutOfBounds.
Proof using VL.
  intros Hp Hf Hn Hlen. unfold influx_dispatcher_reactor, mbind, M_bind. rewrite (on_metric_run spent p t ts _ fs fields Hp Hf).
  rewrite influx_split_join by done. unfold datagram.
  destruct (Z.ltb_spec (strlen (influx_line n fields ts)) PKT); [lia|].
  by destruct (Z.eqb_spec (strlen (influx_line n fields ts)) PKT); [lia|].
Qed.

(** Without a port in the address, datagrams go to whatever port the
    uninitialised variable holds. *)
Theorem influx_port_uninitialised stack host w :
  lacks ":" host → influx_address stack host = Some (host, stack) ∧
  (∀ a, (influx_dispatcher_thread stack host w).2 = Some a → a = (host, u16 stack)).
Proof using.
  intros Hh. assert (influx_address stack host = Some (host, stack)) as Ha.
  { unfold influx_address. rewrite has_char_none by done. do 2 f_equal.
    rewrite <- (str_app_nil_r host) at 1. apply take_while_app; [done|by right]. }
  split; [done|]. unfold influx_dispatcher_thread. rewrite Ha. intros a.
  destruct (iw_udp w <? 0); [done|]. destruct (negb _); [done|].
  destruct (iw_control w) as [[s1 c1] o1], (iw_tock w) as [[s2 c2] o2], (iw_subscriber w) as [[s3 o3] c3].
  cbv zeta. destruct (_ =? 0); [|done]. by intros [= <-].
Qed.
End influx.

(** ** Examples *)

Module InfluxExample.
Definition p : @pdu_t ref_vigor := ("COUNTER", ["1980"; "web1:net:eth0:in"; "7"]).
Definition n : influx_name := mk_influx_name "web1" "net" (Some "eth0") "in".
Definition big : string := String.concat "" (replicate (Z.to_nat 65536) "x").
End InfluxExample.

Lemma influx_one_line_witness :
  ∃ out, influx_dispatcher_reactor (H := ref_vigor) 2 TSubscriber InfluxExample.p () = Ok (TContinue, (), out) ∧
  match influx_split "web1:net:eth0:in" with
  | None => out = []
  | Some n => influx_wf n ∧ influx_join n = "web1:net:eth0:in" ∧
              out = [Datagram (influx_line n "value=7" "1980"); InfluxMonitor (perf "dispatch.time.s" 2)]
  end.
Proof.
  apply (influx_one_line (VL := ref_vigor_laws) 2 InfluxExample.p "COUNTER" "1980" "web1:net:eth0:in" ["7"] "value=7");
    [reflexivity|reflexivity|].
  intros n [= <-]. vm_compute. reflexivity.
Defined.

Lemma influx_long_line_overread_witness :
  influx_dispatcher_reactor (H := ref_vigor) 2 TSubscriber
    (("COUNTER", ["1980"; "web1:net:eth0:in"; InfluxExample.big]) : @pdu_t ref_vigor) () = Fault OutOfBounds.
Proof.
  apply (influx_long_line_overread (VL := ref_vigor_laws) 2 _ "COUNTER" "1980" InfluxExample.n [InfluxExample.big]
    ("value=" +:+ InfluxExample.big)); [reflexivity|reflexivity|by repeat split|].
  apply Z.ltb_lt. vm_compute. reflexivity.
Defined.

Lemma influx_port_uninitialised_witness :
  influx_address 4242 "10.0.0.1" = Some ("10.0.0.1", 4242).
Proof.
  apply (influx_port_uninitialised 4242 "10.0.0.1"
    (mk_influx_wiring 3 (λ _, 1) 0 (true, 0, 0) (true, 0) (true, 0, 0) (true, 0, 0) true 0 0 0 0)). reflexivity.
Defined.
