(* ===== verification/Sqlite.v ===== *)
(** * The SQLite subscriber: src/bolo2sqlite/main.c

    Two tables: the current status of every state with the time since when
    it has it, and the metrics that have been seen.

    SQLite is an interface: the database is abstract, with one operation per
    statement that the program prepares, and the laws say what each statement
    does to the rows of the tables of examples/schema/sqlite3.sql, and when
    their constraints refuse it.  The other outcomes of the calls are an
    argument. *)

From S2P Require Import Prelude CLib Vigor Bytes Data Binf Core Config Pdu Subscriber Startup Threads.
From Stdlib Require Import Ascii.

(** ** The database *)

Record state_row := mk_state_row {
  row_id : Z;
  row_name : string;
  row_status : string;
  row_message : string;
  row_first : Z;
  row_last : Z;
}.

Record point_row := mk_point_row {
  pt_name : option string;
  pt_type : string;
  pt_first : Z;
  pt_last : Z;
}.

(** A statement that a constraint refuses gives no database. *)
Class Sqlite := {
  sqlite_db : Type;
  (* SELECT id, status, first_seen FROM states WHERE name = ? *)
  sql_select_state : sqlite_db → string → option (Z * string * Z);
  (* INSERT INTO states (name, status, message, first_seen, last_seen) VALUES (?, ?, ?, ?, ?) *)
  sql_insert_state : sqlite_db → string → string → string → Z → Z → option sqlite_db;
  (* UPDATE states SET status = ?, message = ?, first_seen = ?, last_seen = ? WHERE id = ? *)
  sql_update_state : sqlite_db → string → string → Z → Z → Z → option sqlite_db;
  (* UPDATE datapoints SET last_seen = ? WHERE name = ?, and sqlite3_changes() *)
  sql_update_point : sqlite_db → Z → option string → option (sqlite_db * Z);
  (* INSERT INTO datapoints (name, type, first_seen, last_seen) VALUES (?, ?, ?, ?) *)
  sql_insert_point : sqlite_db → option string → string → Z → Z → option sqlite_db;
  state_rows : sqlite_db → list state_row;
  point_rows : sqlite_db → list point_row;
}.

(** Whether a row of [datapoints] is selected by a name; NULL selects none. *)
Definition pt_is (name : option string) (r : point_row) : bool :=
  bool_decide (is_Some name ∧ pt_name r = name).

Definition touch (last : Z) (name : option string) (r : point_row) : point_row :=
  if pt_is name r then mk_point_row (pt_name r) (pt_type r) (pt_first r) last else r.

Definition set_row (status message : string) (first last id : Z) (r : state_row) : state_row :=
  if row_id r =? id then mk_state_row (row_id r) (row_name r) status message first last else r.

(** What the schema asks of a row that is written: its names are not those of
    another row, and [CHECK (last_seen >= first_seen)]. *)
Definition state_insertable (name : string) (first last : Z) (rows : list state_row) : Prop :=
  Forall (λ r, row_name r ≠ name) rows ∧ first ≤ last.
Definition state_updatable (first last id : Z) (rows : list state_row) : Prop :=
  id ∈ (row_id <$> rows) → first ≤ last.
Definition point_updatable (last : Z) (name : option string) (rows : list point_row) : Prop :=
  Forall (λ r, pt_is name r = true → pt_first r ≤ last) rows.
Definition point_insertable (name : option string) (type : string) (first last : Z) (rows : list point_row) : Prop :=
  is_Some name ∧ Forall (λ r, pt_name r = name → pt_type r ≠ type) rows ∧ first ≤ last.

(** The rows come in any order, and a new row gets a new identifier.  A
    statement that the schema allows takes effect, and one that it does not
    allow is refused. *)
Class SqliteLaws (S : Sqlite) : Prop := {
  select_none db name :
    sql_select_state db name = None → Forall (λ r, row_name r ≠ name) (state_rows db);
  select_some db name id status first :
    sql_select_state db name = Some (id, status, first) →
    ∃ r, r ∈ state_rows db ∧ row_name r = name ∧ row_id r = id ∧ row_status r = status ∧ row_first r = first;
  insert_rows db name status message first last :
    state_insertable name first last (state_rows db) →
    ∃ db' id, sql_insert_state db name status message first last = Some db' ∧ (id ∉ (row_id <$> state_rows db)) ∧
      state_rows db' ≡ₚ mk_state_row id name status message first last :: state_rows db ∧ point_rows db' = point_rows db;
  insert_refused db name status message first last :
    ¬ state_insertable name first last (state_rows db) → sql_insert_state db name status message first last = None;
  update_rows db status message first last id :
    state_updatable first last id (state_rows db) →
    ∃ db', sql_update_state db status message first last id = Some db' ∧
      state_rows db' ≡ₚ set_row status message first last id <$> state_rows db ∧ point_rows db' = point_rows db;
  update_refused db status message first last id :
    ¬ state_updatable first last id (state_rows db) → sql_update_state db status message first last id = None;
  update_points db last name :
    point_updatable last name (point_rows db) →
    ∃ db', sql_update_point db last name
             = Some (db', Z.of_nat (length (filter (λ r, pt_is name r = true) (point_rows db)))) ∧
      point_rows db' ≡ₚ touch last name <$> point_rows db ∧ state_rows db' = state_rows db;
  update_points_refused db last name :
    ¬ point_updatable last name (point_rows db) → sql_update_point db last name = None;
  insert_points db name type first last :
    point_insertable name type first last (point_rows db) →
    ∃ db', sql_insert_point db name type first last = Some db' ∧
      point_rows db' ≡ₚ mk_point_row name type first last :: point_rows db ∧ state_rows db' = state_rows db;
  insert_points_refused db name type first last :
    ¬ point_insertable name type first last (point_rows db) → sql_insert_point db name type first last = None;
}.

(** ** The program *)

Definition SQLITE_OK : Z := 0.
Definition SQLITE_CONSTRAINT : Z := 19.
Definition SQLITE_DONE : Z := 101.

Record sqstate_t := mk_sqstate {
  sq_name : string;
  sq_ts : string;
  sq_code : string;
  sq_summary : string;
}.

Record sqmetric_t := mk_sqmetric {
  sqm_type : string;
  sqm_ts : option string;
  sqm_name : option string;
}.

(** The return codes of the library, for the handling of one message; a write
    that gets [SQLITE_DONE] here can still be refused by a constraint. *)
Record sq_answers := mk_sq_answers {
  sa_open : Z;                    (* sqlite3_open *)
  sa_connect : list Z;            (* the three preparations of s_connect_db *)
  sa_prepare : list Z;            (* the three preparations of s_insert_state *)
  sa_bind : Z;
  sa_step_get : option Z;         (* an error of the SELECT *)
  sa_step_write : Z;              (* the INSERT or UPDATE of a state; the UPDATE of a datapoint *)
  sa_step_insert : Z;             (* the INSERT of a datapoint *)
}.

Section sqlite.
Context `{Vigor} `{Sqlite}.

Definition s_state_parse (p : pdu_t) : res sqstate_t :=
  name ← deref (pdu_string p 1);
  ts ← deref (pdu_string p 2);
  code ← deref (pdu_string p 4);
  summary ← deref (pdu_string p 5);
  mret (mk_sqstate name ts code summary).

Definition s_metric_parse (p : pdu_t) : sqmetric_t :=
  mk_sqmetric (pdu_type p) (pdu_string p 1) (pdu_string p 2).

Definition s_insert_state (a : sq_answers) (db : sqlite_db) (s : sqstate_t) : Z * sqlite_db :=
  let rc := first_error (sa_prepare a ++ [sa_bind a]) in
  if negb (rc =? SQLITE_OK) then (rc, db)
  else match sa_step_get a with
       | Some rc => (rc, db)
       | None =>
           let written :=
             match sql_select_state db (sq_name s) with
             | Some (id, status, first) =>
                 sql_update_state db (sq_code s) (sq_summary s)
                   (if streq (sq_code s) status then s32 first else atoi (sq_ts s)) (atoi (sq_ts s)) id
             | None =>
                 sql_insert_state db (sq_name s) (sq_code s) (sq_summary s) (atoi (sq_ts s)) (atoi (sq_ts s))
             end in
           if sa_step_write a =? SQLITE_DONE then
             match written with Some db' => (0, db') | None => (SQLITE_CONSTRAINT, db) end
           else (sa_step_write a, db)
       end.

(** The time is read as a string, the name is only bound. *)
Definition s_track_datapoint (a : sq_answers) (db : sqlite_db) (m : sqmetric_t) : res (Z * sqlite_db) :=
  ts ← deref (sqm_ts m);
  let ts := atoi ts in
  if negb (sa_step_write a =? SQLITE_DONE) then mret (sa_step_write a, db)
  else
    match sql_update_point db ts (sqm_name m) with
    | None => mret (SQLITE_CONSTRAINT, db)
    | Some (db, changes) =>
        if changes =? 0 then
          if negb (sa_step_insert a =? SQLITE_DONE) then mret (sa_step_insert a, db)
          else match sql_insert_point db (sqm_name m) (sqm_type m) ts ts with
               | Some db => mret (0, db)
               | None => mret (SQLITE_CONSTRAINT, db)
               end
        else mret (0, db)
    end.

(** [DB] is opened once; whether there is a connection now. *)
Definition s_connect_db (a : sq_answers) (connected : bool) : bool :=
  connected || ((sa_open a =? SQLITE_OK) && (first_error (sa_connect a) =? SQLITE_OK)).

(** The body of the loop that receives messages; the return codes are not
    looked at. *)
Definition sqlite_receive (a : sq_answers) (p : pdu_t) (st : bool * sqlite_db) : res (bool * sqlite_db) :=
  let '(connected, db) := st in
  if streq (pdu_type p) "STATE" && (pdu_size p =? 6) then
    s ← s_state_parse p;
    let connected := s_connect_db a connected in
    mret (connected, if connected then (s_insert_state a db s).2 else db)
  else if streq (pdu_type p) "SAMPLE" || streq (pdu_type p) "RATE" || streq (pdu_type p) "COUNTER" then
    let m := s_metric_parse p in
    if s_connect_db a connected then
      '(_, db) ← s_track_datapoint a db m; mret (true, db)
    else mret (false, db)
  else mret st.

Fixpoint sqlite_receive_all (a : sq_answers) (ps : list pdu_t) (st : bool * sqlite_db) : res (bool * sqlite_db) :=
  match ps with
  | [] => mret st
  | p :: ps' => st ← sqlite_receive a p st; sqlite_receive_all a ps' st
  end.
End sqlite.
