(* ===== verification/SqliteFacts.v ===== *)
(** * Theorems on the SQLite subscriber

    The table of states is a map from names to their status, and keeps the
    time since when a state has its status; the table of metrics has one row
    per name, whatever the types. *)

From S2P Require Import Prelude CLib Vigor Bytes Data Binf Core Config Pdu Subscriber Startup Threads Sqlite.
From Stdlib Require Import Ascii.

(** ** States *)

(** What is known of a state: its status, its message, since when it has that
    status, and when it was seen. *)
Record known := mk_known { kn_status : string; kn_message : string; kn_since : Z; kn_seen : Z }.

(** The abstract table, and what a report does to it.  A report that is older
    than the time since when the state has that status is refused by the
    constraint of the table, and changes nothing. *)
Definition learn (t : gmap string known) (s : sqstate_t) : gmap string known :=
  let now := atoi (sq_ts s) in
  let since := match t !! sq_name s with
               | Some k => if streq (sq_code s) (kn_status k) then kn_since k else now
               | None => now
               end in
  if now <? since then t else <[sq_name s := mk_known (sq_code s) (sq_summary s) since now]> t.

Definition known_of (r : state_row) : known := mk_known (row_status r) (row_message r) (row_first r) (row_last r).

(** No name and no identifier occurs twice, and the rows are the table. *)
Record table_is (rows : list state_row) (t : gmap string known) : Prop := {
  ti_names : NoDup (row_name <$> rows);
  ti_ids : NoDup (row_id <$> rows);
  ti_times : Forall (λ r, is_s32 (row_first r)) rows;
  ti_rows : ∀ n k, t !! n = Some k ↔ ∃ r, r ∈ rows ∧ row_name r = n ∧ known_of r = k;
}.

(** The order of the rows does not matter. *)
#[export] Instance table_is_proper : Proper ((≡ₚ) ==> (=) ==> (↔)) table_is.
Proof.
  assert (∀ l1 l2 t, l1 ≡ₚ l2 → table_is l1 t → table_is l2 t) as Himp.
  { intros l1 l2 t Hl [H1 H2 H3 H4]. split.
    - by rewrite <- (fmap_Permutation row_name _ _ Hl).
    - by rewrite <- (fmap_Permutation row_id _ _ Hl).
    - by rewrite <- Hl.
    - intros n k. rewrite H4. by setoid_rewrite Hl. }
  intros l1 l2 Hl t ? <-. split; apply Himp; [done|by symmetry].
Qed.

Lemma row_unique {A} (f : state_row → A) l r1 r2 :
  NoDup (f <$> l) → r1 ∈ l → r2 ∈ l → f r1 = f r2 → r1 = r2.
Proof.
  intros Hnd H1 H2 E. apply list_elem_of_lookup in H1 as [i Hi]. apply list_elem_of_lookup in H2 as [j Hj].
  assert (i = j) as ->; [|congruence].
  eapply NoDup_lookup; [exact Hnd|rewrite list_lookup_fmap, Hi; reflexivity|rewrite list_lookup_fmap, Hj; cbn; by rewrite E].
Qed.

Lemma set_row_name st m f l id r : row_name (set_row st m f l id r) = row_name r.
Proof. unfold set_row. by case_step. Qed.
Lemma set_row_id st m f l id r : row_id (set_row st m f l id r) = row_id r.
Proof. unfold set_row. by case_step. Qed.

(** A new row. *)
Lemma table_cons rows t r :
  Forall (λ x, row_name x ≠ row_name r) rows → row_id r ∉ (row_id <$> rows) → is_s32 (row_first r) →
  table_is rows t → table_is (r :: rows) (<[row_name r := known_of r]> t).
Proof.
  rewrite Forall_forall. intros Hn Hi Ht [H1 H2 H3 H4]. split.
  - rewrite fmap_cons. apply NoDup_cons. split; [|done]. intros (x & E & Hx)%list_elem_of_fmap. by apply (Hn x).
  - rewrite fmap_cons. by apply NoDup_cons.
  - by apply Forall_cons.
  - intros n k. setoid_rewrite elem_of_cons. destruct (decide (n = row_name r)) as [->|Hne].
    + rewrite lookup_insert_eq. split; [intros [= <-]; eauto|].
      intros (x & [->|Hx] & E & <-); [done|]. by destruct (Hn x).
    + rewrite lookup_insert_ne, H4 by done. split; [intros (x & Hx & E & <-); eauto|].
      intros (x & [->|Hx] & E & <-); [done|eauto].
Qed.

(** A row that is replaced. *)
Lemma table_set rows t r st m f l :
  r ∈ rows → is_s32 f → table_is rows t →
  table_is (set_row st m f l (row_id r) <$> rows) (<[row_name r := mk_known st m f l]> t).
Proof.
  intros Hr Hf [H1 H2 H3 H4]. set (upd := set_row _ _ _ _ _).
  assert (∀ x, x ∈ rows → row_id x = row_id r → x = r) as Hid by (intros; by eapply (row_unique row_id)).
  assert (∀ x, x ∈ rows → row_name x = row_name r → x = r) as Hname by (intros; by eapply (row_unique row_name)).
  assert (known_of (upd r) = mk_known st m f l) as Hupd by (unfold upd, set_row; by rewrite Z.eqb_refl).
  assert (∀ x, x ∈ rows → x ≠ r → upd x = x) as Hother.
  { intros x Hx Hne. unfold upd, set_row. destruct (Z.eqb_spec (row_id x) (row_id r)); [|done]. by destruct Hne; apply Hid. }
  split.
  - rewrite <- list_fmap_compose. erewrite list_fmap_ext; [exact H1|]. intros ? x _. apply set_row_name.
  - rewrite <- list_fmap_compose. erewrite list_fmap_ext; [exact H2|]. intros ? x _. apply set_row_id.
  - apply Forall_fmap. eapply Forall_impl; [exact H3|]. intros x Hx. cbn. unfold upd, set_row. by case_step.
  - intros n k. setoid_rewrite list_elem_of_fmap. destruct (decide (n = row_name r)) as [->|Hne].
    + rewrite lookup_insert_eq. split.
      * intros [= <-]. exists (upd r). split_and!; [by exists r|apply set_row_name|done].
      * intros (x & (y & -> & Hy) & E & <-). unfold upd in E. rewrite set_row_name in E. rewrite (Hname y Hy E). by rewrite Hupd.
    + rewrite lookup_insert_ne, H4 by done. split.
      * intros (x & Hx & E & <-). exists x. split_and!; [exists x; split; [|done]|done|done].
        symmetry. apply Hother; [done|]. congruence.
      * intros (x & (y & -> & Hy) & E & <-). unfold upd in E. rewrite set_row_name in E.
        exists y. split_and!; [done|done|]. by rewrite Hother by congruence.
Qed.

(** The answers of a library that does what it is asked to. *)
Definition fine : sq_answers := mk_sq_answers 0 [0; 0; 0] [0; 0; 0] 0 None SQLITE_DONE SQLITE_DONE.

Section sqlite.
Context `{VL : VigorLaws} `{SL : SqliteLaws}.

Lemma insert_state_table db t s :
  table_is (state_rows db) t → table_is (state_rows (s_insert_state fine db s).2) (learn t s).
Proof using SL.
  intros Htab. unfold s_insert_state. cbn [fine sa_prepare sa_bind sa_step_get sa_step_write app].
  change (first_error [0; 0; 0; 0]) with 0. change (negb (0 =? SQLITE_OK)) with false.
  change (SQLITE_DONE =? SQLITE_DONE) with true. cbn iota. unfold learn.
  destruct (sql_select_state db (sq_name s)) as [[[id status] first]|] eqn:Es.
  - destruct (select_some _ _ _ _ _ Es) as (r & Hin & Hname & <- & <- & <-).
    assert (is_s32 (row_first r)) as Hf by (pose proof (ti_times _ _ Htab) as H3; rewrite Forall_forall in H3; by apply H3).
    assert (t !! sq_name s = Some (known_of r)) as -> by (apply (ti_rows _ _ Htab); by exists r).
    rewrite s32_id by done. cbn [known_of kn_status kn_since]. cbv zeta.
    set (since := if streq (sq_code s) (row_status r) then row_first r else atoi (sq_ts s)).
    destruct (Z.ltb_spec (atoi (sq_ts s)) since) as [Hlt|Hge].
    + rewrite update_refused; [done|]. intros Hu. assert (since ≤ atoi (sq_ts s)); [|lia].
      apply Hu. by apply list_elem_of_fmap_2.
    + destruct (update_rows db (sq_code s) (sq_summary s) since (atoi (sq_ts s)) (row_id r)) as (db' & -> & Hr & _); [by intros _|].
      cbn [snd]. rewrite Hr, <- Hname. apply table_set; [done| |done]. unfold since. case_step; [done|apply s32_range].
  - pose proof (select_none _ _ Es) as Hnone.
    assert (t !! sq_name s = None) as ->.
    { apply eq_None_not_Some. intros [k (r & Hin & Hname & _)%(ti_rows _ _ Htab)].
      rewrite Forall_forall in Hnone. by apply (Hnone r). }
    destruct (insert_rows db (sq_name s) (sq_code s) (sq_summary s) (atoi (sq_ts s)) (atoi (sq_ts s)))
      as (db' & id & -> & Hid & Hr & _); [by split|].
    cbn [snd]. cbv zeta. rewrite Z.ltb_irrefl, Hr.
    match goal with |- table_is (?r :: _) _ => apply (table_cons _ _ r) end; [done|done|apply s32_range|done].
Qed.

Lemma insert_state_points_kept a db s : point_rows (s_insert_state a db s).2 = point_rows db.
Proof using SL.
  unfold s_insert_state. destruct (negb _); [done|]. destruct (sa_step_get a); [done|].
  destruct (_ =? SQLITE_DONE); [|done].
  destruct (sql_select_state _ _) as [[[id st] f]|].
  - match goal with |- context [sql_update_state db ?a ?b ?c ?d ?e] =>
      destruct (decide (c ≤ d)) as [Hle|Hgt]; [destruct (update_rows db a b c d e) as (db' & -> & _ & ?); [by intros _|done]|];
      destruct (sql_update_state db a b c d e) as [db'|] eqn:E; [|done];
      destruct (decide (e ∈ (row_id <$> state_rows db))) as [Hin|Hin];
        [rewrite update_refused in E; [done|]; intros Hu; by apply Hgt, Hu|];
      destruct (update_rows db a b c d e) as (db2 & E2 & _ & ?); [by intros ?|]; rewrite E in E2; by injection E2 as <- end.
  - match goal with |- context [sql_insert_state db ?a ?b ?c ?d ?e] =>
      destruct (sql_insert_state db a b c d e) as [db'|] eqn:E; [|done];
      destruct (decide (state_insertable a d e (state_rows db))) as [Hi|Hi];
        [destruct (insert_rows db a b c d e Hi) as (db2 & id & E2 & _ & _ & ?); rewrite E in E2; by injection E2 as <-|];
      by rewrite insert_refused in E end.
Qed.

Lemma track_states_kept a db m rc db' : s_track_datapoint a db m = Ok (rc, db') → state_rows db' = state_rows db.
Proof using SL.
  unfold s_track_datapoint. destruct (sqm_ts m) as [ts|]; [|done]. cbn [deref mbind res_bind].
  destruct (negb _); [by intros [= _ <-]|].
  destruct (decide (point_updatable (atoi ts) (sqm_name m) (point_rows db))) as [Hu|Hu];
    [|rewrite update_points_refused by done; by intros [= _ <-]].
  destruct (update_points db _ _ Hu) as (db1 & -> & _ & Hs1). destruct (_ =? 0); [|by intros [= _ <-]].
  destruct (negb _); [by intros [= _ <-]|].
  destruct (decide (point_insertable (sqm_name m) (sqm_type m) (atoi ts) (atoi ts) (point_rows db1))) as [Hi|Hi];
    [|rewrite insert_points_refused by done; by intros [= _ <-]].
  destruct (insert_points db1 _ _ _ _ Hi) as (db2 & -> & _ & Hs2). intros [= _ <-]. congruence.
Qed.

(** ** Sequences of messages *)

(** The reports of states among the messages. *)
Definition state_reports (ps : list pdu_t) : list sqstate_t :=
  omap (λ p, if streq (pdu_type p) "STATE" && (pdu_size p =? 6)
             then match s_state_parse p with Ok s => Some s | Fault _ => None end else None) ps.

Lemma state_parse_ok p : pdu_size p = 6 → ∃ s, s_state_parse p = Ok s.
Proof using VL.
  intros Hp. unfold s_state_parse.
  destruct (pdu_string_Some p 1) as [? ->]; [lia|]. destruct (pdu_string_Some p 2) as [? ->]; [lia|].
  destruct (pdu_string_Some p 4) as [? ->]; [lia|]. destruct (pdu_string_Some p 5) as [? ->]; [lia|].
  by eexists.
Qed.

Lemma receive_state p c db s :
  pdu_type p = "STATE" → pdu_size p = 6 → s_state_parse p = Ok s →
  sqlite_receive fine p (c, db) = Ok (true, (s_insert_state fine db s).2).
Proof using.
  intros Ht Hs Hp. unfold sqlite_receive. rewrite Ht, Hs, Hp. change (streq "STATE" "STATE" && (6 =? 6)) with true.
  cbn [mbind res_bind]. assert (s_connect_db fine c = true) as -> by (by destruct c). done.
Qed.

Lemma receive_other p c db :
  (pdu_type p ≠ "STATE" ∨ pdu_size p ≠ 6) → 2 ≤ pdu_size p →
  ∃ c' db', sqlite_receive fine p (c, db) = Ok (c', db') ∧ state_rows db' = state_rows db.
Proof using VL SL.
  intros Hne Hsz. unfold sqlite_receive.
  assert (streq (pdu_type p) "STATE" && (pdu_size p =? 6) = false) as ->.
  { apply andb_false_iff. destruct Hne as [H1|H1]; [left; by apply streq_neq|right; by apply Z.eqb_neq]. }
  destruct (_ || streq (pdu_type p) "COUNTER"); [|by eexists _, _].
  assert (s_connect_db fine c = true) as -> by (by destruct c).
  destruct (s_track_datapoint fine db (s_metric_parse p)) as [[rc db']|f] eqn:E.
  - eexists _, _. split; [reflexivity|]. by eapply track_states_kept.
  - exfalso. revert E. unfold s_track_datapoint, s_metric_parse. cbn [sqm_ts sqm_name sqm_type].
    destruct (pdu_string_Some p 1) as [ts ->]; [lia|]. cbn [deref mbind res_bind].
    destruct (negb _); [done|]. destruct (sql_update_point _ _ _) as [[db1 n]|]; [|done].
    destruct (n =? 0); [|done]. cbn. by destruct (sql_insert_point _ _ _ _ _).
Qed.

(** C31: the table of states is a map from names to the last report of each
    state that was taken, with the time since when the state has had that
    status: a report with the same status keeps that time, one with another
    status sets it, one that is older than that time is refused by the
    constraint of the shipped schema and changes nothing, and messages of
    other kinds leave the table alone.  Every other call of the library is
    taken to succeed ([fine]). *)
Theorem sqlite_tracks_states ps c db t :
  Forall (λ p, 2 ≤ pdu_size p) ps → table_is (state_rows db) t →
  ∃ c' db', sqlite_receive_all fine ps (c, db) = Ok (c', db') ∧
    table_is (state_rows db') (foldl learn t (state_reports ps)).
Proof using VL SL.
  intros Hps. revert c db t. induction Hps as [|p ps Hp _ IH]; intros c db t Ht; [by eexists _, _|].
  cbn [sqlite_receive_all]. unfold state_reports. cbn [omap list_omap]. fold (state_reports ps).
  destruct (decide (pdu_type p = "STATE" ∧ pdu_size p = 6)) as [[Hty H6]|Hno].
  - destruct (state_parse_ok p H6) as [s Hs]. rewrite (receive_state p c db s) by done. cbn [mbind res_bind].
    rewrite Hty, H6, Hs. change (streq "STATE" "STATE" && (6 =? 6)) with true. cbn [foldl].
    apply IH. by apply insert_state_table.
  - apply not_and_l in Hno. destruct (receive_other p c db Hno Hp) as (c' & db' & -> & Hrows). cbn [mbind res_bind].
    assert (streq (pdu_type p) "STATE" && (pdu_size p =? 6) = false) as ->.
    { apply andb_false_iff. destruct Hno as [H1|H1]; [left; by apply streq_neq|right; by apply Z.eqb_neq]. }
    apply IH. by rewrite Hrows.
Qed.
End sqlite.

(** ** Metrics *)

(** The table of metrics: the type with which a name came first, and when it
    was first and last seen. *)
Record tracked := mk_tracked { tr_type : string; tr_first : Z; tr_last : Z }.

(** What a metric does to it: a name that is there keeps its type, and a
    message that is older than its first one is refused. *)
Definition track (t : gmap string tracked) (m : sqmetric_t) : gmap string tracked :=
  match sqm_ts m, sqm_name m with
  | Some ts, Some n =>
      match t !! n with
      | Some k => if atoi ts <? tr_first k then t else <[n := mk_tracked (tr_type k) (tr_first k) (atoi ts)]> t
      | None => <[n := mk_tracked (sqm_type m) (atoi ts) (atoi ts)]> t
      end
  | _, _ => t
  end.

Definition tracked_of (r : point_row) : tracked := mk_tracked (pt_type r) (pt_first r) (pt_last r).

Record points_are (rows : list point_row) (t : gmap string tracked) : Prop := {
  pa_names : NoDup (pt_name <$> rows);
  pa_rows : ∀ n k, t !! n = Some k ↔ ∃ r, r ∈ rows ∧ pt_name r = Some n ∧ tracked_of r = k;
}.

#[export] Instance points_are_proper : Proper ((≡ₚ) ==> (=) ==> (↔)) points_are.
Proof.
  assert (∀ l1 l2 t, l1 ≡ₚ l2 → points_are l1 t → points_are l2 t) as Himp.
  { intros l1 l2 t Hl [H1 H2]. split.
    - by rewrite <- (fmap_Permutation pt_name _ _ Hl).
    - intros n k. rewrite H2. by setoid_rewrite Hl. }
  intros l1 l2 Hl t ? <-. split; apply Himp; [done|by symmetry].
Qed.

Lemma pt_is_true n r : pt_is (Some n) r = true ↔ pt_name r = Some n.
Proof. unfold pt_is. rewrite bool_decide_eq_true. split; [by intros [_ ?]|by intros ->]. Qed.

Lemma touch_name last n r : pt_name (touch last n r) = pt_name r.
Proof. unfold touch. by case_step. Qed.

Lemma touch_other last n r : pt_name r ≠ Some n → touch last (Some n) r = r.
Proof. intros H. unfold touch. destruct (pt_is (Some n) r) eqn:E; [|done]. by apply pt_is_true in E. Qed.

Lemma touch_hit last n r : pt_name r = Some n → tracked_of (touch last (Some n) r) = mk_tracked (pt_type r) (pt_first r) last.
Proof. intros H%pt_is_true. unfold touch. by rewrite H. Qed.

(** An update that finds its row. *)
Lemma points_touch rows t n k last :
  points_are rows t → t !! n = Some k →
  points_are (touch last (Some n) <$> rows) (<[n := mk_tracked (tr_type k) (tr_first k) last]> t).
Proof.
  intros [H1 H2] Hk. split.
  - rewrite <- list_fmap_compose. erewrite list_fmap_ext; [exact H1|]. intros ? x _. apply touch_name.
  - intros x kx. setoid_rewrite list_elem_of_fmap. destruct (decide (x = n)) as [->|Hne].
    + rewrite lookup_insert_eq. split.
      * intros [= <-]. apply H2 in Hk as (r & Hr & Hn & <-). exists (touch last (Some n) r).
        split_and!; [by exists r|by rewrite touch_name|by rewrite touch_hit].
      * intros (y & (r & -> & Hr) & Hn & <-). rewrite touch_name in Hn. rewrite touch_hit by done.
        assert (t !! n = Some (tracked_of r)) as E by (apply H2; by exists r). rewrite E in Hk. by injection Hk as <-.
    + rewrite lookup_insert_ne, H2 by done. split.
      * intros (r & Hr & Hn & <-). exists r. split_and!; [exists r; split; [|done]|done|done].
        symmetry. apply touch_other. congruence.
      * intros (y & (r & -> & Hr) & Hn & <-). rewrite touch_name in Hn. exists r.
        split_and!; [done|done|]. by rewrite touch_other by congruence.
Qed.

(** A row that is not there yet. *)
Lemma points_new rows t n type first last :
  points_are rows t → t !! n = None →
  points_are (mk_point_row (Some n) type first last :: (touch last (Some n) <$> rows))
             (<[n := mk_tracked type first last]> t).
Proof.
  intros [H1 H2] Hk.
  assert (∀ r, r ∈ rows → pt_name r ≠ Some n) as Hno.
  { intros r Hr Hn. assert (t !! n = Some (tracked_of r)) as E by (apply H2; by exists r). congruence. }
  assert (touch last (Some n) <$> rows = rows) as ->.
  { rewrite <- (list_fmap_id rows) at 2. apply list_fmap_ext. intros i r Hr. apply touch_other, Hno.
    by eapply list_elem_of_lookup_2. }
  split.
  - rewrite fmap_cons. apply NoDup_cons. split; [|done]. intros (r & E & Hr)%list_elem_of_fmap. by apply (Hno r).
  - intros x k. setoid_rewrite elem_of_cons. destruct (decide (x = n)) as [->|Hne].
    + rewrite lookup_insert_eq. split; [intros [= <-]; eauto|].
      intros (r & [->|Hr] & E & <-); [done|]. by destruct (Hno r).
    + rewrite lookup_insert_ne, H2 by done. split; [intros (r & Hr & E & <-); eauto|].
      intros (r & [->|Hr] & E & <-); [|eauto]. cbn in E. congruence.
Qed.

Lemma no_changes rows t n :
  points_are rows t → Z.of_nat (length (filter (λ r, pt_is (Some n) r = true) rows)) = 0 ↔ t !! n = None.
Proof.
  intros [_ H2]. split.
  - intros Hz. apply eq_None_not_Some. intros [k (r & Hr & Hn & _)%H2].
    assert (r ∈ filter (λ r, pt_is (Some n) r = true) rows) as Hin by (apply list_elem_of_filter; by rewrite pt_is_true).
    destruct (filter _ rows); [by apply not_elem_of_nil in Hin|cbn in Hz; lia].
  - intros Hn. destruct (filter _ rows) as [|r l] eqn:E; [done|].
    assert (r ∈ filter (λ r, pt_is (Some n) r = true) rows) as Hin by (rewrite E; left).
    apply list_elem_of_filter in Hin as [Hp Hr]. apply pt_is_true in Hp.
    assert (t !! n = Some (tracked_of r)) as E' by (apply H2; by exists r). congruence.
Qed.

Section points.
Context `{VL : VigorLaws} `{SL : SqliteLaws}.

Lemma row_updatable rows t n k last :
  points_are rows t → t !! n = Some k → point_updatable last (Some n) rows ↔ tr_first k ≤ last.
Proof using.
  intros [H1 H2] Hk. unfold point_updatable. rewrite Forall_forall. split.
  - intros Hu. apply H2 in Hk as (r & Hr & Hn & <-). apply (Hu r Hr). by apply pt_is_true.
  - intros Hle r Hr Hp%pt_is_true. assert (t !! n = Some (tracked_of r)) as E by (apply H2; by exists r).
    rewrite Hk in E. injection E as ->. done.
Qed.

Lemma track_datapoint_table db t m ts n :
  sqm_ts m = Some ts → sqm_name m = Some n → points_are (point_rows db) t →
  ∃ rc db', s_track_datapoint fine db m = Ok (rc, db') ∧ points_are (point_rows db') (track t m).
Proof using SL.
  intros Hts Hn Ht. unfold s_track_datapoint, track. rewrite Hts, Hn. cbn [deref mbind res_bind].
  change (negb (sa_step_write fine =? SQLITE_DONE)) with false. change (negb (sa_step_insert fine =? SQLITE_DONE)) with false. cbn iota.
  pose proof (no_changes _ _ n Ht) as Hz. destruct (t !! n) as [k|] eqn:Ek.
  - pose proof (row_updatable _ _ n k (atoi ts) Ht Ek) as Hupd. destruct (Z.ltb_spec (atoi ts) (tr_first k)) as [Hlt|Hge].
    { rewrite update_points_refused by (rewrite Hupd; lia). by eexists _, _. }
    destruct (update_points db (atoi ts) (Some n)) as (db1 & -> & Hu & _); [by apply Hupd|].
    destruct (Z.eqb_spec (Z.of_nat (length (filter (λ r, pt_is (Some n) r = true) (point_rows db)))) 0) as [Hc|_].
    { by apply Hz in Hc. }
    eexists _, _. split; [reflexivity|]. rewrite Hu. by apply points_touch.
  - assert (Forall (λ r, pt_name r ≠ Some n) (point_rows db)) as Hno.
    { apply Forall_forall. intros r Hr E. assert (t !! n = Some (tracked_of r)); [|congruence].
      apply (pa_rows _ _ Ht). by exists r. }
    destruct (update_points db (atoi ts) (Some n)) as (db1 & -> & Hu & _).
    { eapply Forall_impl; [exact Hno|]. by intros r Hr Hp%pt_is_true. }
    rewrite (proj2 Hz eq_refl). change (0 =? 0) with true. cbn iota.
    destruct (insert_points db1 (Some n) (sqm_type m) (atoi ts) (atoi ts)) as (db2 & -> & Hi & _).
    { split_and!; [by eexists| |done]. rewrite Hu. apply Forall_fmap. eapply Forall_impl; [exact Hno|].
      intros r Hr. cbn. by rewrite touch_name. }
    eexists _, _. split; [reflexivity|]. rewrite Hi, Hu. by apply points_new.
Qed.

(** The metrics among the messages. *)
Definition metric_reports (ps : list pdu_t) : list sqmetric_t :=
  s_metric_parse <$> filter (λ p, streq (pdu_type p) "SAMPLE" || streq (pdu_type p) "RATE" || streq (pdu_type p) "COUNTER" = true) ps.

Lemma receive_points p c db t :
  3 ≤ pdu_size p → points_are (point_rows db) t →
  ∃ c' db', sqlite_receive fine p (c, db) = Ok (c', db') ∧ points_are (point_rows db') (foldl track t (metric_reports [p])).
Proof using VL SL.
  intros Hsz Ht. unfold sqlite_receive, metric_reports. rewrite filter_cons, filter_nil.
  destruct (streq (pdu_type p) "STATE" && (pdu_size p =? 6)) eqn:Es.
  - apply andb_true_iff in Es as [Es H6]. apply streq_eq in Es. rewrite Es. apply Z.eqb_eq in H6.
    destruct (state_parse_ok p H6) as [s ->]. cbn [mbind res_bind]. assert (s_connect_db fine c = true) as -> by (by destruct c).
    eexists _, _. split; [reflexivity|]. rewrite insert_state_points_kept. done.
  - case_decide as Hm; [rewrite Hm|apply not_true_is_false in Hm; rewrite Hm; by eexists _, _].
    assert (s_connect_db fine c = true) as -> by (by destruct c).
    destruct (pdu_string_Some p 1) as [ts Hts]; [lia|]. destruct (pdu_string_Some p 2) as [n Hn]; [lia|].
    destruct (track_datapoint_table db t (s_metric_parse p) ts n) as (rc & db' & -> & Hdb'); [done|done|done|].
    cbn [mbind res_bind]. by eexists _, _.
Qed.

(** The table of metrics has one row per name: a metric whose name is
    there already, as a metric of whatever type, only moves the time it was
    last seen, and the row keeps the type and the time of the first message
    with that name; a name that is not there gets a row. *)
Theorem sqlite_tracks_points ps c db t :
  Forall (λ p, 3 ≤ pdu_size p) ps → points_are (point_rows db) t →
  ∃ c' db', sqlite_receive_all fine ps (c, db) = Ok (c', db') ∧
    points_are (point_rows db') (foldl track t (metric_reports ps)).
Proof using VL SL.
  intros Hps. revert c db t. induction Hps as [|p ps Hp _ IH]; intros c db t Ht; [by eexists _, _|].
  cbn [sqlite_receive_all].
  assert (metric_reports (p :: ps) = metric_reports [p] ++ metric_reports ps) as ->.
  { unfold metric_reports. rewrite <- fmap_app, <- filter_app. done. }
  destruct (receive_points p c db t Hp Ht) as (c1 & db1 & -> & H1). cbn [mbind res_bind].
  rewrite foldl_app. by apply IH.
Qed.
End points.

(** ** A database in memory *)

Record memdb := mk_memdb { md_states : list state_row; md_points : list point_row }.

Definition fresh_id (rows : list state_row) : Z := 1 + foldr (λ r, Z.max (row_id r)) 0 rows.

Lemma fresh_id_spec rows : fresh_id rows ∉ (row_id <$> rows).
Proof.
  assert (∀ id, id ∈ (row_id <$> rows) → id ≤ foldr (λ r, Z.max (row_id r)) 0 rows) as Hle.
  { induction rows as [|r rows IH]; intros id; cbn; [by intros ?%not_elem_of_nil|].
    rewrite elem_of_cons. intros [->|Hid]; [lia|]. apply IH in Hid. lia. }
  intros H%Hle. unfold fresh_id in H. lia.
Qed.

#[export] Instance mem_sqlite : Sqlite := {|
  sqlite_db := memdb;
  sql_select_state db name :=
    (λ r, (row_id r, row_status r, row_first r)) <$> head (filter (λ r, row_name r = name) (md_states db));
  sql_insert_state db name status message first last :=
    if decide (state_insertable name first last (md_states db))
    then Some (mk_memdb (md_states db ++ [mk_state_row (fresh_id (md_states db)) name status message first last])
                 (md_points db))
    else None;
  sql_update_state db status message first last id :=
    if decide (state_updatable first last id (md_states db))
    then Some (mk_memdb (set_row status message first last id <$> md_states db) (md_points db)) else None;
  sql_update_point db last name :=
    if decide (point_updatable last name (md_points db))
    then Some (mk_memdb (md_states db) (touch last name <$> md_points db),
               Z.of_nat (length (filter (λ r, pt_is name r = true) (md_points db))))
    else None;
  sql_insert_point db name type first last :=
    if decide (point_insertable name type first last (md_points db))
    then Some (mk_memdb (md_states db) (md_points db ++ [mk_point_row name type first last])) else None;
  state_rows := md_states;
  point_rows := md_points;
|}.

#[export] Instance mem_sqlite_laws : SqliteLaws mem_sqlite.
Proof.
  split; cbn; try (intros; by rewrite decide_False).
  - intros db name Hs. apply Forall_forall. intros r Hr E.
    assert (r ∈ filter (λ r, row_name r = name) (md_states db)) as Hin by (by apply list_elem_of_filter).
    destruct (filter _ _); [by apply not_elem_of_nil in Hin|done].
  - intros db name id st f Hs. destruct (filter _ _) as [|r l] eqn:E; [done|]. injection Hs as <- <- <-.
    assert (r ∈ filter (λ r, row_name r = name) (md_states db)) as Hin by (rewrite E; left).
    apply list_elem_of_filter in Hin as [Hn Hr]. by exists r.
  - intros db name st m f l Hi. rewrite decide_True by done. eexists _, (fresh_id (md_states db)).
    split; [done|]. split; [apply fresh_id_spec|]. cbn. by rewrite <- Permutation_cons_append.
  - intros db st m f l id Hu. rewrite decide_True by done. by eexists.
  - intros db l name Hu. rewrite decide_True by done. by eexists.
  - intros db name type f l Hi. rewrite decide_True by done. eexists. split; [done|]. cbn. by rewrite <- Permutation_cons_append.
Qed.

(** A report that repeats its status, one that changes it, one that comes too
    late, and a metric that comes with two types. *)
Definition demo_messages : list (string * list string) :=
  [ ("STATE", ["web"; "100"; "fresh"; "OK"; "fine"]); ("COUNTER", ["101"; "hits"; "7"]);
    ("STATE", ["web"; "160"; "fresh"; "OK"; "good"]); ("RATE", ["161"; "hits"; "3"]);
    ("STATE", ["db"; "165"; "fresh"; "WARN"; "slow"]); ("STATE", ["web"; "220"; "fresh"; "CRIT"; "down"]);
    ("STATE", ["web"; "215"; "fresh"; "CRIT"; "late"]) ].

Lemma sqlite_tracks_states_witness :
  ∃ c' db', sqlite_receive_all (H := ref_vigor) fine demo_messages (false, mk_memdb [] []) = Ok (c', db') ∧
    table_is (state_rows db')
      {[ "web" := mk_known "CRIT" "down" 220 220; "db" := mk_known "WARN" "slow" 165 165 ]}.
Proof.
  destruct (sqlite_tracks_states (VL := ref_vigor_laws) (SL := mem_sqlite_laws) demo_messages false (mk_memdb [] []) ∅)
    as (c & db & E & Ht).
  - unfold demo_messages. rewrite !Forall_cons, Forall_nil. vm_compute. split_and!; done.
  - split; [constructor|constructor|constructor|]. intros n k. rewrite lookup_empty. split; [done|].
    intros (r & Hr & _). by apply not_elem_of_nil in Hr.
  - exists c, db. split; [exact E|].
    assert (foldl learn ∅ (state_reports (V := ref_vigor) demo_messages) =
            {[ "web" := mk_known "CRIT" "down" 220 220; "db" := mk_known "WARN" "slow" 165 165 ]}) as <- by (vm_compute; reflexivity).
    exact Ht.
Defined.

Lemma sqlite_tracks_points_witness :
  ∃ c' db', sqlite_receive_all (H := ref_vigor) fine demo_messages (false, mk_memdb [] []) = Ok (c', db') ∧
    points_are (point_rows db') {[ "hits" := mk_tracked "COUNTER" 101 161 ]}.
Proof.
  destruct (sqlite_tracks_points (VL := ref_vigor_laws) (SL := mem_sqlite_laws) demo_messages false (mk_memdb [] []) ∅)
    as (c & db & E & Ht).
  - unfold demo_messages. rewrite !Forall_cons, Forall_nil. vm_compute. split_and!; done.
  - split; [constructor|]. intros n k. rewrite lookup_empty. split; [done|].
    intros (r & Hr & _). by apply not_elem_of_nil in Hr.
  - exists c, db. split; [exact E|].
    assert (foldl track ∅ (metric_reports (V := ref_vigor) demo_messages) =
            {[ "hits" := mk_tracked "COUNTER" 101 161 ]}) as <- by (vm_compute; reflexivity).
    exact Ht.
Defined.
