(* ===== verification/Sinks.v ===== *)
(** * Small subscribers: src/bolo2log/main.c, src/bolo2redis/main.c and src/bolo/cmd_tail.c

    Three programs that receive messages in a loop and write something for
    each: a line to a log, a key to a Redis server, a line to the terminal. *)

From S2P Require Import Prelude CLib Vigor Bytes Data Binf Core.
From Stdlib Require Import Ascii.

(** ** The log *)

Inductive log_type := TYPE_SYSLOG | TYPE_FILE.

(** What is written: to the file that a call to [fopen] gave, which the
    number identifies, or to the system's log. *)
Inductive log_line :=
| ToFile (fd : nat) (line : string)
| ToSyslog (line : string).

Record log_state := mk_log_state {
  lg_reopen : bool;
  lg_logfd : option nat;
}.

Abbreviation LG := (M log_state log_line).

Definition sighup_handler (s : log_state) : log_state := mk_log_state true (lg_logfd s).

Section log.
Context `{Vigor} `{Pcre}.

Record log_options := mk_log_options {
  lo_type : log_type;
  lo_all : bool;
  lo_re : pcre;
  lo_re_extra : pcre_extra;
}.

(** The lines that [s_log] writes, from the frames of a message. *)
Definition syslog_text (type name ts stale code summary : string) : string :=
  type +:+ ": " +:+ ts +:+ " " +:+ stale +:+ " " +:+ name +:+ " " +:+ code +:+ " " +:+ summary.

Definition file_text (type name ts stale code summary : string) : string :=
  "[" +:+ ts +:+ "] " +:+ type +:+ ": " +:+ stale +:+ " " +:+ name +:+ " " +:+ code +:+ " " +:+ summary +:+ nl.

(** Reopening the file: whether there is a file to write to afterwards.
    [fopen] is the answer of the system, should it be called. *)
Definition log_reopen (o : log_options) (fopen : option nat) : LG bool :=
  get ≫= λ s,
  match lg_reopen s, lo_type o with
  | true, TYPE_FILE =>
      lift (deref (lg_logfd s)) ≫= λ _,
      match fopen with
      | None => modify (λ _, mk_log_state true None) ≫= λ _, mret false
      | Some fd => modify (λ _, mk_log_state false (Some fd)) ≫= λ _, mret true
      end
  | _, _ => mret true
  end.

Definition s_log (o : log_options) (fopen : option nat) (p : pdu_t) : LG () :=
  log_reopen o fopen ≫= λ go,
  if negb go then mret () else
  lift (deref (pdu_string p 1)) ≫= λ name,
  lift (deref (pdu_string p 2)) ≫= λ ts,
  lift (deref (pdu_string p 3)) ≫= λ stale,
  lift (deref (pdu_string p 4)) ≫= λ code,
  lift (deref (pdu_string p 5)) ≫= λ summary,
  if pcre_exec (lo_re o) (lo_re_extra o) name =? 0 then
    match lo_type o with
    | TYPE_SYSLOG => emit (ToSyslog (syslog_text (pdu_type p) name ts stale code summary))
    | TYPE_FILE =>
        get ≫= λ s,
        lift (deref (lg_logfd s)) ≫= λ fd,
        emit (ToFile fd (file_text (pdu_type p) name ts stale code summary))
    end
  else mret ().

(** The body of the loop that receives messages. *)
Definition log_receive (o : log_options) (fopen : option nat) (p : pdu_t) : LG () :=
  (if lo_all o && streq (pdu_type p) "STATE" && (pdu_size p =? 6) then s_log o fopen p else mret ()) ≫= λ _,
  if streq (pdu_type p) "TRANSITION" && (pdu_size p =? 6) then s_log o fopen p else mret ().

(** What happens to the program: a signal, or a message with the answer of
    the system for the file that may be opened while it is handled. *)
Inductive log_event :=
| Hangup
| Received (fopen : option nat) (p : pdu_t).

Definition log_react (o : log_options) (e : log_event) : LG () :=
  match e with
  | Hangup => modify sighup_handler
  | Received fopen p => log_receive o fopen p
  end.

Definition log_loop (o : log_options) (es : list log_event) : LG () := for_each_m (log_react o) es.
End log.

(** ** Redis *)

(** hiredis: the reply to a command, [None] when the connection is gone. *)
Inductive redis_reply := ReplyOk | ReplyError (msg : string).

Section redis.
Context `{Vigor}.
Variable redisCommand : string → string → option redis_reply.

(** The commands [SET k v] that are sent. *)
Abbreviation RD := (M unit (string * string)).

Definition redis_set (k v : string) : RD () :=
  emit (k, v) ≫= λ _,
  lift (deref (redisCommand k v)) ≫= λ _,
  mret ().

Fixpoint redis_pairs (fuel : nat) (p : pdu_t) (i : Z) : RD () :=
  match fuel with
  | O => mret ()
  | S fuel' =>
      if i <? pdu_size p then
        lift (deref (pdu_string p i)) ≫= λ k,
        lift (deref (pdu_string p (i + 1))) ≫= λ v,
        redis_set k v ≫= λ _,
        redis_pairs fuel' p (i + 2)
      else mret ()
  end.

(** The body of the loop that receives messages. *)
Definition redis_receive (p : pdu_t) : RD () :=
  if streq (pdu_type p) "SET.KEYS" && ((pdu_size p `mod` 2) =? 1)
  then redis_pairs (Z.to_nat (pdu_size p)) p 1 else mret ().

Definition redis_loop (ps : list pdu_t) : RD () := for_each_m redis_receive ps.

(** The start of the program: [redis_err] is the [err] of the context that
    [redisConnect] gave, [None] when it gave none.  The message of a failed
    connection prints the number with [%s]. *)
Definition redis_connect (redis_err : option Z) : res bool :=
  match redis_err with
  | Some err => if err =? 0 then mret true else Fault BadFormat
  | None => mret true
  end.
End redis.

(** ** Tail *)

Definition MASK_STATE : Z := 0x01.
Definition MASK_TRANSITION : Z := 0x02.
Definition MASK_EVENT : Z := 0x04.
Definition MASK_RATE : Z := 0x08.
Definition MASK_COUNTER : Z := 0x10.
Definition MASK_SAMPLE : Z := 0x20.
Definition MASK_ALL_THE_THINGS : Z := 0x3f.

Section tail.
Context `{Vigor} `{Pcre}.

Record tail_options := mk_tail_options {
  to_mask : Z;
  to_re : pcre;
  to_re_extra : pcre_extra;
}.

(** The mask that a list of flags on the command line gives. *)
Definition tail_flag (c : ascii) (mask : Z) : Z :=
  (if ascii_dec c "T" then Z.lor mask MASK_TRANSITION
   else if ascii_dec c "R" then Z.lor mask MASK_RATE
   else if ascii_dec c "A" then Z.lor mask MASK_STATE
   else if ascii_dec c "C" then Z.lor mask MASK_COUNTER
   else if ascii_dec c "E" then Z.lor mask MASK_EVENT
   else if ascii_dec c "S" then Z.lor mask MASK_SAMPLE
   else mask)%char.

Definition tail_mask (flags : list ascii) : Z :=
  let mask := foldl (λ m c, tail_flag c m) 0 flags in
  if mask =? 0 then MASK_ALL_THE_THINGS else mask.

Fixpoint print_frames (fuel : nat) (p : pdu_t) (i : Z) : res string :=
  match fuel with
  | O => mret EmptyString
  | S fuel' =>
      if i <? pdu_size p then
        s ← deref (pdu_string p i);
        rest ← print_frames fuel' p (i + 1);
        mret (" " +:+ s +:+ rest)
      else mret EmptyString
  end.

(** What is printed. *)
Definition s_print (o : tail_options) (p : pdu_t) : res string :=
  filter ← deref (if streq (pdu_type p) "TRANSITION" || streq (pdu_type p) "STATE"
                  then pdu_string p 1 else pdu_string p 2);
  if pcre_exec (to_re o) (to_re_extra o) filter =? 0 then
    rest ← print_frames (Z.to_nat (pdu_size p)) p 1;
    mret (pdu_type p +:+ rest +:+ nl)
  else mret EmptyString.

(** The macro MATCH. *)
Definition MATCH (o : tail_options) (p : pdu_t) (bit : Z) (type : string) : bool :=
  negb (Z.land (to_mask o) bit =? 0) && streq (pdu_type p) type.

(** The body of the loop that receives messages. *)
Definition tail_receive (o : tail_options) (p : pdu_t) : res string :=
  if MATCH o p MASK_STATE "STATE" || MATCH o p MASK_TRANSITION "TRANSITION" || MATCH o p MASK_EVENT "EVENT"
     || MATCH o p MASK_RATE "RATE" || MATCH o p MASK_COUNTER "COUNTER" || MATCH o p MASK_SAMPLE "SAMPLE"
  then s_print o p else mret EmptyString.
End tail.
