(* ===== verification/SinksFacts.v ===== *)
(** * Theorems on the small subscribers

    The log misses no message across a rotation, and stops for good when its
    file cannot be opened again; Redis has the keys of the aggregator, and
    those that the aggregator has deleted; tail prints messages whole. *)

From S2P Require Import Prelude CLib Vigor Bytes Data Binf Core CoreFacts Windowed Reactor ReactorFacts KernelFacts CacheFacts Sinks.
From Stdlib Require Import Ascii.

(** ** The log *)

Section log.
Context `{VL : VigorLaws} `{Pcre}.
Variable o : log_options.
Hypothesis to_file : lo_type o = TYPE_FILE.

(** The messages that are looked at, and the line each of them gives. *)
Definition loggable (p : pdu_t) : bool :=
  (streq (pdu_type p) "TRANSITION" || lo_all o && streq (pdu_type p) "STATE") && (pdu_size p =? 6).

Definition line_of (p : pdu_t) : option string :=
  match pdu_frames p with
  | [type; name; ts; stale; code; summary] =>
      if loggable p && (pcre_exec (lo_re o) (lo_re_extra o) name =? 0)
      then Some (file_text type name ts stale code summary) else None
  | _ => None
  end.

Definition lines_of (es : list log_event) : list string :=
  omap (λ e, match e with Received _ p => line_of p | Hangup => None end) es.

Definition text_of (l : log_line) : string := match l with ToFile _ t | ToSyslog t => t end.

(** The files that the events can open. *)
Definition opens (es : list log_event) (fd : nat) : Prop := ∃ p, Received (Some fd) p ∈ es.

(** Every call to [fopen] that may come succeeds. *)
Definition opening (e : log_event) : Prop := match e with Received None _ => False | _ => True end.

Lemma receive_loggable f p s :
  log_receive o f p s = (if loggable p then s_log o f p else mret ()) s.
Proof using.
  unfold log_receive, loggable. destruct (streq (pdu_type p) "STATE") eqn:Es.
  - apply streq_eq in Es. rewrite Es. change (streq "STATE" "TRANSITION") with false.
    destruct (lo_all o), (pdu_size p =? 6); cbn [andb orb]; try by mstep.
    destruct (s_log o f p s) as [[[[] s1] o1]|e] eqn:E;
      [by erewrite M_run_bind by exact E; cbn; rewrite app_nil_r|by erewrite M_fault_bind].
  - rewrite !andb_false_r. cbn [andb]. mstep. by rewrite orb_false_r.
Qed.

Lemma loggable_frames p : loggable p = true → ∃ t n ts st c m, pdu_frames p = [t; n; ts; st; c; m].
Proof using VL.
  intros [_ H6]%andb_true_iff. apply Z.eqb_eq in H6. rewrite size_frames in H6.
  destruct (pdu_frames p) as [|a [|b [|c [|d [|e [|f [|g l]]]]]]]; cbn [length] in H6; try lia. by eexists _, _, _, _, _, _.
Qed.

(** With an open file, and no failure to open one. *)
Lemma s_log_writes f r fd p :
  loggable p = true →
  s_log o (Some f) p (mk_log_state r (Some fd)) =
    Ok ((), mk_log_state false (Some (if r then f else fd)), ToFile (if r then f else fd) <$> option_list (line_of p)).
Proof using VL to_file.
  intros Hl. destruct (loggable_frames p Hl) as (t & n & ts & st & c & m & Hf).
  unfold s_log, log_reopen, line_of. rewrite Hf, Hl, to_file. mstep. cbn [lg_reopen andb].
  rewrite !string_frames by lia. rewrite Hf.
  replace (pdu_type p) with t by (symmetry; by eapply pdu_type_of).
  change (Z.to_nat 1) with 1%nat. change (Z.to_nat 2) with 2%nat. change (Z.to_nat 3) with 3%nat.
  change (Z.to_nat 4) with 4%nat. change (Z.to_nat 5) with 5%nat.
  destruct r; cbn [lg_logfd deref lookup list_lookup]; mstep; cbn [negb]; mstep; by destruct (_ =? 0).
Qed.

(** Where a line may go: to a file that the events open, or to the one that
    was open when no hang-up was pending. *)
Definition target (es : list log_event) (r : bool) (fd f : nat) : Prop := opens es f ∨ r = false ∧ f = fd.

Definition sent_to (Q : nat → Prop) (l : log_line) : Prop := ∃ f t, l = ToFile f t ∧ Q f.

Lemma react_writes e r fd :
  opening e →
  ∃ r' fd' out, log_react o e (mk_log_state r (Some fd)) = Ok ((), mk_log_state r' (Some fd'), out) ∧
    text_of <$> out = lines_of [e] ∧ Forall (sent_to (target [e] r fd)) out ∧
    (r' = false → target [e] r fd fd').
Proof using VL to_file.
  intros He. destruct e as [|[f|] p]; [by eexists true, fd, []| |done]. cbn [log_react].
  rewrite receive_loggable. destruct (loggable p) eqn:El.
  - assert (target [Received (Some f) p] r fd (if r then f else fd)) as Ht.
    { destruct r; [left; exists p; by left|by right]. }
    rewrite (s_log_writes f r fd p El). eexists false, _, _. split_and!; [done| | |done].
    + unfold lines_of. cbn. by destruct (line_of p).
    + destruct (line_of p) as [t|]; cbn; [|constructor]. apply Forall_singleton. by eexists _, t.
  - eexists r, fd, []. split_and!; [done| |constructor|by right].
    unfold lines_of. cbn. unfold line_of. rewrite El. cbn. by repeat case_match.
Qed.

Lemma loop_writes es r fd :
  Forall opening es →
  ∃ s out, log_loop o es (mk_log_state r (Some fd)) = Ok ((), s, out) ∧ is_Some (lg_logfd s) ∧
    text_of <$> out = lines_of es ∧ Forall (sent_to (target es r fd)) out.
Proof using VL to_file.
  unfold log_loop. intros Hes. revert r fd. induction Hes as [|e es He Hes IH]; intros r fd.
  { eexists _, []. split_and!; [done|by eexists|done|constructor]. }
  destruct (react_writes e r fd He) as (r1 & fd1 & o1 & E1 & Ht1 & Hf1 & Hr1).
  destruct (IH r1 fd1) as (s2 & o2 & E2 & Hs2 & Ht2 & Hf2). exists s2, (o1 ++ o2).
  split_and!; [|done| |].
  - cbn [for_each_m]. erewrite M_run_bind by exact E1. by rewrite E2.
  - rewrite fmap_app, Ht1, Ht2. unfold lines_of. by rewrite <- omap_app.
  - apply Forall_app. split.
    + eapply Forall_impl; [exact Hf1|]. intros l (f & t & -> & Hf). exists f, t. split; [done|].
      destruct Hf as [[p Hp]|Hf]; [left; exists p|by right]. apply list_elem_of_singleton in Hp as <-. left.
    + eapply Forall_impl; [exact Hf2|]. intros l (f & t & -> & Hf). exists f, t. split; [done|].
      destruct Hf as [[p Hp]|[H1 ->]]; [left; exists p; by right|].
      destruct (Hr1 H1) as [[p Hp]|Hf]; [left; exists p|by right]. apply list_elem_of_singleton in Hp as <-. left.
Qed.

(** No line is lost when the log is rotated: the lines in the files are
    those of the messages, in their order, and what is written after a
    hang-up is in files that were opened after it, none of it in the file
    that was open before. *)
Theorem log_rotates es1 es2 r fd :
  Forall opening es1 → Forall opening es2 →
  ∃ s out1 out2, log_loop o (es1 ++ Hangup :: es2) (mk_log_state r (Some fd)) = Ok ((), s, out1 ++ out2) ∧
    text_of <$> out1 = lines_of es1 ∧ text_of <$> out2 = lines_of es2 ∧
    Forall (sent_to (opens es2)) out2.
Proof using VL to_file.
  intros H1 H2. destruct (loop_writes es1 r fd H1) as ([r1 fd1] & o1 & E1 & [fd1' Hfd] & Ht1 & _).
  cbn in Hfd. subst fd1. destruct (loop_writes es2 true fd1' H2) as (s2 & o2 & E2 & _ & Ht2 & Hf2).
  exists s2, o1, o2. split_and!; [|done|done|].
  - unfold log_loop in *. rewrite for_each_m_app. erewrite M_run_bind by exact E1.
    cbn [for_each_m log_react]. mstep. unfold sighup_handler. cbn [lg_logfd]. by rewrite E2.
  - eapply Forall_impl; [exact Hf2|]. intros l (f & t & -> & [Hf|[? _]]); [by exists f, t|done].
Qed.

(** ** A file that cannot be opened again *)

Lemma loop_ignores es s : Forall (λ e, ∃ f p, e = Received f p ∧ loggable p = false) es → log_loop o es s = Ok ((), s, []).
Proof using.
  unfold log_loop. induction 1 as [|e es (f & p & -> & Hp) _ IH]; [done|]. cbn [for_each_m log_react].
  erewrite M_run_bind by (rewrite receive_loggable, Hp; reflexivity). by rewrite IH.
Qed.

(** When the file cannot be opened after a hang-up, the message at hand
    is dropped, and the next message that is to be logged makes the program
    close a file that is not there. *)
Theorem log_reopen_failure p q mid f s :
  is_Some (lg_logfd s) → loggable p = true → loggable q = true →
  Forall (λ e, ∃ f p, e = Received f p ∧ loggable p = false) mid →
  log_loop o (Hangup :: Received None p :: mid) s = Ok ((), mk_log_state true None, []) ∧
  log_loop o (Hangup :: Received None p :: mid ++ [Received f q]) s = Fault NullPointer.
Proof using to_file.
  intros [fd Hfd] Hp Hq Hmid.
  assert (log_receive o None p (mk_log_state true (Some fd)) = Ok ((), mk_log_state true None, [])) as Ep.
  { rewrite receive_loggable, Hp. unfold s_log, log_reopen. rewrite to_file. mstep. by cbn. }
  assert (log_receive o f q (mk_log_state true None) = Fault NullPointer) as Eq.
  { rewrite receive_loggable, Hq. unfold s_log, log_reopen. rewrite to_file. mstep. by cbn. }
  pose proof (loop_ignores mid (mk_log_state true None) Hmid) as Em. unfold log_loop in *.
  split; cbn [for_each_m log_react]; mstep; unfold sighup_handler; rewrite Hfd; erewrite M_run_bind by exact Ep.
  - by rewrite Em.
  - rewrite for_each_m_app. erewrite M_run_bind by exact Em. cbn [for_each_m log_react].
    by erewrite M_fault_bind.
Qed.
End log.

(** ** Redis *)

Section redis.
Context `{VL : VigorLaws} `{Pcre}.
Variable redisCommand : string → string → option redis_reply.

(** The server answers every command. *)
Hypothesis answers : ∀ k v, is_Some (redisCommand k v).

Lemma redis_pairs_sets fuel p pre c :
  pdu_frames p = pre ++ pair_frames c → (length c < fuel)%nat →
  redis_pairs redisCommand fuel p (Z.of_nat (length pre)) () = Ok ((), (), c).
Proof using VL answers.
  revert fuel pre. induction c as [|[k v] c IH]; intros fuel pre Hp Hf; (destruct fuel as [|fuel]; [lia|]); cbn [redis_pairs].
  - rewrite size_frames, Hp, app_nil_r, Z.ltb_irrefl. done.
  - assert (pdu_frames p = (pre ++ [k; v]) ++ pair_frames c) as Hp' by (rewrite Hp, <- app_assoc; done).
    assert ((Z.of_nat (length pre) <? pdu_size p) = true) as ->.
    { apply Z.ltb_lt. rewrite size_frames, Hp', !length_app. cbn [length]. lia. }
    rewrite !string_frames, Hp by lia. replace (Z.to_nat (Z.of_nat (length pre) + 1)) with (length pre + 1)%nat by lia.
    change (pair_frames ((k, v) :: c)) with (k :: v :: pair_frames c).
    rewrite Nat2Z.id, (list_lookup_middle pre _ k (length pre)) by done. rewrite lookup_app_r by lia.
    replace (length pre + 1 - length pre)%nat with 1%nat by lia.
    cbn [lookup list_lookup deref]. mstep. unfold redis_set. destruct (answers k v) as [r ->]. cbn [deref]. mstep.
    replace (Z.of_nat (length pre) + 2) with (Z.of_nat (length (pre ++ [k; v]))) by (rewrite length_app; cbn [length]; lia).
    rewrite (IH fuel (pre ++ [k; v])); [done|done|cbn [length] in Hf; lia].
Qed.

Lemma redis_receive_sets p c :
  pdu_frames p = "SET.KEYS" :: pair_frames c → redis_receive redisCommand p () = Ok ((), (), c).
Proof using VL answers.
  intros Hp. assert (pdu_size p = 1 + 2 * Z.of_nat (length c)) as Hsz.
  { rewrite size_frames, Hp. cbn [length]. rewrite length_pair_frames. lia. }
  unfold redis_receive. rewrite (pdu_type_of _ _ _ Hp), Hsz. change (streq "SET.KEYS" "SET.KEYS") with true.
  assert ((((1 + 2 * Z.of_nat (length c)) `mod` 2) =? 1) = true) as -> by (apply Z.eqb_eq; zlia).
  cbn [andb]. apply (redis_pairs_sets _ p ["SET.KEYS"] c); [done|lia].
Qed.

Lemma redis_loop_sets chunks :
  Forall (λ c, pdu_frames (setkeys_pdu c) = "SET.KEYS" :: pair_frames c) chunks →
  redis_loop redisCommand (setkeys_pdu <$> chunks) () = Ok ((), (), concat chunks).
Proof using VL answers.
  unfold redis_loop. induction 1 as [|c chunks Hc _ IH]; [done|]. cbn [fmap list_fmap for_each_m concat].
  erewrite M_run_bind by (by apply redis_receive_sets). by rewrite IH.
Qed.

(** Whether the server answers a SET with OK. *)
Definition accepts (k v : string) : bool := match redisCommand k v with Some ReplyOk => true | _ => false end.

(** The server: a SET that it answers with OK is stored, and one that it
    answers with an error is not. *)
Definition stored (m : gmap string string) (sets : list (string * string)) : gmap string string :=
  foldl (λ m kv, if accepts kv.1 kv.2 then <[kv.1 := kv.2]> m else m) m sets.

Lemma stored_lookup m sets k :
  NoDup sets.*1 →
  stored m sets !! k =
    match (list_to_map sets : gmap string string) !! k with
    | Some v => if accepts k v then Some v else m !! k
    | None => m !! k
    end.
Proof using.
  revert m. induction sets as [|[k' v'] sets IH]; intros m Hnd; [done|]. cbn in Hnd. apply NoDup_cons in Hnd as [Hni Hnd].
  change (stored m ((k', v') :: sets)) with (stored (if accepts k' v' then <[k' := v']> m else m) sets).
  rewrite (IH _ Hnd). cbn [list_to_map foldr]. cbn. destruct (decide (k = k')) as [->|Hne].
  - rewrite lookup_insert_eq, (proj1 (not_elem_of_list_to_map _ _) Hni).
    destruct (accepts k' v'); [by rewrite lookup_insert_eq|done].
  - destruct (accepts k' v'); by rewrite !(lookup_insert_ne _ k' k) by done.
Qed.

Lemma live_keys l : NoDup l.*1 → NoDup (live l).*1 ∧ ∀ k v, (k, v) ∈ live l ↔ (k, Some v) ∈ l.
Proof using.
  intros Hnd. assert (∀ k v, (k, v) ∈ live l ↔ (k, Some v) ∈ l) as Hiff.
  { intros k v. unfold live. rewrite list_elem_of_omap. split.
    - intros ([k' [v'|]] & Hin & E); cbn in E; [|done]. by injection E as -> ->.
    - intros Hin. by exists (k, Some v). }
  split; [|done]. clear Hiff. induction l as [|[k [v|]] l IH]; [constructor| |]; cbn in Hnd; apply NoDup_cons in Hnd as [Hni Hnd].
  - cbn. apply NoDup_cons. split; [|by apply IH]. intros ([k' v'] & -> & Hin)%list_elem_of_fmap.
    unfold live in Hin. apply list_elem_of_omap in Hin as ([k2 [v2|]] & Hin & E); cbn in E; [|done].
    injection E as -> ->. apply Hni. apply list_elem_of_fmap. by exists (k', Some v').
  - by apply IH.
Qed.

(** C32: what the aggregator publishes about its keys makes the Redis server
    hold every key with its value, for each SET that the server answers with
    OK; a key whose SET is answered with an error, that the aggregator has
    deleted, or that it never had, keeps the value it has on the server.  The
    connection stays up: every command gets some reply. *)
Theorem redis_mirrors_keys k m :
  ∃ o sets, broadcast_setkeys k = Ok ((), k, o) ∧
    redis_loop redisCommand (broadcasts o) () = Ok ((), (), sets) ∧
    ∀ key, stored m sets !! key =
      match k_keys k !! key with
      | Some (Some v) => if accepts key v then Some v else m !! key
      | Some None | None => m !! key
      end.
Proof using VL answers.
  destruct (broadcast_setkeys_chunks k) as (chunks & E & Hcat & Hch & _).
  eexists _, (concat chunks). split; [exact E|]. split.
  - replace (broadcasts _) with (setkeys_pdu <$> chunks).
    + apply redis_loop_sets. eapply Forall_impl; [exact Hch|]. by intros c [? _].
    + clear. induction chunks as [|c chunks IH]; cbn; [done|]. f_equal. exact IH.
  - intros key. rewrite Hcat. destruct (live_keys (for_each (k_keys k)) (for_each_NoDup _)) as [Hnd Hin].
    rewrite stored_lookup by done.
    destruct (list_to_map (live _) !! key) as [v|] eqn:El.
    + apply elem_of_list_to_map in El; [|done]. apply Hin, elem_of_for_each in El. by rewrite El.
    + destruct (k_keys k !! key) as [[v|]|] eqn:Ek; [|done|done].
      apply not_elem_of_list_to_map in El. destruct El. apply list_elem_of_fmap. exists (key, v).
      split; [done|]. by apply Hin, elem_of_for_each.
Qed.
End redis.

(** ** Tail *)

Section tail.
Context `{VL : VigorLaws} `{Pcre}.

Lemma print_frames_rest fuel p pre fs :
  pdu_frames p = pre ++ fs → (length fs < fuel)%nat →
  print_frames fuel p (Z.of_nat (length pre)) = Ok (foldr (λ s r, " " +:+ s +:+ r) "" fs).
Proof using VL.
  revert fuel pre. induction fs as [|f fs IH]; intros fuel pre Hp Hf; (destruct fuel as [|fuel]; [lia|]); cbn [print_frames].
  - by rewrite size_frames, Hp, app_nil_r, Z.ltb_irrefl.
  - assert (pdu_frames p = (pre ++ [f]) ++ fs) as Hp' by (rewrite Hp, <- app_assoc; done).
    assert ((Z.of_nat (length pre) <? pdu_size p) = true) as ->.
    { apply Z.ltb_lt. rewrite size_frames, Hp', !length_app. cbn [length]. lia. }
    rewrite string_frames, Hp, Nat2Z.id, list_lookup_middle by lia. cbn [deref mbind res_bind].
    replace (Z.of_nat (length pre) + 1) with (Z.of_nat (length (pre ++ [f]))) by (rewrite length_app; cbn [length]; lia).
    rewrite (IH fuel (pre ++ [f])); [done|done|cbn [length] in Hf; lia].
Qed.

Lemma concat_spaced t fs : t +:+ foldr (λ s r, " " +:+ s +:+ r) "" fs = String.concat " " (t :: fs).
Proof using.
  revert t. induction fs as [|f fs IH]; intros t; [cbn [foldr String.concat]; by rewrite str_app_nil_r|].
  cbn [foldr]. rewrite IH. done.
Qed.

(** The types that tail shows: the flag of each, the bit of the mask, and the
    frame with the name. *)
Inductive shown : string → ascii → Z → Z → Prop :=
| shown_state : shown "STATE" "A" 0 1
| shown_transition : shown "TRANSITION" "T" 1 1
| shown_event : shown "EVENT" "E" 2 2
| shown_rate : shown "RATE" "R" 3 2
| shown_counter : shown "COUNTER" "C" 4 2
| shown_sample : shown "SAMPLE" "S" 5 2.

Lemma tail_flag_bit c m i : Z.testbit (tail_flag c m) i = Z.testbit m i || Z.testbit (tail_flag c 0) i.
Proof using.
  unfold tail_flag. repeat case_match; by rewrite ?Z.lor_spec, ?Z.lor_0_l, ?Z.bits_0, ?orb_false_r.
Qed.

Lemma flags_bit flags m i :
  Z.testbit (foldl (λ m c, tail_flag c m) m flags) i = Z.testbit m i || existsb (λ c, Z.testbit (tail_flag c 0) i) flags.
Proof using.
  revert m. induction flags as [|c flags IH]; intros m; cbn [foldl existsb]; [by rewrite orb_false_r|].
  by rewrite IH, tail_flag_bit, orb_assoc.
Qed.

(** Each flag has its own bit. *)
Lemma own_bit t c i j c' : shown t c i j → Z.testbit (tail_flag c' 0) i = bool_decide (c' = c).
Proof using.
  intros Hs. unfold tail_flag. destruct Hs; repeat case_match; subst; first [reflexivity|by rewrite bool_decide_eq_false_2].
Qed.

Lemma existsb_flag t c i j flags :
  shown t c i j → existsb (λ c', Z.testbit (tail_flag c' 0) i) flags = bool_decide (c ∈ flags).
Proof using.
  intros Hs. apply eq_true_iff_eq. rewrite existsb_exists, bool_decide_eq_true.
  setoid_rewrite (own_bit t c i j _ Hs). setoid_rewrite bool_decide_eq_true. setoid_rewrite <- list_elem_of_In.
  split; [by intros (x & Hx & ->)|by exists c].
Qed.

(** The bit of a type is set exactly when its flag is given, or none is. *)
Lemma mask_bit t c i j flags :
  shown t c i j → Forall (λ c', ∃ t' i' j', shown t' c' i' j') flags →
  Z.testbit (tail_mask flags) i = bool_decide (flags = [] ∨ c ∈ flags).
Proof using.
  intros Hs Hall. unfold tail_mask. set (m := foldl _ 0 flags).
  assert (∀ t c i j, shown t c i j → Z.testbit m i = bool_decide (c ∈ flags)) as Hm.
  { intros ???? Hx. unfold m. rewrite flags_bit, Z.bits_0. by eapply existsb_flag. }
  destruct (Z.eqb_spec m 0) as [Hz|Hz].
  - assert (flags = []) as ->.
    { destruct Hall as [|c' flags' (t' & i' & j' & Hc') _]; [done|]. pose proof (Hm _ _ _ _ Hc') as Hb.
      rewrite Hz, Z.bits_0 in Hb. symmetry in Hb. apply bool_decide_eq_false in Hb. destruct Hb. left. }
    destruct Hs; reflexivity.
  - rewrite (Hm _ _ _ _ Hs). apply bool_decide_ext. split; [by right|]. intros [->|?]; [|done]. by destruct Hz.
Qed.

Lemma match_bit o p t c i j type :
  shown t c i j → MATCH o p (Z.shiftl 1 i) type = Z.testbit (to_mask o) i && streq (pdu_type p) type.
Proof using.
  intros Hs. unfold MATCH. f_equal. apply eq_true_iff_eq. rewrite negb_true_iff, Z.eqb_neq.
  assert (0 ≤ i) as Hi by (destruct Hs; lia). split.
  - intros Hne. destruct (Z.testbit (to_mask o) i) eqn:E; [done|]. destruct Hne. apply Z.bits_inj'. intros n Hn.
    rewrite Z.land_spec, Z.bits_0, Z.shiftl_1_l. destruct (decide (n = i)) as [->|Hni]; [by rewrite E|].
    rewrite Z.pow2_bits_false by lia. apply andb_false_r.
  - intros Hb Hz. assert (Z.testbit (Z.land (to_mask o) (Z.shiftl 1 i)) i = false) as Hf by (by rewrite Hz, Z.bits_0).
    rewrite Z.land_spec, Hb, Z.shiftl_1_l, Z.pow2_bits_true in Hf by lia. done.
Qed.

(** With any of its flags, tail prints exactly the messages of the types
    that were asked for, or of all of them when none was, whose name matches
    the pattern; a message is printed whole, its frames separated by
    blanks. *)
Theorem tail_prints flags re extra p t c i j fs name :
  shown t c i j → Forall (λ c', ∃ t' i' j', shown t' c' i' j') flags →
  pdu_frames p = t :: fs → pdu_frames p !! Z.to_nat j = Some name →
  tail_receive (mk_tail_options (tail_mask flags) re extra) p =
    Ok (if decide ((flags = [] ∨ c ∈ flags) ∧ pcre_exec re extra name = 0)
        then String.concat " " (t :: fs) +:+ nl else "").
Proof using VL.
  intros Hs Hall Hp Hname. pose proof (mask_bit t c i j flags Hs Hall) as Hbit.
  set (o := mk_tail_options _ _ _). change (tail_mask flags) with (to_mask o) in Hbit.
  assert (tail_receive o p = if Z.testbit (to_mask o) i then s_print o p else Ok "") as ->.
  { unfold tail_receive.
    change MASK_STATE with (Z.shiftl 1 0). rewrite (match_bit o p _ _ _ _ _ shown_state).
    change MASK_TRANSITION with (Z.shiftl 1 1). rewrite (match_bit o p _ _ _ _ _ shown_transition).
    change MASK_EVENT with (Z.shiftl 1 2). rewrite (match_bit o p _ _ _ _ _ shown_event).
    change MASK_RATE with (Z.shiftl 1 3). rewrite (match_bit o p _ _ _ _ _ shown_rate).
    change MASK_COUNTER with (Z.shiftl 1 4). rewrite (match_bit o p _ _ _ _ _ shown_counter).
    change MASK_SAMPLE with (Z.shiftl 1 5). rewrite (match_bit o p _ _ _ _ _ shown_sample).
    rewrite (pdu_type_of _ _ _ Hp). clear Hbit Hname.
    destruct Hs; cbv [streq String.eqb Ascii.eqb Bool.eqb]; by rewrite ?andb_false_r, ?andb_true_r, ?orb_false_r. }
  assert (s_print o p = if pcre_exec re extra name =? 0 then Ok (String.concat " " (t :: fs) +:+ nl) else Ok "") as ->.
  { unfold s_print. rewrite (pdu_type_of _ _ _ Hp).
    assert (pdu_string p j = Some name) as Hj by (rewrite string_frames; [done|destruct Hs; lia]).
    assert ((if streq t "TRANSITION" || streq t "STATE" then pdu_string p 1 else pdu_string p 2) = Some name) as ->
      by (by destruct Hs).
    cbn [deref mbind res_bind]. destruct (pcre_exec _ _ name =? 0); [|done].
    rewrite (print_frames_rest _ p [t] fs Hp) by (rewrite size_frames, Hp; cbn [length]; lia).
    cbn [mbind res_bind]. by rewrite <- str_app_assoc, concat_spaced. }
  rewrite Hbit. destruct (Z.eqb_spec (pcre_exec re extra name) 0); repeat case_decide; try tauto; case_bool_decide; tauto.
Qed.
End tail.

(** ** Examples *)

Module SinksExample.
Definition o : @log_options ref_pcre := mk_log_options (H0 := ref_pcre) TYPE_FILE true "disk" tt.
Definition p : string * list string := ("TRANSITION", ["host.disk"; "1995"; "fresh"; "CRITICAL"; "full"]).
Definition q : string * list string := ("STATE", ["host.disk"; "2055"; "fresh"; "CRITICAL"; "full"]).
Definition r : string * list string := ("COUNTER", ["2056"; "host.logins"; "7"]).
Definition hup : @log_event ref_vigor := Hangup (H := ref_vigor).
Definition got (f : option nat) (m : string * list string) : @log_event ref_vigor := Received (H := ref_vigor) f m.
End SinksExample.

Lemma log_rotates_witness :
  ∃ s out1 out2,
    log_loop (H := ref_vigor) (H0 := ref_pcre) SinksExample.o
      ([SinksExample.got (Some 2%nat) SinksExample.p] ++ SinksExample.hup :: [SinksExample.got (Some 3%nat) SinksExample.q])
      (mk_log_state false (Some 1%nat)) = Ok ((), s, out1 ++ out2) ∧
    text_of <$> out2 = ["[2055] STATE: fresh host.disk CRITICAL full" +:+ nl] ∧
    Forall (sent_to (opens (V := ref_vigor) [SinksExample.got (Some 3%nat) SinksExample.q])) out2.
Proof.
  destruct (log_rotates (VL := ref_vigor_laws) (H := ref_pcre) SinksExample.o eq_refl
    [SinksExample.got (Some 2%nat) SinksExample.p] [SinksExample.got (Some 3%nat) SinksExample.q] false 1%nat)
    as (s & o1 & o2 & E & _ & H2 & H3); [by apply Forall_singleton|by apply Forall_singleton|].
  exists s, o1, o2. split; [exact E|]. split; [|exact H3]. rewrite H2. vm_compute. reflexivity.
Defined.

Lemma log_reopen_failure_witness :
  log_loop (H := ref_vigor) (H0 := ref_pcre) SinksExample.o
    (SinksExample.hup :: SinksExample.got None SinksExample.p :: [SinksExample.got None SinksExample.r]
       ++ [SinksExample.got (Some 2%nat) SinksExample.q])
    (mk_log_state false (Some 1%nat)) = Fault NullPointer.
Proof.
  apply (log_reopen_failure (V := ref_vigor) (H := ref_pcre) SinksExample.o eq_refl SinksExample.p SinksExample.q
    [SinksExample.got None SinksExample.r] (Some 2%nat) (mk_log_state false (Some 1%nat)));
    [by exists 1%nat|vm_compute; reflexivity|vm_compute; reflexivity|].
  apply Forall_singleton. exists None, SinksExample.r. split; [reflexivity|vm_compute; reflexivity].
Defined.

(** The key that was deleted keeps the value that the server has. *)
(** A server that refuses one of the keys. *)
Definition demo_redis (k v : string) : option redis_reply :=
  Some (if streq k "frozen" then ReplyError "READONLY" else ReplyOk).

Lemma redis_mirrors_keys_witness :
  ∃ o sets, broadcast_setkeys (H := ref_vigor) (H0 := ref_pcre) CoreExample.k = Ok ((), CoreExample.k, o) ∧
    redis_loop (H := ref_vigor) demo_redis (broadcasts (V := ref_vigor) o) () = Ok ((), (), sets) ∧
    stored demo_redis {["gone" := "x"; "role" := "old"]} sets !! "gone" = Some "x" ∧
    stored demo_redis {["gone" := "x"; "role" := "old"]} sets !! "role" = Some "web".
Proof.
  destruct (redis_mirrors_keys (VL := ref_vigor_laws) (H := ref_pcre) demo_redis
    (λ _ _, mk_is_Some _ _ eq_refl) CoreExample.k {["gone" := "x"; "role" := "old"]}) as (o & sets & Eb & E & Hs).
  exists o, sets. split; [exact Eb|]. split; [exact E|]. rewrite !Hs. split; vm_compute; reflexivity.
Defined.

Lemma tail_prints_witness :
  tail_receive (H := ref_vigor) (H0 := ref_pcre) (mk_tail_options (H0 := ref_pcre) (tail_mask ["C"%char; "E"%char]) "host" tt) SinksExample.r
  = Ok ("COUNTER 2056 host.logins 7" +:+ nl).
Proof.
  rewrite (tail_prints (VL := ref_vigor_laws) (H := ref_pcre) ["C"%char; "E"%char] "host" tt SinksExample.r
    "COUNTER" "C" 4 2 ["2056"; "host.logins"; "7"] "host.logins" shown_counter).
  - vm_compute. reflexivity.
  - apply Forall_cons. split; [eexists _, _, _; apply shown_counter|].
    apply Forall_singleton. eexists _, _, _. apply shown_event.
  - reflexivity.
  - reflexivity.
Defined.
