(* ===== verification/Console.v ===== *)
(** * The console: src/bolo2console/main.c

    A subscriber that draws a table of metrics on a terminal: the name, the
    last value, a graph of the last windows, the least and the largest value.
    Each metric has a ring of 256 slots; all rings share one fill pointer,
    which the scheduler advances, and one start pointer.

    ncurses is the list of its calls that print ([draw]); colours are left
    out.  The size of the terminal, the key that was pressed, the process id
    and the contents of the stack where a variable is read before it is set
    are arguments.  [long double] is the 80-bit format of the x86. *)

From S2P Require Import Prelude CLib Vigor Bytes Data Binf Core Config Pdu Subscriber Startup Threads Sinks.
From Stdlib Require Import Ascii Floats.SpecFloat.

(** ** Numbers *)

Abbreviation ldouble := spec_float.
Definition lprec : Z := 64.
Definition lemax : Z := 16384.
Definition l_of_Z (z : Z) : ldouble := binary_normalize lprec lemax z 0 false.
Definition ladd : ldouble → ldouble → ldouble := SFadd lprec lemax.
Definition lsub : ldouble → ldouble → ldouble := SFsub lprec lemax.
Definition lmul : ldouble → ldouble → ldouble := SFmul lprec lemax.
Definition ldiv : ldouble → ldouble → ldouble := SFdiv lprec lemax.
Definition strtold : string → ldouble * string := scan_float (f_of_decimal lprec lemax 4940 (-4980)).
Definition l_isnan (v : ldouble) : bool := match v with S754_nan => true | _ => false end.

Definition fmt_6_2Lf (v : ldouble) : string := pad_left 6 (fmt_fixed 2 v).

(** The unit and the value in that unit. *)
Definition simplify (value : ldouble) : ldouble * ascii :=
  let ge f := SFleb (l_of_Z f) value in
  if ge (10 ^ 12) then (ldiv value (l_of_Z (10 ^ 12)), "t"%char)
  else if ge (10 ^ 9) then (ldiv value (l_of_Z (10 ^ 9)), "g"%char)
  else if ge (10 ^ 6) then (ldiv value (l_of_Z (10 ^ 6)), "m"%char)
  else if ge (10 ^ 3) then (ldiv value (l_of_Z (10 ^ 3)), "k"%char)
  else (value, " "%char).

Definition spread (min max : ldouble) : bool := SFltb (l_of_Z 10) (lsub max min).

(** ** The state *)

Definition MAX_VALUES : Z := 256.

Record cmetric := mk_cmetric {
  mt_name : string;
  mt_type : ascii;
  mt_set : list bool;
  mt_val : list ldouble;
}.

(** What is drawn. *)
Inductive draw :=
| MvPrint (y x : Z) (s : string)
| Print (s : string)
| ClearToEol
| Refresh.

Inductive key := KEY_UP | KEY_DOWN | KEY_NONE.

Record console_env := mk_console_env {
  ce_height : Z;
  ce_width : Z;
  ce_junk : ldouble;  (* [last], before it is set *)
  ce_key : key;       (* getch() *)
  ce_pid : Z;
  ce_version : string;
}.

Section console.
Context `{Vigor} `{Pcre}.

(** What the command line and the environment give. *)
Record console_options := mk_console_options {
  co_window : Z;
  co_status_top : string;
  co_status_bottom : string;
  co_endpoint : option string;
  co_message : option string;
  co_pattern : option string;
  co_mask : Z;
  co_re : pcre;
  co_re_extra : pcre_extra;
}.

(** [total] is the length of [metrics]. *)
Record artist_t := mk_artist {
  ar_height : Z;
  ar_width : Z;
  ar_voffset : Z;
  ar_metrics : list cmetric;
  ar_tick : Z;
  ar_visible : Z;
  ar_start : Z;
  ar_fill : Z;
  ar_w_name : Z;
  ar_w_graph : Z;
}.

Definition ar_total (a : artist_t) : Z := Z.of_nat (length (ar_metrics a)).

Definition set_screen (h w visible w_graph : Z) (a : artist_t) : artist_t :=
  mk_artist h w (ar_voffset a) (ar_metrics a) (ar_tick a) visible (ar_start a) (ar_fill a) (ar_w_name a) w_graph.
Definition set_visible (v : Z) (a : artist_t) : artist_t :=
  set_screen (ar_height a) (ar_width a) v (ar_w_graph a) a.
Definition set_voffset (v : Z) (a : artist_t) : artist_t :=
  mk_artist (ar_height a) (ar_width a) v (ar_metrics a) (ar_tick a) (ar_visible a) (ar_start a) (ar_fill a)
    (ar_w_name a) (ar_w_graph a).
Definition ar_set_metrics (ms : list cmetric) (a : artist_t) : artist_t :=
  mk_artist (ar_height a) (ar_width a) (ar_voffset a) ms (ar_tick a) (ar_visible a) (ar_start a) (ar_fill a)
    (ar_w_name a) (ar_w_graph a).
Definition set_w_name (w : Z) (a : artist_t) : artist_t :=
  mk_artist (ar_height a) (ar_width a) (ar_voffset a) (ar_metrics a) (ar_tick a) (ar_visible a) (ar_start a)
    (ar_fill a) w (ar_w_graph a).
Definition ar_set_tick (t : Z) (a : artist_t) : artist_t :=
  mk_artist (ar_height a) (ar_width a) (ar_voffset a) (ar_metrics a) t (ar_visible a) (ar_start a)
    (ar_fill a) (ar_w_name a) (ar_w_graph a).
Definition set_fill (f : Z) (a : artist_t) : artist_t :=
  mk_artist (ar_height a) (ar_width a) (ar_voffset a) (ar_metrics a) (ar_tick a) (ar_visible a) (ar_start a)
    f (ar_w_name a) (ar_w_graph a).

Definition artist_new : artist_t := mk_artist 0 0 0 [] 0 0 0 0 0 0.

(** Arrays of [MAX_VALUES] elements. *)
Definition aget {A} (l : list A) (j : Z) : res A :=
  if 0 <=? j then match l !! Z.to_nat j with Some x => Ok x | None => Fault OutOfBounds end
  else Fault OutOfBounds.
Definition aset {A} (l : list A) (j : Z) (x : A) : res (list A) :=
  if (0 <=? j) && (j <? Z.of_nat (length l)) then Ok (<[Z.to_nat j := x]> l) else Fault OutOfBounds.

(** ** Values *)

Definition s_update_metric (fill : Z) (m : cmetric) (value : option string) : res cmetric :=
  value ← deref value;
  let '(v, err) := strtold value in
  if negb (streq err "") then mret m
  else if l_isnan v then mret m
  else
    set ← aset (mt_set m) fill true;
    val ← aset (mt_val m) fill v;
    mret (mk_cmetric (mt_name m) (mt_type m) set val).

(** The index of the metric; the name is read when the type is right. *)
Fixpoint s_find_metric (ms : list cmetric) (type : ascii) (name : option string) : res (option nat) :=
  match ms with
  | [] => mret None
  | m :: ms' =>
      if Ascii.eqb (mt_type m) type then
        n ← deref name;
        if streq (mt_name m) n then mret (Some 0%nat)
        else r ← s_find_metric ms' type name; mret (option_map S r)
      else r ← s_find_metric ms' type name; mret (option_map S r)
  end.

Definition cmetric_new (type : ascii) (name : string) : cmetric :=
  mk_cmetric name type (replicate 256 false) (replicate 256 (S754_zero false)).

Definition s_insert_metric (type : ascii) (name : string) (value : option string) (a : artist_t) : res artist_t :=
  m ← s_update_metric (ar_fill a) (cmetric_new type name) value;
  let a := ar_set_metrics (ar_metrics a ++ [m]) a in
  mret (if ar_w_name a <? strlen name then set_w_name (strlen name) a else a).

(** The type of a message and the frame with the value, for the messages
    that are drawn. *)
Definition ingested (type : string) : option (ascii * Z) :=
  if streq type "RATE" then Some ("R"%char, 4)
  else if streq type "COUNTER" then Some ("C"%char, 3)
  else if streq type "SAMPLE" then Some ("S"%char, 7)
  else None.

Definition s_ingest (o : console_options) (p : pdu_t) (a : artist_t) : res artist_t :=
  match ingested (pdu_type p) with
  | None => mret a
  | Some (type, i) =>
      let name := pdu_string p 2 in
      let value := pdu_string p i in
      found ← s_find_metric (ar_metrics a) type name;
      match found with
      | Some x =>
          m ← aget (ar_metrics a) (Z.of_nat x);
          m ← s_update_metric (ar_fill a) m value;
          mret (ar_set_metrics (<[x := m]> (ar_metrics a)) a)
      | None =>
          n ← deref name;
          if pcre_exec (co_re o) (co_re_extra o) n =? 0 then s_insert_metric type n value a else mret a
      end
  end.

(** ** Drawing a row *)

(** [for (j = fill; j != start; j--)]: the first value that is set. *)
Fixpoint last_set (fuel : nat) (m : cmetric) (j start : Z) (last : ldouble) : res ldouble :=
  match fuel with
  | O => mret last
  | S fuel' =>
      if j =? start then mret last
      else
        s ← aget (mt_set m) j;
        if s : bool then aget (mt_val m) j else last_set fuel' m (j - 1) start last
  end.

Fixpoint min_max (fuel : nat) (m : cmetric) (j start : Z) (mm : ldouble * ldouble) : res (ldouble * ldouble) :=
  match fuel with
  | O => mret mm
  | S fuel' =>
      if j =? start then mret mm
      else
        s ← aget (mt_set m) j;
        if s : bool then
          v ← aget (mt_val m) j;
          let '(mn, mx) := mm in
          min_max fuel' m (j - 1) start
            (if SFltb mx v then (mn, v) else if SFltb v mn then (v, mx) else (mn, mx))
        else min_max fuel' m (j - 1) start mm
  end.

(** The limits of the five bars, from the least and the largest value. *)
Definition limits (min max : ldouble) : list ldouble :=
  let l := ldiv (lsub max min) (l_of_Z 5) in
  (λ x, ladd x min) <$> [l; lmul l (l_of_Z 2); lmul l (l_of_Z 3); lmul l (l_of_Z 4)].

(** The last byte of a bar. *)
Definition bar (flat : bool) (lim : list ldouble) (v : ldouble) : ascii :=
  let below i := match lim !! i with Some l => SFltb v l | None => false end in
  chr (if flat then 0x82
       else if below 0%nat then 0x82
       else if below 1%nat then 0x83
       else if below 2%nat then 0x85
       else if below 3%nat then 0x86
       else 0x87).

(** The bytes that a slot adds to the graph, which is built backwards. *)
Definition cell (flat : bool) (lim : list ldouble) (v : option ldouble) : list ascii :=
  match v with
  | Some v => [bar flat lim v; chr 0x96; chr 0xe2]
  | None => [" "%char]
  end.

Definition graph_size : Z := MAX_VALUES * 3 + 1.

(** The bytes before the terminator, and how many slots they show. *)
Fixpoint graph_loop (fuel : nat) (flat : bool) (lim : list ldouble) (m : cmetric) (w j start n : Z)
    (graph : list ascii) : res (list ascii * Z) :=
  match fuel with
  | O => mret (graph, n)
  | S fuel' =>
      if (n <? w) && negb (j =? start) then
        s ← aget (mt_set m) j;
        v ← (if s : bool then v ← aget (mt_val m) j; mret (Some v) else mret None);
        let graph := graph ++ cell flat lim v in
        if graph_size <? Z.of_nat (length graph) then Fault OutOfBounds
        else
          let j := j - 1 in
          graph_loop fuel' flat lim m w (if j <? 0 then MAX_VALUES - 1 else j) start (n + 1) graph
      else mret (graph, n)
  end.

(** [for (n = 0, b--; b >= 0 && n < b; n++, b--)]: swapping in place. *)
Fixpoint swap_loop (fuel : nat) (n b : Z) (g : list ascii) : list ascii :=
  match fuel with
  | O => g
  | S fuel' =>
      if (0 <=? b) && (n <? b) then
        match g !! Z.to_nat n, g !! Z.to_nat b with
        | Some x, Some y => swap_loop fuel' (n + 1) (b - 1) (<[Z.to_nat b := x]> (<[Z.to_nat n := y]> g))
        | _, _ => g
        end
      else g
  end.

Definition dots_size : Z := 2048.

Fixpoint dots (n : nat) : string := match n with O => "" | S n' => "." +:+ dots n' end.

(** One row of the table: what is printed for the metric [m] on line [1 + i]. *)
Definition draw_row (e : console_env) (a : artist_t) (i : Z) (m : cmetric) : res (list draw) :=
  last ← last_set 257 m (ar_fill a) (ar_start a) (ce_junk e);
  '(min, max) ← min_max 257 m (ar_fill a) (ar_start a) (last, last);
  let lim := limits min max in
  let '(min, min_u) := simplify min in
  let '(max, max_u) := simplify max in
  '(graph, n) ← graph_loop 257 (negb (spread min max)) lim m (ar_w_graph a) (ar_fill a) (ar_start a) 0 [];
  if graph_size <=? Z.of_nat (length graph) then Fault OutOfBounds
  else if negb ((0 <=? ar_w_graph a - n) && (ar_w_graph a - n <? dots_size)) then Fault OutOfBounds
  else
    let graph := String.string_of_list_ascii (swap_loop (length graph) 0 (Z.of_nat (length graph) - 1) graph) in
    let '(last, u) := simplify last in
    mret (MvPrint (1 + i) 0
            (" " +:+ str1 (mt_type m) +:+ "  " +:+ pad_right (ar_w_name a) (mt_name m) +:+ "  " +:+ fmt_6_2Lf last
             +:+ " " +:+ str1 u +:+ "  " +:+ graph +:+ " ")
          :: if spread min max
             then [Print (dots (Z.to_nat (ar_w_graph a - n)));
                   Print ("  " +:+ fmt_6_2Lf min +:+ " " +:+ str1 min_u +:+ " / " +:+ fmt_6_2Lf max +:+ " " +:+ str1 max_u)]
             else [ClearToEol]).

Abbreviation CM := (M artist_t draw).

(** The rows, from the first one that is visible. *)
Fixpoint draw_rows (e : console_env) (i : Z) (ms : list cmetric) : CM () :=
  match ms with
  | [] => mret ()
  | m :: ms' =>
      get ≫= λ a,
      if i <? ar_height a - 2 then
        modify (set_visible (ar_visible a + 1)) ≫= λ _,
        lift (draw_row e a i m) ≫= λ ds,
        for_each_m emit ds ≫= λ _,
        draw_rows e (i + 1) ms'
      else mret ()
  end.

(** ** The status lines *)

(** The three buffers, the number of separators seen and the offset in the
    current buffer. *)
Record sl_state := mk_sl {
  sl_left : string;
  sl_center : string;
  sl_right : string;
  sl_ss : Z;
  sl_n : Z;
}.

Definition sl_put (text : string) (step : Z) (st : sl_state) : res sl_state :=
  let n := sl_n st in
  if sl_ss st =? 0 then
    b ← mem_write n text (sl_left st); mret (mk_sl b (sl_center st) (sl_right st) (sl_ss st) (n + step))
  else if sl_ss st =? 1 then
    b ← mem_write n text (sl_center st); mret (mk_sl (sl_left st) b (sl_right st) (sl_ss st) (n + step))
  else
    b ← mem_write n text (sl_right st); mret (mk_sl (sl_left st) (sl_center st) b (sl_ss st) (n + step)).

(** [*b++ = c; n++] *)
Definition sl_char (c : ascii) (st : sl_state) : res sl_state := sl_put (str1 c) 1 st.

(** [nf = snprintf(b, width - n, ...); n += nf; b += nf] *)
Definition sl_snprintf (width : Z) (text : string) (st : sl_state) : res sl_state :=
  let size := width - sl_n st in
  if size =? 0 then mret (mk_sl (sl_left st) (sl_center st) (sl_right st) (sl_ss st) (sl_n st + strlen text))
  else sl_put (take_str (Z.to_nat (size - 1)) text +:+ str1 NUL) (strlen text) st.

(** [(unsigned long)d] *)
Definition d_to_u64 (d : double) : res Z :=
  match d_trunc d with
  | Some z => if (0 <=? z) && (z <? 2 ^ 64) then Ok z else Fault BadConversion
  | None => Fault BadConversion
  end.

Definition percentage (a : artist_t) : res string :=
  if ar_total a =? u64 (ar_voffset a + ar_visible a) then mret "100%"
  else
    n ← d_to_u64 (dmul (ddiv (dadd (d_of_Z (u64 (ar_voffset a + ar_visible a))) (S754_finite false 4503599627370496 (-53)))
                             (d_of_Z (ar_total a))) (d_of_Z 100));
    mret (fmt_lu n +:+ "%").

Definition flag (o : console_options) (bit : Z) (c : ascii) : string :=
  str1 (if Z.land (co_mask o) bit =? 0 then "."%char else c).

(** What a letter after [%] stands for; [None] when nothing is printed. *)
Definition sl_field (e : console_env) (o : console_options) (a : artist_t) (c : ascii) : res (option string) :=
  if ascii_dec c "v" then mret (Some (ce_version e))
  else if ascii_dec c "e" then mret (Some (default "~" (co_endpoint o)))
  else if ascii_dec c "m" then mret (co_message o)
  else if ascii_dec c "F" then
    mret (Some (flag o MASK_TRANSITION "T" +:+ flag o MASK_RATE "R" +:+ flag o MASK_STATE "A"
                +:+ flag o MASK_COUNTER "C" +:+ flag o MASK_EVENT "E" +:+ flag o MASK_SAMPLE "S"))
  else if ascii_dec c "M" then mret (co_pattern o)
  else if ascii_dec c "n" then mret (Some (fmt_lu (ar_visible a)))
  else if ascii_dec c "N" then mret (Some (fmt_lu (ar_total a)))
  else if ascii_dec c "p" then s ← percentage a; mret (Some s)
  else if ascii_dec c "P" then mret (Some (fmt_i (ce_pid e)))
  else mret None.

(** The format; [None] when it ends in [%]. *)
Fixpoint sl_loop (e : console_env) (o : console_options) (a : artist_t) (fmt : string) (st : sl_state)
    : res (option sl_state) :=
  match fmt with
  | EmptyString => mret (Some st)
  | String c rest =>
      if sl_n st <=? ar_width a then
        if ascii_dec c "%" then
          match rest with
          | EmptyString => mret None
          | String d rest' =>
              st ← (if ascii_dec d "%" then sl_char "%" st
                    else text ← sl_field e o a d;
                         match text with
                         | Some text => sl_snprintf (ar_width a) text st
                         | None => mret st
                         end);
              sl_loop e o a rest' st
          end
        else if ascii_dec c "|" then
          (if sl_ss st <? 2
           then sl_loop e o a rest (mk_sl (sl_left st) (sl_center st) (sl_right st) (sl_ss st + 1) 0)
           else st ← sl_char "|" (mk_sl (sl_left st) (sl_center st) (sl_right st) (sl_ss st + 1) (sl_n st));
                sl_loop e o a rest st)
        else st ← sl_char c st; sl_loop e o a rest st
      else mret (Some st)
  end.

(** A string that is used as a format without arguments. *)
Fixpoint printf_bare (fmt : string) : res string :=
  match fmt with
  | EmptyString => mret EmptyString
  | String c rest =>
      if ascii_dec c "%" then
        match rest with
        | String d rest' => if ascii_dec d "%" then s ← printf_bare rest'; mret (String "%" s) else Fault BadFormat
        | EmptyString => Fault BadFormat
        end
      else s ← printf_bare rest; mret (String c s)
  end.

Definition s_statusline (e : console_env) (o : console_options) (fmt : string) (top : bool) (a : artist_t)
    : res (list draw) :=
  let buf := zeros (Z.to_nat (ar_width a + 1)) in
  r ← sl_loop e o a fmt (mk_sl buf buf buf 0 0);
  match r with
  | None => mret []
  | Some st =>
      let y := if top then 0 else ar_height a - 1 in
      left ← mem_string 0 (sl_left st);
      right ← mem_string 0 (sl_right st);
      center ← mem_string 0 (sl_center st);
      text ← printf_bare center;
      mret [MvPrint y 0 (pad_right (ar_width a) left);
            MvPrint y (s32 (ar_width a - strlen right)) right;
            MvPrint y (s32 (u64 (ar_width a - strlen right - strlen left - strlen center) / 2)) text]
  end.

(** ** The reactor *)

Definition s_redraw (e : console_env) (o : console_options) : CM () :=
  modify (λ a, set_screen (ce_height e) (ce_width e) 0 (ce_width e - 4 - ar_w_name a - 12 - 23 - 1) a) ≫= λ _,
  get ≫= λ a,
  draw_rows e 0 (drop (Z.to_nat (ar_voffset a)) (ar_metrics a)) ≫= λ _,
  get ≫= λ a,
  lift (s_statusline e o (co_status_top o) true a) ≫= λ ds,
  for_each_m emit ds ≫= λ _,
  lift (s_statusline e o (co_status_bottom o) false a) ≫= λ ds,
  for_each_m emit ds ≫= λ _,
  emit Refresh.

(** Moving the fill pointer: the slot is cleared in every metric. *)
Definition clear_slot (fill : Z) (m : cmetric) : res cmetric :=
  set ← aset (mt_set m) fill false;
  mret (mk_cmetric (mt_name m) (mt_type m) set (mt_val m)).

Fixpoint clear_slots (fill : Z) (ms : list cmetric) : res (list cmetric) :=
  match ms with
  | [] => mret []
  | m :: ms' => m ← clear_slot fill m; ms' ← clear_slots fill ms'; mret (m :: ms')
  end.

Definition artist_advance (a : artist_t) : res artist_t :=
  let fill := ar_fill a + 1 in
  let fill := if MAX_VALUES <=? fill then 0 else fill in
  ms ← clear_slots fill (ar_metrics a);
  mret (ar_set_metrics ms (set_fill fill a)).

Definition artist_tock (e : console_env) (o : console_options) : CM () :=
  get ≫= λ a,
  (if co_window o =? 0 then lift (Fault DivByZero)
   else modify (ar_set_tick (Z.rem (ar_tick a + 1) (co_window o)))) ≫= λ _,
  get ≫= λ a,
  (if ar_tick a =? 0
   then lift (artist_advance a) ≫= λ a', modify (λ _, a') ≫= λ _, s_redraw e o
   else mret ()) ≫= λ _,
  get ≫= λ a,
  match ce_key e with
  | KEY_UP =>
      if 0 <? ar_voffset a then modify (set_voffset (ar_voffset a - 1)) ≫= λ _, s_redraw e o else mret ()
  | KEY_DOWN =>
      if (u64 (ar_height a) <? ar_total a) && (ar_voffset a <? u64 (ar_total a - (ar_height a - 2)))
      then modify (set_voffset (ar_voffset a + 1)) ≫= λ _, s_redraw e o else mret ()
  | KEY_NONE => mret ()
  end.

Definition co_match (o : console_options) (p : pdu_t) (bit : Z) (type : string) : bool :=
  negb (Z.land (co_mask o) bit =? 0) && streq (pdu_type p) type.

Definition on_broadcast (e : console_env) (o : console_options) (p : pdu_t) : CM () :=
  if co_match o p MASK_STATE "STATE" || co_match o p MASK_TRANSITION "TRANSITION" || co_match o p MASK_EVENT "EVENT"
     || co_match o p MASK_RATE "RATE" || co_match o p MASK_COUNTER "COUNTER" || co_match o p MASK_SAMPLE "SAMPLE"
  then get ≫= λ a, lift (s_ingest o p a) ≫= λ a', modify (λ _, a') ≫= λ _, s_redraw e o
  else mret ().

Definition _artist_reactor (e : console_env) (o : console_options) (s : tsocket) (p : pdu_t) : CM treaction :=
  match s with
  | TControl => mret (if streq (pdu_type p) "TERMINATE" then THalt else TContinue)
  | TTock => artist_tock e o ≫= λ _, mret TContinue
  | TSubscriber => on_broadcast e o p ≫= λ _, mret TContinue
  | _ => mret THalt
  end.

(** ** Start *)

(** The answers of 0MQ, of the reactor and of the thread library. *)
Record artist_wiring := mk_artist_wiring {
  aw_control : bool * Z * Z;
  aw_tock : bool * Z * Z;
  aw_subscriber : bool * Z * Z;   (* zmq_setsockopt, then vzmq_connect_af *)
  aw_reactor : bool;
  aw_set_control : Z;
  aw_set_subscriber : Z;
  aw_set_tock : Z;
  aw_pthread : Z;
}.

Definition artist_thread (w : artist_wiring) : Z :=
  let '(s1, c1, o1) := aw_control w in
  let '(s2, c2, o2) := aw_tock w in
  let '(s3, o3, c3) := aw_subscriber w in
  first_error
    [bolo_subscriber_connect_supervisor s1 c1 o1;
     bolo_subscriber_connect_scheduler s2 c2 o2;
     open_socket s3 [o3; c3];
     if aw_reactor w then 0 else -1;
     aw_set_control w; aw_set_subscriber w; aw_set_tock w; aw_pthread w].

(** The window on the command line is in seconds and the scheduler ticks ten
    times a second; [None] when the argument is not a number. *)
Definition window_ticks (arg : option string) : option Z :=
  match arg with
  | None => Some (s32 (60 * (1000 / 100)))
  | Some s => if streq (strtoul_end s).2 "" then Some (s32 (s32 (strtol s) * (1000 / 100))) else None
  end.

Definition DEFAULT_STATUS_TOP : string := "bolo console v%v|[%e]|%m".
Definition DEFAULT_STATUS_BOTTOM : string := "%n/%N (%p)  %F|pid %P|%M".
End console.
