(* ===== verification/StatusFacts.v ===== *)
(** * Theorems on the status lines of the console

    A format has three parts, separated by bars: the text on the left, in the
    middle and on the right.  Lines that fit are laid out as the format says;
    a text that fills its buffer has no terminator. *)

From S2P Require Import Prelude CLib FloatFacts Vigor Bytes Data Binf Core Config Pdu Subscriber Startup Threads Sinks Console.
From Stdlib Require Import Ascii.

(** ** A buffer that holds a text *)

Definition buffer (w : Z) (text : string) : string := text +:+ zeros (Z.to_nat (w + 1) - String.length text).

Lemma buffer_write w text s :
  strlen text + strlen s ≤ w + 1 → mem_write (strlen text) s (buffer w text) = Ok (buffer w (text +:+ s)).
Proof.
  intros Hl. unfold strlen in Hl. unfold buffer. rewrite mem_write_app by (rewrite zeros_length; lia).
  rewrite drop_zeros, str_app_assoc, str_length_app. do 4 f_equal. lia.
Qed.

(** Writing the terminator changes nothing. *)
Lemma buffer_nul w text : strlen text ≤ w → buffer w (text +:+ str1 NUL) = buffer w text.
Proof.
  unfold strlen, buffer. intros Hl. rewrite str_length_app, str_app_assoc. f_equal. cbn [String.length str1].
  replace (Z.to_nat (w + 1) - String.length text)%nat with (S (Z.to_nat (w + 1) - (String.length text + 1))) by lia. done.
Qed.

Lemma cstr_zeros text n : lacks NUL text → cstr (text +:+ zeros n) = text.
Proof. intros Hl. unfold cstr. apply take_while_app; [done|]. destruct n; [by right|by left]. Qed.

Lemma buffer_string w text : lacks NUL text → strlen text ≤ w → mem_string 0 (buffer w text) = Ok text.
Proof.
  unfold strlen. intros Hl Hw. unfold mem_string, buffer. change (Z.to_nat 0) with 0%nat. cbn [drop_str].
  destruct (Z.to_nat (w + 1) - String.length text)%nat as [|n] eqn:E; [lia|].
  rewrite cstr_zeros, has_char_app by done. cbn [zeros has_char]. by rewrite Ascii.eqb_refl, orb_true_r.
Qed.

(** ** The parts of a format *)

Abbreviation parts := (string * string * string)%type.

(** Text in front of the part [ss]. *)
Definition before (ss : Z) (text : string) (p : parts) : parts :=
  let '(l, c, r) := p in
  if ss =? 0 then (text +:+ l, c, r) else if ss =? 1 then (l, text +:+ c, r) else (l, c, text +:+ r).

Section status.
Context `{Pcre}.
Variables (e : console_env) (o : console_options) (a : artist_t).

(** What the format says, without buffers; [None] when it ends in [%]. *)
Fixpoint sections (fmt : string) (ss : Z) : res (option parts) :=
  match fmt with
  | EmptyString => mret (Some ("", "", ""))
  | String c rest =>
      if ascii_dec c "%" then
        match rest with
        | EmptyString => mret None
        | String d rest' =>
            text ← (if ascii_dec d "%" then mret (Some "%") else sl_field e o a d);
            p ← sections rest' ss;
            mret (option_map (before ss (default "" text)) p)
        end
      else if ascii_dec c "|" then
        (if ss <? 2 then sections rest (ss + 1)
         else p ← sections rest ss; mret (option_map (before ss "|") p))
      else p ← sections rest ss; mret (option_map (before ss (str1 c)) p)
  end.

(** The buffers hold the parts that have been written. *)
Definition sl_is (ss : Z) (p : parts) (st : sl_state) : Prop :=
  let '(l, c, r) := p in
  sl_left st = buffer (ar_width a) l ∧ sl_center st = buffer (ar_width a) c ∧ sl_right st = buffer (ar_width a) r ∧
  Z.min (sl_ss st) 2 = ss ∧ 0 ≤ sl_ss st ∧ sl_n st = (if ss =? 0 then strlen l else if ss =? 1 then strlen c else strlen r).

Definition cur (ss : Z) (p : parts) : string :=
  let '(l, c, r) := p in if ss =? 0 then l else if ss =? 1 then c else r.

(** Text after the part [ss], and parts after parts. *)
Definition after (ss : Z) (text : string) (p : parts) : parts :=
  let '(l, c, r) := p in
  if ss =? 0 then (l +:+ text, c, r) else if ss =? 1 then (l, c +:+ text, r) else (l, c, r +:+ text).

Definition papp (p q : parts) : parts :=
  let '(l, c, r) := p in let '(l', c', r') := q in (l +:+ l', c +:+ c', r +:+ r').

Lemma papp_before ss text p q : papp p (before ss text q) = papp (after ss text p) q.
Proof using.
  destruct p as [[l c] r], q as [[l' c'] r']. unfold before, after, papp.
  by destruct (ss =? 0), (ss =? 1); rewrite ?str_app_assoc.
Qed.

Definition below (w : Z) (p : parts) : Prop := let '(l, c, r) := p in strlen l < w ∧ strlen c < w ∧ strlen r < w.

Lemma below_prefix w p q : below w (papp p q) → below w p.
Proof using.
  destruct p as [[l c] r], q as [[l' c'] r']. unfold below, papp. rewrite !strlen_app.
  pose proof (strlen_nonneg l'). pose proof (strlen_nonneg c'). pose proof (strlen_nonneg r'). lia.
Qed.

Lemma sl_is_n ss p st : sl_is ss p st → sl_n st = strlen (cur ss p).
Proof using. destruct p as [[l c] r]. intros (_ & _ & _ & _ & _ & ->). unfold cur. by destruct (ss =? 0), (ss =? 1). Qed.

Lemma below_cur w ss p : below w p → strlen (cur ss p) < w.
Proof using. destruct p as [[l c] r]. unfold below, cur. intros (? & ? & ?). by destruct (ss =? 0), (ss =? 1). Qed.

(** A text that is written, possibly with its terminator. *)
Lemma sl_put_is ss p st text end_ :
  sl_is ss p st → (end_ = "" ∨ end_ = str1 NUL) → strlen (cur ss (after ss text p)) < ar_width a →
  ∃ st', sl_put (text +:+ end_) (strlen text) st = Ok st' ∧ sl_is ss (after ss text p) st' ∧ sl_ss st' = sl_ss st.
Proof using.
  destruct p as [[l c] r]. intros (El & Ec & Er & Hss & Hpos & En) Hend Hlen.
  assert (∀ b, strlen (b +:+ text) < ar_width a →
    mem_write (strlen b) (text +:+ end_) (buffer (ar_width a) b) = Ok (buffer (ar_width a) (b +:+ text))) as Hw.
  { intros b Hb. rewrite strlen_app in Hb. rewrite buffer_write.
    - destruct Hend as [->| ->]; [by rewrite str_app_nil_r|]. rewrite <- str_app_assoc, buffer_nul by (rewrite strlen_app; lia). done.
    - rewrite strlen_app. destruct Hend as [->| ->]; [change (strlen "") with 0|change (strlen (str1 NUL)) with 1]; lia. }
  unfold sl_put. rewrite En. unfold after, cur in *. subst ss.
  destruct (Z.eqb_spec (sl_ss st) 0) as [E0|E0].
  { rewrite E0 in *. change (Z.min 0 2 =? 0) with true in *. cbn iota in *. rewrite El, Hw by done. cbn [mbind res_bind].
    eexists. split; [done|]. unfold sl_is. cbn. by rewrite strlen_app. }
  destruct (Z.eqb_spec (sl_ss st) 1) as [E1|E1].
  { rewrite E1 in *. change (Z.min 1 2 =? 0) with false in *. change (Z.min 1 2 =? 1) with true in *. cbn iota in *.
    rewrite Ec, Hw by done. cbn [mbind res_bind]. eexists. split; [done|]. unfold sl_is. cbn. by rewrite strlen_app. }
  replace (Z.min (sl_ss st) 2) with 2 in * by lia. change (2 =? 0) with false in *. change (2 =? 1) with false in *. cbn iota in *.
  rewrite Er, Hw by done. cbn [mbind res_bind]. eexists. split; [done|]. unfold sl_is. cbn. rewrite strlen_app.
  split; [|done]. split_and!; (done || lia).
Qed.

Lemma below_after w ss text p q : below w (papp (after ss text p) q) → strlen (cur ss (after ss text p)) < w.
Proof using. intros Hb. by eapply below_cur, below_prefix. Qed.

(** A field, as [snprintf] writes it. *)
Lemma sl_snprintf_is ss p st text :
  sl_is ss p st → strlen (cur ss (after ss text p)) < ar_width a →
  ∃ st', sl_snprintf (ar_width a) text st = Ok st' ∧ sl_is ss (after ss text p) st' ∧ sl_ss st' = sl_ss st.
Proof using.
  intros Hst Hlen. unfold sl_snprintf. rewrite (sl_is_n _ _ _ Hst).
  assert (strlen (cur ss p) + strlen text < ar_width a) as Hl.
  { destruct p as [[l c] r]. unfold after, cur in *. destruct (ss =? 0), (ss =? 1); by rewrite strlen_app in Hlen. }
  pose proof (strlen_nonneg text). rewrite (proj2 (Z.eqb_neq _ _)) by lia.
  rewrite take_str_ge by (unfold strlen in *; lia). apply (sl_put_is ss p); [done|by right|done].
Qed.

Lemma sl_char_is ss p st c :
  sl_is ss p st → strlen (cur ss (after ss (str1 c) p)) < ar_width a →
  ∃ st', sl_char c st = Ok st' ∧ sl_is ss (after ss (str1 c) p) st' ∧ sl_ss st' = sl_ss st.
Proof using. intros Hst Hlen. apply (sl_put_is ss p st (str1 c) ""); [done|by left|done]. Qed.

Lemma after_nil ss p : after ss "" p = p.
Proof using. destruct p as [[l c] r]. unfold after. by destruct (ss =? 0), (ss =? 1); rewrite str_app_nil_r. Qed.

(** The parts that have not been reached are empty. *)
Definition later_empty (ss : Z) (p : parts) : Prop := ∀ ss', ss < ss' ≤ 2 → cur ss' p = "".

Lemma later_after ss text p : 0 ≤ ss → later_empty ss p → later_empty ss (after ss text p).
Proof using.
  intros H0 Hl ss' Hlt. rewrite <- (Hl ss' Hlt). destruct p as [[l c] r]. unfold after, cur.
  destruct (Z.eqb_spec ss 0) as [->|]; [by destruct (Z.eqb_spec ss' 0); [lia|]|].
  destruct (Z.eqb_spec ss 1) as [->|]; [|lia].
  destruct (Z.eqb_spec ss' 0); [lia|]. by destruct (Z.eqb_spec ss' 1); [lia|].
Qed.

Lemma sl_is_ss ss p st : sl_is ss p st → 0 ≤ ss ≤ 2 ∧ Z.min (sl_ss st) 2 = ss ∧ 0 ≤ sl_ss st.
Proof using. destruct p as [[l c] r]. intros (_ & _ & _ & ? & ? & _). lia. Qed.

(** The loop writes what the format says, when it fits. *)
Definition loop_ok (fmt : string) : Prop := ∀ ss st p q,
  sl_is ss p st → later_empty ss p → sections fmt ss = Ok (Some q) → below (ar_width a) (papp p q) →
  ∃ ss' st', sl_loop e o a fmt st = Ok (Some st') ∧ sl_is ss' (papp p q) st'.

(** Some text has been written, and the rest follows. *)
Lemma loop_text fmt ss text st1 p q :
  loop_ok fmt → sl_is ss (after ss text p) st1 → later_empty ss p → sections fmt ss = Ok (Some q) →
  below (ar_width a) (papp p (before ss text q)) →
  ∃ ss' st', sl_loop e o a fmt st1 = Ok (Some st') ∧ sl_is ss' (papp p (before ss text q)) st'.
Proof using.
  intros Hok H1 Hl Hs Hb. rewrite papp_before in Hb |- *. eapply Hok; [done| |done|done].
  apply later_after; [|done]. apply sl_is_ss in H1; lia.
Qed.

(** The first two bars move to the next part. *)
Lemma loop_next fmt ss st p q :
  loop_ok fmt → sl_is ss p st → sl_ss st < 2 → later_empty ss p → sections fmt (ss + 1) = Ok (Some q) →
  below (ar_width a) (papp p q) →
  ∃ ss' st', sl_loop e o a fmt (mk_sl (sl_left st) (sl_center st) (sl_right st) (sl_ss st + 1) 0) = Ok (Some st') ∧
    sl_is ss' (papp p q) st'.
Proof using.
  intros Hok Hst Hlt Hl Hs Hb. pose proof (sl_is_ss _ _ _ Hst) as (Hr & Hss & Hpos).
  apply (Hok (ss + 1)); [|intros ss' Hs'; apply Hl; lia|done|done].
  pose proof (Hl (ss + 1) ltac:(lia)) as Hempty. destruct p as [[l c] r], Hst as (El & Ec & Er & _ & _ & En).
  unfold sl_is, cur in *. cbn. split_and!; try (done || lia).
  destruct (Z.eqb_spec (ss + 1) 0); [lia|]. by destruct (ss + 1 =? 1); rewrite Hempty.
Qed.

(** The others are text. *)
Lemma sl_bar_is ss p st :
  sl_is ss p st → 2 ≤ sl_ss st →
  sl_is ss p (mk_sl (sl_left st) (sl_center st) (sl_right st) (sl_ss st + 1) (sl_n st)).
Proof using.
  intros Hst Hge. destruct p as [[l c] r], Hst as (El & Ec & Er & Hss & Hpos & En). unfold sl_is. cbn.
  split_and!; (done || lia).
Qed.

Lemma loop_char fmt ss c st p q :
  loop_ok fmt → sl_is ss p st → later_empty ss p → sections fmt ss = Ok (Some q) →
  below (ar_width a) (papp p (before ss (str1 c) q)) →
  ∃ ss' st', (st ← sl_char c st; sl_loop e o a fmt st) = Ok (Some st') ∧ sl_is ss' (papp p (before ss (str1 c) q)) st'.
Proof using.
  intros Hok Hst Hl Hs Hb. assert (strlen (cur ss (after ss (str1 c) p)) < ar_width a) as Hroom.
  { rewrite papp_before in Hb. by eapply below_after. }
  destruct (sl_char_is _ _ _ c Hst Hroom) as (st1 & E & H1 & _). rewrite E, Ok_bind. by apply loop_text.
Qed.

Lemma loop_field fmt ss text st p q :
  loop_ok fmt → sl_is ss p st → later_empty ss p → sections fmt ss = Ok (Some q) →
  below (ar_width a) (papp p (before ss (default "" text) q)) →
  ∃ ss' st', (st ← match text with Some text => sl_snprintf (ar_width a) text st | None => mret st end;
              sl_loop e o a fmt st) = Ok (Some st') ∧ sl_is ss' (papp p (before ss (default "" text) q)) st'.
Proof using.
  intros Hok Hst Hl Hs Hb. destruct text as [text|]; cbn [default from_option id] in *.
  - assert (strlen (cur ss (after ss text p)) < ar_width a) as Hroom.
    { rewrite papp_before in Hb. by eapply below_after. }
    destruct (sl_snprintf_is _ _ _ text Hst Hroom) as (st1 & E & H1 & _). rewrite E, Ok_bind. by apply loop_text.
  - change (mret st) with (Ok st). rewrite Ok_bind. apply loop_text; try done. by rewrite after_nil.
Qed.

Lemma some_parts (r : res (option parts)) (f : parts → parts) (q : parts) :
  r ≫= (λ p, mret (option_map f p)) = Ok (Some q) → ∃ q', r = Ok (Some q') ∧ q = f q'.
Proof using. destruct r as [[q'|]|]; try done. intros [= <-]. by exists q'. Qed.

Lemma sl_loop_is k : ∀ fmt, (String.length fmt ≤ k)%nat → loop_ok fmt.
Proof using.
  induction k as [|k IH]; intros fmt Hk ss st p q Hst Hl Hsec Hb; (destruct fmt as [|c fmt]; [|cbn in Hk; try lia]).
  1,2: cbn in Hsec; injection Hsec as <-; exists ss, st; destruct p as [[l c] r]; cbn [papp]; by rewrite !str_app_nil_r.
  pose proof (sl_is_ss _ _ _ Hst) as (Hr & Hss & Hpos).
  assert ((sl_n st <=? ar_width a) = true) as Hn.
  { apply Z.leb_le. rewrite (sl_is_n _ _ _ Hst). apply below_prefix in Hb. pose proof (below_cur _ ss _ Hb). lia. }
  cbn [sl_loop sections] in *. rewrite Hn. destruct (ascii_dec c "%").
  - destruct fmt as [|d fmt]; [done|]. cbn in Hk. specialize (IH fmt ltac:(lia)). destruct (ascii_dec d "%").
    + change (mret (Some "%")) with (Ok (Some "%")) in Hsec. rewrite Ok_bind in Hsec.
      apply some_parts in Hsec as (q' & Hs & ->). by apply (loop_char fmt ss "%").
    + apply bind_Ok in Hsec as (text & Ht & Hsec). apply some_parts in Hsec as (q' & Hs & ->).
      rewrite Ht, Ok_bind. by apply loop_field.
  - specialize (IH fmt ltac:(lia)). destruct (ascii_dec c "|").
    + destruct (Z.ltb_spec (sl_ss st) 2) as [Hlt|Hge].
      * rewrite (proj2 (Z.ltb_lt ss 2)) in Hsec by lia. by apply (loop_next fmt ss).
      * rewrite (proj2 (Z.ltb_ge ss 2)) in Hsec by lia. apply some_parts in Hsec as (q' & Hs & ->).
        apply (loop_char fmt ss "|"); try done. by apply sl_bar_is.
    + apply some_parts in Hsec as (q' & Hs & ->). by apply (loop_char fmt ss c).
Qed.

Lemma printf_bare_plain s : lacks "%" s → printf_bare s = Ok s.
Proof using.
  unfold lacks. induction s as [|c s IH]; [done|]. cbn [str_all printf_bare]. intros [Hc Hs]%andb_true_iff.
  unfold is_not in Hc. destruct (ascii_dec c "%") as [->|]; [done|]. by rewrite IH.
Qed.

Lemma start_is : 0 ≤ ar_width a →
  sl_is 0 ("", "", "") (mk_sl (zeros (Z.to_nat (ar_width a + 1))) (zeros (Z.to_nat (ar_width a + 1)))
                          (zeros (Z.to_nat (ar_width a + 1))) 0 0).
Proof using. intros Hw. unfold sl_is, buffer. cbn [sl_left sl_center sl_right sl_ss sl_n]. rewrite str_app_nil_l, Nat.sub_0_r. done. Qed.

(** The parts of the format are what the buffers hold in the end. *)
Record part_fits (text : string) : Prop := {
  pf_length : strlen text < ar_width a;
  pf_nul : lacks NUL text;
}.

Lemma statusline_parts fmt (top : bool) l c r :
  sections fmt 0 = Ok (Some (l, c, r)) → part_fits l → part_fits c → part_fits r →
  let y := if top then 0 else ar_height a - 1 in
  s_statusline e o fmt top a =
    printf_bare c ≫= λ text,
    mret [MvPrint y 0 (pad_right (ar_width a) l); MvPrint y (s32 (ar_width a - strlen r)) r;
          MvPrint y (s32 (u64 (ar_width a - strlen r - strlen l - strlen c) / 2)) text].
Proof using.
  intros Hs [Hl Nl] [Hc Nc] [Hr Nr] y. assert (0 ≤ ar_width a) as Hw by (unfold strlen in Hl; lia).
  destruct (sl_loop_is _ fmt (le_n _) 0 _ ("", "", "") (l, c, r) (start_is Hw)) as (ss & st & E & Hst); [|done|by cbn|].
  { intros ss' ?. unfold cur. by destruct (ss' =? 0), (ss' =? 1). }
  unfold s_statusline. rewrite E, Ok_bind. cbn in Hst. destruct Hst as (El & Ec & Er & _).
  rewrite El, (buffer_string _ l) by (done || lia). rewrite Ok_bind.
  rewrite Er, (buffer_string _ r) by (done || lia). rewrite Ok_bind.
  rewrite Ec, (buffer_string _ c) by (done || lia). by rewrite Ok_bind.
Qed.

(** A status line whose three parts are shorter than the terminal is wide
    shows them where they belong: the left part from the first column on, the
    right part up to the last column, the middle part between them; the
    buffers, which are one character longer than the terminal is wide, do not
    change the text. *)
Theorem statusline_layout fmt (top : bool) l c r :
  sections fmt 0 = Ok (Some (l, c, r)) → part_fits l → part_fits c → part_fits r →
  strlen l + strlen c + strlen r ≤ ar_width a < 2 ^ 31 → lacks "%" c →
  let y := if top then 0 else ar_height a - 1 in
  s_statusline e o fmt top a =
    Ok [MvPrint y 0 (pad_right (ar_width a) l); MvPrint y (ar_width a - strlen r) r;
        MvPrint y ((ar_width a - strlen r - strlen l - strlen c) / 2) c].
Proof using.
  intros Hs Hl Hc Hr Hsum Pc y. pose proof (strlen_nonneg l). pose proof (strlen_nonneg c). pose proof (strlen_nonneg r).
  rewrite (statusline_parts fmt top l c r) by done. rewrite printf_bare_plain, Ok_bind by done. fold y.
  rewrite u64_id by (split; lia). rewrite !s32_id by (split; zlia). done.
Qed.

(** The middle part is printed as a format: a per cent sign in it, from the
    address of the aggregator or from [%%], asks for an argument that is not
    there. *)
Theorem statusline_bad_format fmt top l u d v r :
  sections fmt 0 = Ok (Some (l, u +:+ String "%" (String d v), r)) →
  part_fits l → part_fits (u +:+ String "%" (String d v)) → part_fits r → lacks "%" u → d ≠ "%"%char →
  s_statusline e o fmt top a = Fault BadFormat.
Proof using.
  intros Hs Hl Hc Hr Hu Hd. rewrite (statusline_parts fmt top _ _ _ Hs Hl Hc Hr).
  assert (printf_bare (u +:+ String "%" (String d v)) = Fault BadFormat) as ->; [|done].
  clear -Hu Hd. unfold lacks in Hu. induction u as [|c u IH].
  - rewrite str_app_nil_l. cbn. by destruct (ascii_dec d "%").
  - rewrite str_app_cons. cbn [str_all printf_bare] in *. apply andb_true_iff in Hu as [Hc Hu]. unfold is_not in Hc.
    destruct (ascii_dec c "%") as [->|]; [done|]. by rewrite IH.
Qed.

(** ** A line that is too long *)

(** Characters that stand for themselves. *)
Definition plain (c : ascii) : bool := is_not "%" c && is_not "|" c && is_not NUL c.

Lemma plain_neq c : plain c = true → c ≠ "%"%char ∧ c ≠ "|"%char ∧ c ≠ NUL.
Proof using.
  unfold plain, is_not. intros [[H1 H2]%andb_true_iff H3]%andb_true_iff.
  apply negb_true_iff, Ascii.eqb_neq in H1, H2, H3. split_and!; congruence.
Qed.

(** The first part fills its buffer: the characters after that are not looked
    at. *)
Lemma literal_fills fmt pre center right :
  str_all plain fmt = true → strlen pre ≤ ar_width a + 1 < strlen pre + strlen fmt + 1 →
  ∃ text, sl_loop e o a fmt (mk_sl (buffer (ar_width a) pre) center right 0 (strlen pre)) =
      Ok (Some (mk_sl (buffer (ar_width a) (pre +:+ text)) center right 0 (ar_width a + 1))) ∧
    strlen (pre +:+ text) = ar_width a + 1 ∧ str_all plain text = true.
Proof using.
  revert pre. induction fmt as [|c fmt IH]; intros pre Hp Hlen.
  { exists "". change (strlen "") with 0 in Hlen. rewrite str_app_nil_r. cbn. split_and!; [|lia|done].
    do 4 f_equal. lia. }
  cbn [sl_loop sl_n]. destruct (Z.leb_spec (strlen pre) (ar_width a)) as [Hle|Hgt].
  2:{ exists "". rewrite str_app_nil_r. split_and!; [|lia|done]. do 4 f_equal. lia. }
  cbn [str_all] in Hp. apply andb_true_iff in Hp as [Hc Hp]. destruct (plain_neq c Hc) as (H1 & H2 & _).
  destruct (ascii_dec c "%"); [done|]. destruct (ascii_dec c "|"); [done|].
  assert (sl_char c (mk_sl (buffer (ar_width a) pre) center right 0 (strlen pre)) =
    Ok (mk_sl (buffer (ar_width a) (pre +:+ str1 c)) center right 0 (strlen (pre +:+ str1 c)))) as ->.
  { unfold sl_char, sl_put. cbn [sl_ss sl_n sl_left sl_center sl_right]. change (0 =? 0) with true. cbn iota.
    rewrite buffer_write by (change (strlen (str1 c)) with 1; lia). rewrite Ok_bind, strlen_app. done. }
  rewrite Ok_bind. destruct (IH (pre +:+ str1 c) Hp) as (text & E & Hl & Ht).
  { rewrite strlen_app. change (strlen (str1 c)) with 1. change (strlen (String c fmt)) with (Z.of_nat (S (String.length fmt))) in Hlen.
    unfold strlen in *. lia. }
  exists (str1 c +:+ text). rewrite <- str_app_assoc. split_and!; [done|done|]. rewrite str_all_app. cbn. by rewrite Hc.
Qed.

(** A status line that starts with more plain characters than the
    terminal is wide fills its buffer and leaves no room for the terminator,
    so that printing it reads past the end. *)
Theorem statusline_overread fmt top :
  0 ≤ ar_width a < strlen fmt → str_all plain fmt = true →
  s_statusline e o fmt top a = Fault OutOfBounds.
Proof using.
  intros Hw Hp. unfold s_statusline. set (buf := zeros _).
  destruct (literal_fills fmt "" buf buf Hp) as (text & E & Hl & Ht); [change (strlen "") with 0; lia|].
  change (strlen "") with 0 in E. rewrite str_app_nil_l in E, Hl.
  assert (buffer (ar_width a) "" = buf) as Hbuf by (unfold buffer, buf; by rewrite str_app_nil_l, Nat.sub_0_r).
  rewrite Hbuf in E. rewrite E, Ok_bind. cbn [sl_left].
  unfold mem_string. change (Z.to_nat 0) with 0%nat. cbn [drop_str].
  assert (buffer (ar_width a) text = text) as ->.
  { unfold buffer. replace (Z.to_nat _ - _)%nat with 0%nat by (unfold strlen in Hl; lia). apply str_app_nil_r. }
  rewrite (has_char_none NUL text); [done|]. eapply str_all_imp; [|exact Ht].
  intros c Hc. unfold plain in Hc. by apply andb_true_iff in Hc as [_ ?].
Qed.
End status.

(** ** Lines that always fit *)

Lemma dec_aux_short fuel n k : 0 ≤ n < 10 ^ Z.of_nat k → (1 ≤ k)%nat → (String.length (dec_aux fuel n) ≤ k)%nat.
Proof.
  revert n k. induction fuel as [|fuel IH]; intros n k Hn Hk; cbn [dec_aux]; [cbn; lia|].
  rewrite str_length_app. cbn [String.length str1]. destruct (Z.ltb_spec n 10); [cbn; lia|].
  destruct k as [|[|k]]; [lia|cbn in Hn; lia|]. rewrite Nat2Z.inj_succ, Z.pow_succ_r in Hn by lia.
  specialize (IH (n / 10) (S k)). assert (0 ≤ n / 10 < 10 ^ Z.of_nat (S k)) as Hd.
  { split; [apply Z.div_pos; lia|apply Z.div_lt_upper_bound; lia]. }
  specialize (IH Hd). lia.
Qed.

Lemma fmt_lu_width z k : 0 ≤ z < 10 ^ Z.of_nat k → 10 ^ Z.of_nat k ≤ 2 ^ 64 → (1 ≤ k)%nat → strlen (fmt_lu z) ≤ Z.of_nat k.
Proof.
  intros Hz Hk H1. unfold fmt_lu, strlen. rewrite u64_id by (split; lia). pose proof (dec_aux_short (S (Z.to_nat (Z.log2 z))) z k Hz H1).
  unfold dec. lia.
Qed.

Lemma digits_lack c s : isdigit c = false → str_all isdigit s = true → lacks c s.
Proof.
  intros Hc. apply str_all_imp. intros d Hd. unfold is_not. destruct (Ascii.eqb_spec c d) as [->|]; [congruence|done].
Qed.

Lemma fmt_lu_lacks c z : isdigit c = false → lacks c (fmt_lu z).
Proof. intros Hc. apply digits_lack; [done|]. apply dec_aux_digits. unfold u64. zlia. Qed.

Lemma has_char_lacks c s : has_char c s = false → lacks c s.
Proof.
  unfold lacks. induction s as [|d s IH]; [done|]. cbn [str_all has_char]. unfold is_not at 1.
  destruct (Ascii.eqb c d); [done|]. cbn [orb negb andb]. done.
Qed.

Lemma lacks_tail c d s : lacks c (String d s) → d ≠ c ∧ lacks c s.
Proof.
  unfold lacks. cbn [str_all]. intros [Hd Hs]%andb_true_iff. split; [|done]. unfold is_not in Hd.
  intros ->. by rewrite Ascii.eqb_refl in Hd.
Qed.

Lemma lacks_char c d : d ≠ c → lacks c (str1 d).
Proof.
  intros Hd. unfold lacks, str1. change (is_not c d && true = true). unfold is_not.
  destruct (Ascii.eqb_spec c d); [congruence|done].
Qed.

(** What a redraw leaves: the rows that are scrolled away and the rows that
    are drawn are not many more than there are metrics, and none without
    metrics. *)
Definition shown (a : artist_t) : Prop :=
  0 ≤ ar_voffset a ∧ 0 ≤ ar_visible a ≤ ar_total a ∧ ar_voffset a + ar_visible a ≤ 2 ^ 33 ∧ ar_total a < 2 ^ 32 ∧
  (ar_total a = 0 → ar_voffset a = 0).

(** The percentage is defined: it is only computed when there is a metric. *)
Lemma percentage_shown a : shown a → ∃ s, percentage a = Ok s ∧ strlen s ≤ 20 ∧ lacks NUL s.
Proof.
  intros (Hv & Hn & Hs & Ht & H0). unfold percentage. rewrite u64_id by (split; lia).
  destruct (Z.eqb_spec (ar_total a) (ar_voffset a + ar_visible a)) as [E|E]; [by exists "100%"|].
  set (x := dmul _ _). assert (small x 46) as Hx.
  { apply (small_mono _ (37 + 8 + 1)); [lia|]. apply dmul_small; [lia|lia| |apply (d_of_Z_small 100 7); lia].
    apply (ddiv_small _ _ 36); [lia| |apply d_of_Z_one; lia]. apply (dadd_small _ _ 34); [lia| |].
    - apply (d_of_Z_small _ 33); lia.
    - split; [lia|]. cbn. lia. }
  destruct (d_trunc_small x 46 ltac:(lia) Hx) as (z & Ez & Hz). unfold d_to_u64. rewrite Ez.
  rewrite (proj2 (Z.leb_le 0 z)), (proj2 (Z.ltb_lt z (2 ^ 64))) by lia. cbn [andb]. rewrite Ok_bind.
  exists (fmt_lu z +:+ "%"). split; [done|]. split.
  - rewrite strlen_app. pose proof (fmt_lu_width z 14). change (strlen "%") with 1. lia.
  - apply lacks_app. split; [by apply fmt_lu_lacks|done].
Qed.

Section fits.
Context `{Pcre}.
Variables (e : console_env) (o : console_options).

(** The longest text of a field, and whether it can have a per cent sign. *)
Definition field_width (d : ascii) : Z :=
  if ascii_dec d "v" then strlen (ce_version e)
  else if ascii_dec d "e" then strlen (default "~" (co_endpoint o))
  else if ascii_dec d "m" then strlen (default "" (co_message o))
  else if ascii_dec d "F" then 6
  else if ascii_dec d "M" then strlen (default "" (co_pattern o))
  else if ascii_dec d "n" then 10
  else if ascii_dec d "N" then 10
  else if ascii_dec d "p" then 20
  else if ascii_dec d "P" then 11
  else 0.

Definition field_percent (d : ascii) : bool :=
  if ascii_dec d "v" then has_char "%" (ce_version e)
  else if ascii_dec d "e" then has_char "%" (default "~" (co_endpoint o))
  else if ascii_dec d "m" then has_char "%" (default "" (co_message o))
  else if ascii_dec d "M" then has_char "%" (default "" (co_pattern o))
  else if ascii_dec d "p" then true
  else false.

(** The widths of the three parts with every field at its longest, from part
    [ss] on, when the format does not end in [%] and no per cent sign can get
    into the middle part. *)
Definition wider (ss w : Z) (p : Z * Z * Z) : Z * Z * Z :=
  let '(l, c, r) := p in
  if ss =? 0 then (w + l, c, r) else if ss =? 1 then (l, w + c, r) else (l, c, w + r).

Fixpoint widths (fmt : string) (ss : Z) : option (Z * Z * Z) :=
  match fmt with
  | EmptyString => Some (0, 0, 0)
  | String c rest =>
      if ascii_dec c "%" then
        match rest with
        | EmptyString => None
        | String d rest' =>
            if ascii_dec d "%" then (if ss =? 1 then None else wider ss 1 <$> widths rest' ss)
            else if (ss =? 1) && field_percent d then None
            else wider ss (field_width d) <$> widths rest' ss
        end
      else if ascii_dec c "|" then
        (if ss <? 2 then widths rest (ss + 1) else wider ss 1 <$> widths rest ss)
      else wider ss 1 <$> widths rest ss
  end.

(** A status line whose parts are shorter than the terminal is wide, whatever
    the fields have. *)
Definition status_fits (fmt : string) : bool :=
  match widths fmt 0 with
  | Some (l, c, r) => (l <? ce_width e) && (c <? ce_width e) && (r <? ce_width e)
  | None => false
  end.

(** Texts of the system and of the command line. *)
Definition c_texts : Prop :=
  lacks NUL (ce_version e) ∧ lacks NUL (default "~" (co_endpoint o)) ∧ lacks NUL (default "" (co_message o)) ∧
  lacks NUL (default "" (co_pattern o)) ∧ is_s32 (ce_pid e).

Lemma fmt_i_width z : is_s32 z → strlen (fmt_i z) ≤ 11 ∧ lacks NUL (fmt_i z) ∧ lacks "%" (fmt_i z).
Proof using.
  intros Hz. assert (∀ n, 0 ≤ n ≤ 2 ^ 31 → strlen (dec n) ≤ 10 ∧ lacks NUL (dec n) ∧ lacks "%" (dec n)) as Hd.
  { intros n Hn. split_and!; [|apply digits_lack; [done|]; apply dec_aux_digits; lia..].
    pose proof (dec_aux_short (S (Z.to_nat (Z.log2 n))) n 10 ltac:(lia) ltac:(lia)). unfold strlen, dec. lia. }
  unfold fmt_i, is_s32 in *. destruct (Z.ltb_spec z 0).
  - destruct (Hd (- z)) as (H1 & H2 & H3); [lia|]. split_and!; [rewrite strlen_app; change (strlen "-") with 1; lia|by apply lacks_app; split..].
  - destruct (Hd z) as (H1 & H2 & H3); [lia|]. split_and!; [lia|done|done].
Qed.

Lemma field_text a d :
  c_texts → shown a →
  ∃ text, sl_field e o a d = Ok text ∧ strlen (default "" text) ≤ field_width d ∧ lacks NUL (default "" text) ∧
    (field_percent d = false → lacks "%" (default "" text)).
Proof using.
  intros (Hv & He & Hm & HM & Hp) Hs. pose proof Hs as (H1 & H2 & H3 & H4 & _).
  unfold sl_field, field_width, field_percent.
  repeat match goal with |- context [ascii_dec d ?c] => destruct (ascii_dec d c) end; try congruence;
    try (eexists; split; [reflexivity|]; split_and!; [reflexivity|assumption|apply has_char_lacks]).
  - eexists. split; [reflexivity|]. cbn [default from_option id]. unfold flag.
    repeat case_match; done.
  - eexists. split; [reflexivity|]. cbn [default from_option id]. split_and!; [|by apply fmt_lu_lacks|by intros _; apply fmt_lu_lacks].
    apply (fmt_lu_width _ 10); cbn; lia.
  - eexists. split; [reflexivity|]. cbn [default from_option id]. split_and!; [|by apply fmt_lu_lacks|by intros _; apply fmt_lu_lacks].
    apply (fmt_lu_width _ 10); cbn; lia.
  - destruct (percentage_shown a Hs) as (s & -> & ? & ?). rewrite Ok_bind. by eexists.
  - eexists. split; [reflexivity|]. cbn [default from_option id]. destruct (fmt_i_width (ce_pid e) Hp) as (? & ? & ?). done.
  - by eexists.
Qed.

Lemma wider_some ss w p q : wider ss w <$> p = Some q → ∃ q', p = Some q' ∧ q = wider ss w q'.
Proof using. destruct p as [q'|]; [|done]. intros [= <-]. by exists q'. Qed.

(** Each part is at most as long as its width, and can be printed. *)
Definition in_widths (p : parts) (w : Z * Z * Z) : Prop :=
  let '(l, c, r) := p in let '(wl, wc, wr) := w in
  (strlen l ≤ wl ∧ lacks NUL l) ∧ (strlen c ≤ wc ∧ lacks NUL c ∧ lacks "%" c) ∧ (strlen r ≤ wr ∧ lacks NUL r).

Lemma in_widths_before ss text w p q :
  0 ≤ ss → strlen text ≤ w → lacks NUL text → (ss = 1 → lacks "%" text) → in_widths p q →
  in_widths (before ss text p) (wider ss w q).
Proof using.
  intros Hss Hw Hn Hp. destruct p as [[l c] r], q as [[wl wc] wr]. unfold in_widths, before, wider. intros Hi.
  destruct (Z.eqb_spec ss 0); [|destruct (Z.eqb_spec ss 1)]; rewrite strlen_app, !lacks_app; intuition lia.
Qed.

(** Every format that fits is laid out. *)
Lemma sections_fit a k : ∀ fmt ss w,
  (String.length fmt ≤ k)%nat → c_texts → shown a → lacks NUL fmt → 0 ≤ ss → widths fmt ss = Some w →
  ∃ p, sections e o a fmt ss = Ok (Some p) ∧ in_widths p w.
Proof using.
  induction k as [|k IH]; intros fmt ss w Hk Ht Hs Hn Hss Hw; (destruct fmt as [|c fmt]; [|cbn in Hk; try lia]).
  1,2: injection Hw as <-; by eexists.
  apply lacks_tail in Hn as [Hc Hn]. cbn [sections widths] in *.
  assert (∀ text q rest, (String.length rest ≤ k)%nat → lacks NUL rest → strlen text ≤ 1 → lacks NUL text →
    (ss = 1 → lacks "%" text) → wider ss 1 <$> widths rest ss = Some q →
    ∃ p, (p ← sections e o a rest ss; mret (option_map (before ss text) p)) = Ok (Some p) ∧ in_widths p q) as Hone.
  { intros text q rest Hl Hr H1 H2 H3 (q' & Hq & ->)%wider_some.
    destruct (IH rest ss q' Hl Ht Hs Hr Hss Hq) as (p & -> & Hp). rewrite Ok_bind. eexists. split; [done|].
    by apply in_widths_before. }
  destruct (ascii_dec c "%") as [->|Hc1].
  - destruct fmt as [|d fmt]; [done|]. apply lacks_tail in Hn as [Hd Hn]. cbn in Hk. destruct (ascii_dec d "%").
    + destruct (Z.eqb_spec ss 1); [done|]. change (mret (Some "%")) with (Ok (Some "%")). rewrite Ok_bind.
      cbn [default from_option id]. apply Hone; (done || lia).
    + destruct (field_text a d Ht Hs) as (text & -> & H1 & H2 & H3). rewrite Ok_bind.
      destruct ((ss =? 1) && field_percent d) eqn:E; [done|].
      apply wider_some in Hw as (q' & Hq & ->).
      destruct (IH fmt ss q' ltac:(lia) Ht Hs Hn Hss Hq) as (p & -> & Hp). rewrite Ok_bind. eexists. split; [done|].
      apply in_widths_before; try done. intros ->. by apply H3.
  - destruct (ascii_dec c "|") as [->|Hc2].
    + destruct (ss <? 2); [apply IH; (done || lia)|]. apply Hone; (done || lia).
    + apply Hone; try (done || lia).
      * by apply lacks_char.
      * intros _. by apply lacks_char.
Qed.

(** A status line that fits can be drawn. *)
Lemma status_drawn a fmt top :
  c_texts → shown a → lacks NUL fmt → status_fits fmt = true → ar_width a = ce_width e →
  ∃ ds, s_statusline e o fmt top a = Ok ds.
Proof using.
  intros Ht Hs Hn Hf Hw. unfold status_fits in Hf. destruct (widths fmt 0) as [[[wl wc] wr]|] eqn:E; [|done].
  destruct (sections_fit a _ fmt 0 _ (le_n _) Ht Hs Hn ltac:(lia) E) as ([[l c] r] & Hsec & (Hl & Nl) & (Hc & Nc & Pc) & (Hr & Nr)).
  rewrite (statusline_parts e o a fmt top l c r); [|done|split; (done || lia)..].
  rewrite printf_bare_plain by done. rewrite Ok_bind. by eexists.
Qed.

(** The formats that are used when none are given, on a terminal with room for
    the version, the address, the message and the pattern. *)
Lemma default_status_fits :
  52 < ce_width e → 14 + strlen (ce_version e) < ce_width e → 2 + strlen (default "~" (co_endpoint o)) < ce_width e →
  strlen (default "" (co_message o)) < ce_width e → strlen (default "" (co_pattern o)) < ce_width e →
  lacks "%" (default "~" (co_endpoint o)) →
  status_fits DEFAULT_STATUS_TOP = true ∧ status_fits DEFAULT_STATUS_BOTTOM = true.
Proof using.
  intros Hw Hv He Hm HM Hp. pose proof (strlen_nonneg (ce_version e)). pose proof (strlen_nonneg (default "" (co_message o))).
  unfold status_fits, DEFAULT_STATUS_TOP, DEFAULT_STATUS_BOTTOM. 
  unfold lacks in Hp. apply has_char_none in Hp.
  cbn -[strlen Z.add Z.ltb has_char]. change (0 + 1) with 1. change (0 <? 2) with true. change (1 <? 2) with true.
  rewrite Hp. cbn -[strlen Z.add Z.ltb has_char]. change (1 + 1 =? 1) with false. change (1 + 1 =? 0) with false.
  cbn -[strlen Z.add Z.ltb has_char]. split; rewrite !andb_true_iff, !Z.ltb_lt; lia.
Qed.
End fits.

(** ** Examples *)

Module StatusExample.
Definition o : @console_options ref_pcre :=
  mk_console_options (H0 := ref_pcre) 600 DEFAULT_STATUS_TOP DEFAULT_STATUS_BOTTOM (Some "tcp://127.0.0.1:2997") None (Some ".")
    MASK_ALL_THE_THINGS "." tt.
Definition zone : @console_options ref_pcre :=
  mk_console_options (H0 := ref_pcre) 600 DEFAULT_STATUS_TOP DEFAULT_STATUS_BOTTOM (Some "tcp://[fe80::1%eth0]:2997") None (Some ".")
    MASK_ALL_THE_THINGS "." tt.
Definition e : console_env := mk_console_env 24 80 (SpecFloat.S754_zero false) KEY_NONE 4711 "0.2.17".
Definition a : artist_t := set_screen 24 80 0 40 artist_new.
End StatusExample.

Lemma statusline_layout_witness :
  s_statusline (H0 := ref_pcre) StatusExample.e StatusExample.o DEFAULT_STATUS_TOP true StatusExample.a =
  Ok [MvPrint 0 0 (pad_right 80 "bolo console v0.2.17"); MvPrint 0 80 ""; MvPrint 0 19 "[tcp://127.0.0.1:2997]"].
Proof.
  apply (statusline_layout (H := ref_pcre) StatusExample.e StatusExample.o StatusExample.a DEFAULT_STATUS_TOP true
    "bolo console v0.2.17" "[tcp://127.0.0.1:2997]" "");
    [vm_compute; reflexivity|split; vm_compute; reflexivity|split; vm_compute; reflexivity|split; vm_compute; reflexivity
    |split; [apply Z.leb_le|apply Z.ltb_lt]; vm_compute; reflexivity|vm_compute; reflexivity].
Defined.

(** A link-local address, as [--endpoint] may have it. *)
Lemma statusline_bad_format_witness :
  s_statusline (H0 := ref_pcre) StatusExample.e StatusExample.zone DEFAULT_STATUS_TOP true StatusExample.a = Fault BadFormat.
Proof.
  apply (statusline_bad_format (H := ref_pcre) StatusExample.e StatusExample.zone StatusExample.a DEFAULT_STATUS_TOP true
    "bolo console v0.2.17" "[tcp://[fe80::1" "e" "th0]:2997]" "");
    [vm_compute; reflexivity|split; vm_compute; reflexivity|split; vm_compute; reflexivity|split; vm_compute; reflexivity
    |vm_compute; reflexivity|discriminate].
Defined.

(** The title of the program on a terminal of ten columns. *)
Lemma statusline_overread_witness :
  s_statusline (H0 := ref_pcre) StatusExample.e StatusExample.o "bolo console" true (set_screen 24 10 0 0 artist_new) = Fault OutOfBounds.
Proof.
  apply (statusline_overread (H := ref_pcre) StatusExample.e StatusExample.o (set_screen 24 10 0 0 artist_new) "bolo console" true);
    [split; [apply Z.leb_le|apply Z.ltb_lt]; vm_compute; reflexivity|vm_compute; reflexivity].
Defined.
