(* ===== verification/ConsoleFacts.v ===== *)
(** * Theorems on the console

    The ring of a metric holds the last value of each of the last 256
    windows; the graph shows the windows since the pointer last passed the
    start, oldest first; the status lines are laid out as the format says
    when they fit.  Narrow terminals and long lines make the program read and
    write outside its buffers. *)

From S2P Require Import Prelude CLib Vigor Bytes Data Binf Core Config Pdu Subscriber Startup Threads Sinks Console StatusFacts.
From Stdlib Require Import Ascii Floats.SpecFloat.

(** ** Arrays *)

Lemma aget_Ok {A} (l : list A) j x : 0 ≤ j → l !! Z.to_nat j = Some x → aget l j = Ok x.
Proof. intros Hj Hl. unfold aget. apply Z.leb_le in Hj as ->. by rewrite Hl. Qed.

Lemma aset_Ok {A} (l : list A) j x : 0 ≤ j < Z.of_nat (length l) → aset l j x = Ok (<[Z.to_nat j := x]> l).
Proof.
  intros Hj. unfold aset. rewrite (proj2 (Z.leb_le _ _)), (proj2 (Z.ltb_lt _ _)) by lia. done.
Qed.

(** A metric with its arrays. *)
Record cmetric_ok (m : cmetric) : Prop := {
  mo_set : length (mt_set m) = 256%nat;
  mo_val : length (mt_val m) = 256%nat;
}.

(** The value in a slot. *)
Definition slot (m : cmetric) (j : Z) : option ldouble :=
  match mt_set m !! Z.to_nat j with Some true => mt_val m !! Z.to_nat j | _ => None end.

Lemma slot_get m j :
  cmetric_ok m → 0 ≤ j < 256 →
  match slot m j with
  | Some v => aget (mt_set m) j = Ok true ∧ aget (mt_val m) j = Ok v
  | None => aget (mt_set m) j = Ok false
  end.
Proof.
  intros [H1 H2] Hj. unfold slot.
  destruct (lookup_lt_is_Some_2 (mt_set m) (Z.to_nat j)) as [b Hb]; [lia|].
  destruct (lookup_lt_is_Some_2 (mt_val m) (Z.to_nat j)) as [v Hv]; [lia|].
  rewrite Hb, Hv. destruct b; [split|]; by apply aget_Ok; [lia|].
Qed.

(** ** The walk from the fill pointer back to the start *)

(** The slots that are looked at, in the order of the walk. *)
Definition walk (fill : Z) : list Z := reverse (seqZ 1 fill).

Lemma walk_succ j : 0 ≤ j → walk (j + 1) = (j + 1) :: walk j.
Proof.
  intros Hj. unfold walk. rewrite (seqZ_app 1 j 1) by lia. rewrite reverse_app.
  change (seqZ (1 + j) 1) with [0 + (1 + j)]. cbn. f_equal. lia.
Qed.

Lemma walk_ind (P : Z → Prop) : P 0 → (∀ j, 0 ≤ j → P j → P (j + 1)) → ∀ j, 0 ≤ j → P j.
Proof. intros H0 HS j Hj. apply natlike_ind; [done| |done]. intros x Hx. rewrite <- Z.add_1_r. by apply HS. Qed.

Lemma last_set_walk m fill junk fuel :
  cmetric_ok m → 0 ≤ fill < 256 → (Z.to_nat fill < fuel)%nat →
  last_set fuel m fill 0 junk = Ok (default junk (head (omap (slot m) (walk fill)))).
Proof.
  intros Hm [Hf0 Hf]. revert Hf fuel. pattern fill. apply walk_ind; [| |done]; clear fill Hf0.
  { intros _ [|fuel]; [lia|done]. }
  intros j Hj IH Hlt [|fuel] Hfuel; [lia|]. cbn [last_set].
  rewrite (proj2 (Z.eqb_neq (j + 1) 0)), walk_succ by lia. cbn [omap list_omap].
  pose proof (slot_get m (j + 1) Hm ltac:(lia)) as Hs. destruct (slot m (j + 1)) as [v|].
  - destruct Hs as [-> ->]. done.
  - rewrite Hs. cbn [mbind res_bind]. replace (j + 1 - 1) with j by lia. apply IH; lia.
Qed.

(** The least and the largest value, as the walk finds them. *)
Definition widen (mm : ldouble * ldouble) (v : ldouble) : ldouble * ldouble :=
  if SFltb mm.2 v then (mm.1, v) else if SFltb v mm.1 then (v, mm.2) else mm.

Lemma min_max_walk m fill mm fuel :
  cmetric_ok m → 0 ≤ fill < 256 → (Z.to_nat fill < fuel)%nat →
  min_max fuel m fill 0 mm = Ok (foldl widen mm (omap (slot m) (walk fill))).
Proof.
  intros Hm [Hf0 Hf]. revert Hf fuel mm. pattern fill. apply walk_ind; [| |done]; clear fill Hf0.
  { intros _ [|fuel] mm; [lia|done]. }
  intros j Hj IH Hlt [|fuel] mm Hfuel; [lia|]. cbn [min_max].
  rewrite (proj2 (Z.eqb_neq (j + 1) 0)), walk_succ by lia. cbn [omap list_omap]. replace (j + 1 - 1) with j by lia.
  pose proof (slot_get m (j + 1) Hm ltac:(lia)) as Hs. destruct (slot m (j + 1)) as [v|].
  - destruct Hs as [-> ->]. cbn [mbind res_bind foldl]. destruct mm as [mn mx]. rewrite IH by lia. done.
  - rewrite Hs. cbn [mbind res_bind]. apply IH; lia.
Qed.

(** ** The graph *)

Definition back (flat : bool) (lim : list ldouble) (m : cmetric) (js : list Z) : list ascii :=
  concat ((λ j, cell flat lim (slot m j)) <$> js).

Lemma cell_length flat lim v : (length (cell flat lim v) ≤ 3)%nat.
Proof. destruct v; cbn; lia. Qed.

Lemma back_length flat lim m js : (length (back flat lim m js) ≤ 3 * length js)%nat.
Proof.
  unfold back. induction js as [|j js IH]; [done|]. cbn [fmap list_fmap concat length]. rewrite length_app.
  pose proof (cell_length flat lim (slot m j)). lia.
Qed.

Lemma graph_loop_walk flat lim m w fill n g fuel :
  cmetric_ok m → 0 ≤ fill < 256 → (Z.to_nat fill < fuel)%nat → Z.of_nat (length g) + 3 * fill ≤ 765 →
  graph_loop fuel flat lim m w fill 0 n g =
    Ok (g ++ back flat lim m (take (Z.to_nat (w - n)) (walk fill)), n + Z.min (Z.max 0 (w - n)) fill).
Proof.
  intros Hm [Hf0 Hf]. revert Hf fuel n g. pattern fill. apply walk_ind; [| |done]; clear fill Hf0.
  { intros _ [|fuel] n g Hfuel Hg; [lia|]. cbn [graph_loop]. rewrite Z.eqb_refl, andb_false_r.
    change (walk 0) with (@nil Z). rewrite take_nil. unfold back. cbn [fmap list_fmap concat]. rewrite app_nil_r.
    do 2 f_equal. lia. }
  intros j Hj IH Hlt [|fuel] n g Hfuel Hg; [lia|]. cbn [graph_loop].
  rewrite (proj2 (Z.eqb_neq (j + 1) 0)) by lia. cbn [negb]. rewrite andb_true_r.
  destruct (Z.ltb_spec n w) as [Hnw|Hnw].
  2:{ replace (Z.to_nat (w - n)) with 0%nat by lia. rewrite take_0. unfold back. cbn [fmap list_fmap concat]. rewrite app_nil_r.
      do 2 f_equal. lia. }
  set (g' := g ++ cell flat lim (slot m (j + 1))).
  assert (Z.of_nat (length g') + 3 * j ≤ 765) as Hg'.
  { unfold g'. rewrite length_app. pose proof (cell_length flat lim (slot m (j + 1))). lia. }
  assert (graph_loop fuel flat lim m w j 0 (n + 1) g' =
    Ok (g ++ back flat lim m (take (Z.to_nat (w - n)) (walk (j + 1))), n + Z.min (Z.max 0 (w - n)) (j + 1))) as Hrec.
  { rewrite IH by lia. rewrite walk_succ by lia. replace (Z.to_nat (w - n)) with (S (Z.to_nat (w - (n + 1)))) by lia.
    rewrite firstn_cons. unfold back, g'. cbn [fmap list_fmap concat]. rewrite <- app_assoc. do 2 f_equal. lia. }
  assert ((graph_size <? Z.of_nat (length g')) = false) as Hbound by (apply Z.ltb_ge; unfold graph_size, MAX_VALUES; lia).
  replace (j + 1 - 1) with j by lia. assert ((j <? 0) = false) as Hneg by (apply Z.ltb_ge; lia).
  pose proof (slot_get m (j + 1) Hm ltac:(lia)) as Hs. unfold g' in Hrec, Hbound. destruct (slot m (j + 1)) as [v|].
  - destruct Hs as [-> ->]. cbn [mbind res_bind mret res_ret]. by rewrite Hbound, Hneg.
  - rewrite Hs. cbn [mbind res_bind mret res_ret]. by rewrite Hbound, Hneg.
Qed.

(** Swapping in place reverses. *)
Lemma swap_loop_reverse fuel pre mid post :
  (length mid ≤ fuel)%nat →
  swap_loop fuel (Z.of_nat (length pre)) (Z.of_nat (length pre + length mid) - 1) (pre ++ mid ++ post) =
  pre ++ reverse mid ++ post.
Proof.
  revert pre mid post. induction fuel as [|fuel IH]; intros pre mid post Hm.
  { destruct mid; [done|cbn in Hm; lia]. }
  destruct mid as [|x mid]; cbn [swap_loop]; [|destruct mid as [|y mid _] using rev_ind].
  - cbn [length]. rewrite Nat.add_0_r. rewrite (proj2 (Z.ltb_ge _ _)), andb_false_r by lia. done.
  - cbn [length]. rewrite (proj2 (Z.ltb_ge _ _)), andb_false_r by lia. done.
  - assert (length (x :: mid ++ [y]) = S (S (length mid))) as Hlen by (cbn; rewrite length_app; cbn; lia).
    rewrite Hlen in *. rewrite (proj2 (Z.leb_le 0 _)), (proj2 (Z.ltb_lt _ _)) by lia. cbn [andb].
    rewrite Nat2Z.id. replace (Z.to_nat _) with (length pre + S (length mid))%nat by lia.
    assert (pre ++ (x :: mid ++ [y]) ++ post = pre ++ x :: mid ++ y :: post) as -> by (cbn; by rewrite <- app_assoc).
    rewrite list_lookup_middle by done.
    assert ((pre ++ x :: mid ++ y :: post) !! (length pre + S (length mid))%nat = Some y) as ->.
    { rewrite lookup_app_r by lia. replace (length pre + S (length mid) - length pre)%nat with (S (length mid)) by lia.
      cbn [lookup list_lookup]. by apply list_lookup_middle. }
    assert (<[(length pre + S (length mid))%nat := x]> (<[length pre := y]> (pre ++ x :: mid ++ y :: post)) =
            (pre ++ [y]) ++ mid ++ (x :: post)) as ->.
    { rewrite (insert_app_r_alt pre _ (length pre)) by lia. rewrite Nat.sub_diag. cbn [insert list_insert].
      rewrite insert_app_r. cbn [insert list_insert]. rewrite (insert_app_r_alt mid _ (length mid)) by lia.
      rewrite Nat.sub_diag. cbn [insert list_insert]. by rewrite <- app_assoc. }
    specialize (IH (pre ++ [y]) mid (x :: post)). rewrite length_app in IH. cbn [length] in IH.
    replace (Z.of_nat (length pre) + 1) with (Z.of_nat (length pre + 1)) by lia.
    replace (Z.of_nat (length pre + S (S (length mid))) - 1 - 1) with (Z.of_nat (length pre + 1 + length mid) - 1) by lia.
    rewrite IH by lia. rewrite reverse_cons, reverse_app, <- !app_assoc. done.
Qed.

Lemma swap_all g : swap_loop (length g) 0 (Z.of_nat (length g) - 1) g = reverse g.
Proof.
  pose proof (swap_loop_reverse (length g) [] g [] ltac:(lia)) as E. cbn [length app Nat.add] in E.
  rewrite !app_nil_r in E. exact E.
Qed.

(** ** A row *)

(** What a slot looks like: a block of the right height, in UTF-8. *)
Definition glyph (flat : bool) (lim : list ldouble) (v : option ldouble) : string :=
  match v with
  | Some v => String (chr 0xe2) (String (chr 0x96) (str1 (bar flat lim v)))
  | None => " "
  end.

Definition join (l : list string) : string := foldr String.append "" l.

Lemma string_of_app l1 l2 :
  String.string_of_list_ascii (l1 ++ l2) = String.string_of_list_ascii l1 +:+ String.string_of_list_ascii l2.
Proof. induction l1 as [|c l1 IH]; [done|]. cbn. rewrite str_app_cons. by rewrite <- IH. Qed.

Lemma join_app l1 l2 : join (l1 ++ l2) = join l1 +:+ join l2.
Proof.
  induction l1 as [|s l1 IH]; [done|]. change (join ((s :: l1) ++ l2)) with (s +:+ join (l1 ++ l2)).
  rewrite IH. symmetry. apply str_app_assoc.
Qed.

(** Reversing the bytes puts the slots in the order of time, and the bytes of
    each block in the order of the encoding. *)
Lemma back_reverse flat lim m js :
  String.string_of_list_ascii (reverse (back flat lim m js)) = join ((λ j, glyph flat lim (slot m j)) <$> reverse js).
Proof.
  induction js as [|j js IH]; [done|]. unfold back in *. cbn [fmap list_fmap concat].
  rewrite reverse_app, string_of_app, IH, reverse_cons, fmap_app, join_app. f_equal.
  cbn [fmap list_fmap join foldr]. rewrite str_app_nil_r. by destruct (slot m j).
Qed.

Lemma take_walk fill k : 0 ≤ k ≤ fill → reverse (take (Z.to_nat k) (walk fill)) = seqZ (fill - k + 1) k.
Proof.
  intros Hk. unfold walk. replace fill with ((fill - k) + k) at 1 by lia. rewrite seqZ_app, reverse_app by lia.
  rewrite take_app_length'; [|rewrite length_reverse, length_seqZ; lia]. rewrite reverse_involutive. f_equal. lia.
Qed.

Lemma omap_reverse {A B} (f : A → option B) l : omap f (reverse l) = reverse (omap f l).
Proof.
  induction l as [|x l IH]; [done|]. rewrite reverse_cons, omap_app, IH. cbn [omap list_omap].
  destruct (f x); [by rewrite reverse_cons|by rewrite app_nil_r].
Qed.

Lemma head_reverse {A} (l : list A) : head (reverse l) = last l.
Proof. destruct l as [|x l _] using rev_ind; [done|]. rewrite reverse_snoc, last_snoc. done. Qed.

(** The values of the windows since the start, oldest first. *)
Definition history (m : cmetric) (fill : Z) : list ldouble := omap (slot m) (seqZ 1 fill).

(** The row of a metric: the last value of the history (or what was on the
    stack, when there is none), a block for each of the last windows in the
    order of time, dots for the windows that are missing, and the extremes of
    the history. *)
Definition row (e : console_env) (a : artist_t) (i : Z) (m : cmetric) : list draw :=
  let hist := history m (ar_fill a) in
  let latest := default (ce_junk e) (last hist) in
  let '(mn, mx) := foldl widen (latest, latest) (reverse hist) in
  let lim := limits mn mx in
  let '(mn, mn_u) := simplify mn in
  let '(mx, mx_u) := simplify mx in
  let '(latest, u) := simplify latest in
  let k := Z.min (ar_w_graph a) (ar_fill a) in
  let graph := join ((λ j, glyph (negb (spread mn mx)) lim (slot m j)) <$> seqZ (ar_fill a - k + 1) k) in
  MvPrint (1 + i) 0
    (" " +:+ str1 (mt_type m) +:+ "  " +:+ pad_right (ar_w_name a) (mt_name m) +:+ "  " +:+ fmt_6_2Lf latest
     +:+ " " +:+ str1 u +:+ "  " +:+ graph +:+ " ")
  :: if spread mn mx
     then [Print (dots (Z.to_nat (ar_w_graph a - k)));
           Print ("  " +:+ fmt_6_2Lf mn +:+ " " +:+ str1 mn_u +:+ " / " +:+ fmt_6_2Lf mx +:+ " " +:+ str1 mx_u)]
     else [ClearToEol].

(** The column of the graph has room for it, and [dots] for what is left. *)
Definition fits (a : artist_t) : Prop := 0 ≤ ar_w_graph a ∧ ar_w_graph a - Z.min (ar_w_graph a) (ar_fill a) < 2048.

Record pointers_ok (a : artist_t) : Prop := {
  po_start : ar_start a = 0;
  po_fill : 0 ≤ ar_fill a < 256;
}.

(** The bytes of the graph, and what they are when they are reversed. *)
Lemma graph_is flat lim m w fill :
  cmetric_ok m → 0 ≤ fill < 256 → 0 ≤ w →
  ∃ g, graph_loop 257 flat lim m w fill 0 0 [] = Ok (g, Z.min w fill) ∧ Z.of_nat (length g) < graph_size ∧
    String.string_of_list_ascii (swap_loop (length g) 0 (Z.of_nat (length g) - 1) g) =
      join ((λ j, glyph flat lim (slot m j)) <$> seqZ (fill - Z.min w fill + 1) (Z.min w fill)).
Proof.
  intros Hm Hf Hw. rewrite graph_loop_walk by (done || cbn [length]; lia). set (js := take _ _). eexists.
  split; [do 2 f_equal; lia|]. split.
  - pose proof (back_length flat lim m js) as Hb. assert (length js ≤ 255)%nat; [|cbn [app]; unfold graph_size, MAX_VALUES; lia].
    unfold js. rewrite length_take. unfold walk. rewrite length_reverse, length_seqZ. lia.
  - cbn [app]. rewrite swap_all, back_reverse. do 2 f_equal. rewrite <- take_walk by lia. unfold js. f_equal. rewrite Z.sub_0_r.
    destruct (Z.le_ge_cases w fill).
    + by rewrite Z.min_l by lia.
    + rewrite Z.min_r by lia. rewrite !take_ge; [done|..]; unfold walk; rewrite length_reverse, length_seqZ; lia.
Qed.

Lemma draw_row_is e a i m : pointers_ok a → cmetric_ok m → fits a → draw_row e a i m = Ok (row e a i m).
Proof.
  intros [Hs Hf] Hm [Hw Hd]. unfold draw_row, row. rewrite Hs.
  rewrite last_set_walk by (done || lia). rewrite Ok_bind.
  rewrite min_max_walk by (done || lia). rewrite Ok_bind.
  assert (omap (slot m) (walk (ar_fill a)) = reverse (history m (ar_fill a))) as -> by apply omap_reverse.
  rewrite head_reverse. generalize (default (ce_junk e) (last (history m (ar_fill a)))). intros latest.
  destruct (foldl widen _ _) as [mn mx]. generalize (limits mn mx). intros lim.
  destruct (simplify mn) as [mn' mn_u]. destruct (simplify mx) as [mx' mx_u]. destruct (simplify latest) as [l u].
  generalize (spread mn' mx'). intros sp.
  destruct (graph_is (negb sp) lim m (ar_w_graph a) (ar_fill a) Hm Hf Hw) as (g & -> & Hlen & Hg). rewrite Ok_bind.
  apply Z.leb_gt in Hlen. rewrite Hlen.
  assert ((0 <=? ar_w_graph a - Z.min (ar_w_graph a) (ar_fill a)) = true) as -> by (apply Z.leb_le; lia).
  assert ((ar_w_graph a - Z.min (ar_w_graph a) (ar_fill a) <? dots_size) = true) as -> by (by apply Z.ltb_lt).
  cbn [andb negb]. by rewrite Hg.
Qed.

(** A column that is too narrow. *)
Lemma draw_row_narrow e a i m :
  pointers_ok a → cmetric_ok m → ar_w_graph a < 0 → draw_row e a i m = Fault OutOfBounds.
Proof.
  intros [Hs Hf] Hm Hw. unfold draw_row. rewrite Hs.
  rewrite last_set_walk by (done || lia). rewrite Ok_bind.
  rewrite min_max_walk by (done || lia). rewrite Ok_bind.
  destruct (foldl widen _ _) as [mn mx]. destruct (simplify mn) as [mn' mn_u]. destruct (simplify mx) as [mx' mx_u].
  rewrite graph_loop_walk by (done || cbn [length]; lia). rewrite Ok_bind.
  replace (Z.to_nat (ar_w_graph a - 0)) with 0%nat by lia. rewrite take_0.
  assert (ar_w_graph a - (0 + Z.min (Z.max 0 (ar_w_graph a - 0)) (ar_fill a)) < 0) as Hneg by lia.
  apply Z.leb_gt in Hneg. rewrite Hneg. done.
Qed.

(** ** The table *)

Lemma emit_all {S O} (l : list O) (s : S) : for_each_m emit l s = Ok ((), s, l).
Proof. induction l as [|x l IH]; [done|]. cbn [for_each_m]. rewrite M_emit_bind, IH. done. Qed.

Lemma set_visible_set_visible v w a : set_visible v (set_visible w a) = set_visible v a.
Proof. done. Qed.

Lemma set_visible_id a : set_visible (ar_visible a) a = a.
Proof. by destruct a. Qed.

(** The rows of the metrics, from line [i] on. *)
Fixpoint rows (e : console_env) (a : artist_t) (i : Z) (ms : list cmetric) : list draw :=
  match ms with [] => [] | m :: ms' => row e a i m ++ rows e a (i + 1) ms' end.

Lemma rows_visible e a v i ms : rows e (set_visible v a) i ms = rows e a i ms.
Proof. revert i. induction ms as [|m ms IH]; intros i; [done|]. cbn [rows]. by rewrite IH. Qed.

Lemma draw_rows_is e i ms a :
  pointers_ok a → Forall cmetric_ok ms → fits a →
  draw_rows e i ms a =
    Ok ((), set_visible (ar_visible a + Z.min (Z.of_nat (length ms)) (Z.max 0 (ar_height a - 2 - i))) a,
        rows e a i (take (Z.to_nat (ar_height a - 2 - i)) ms)).
Proof.
  intros Hp Hms. revert i a Hp. induction Hms as [|m ms Hm _ IH]; intros i a Hp Hfit; cbn [draw_rows].
  { rewrite take_nil. cbn [rows length]. rewrite Z.min_l, Z.add_0_r, set_visible_id by lia. done. }
  mstep. destruct (Z.ltb_spec i (ar_height a - 2)) as [Hlt|Hge].
  2:{ replace (Z.to_nat _) with 0%nat by lia. rewrite take_0, Z.min_r, Z.max_l, Z.add_0_r, set_visible_id by lia. done. }
  mstep. rewrite (draw_row_is e a i m) by done. mstep. erewrite M_run_bind by apply emit_all.
  set (a' := set_visible _ a). rewrite IH; [|by split; apply Hp|done].
  unfold a'. rewrite set_visible_set_visible, rows_visible. cbn [ar_height ar_visible set_visible set_screen out_app].
  replace (Z.to_nat (ar_height a - 2 - i)) with (S (Z.to_nat (ar_height a - 2 - (i + 1)))) by lia.
  cbn [take rows]. do 4 f_equal. cbn [length]. lia.
Qed.

(** The state when a screen is drawn. *)
Definition resized (e : console_env) (a : artist_t) : artist_t :=
  set_screen (ce_height e) (ce_width e) 0 (ce_width e - 4 - ar_w_name a - 12 - 23 - 1) a.

Definition drawn (e : console_env) (a : artist_t) : artist_t :=
  set_visible (Z.min (Z.of_nat (length (drop (Z.to_nat (ar_voffset a)) (ar_metrics a)))) (Z.max 0 (ce_height e - 2))) (resized e a).

Section redraw.
Context `{Pcre}.

Lemma redraw_is e o a top bottom :
  pointers_ok a → Forall cmetric_ok (ar_metrics a) → fits (resized e a) →
  s_statusline e o (co_status_top o) true (drawn e a) = Ok top →
  s_statusline e o (co_status_bottom o) false (drawn e a) = Ok bottom →
  s_redraw e o a =
    Ok ((), drawn e a,
        rows e (resized e a) 0 (take (Z.to_nat (ce_height e - 2)) (drop (Z.to_nat (ar_voffset a)) (ar_metrics a)))
        ++ top ++ bottom ++ [Refresh]).
Proof using.
  intros Hp Hms Hfit Ht Hb. unfold s_redraw. mstep. fold (resized e a).
  erewrite M_run_bind; [|apply draw_rows_is; [by split; apply Hp|by apply Forall_drop|done]].
  match goal with |- context [set_visible ?v ?x] => change (set_visible v x) with (set_visible v (resized e a));
    replace (set_visible v (resized e a)) with (drawn e a) by (unfold drawn; f_equal; cbn; lia) end.
  mstep. rewrite Ht. mstep. erewrite M_run_bind by apply emit_all. rewrite Hb. mstep.
  erewrite M_run_bind by apply emit_all. cbn [emit out_app]. unfold emit. cbn [out_app].
  cbn [ar_height resized set_screen]. rewrite Z.sub_0_r. by rewrite <- app_assoc.
Qed.

(** As soon as a metric is visible, a terminal that is narrower than
    forty columns and the longest name makes the program write before the
    buffer of dots. *)
Theorem narrow_terminal_overflow e o a m ms :
  pointers_ok a → Forall cmetric_ok (ar_metrics a) →
  drop (Z.to_nat (ar_voffset a)) (ar_metrics a) = m :: ms → 3 ≤ ce_height e → ce_width e < 40 + ar_w_name a →
  s_redraw e o a = Fault OutOfBounds.
Proof using.
  intros Hp Hms Hd Hh Hw. unfold s_redraw. mstep. fold (resized e a).
  assert (drop (Z.to_nat (ar_voffset (resized e a))) (ar_metrics (resized e a)) = m :: ms) as -> by exact Hd.
  assert (cmetric_ok m) as Hm.
  { apply (Forall_drop _ (Z.to_nat (ar_voffset a))) in Hms. rewrite Hd in Hms. by inversion Hms. }
  erewrite M_fault_bind; [done|]. cbn [draw_rows]. mstep.
  rewrite (proj2 (Z.ltb_lt _ _)) by (cbn; lia). mstep.
  rewrite draw_row_narrow; [done|by split; apply Hp|done|cbn; lia].
Qed.
End redraw.

(** ** The ring of a metric *)

(** A value that is accepted. *)
Definition accepted (value : string) : option ldouble :=
  let '(v, err) := strtold value in if negb (streq err "") || l_isnan v then None else Some v.

(** The windows of a metric, newest first: the last value of each, or none. *)
Definition note (h : list (option ldouble)) (value : string) : list (option ldouble) :=
  match accepted value with Some v => Some v :: tail h | None => h end.

(** The ring holds the last 256 windows. *)
Record ring_is (m : cmetric) (fill : Z) (h : list (option ldouble)) : Prop := {
  ri_ok : cmetric_ok m;
  ri_slots : ∀ d, 0 ≤ d < 256 → slot m ((fill - d) mod 256) = mjoin (h !! Z.to_nat d);
}.

Lemma ring_new type name fill : ring_is (cmetric_new type name) fill [].
Proof.
  split; [split; apply length_replicate|]. intros d Hd. unfold slot. cbn [cmetric_new mt_set].
  rewrite lookup_replicate_2 by zlia. done.
Qed.

Lemma slot_set m fill v j :
  cmetric_ok m → 0 ≤ fill < 256 → 0 ≤ j →
  slot (mk_cmetric (mt_name m) (mt_type m) (<[Z.to_nat fill := true]> (mt_set m)) (<[Z.to_nat fill := v]> (mt_val m))) j =
  if decide (j = fill) then Some v else slot m j.
Proof.
  intros [H1 H2] Hf Hj. unfold slot. cbn [mt_set mt_val]. case_decide as E.
  - subst j. rewrite !list_lookup_insert_eq by lia. done.
  - by rewrite !list_lookup_insert_ne by lia.
Qed.

Lemma ring_update m fill h value :
  0 ≤ fill < 256 → ring_is m fill h →
  ∃ m', s_update_metric fill m (Some value) = Ok m' ∧ ring_is m' fill (note h value) ∧
    mt_name m' = mt_name m ∧ mt_type m' = mt_type m.
Proof.
  intros Hf [Hm Hs]. unfold s_update_metric, note, accepted. cbn [deref]. rewrite Ok_bind.
  destruct (strtold value) as [v err]. destruct (negb (streq err "")); cbn [orb]; [by exists m|].
  destruct (l_isnan v); [by exists m|]. destruct Hm as [H1 H2].
  rewrite !aset_Ok by lia. rewrite !Ok_bind. eexists. split; [done|]. split; [|done]. split.
  - split; cbn; by rewrite length_insert.
  - intros d Hd. rewrite slot_set by (done || zlia). case_decide as E.
    + assert (d = 0) as -> by zlia. done.
    + rewrite Hs by done. destruct (Z.to_nat d) as [|d'] eqn:Ed; [destruct E; zlia|]. by destruct h.
Qed.

(** The next slot. *)
Definition next (fill : Z) : Z := (fill + 1) mod 256.

Lemma ring_advance m fill h :
  0 ≤ fill < 256 → ring_is m fill h →
  ∃ m', clear_slot (next fill) m = Ok m' ∧ ring_is m' (next fill) (None :: h) ∧
    mt_name m' = mt_name m ∧ mt_type m' = mt_type m.
Proof.
  intros Hf [[H1 H2] Hs]. unfold clear_slot. assert (0 ≤ next fill < 256) as Hn by (unfold next; zlia).
  rewrite aset_Ok by lia. rewrite Ok_bind. eexists. split; [done|]. split; [|done]. split.
  - split; cbn; [by rewrite length_insert|done].
  - intros d Hd. unfold slot. cbn [mt_set mt_val]. destruct (decide (d = 0)) as [->|Hd0].
    + rewrite Z.sub_0_r, Z.mod_small by lia. by rewrite list_lookup_insert_eq by lia.
    + assert ((next fill - d) mod 256 = (fill - (d - 1)) mod 256) as -> by (unfold next; zlia).
      rewrite list_lookup_insert_ne by (unfold next in *; zlia).
      replace (Z.to_nat d) with (S (Z.to_nat (d - 1))) by lia. cbn [lookup list_lookup]. rewrite <- Hs by lia. done.
Qed.

(** ** The metrics of the console *)

Definition mkey (m : cmetric) : ascii * string := (mt_type m, mt_name m).

(** The abstract console: the windows of each metric. *)
Abbreviation board := (gmap (ascii * string) (list (option ldouble))).

Record tracks (a : artist_t) (t : board) : Prop := {
  tk_pointers : pointers_ok a;
  tk_keys : NoDup (mkey <$> ar_metrics a);
  tk_rings : ∀ m, m ∈ ar_metrics a → ∃ h, t !! mkey m = Some h ∧ ring_is m (ar_fill a) h;
  tk_dom : ∀ k, is_Some (t !! k) → k ∈ mkey <$> ar_metrics a;
  tk_names : Forall (λ m, strlen (mt_name m) ≤ ar_w_name a) (ar_metrics a);
}.

Lemma find_spec ms type n :
  ∃ r, s_find_metric ms type (Some n) = Ok r ∧
    match r with
    | Some x => ∃ m, ms !! x = Some m ∧ mkey m = (type, n)
    | None => (type, n) ∉ mkey <$> ms
    end.
Proof.
  induction ms as [|m ms (r & E & Hr)]; cbn [s_find_metric].
  { exists None. split; [done|]. apply not_elem_of_nil. }
  rewrite E. cbn [deref]. rewrite !Ok_bind. destruct (Ascii.eqb_spec (mt_type m) type) as [Ht|Ht].
  - destruct (streq (mt_name m) n) eqn:Hn.
    + apply streq_eq in Hn. exists (Some 0%nat). split; [done|]. exists m. split; [done|]. unfold mkey. by rewrite Ht, Hn.
    + apply streq_neq in Hn. exists (option_map S r). split; [done|]. destruct r as [x|]; [exact Hr|].
      cbn. apply not_elem_of_cons. split; [|done]. unfold mkey. congruence.
  - exists (option_map S r). split; [done|]. destruct r as [x|]; [exact Hr|].
    cbn. apply not_elem_of_cons. split; [|done]. unfold mkey. congruence.
Qed.

(** A metric that is replaced by one with the same key. *)
Lemma tracks_insert a t x m m' h :
  tracks a t → ar_metrics a !! x = Some m → mkey m' = mkey m → ring_is m' (ar_fill a) h →
  tracks (ar_set_metrics (<[x := m']> (ar_metrics a)) a) (<[mkey m := h]> t).
Proof.
  intros [Hp Hk Hr Hd Hn] Hx Hm' Hring.
  assert (mkey <$> <[x := m']> (ar_metrics a) = mkey <$> ar_metrics a) as Hkeys.
  { rewrite list_fmap_insert, Hm'. apply list_insert_id. by rewrite list_lookup_fmap, Hx. }
  split; cbn [ar_metrics ar_fill ar_w_name ar_set_metrics].
  - by split; apply Hp.
  - by rewrite Hkeys.
  - intros y Hy. destruct (decide (mkey y = mkey m)) as [E|E].
    + rewrite E, lookup_insert_eq. exists h. split; [done|].
      apply list_elem_of_lookup in Hy as [i Hi]. assert (i = x) as ->.
      { apply (NoDup_lookup _ _ _ (mkey m) Hk); [|by rewrite list_lookup_fmap, Hx].
        rewrite <- Hkeys, list_lookup_fmap, Hi. cbn. by rewrite E. }
      rewrite list_lookup_insert_eq in Hi by (by eapply lookup_lt_Some). by injection Hi as <-.
    + rewrite lookup_insert_ne by done. apply list_elem_of_lookup in Hy as [i Hi].
      destruct (decide (i = x)) as [->|Hne].
      { rewrite list_lookup_insert_eq in Hi by (by eapply lookup_lt_Some). injection Hi as <-. congruence. }
      rewrite list_lookup_insert_ne in Hi by done. apply Hr. by eapply list_elem_of_lookup_2.
  - intros k Hki. rewrite Hkeys. destruct (decide (k = mkey m)) as [->|E].
    + apply list_elem_of_fmap. exists m. split; [done|]. by eapply list_elem_of_lookup_2.
    + rewrite lookup_insert_ne in Hki by done. by apply Hd.
  - apply Forall_insert; [done|]. rewrite Forall_lookup in Hn.
    assert (mt_name m' = mt_name m) as -> by (by injection Hm'). by apply (Hn x).
Qed.

(** A new metric. *)
Lemma tracks_new a t m h :
  tracks a t → mkey m ∉ mkey <$> ar_metrics a → ring_is m (ar_fill a) h →
  tracks (let a' := ar_set_metrics (ar_metrics a ++ [m]) a in
          if ar_w_name a' <? strlen (mt_name m) then set_w_name (strlen (mt_name m)) a' else a')
         (<[mkey m := h]> t).
Proof.
  intros [Hp Hk Hr Hd Hn] Hnew Hring. cbn zeta. set (a1 := ar_set_metrics _ a).
  set (a2 := if ar_w_name a1 <? strlen (mt_name m) then set_w_name (strlen (mt_name m)) a1 else a1).
  assert (ar_metrics a2 = ar_metrics a ++ [m] ∧ ar_fill a2 = ar_fill a ∧ ar_start a2 = ar_start a ∧
          ar_w_name a2 = Z.max (ar_w_name a) (strlen (mt_name m))) as (E1 & E2 & E3 & E4).
  { unfold a2. destruct (Z.ltb_spec (ar_w_name a1) (strlen (mt_name m))) as [Hl|Hl]; cbn in Hl |- *; split_and!; (done || lia). }
  split; rewrite ?E1, ?E2, ?E4.
  - split; rewrite ?E2, ?E3; apply Hp.
  - rewrite fmap_app. apply NoDup_app. split_and!; [done| |apply NoDup_singleton].
    intros k Hin Hk1. apply list_elem_of_singleton in Hk1. by subst k.
  - intros y Hy. apply elem_of_app in Hy as [Hy|Hy].
    + destruct (Hr y Hy) as (h' & Hl & Hri). exists h'. split; [|done]. rewrite lookup_insert_ne; [done|].
      intros E. apply Hnew. rewrite E. apply list_elem_of_fmap. by exists y.
    + apply list_elem_of_singleton in Hy as ->. exists h. by rewrite lookup_insert_eq.
  - intros k Hki. rewrite fmap_app, elem_of_app. destruct (decide (k = mkey m)) as [->|E].
    + right. by apply list_elem_of_singleton.
    + rewrite lookup_insert_ne in Hki by done. left. by apply Hd.
  - apply Forall_app. split; [eapply Forall_impl; [exact Hn|]; cbn; lia|]. apply Forall_singleton. lia.
Qed.

Lemma clear_all fill ms hs :
  0 ≤ fill < 256 → Forall2 (λ m h, ring_is m fill h) ms hs →
  ∃ ms', clear_slots (next fill) ms = Ok ms' ∧ mkey <$> ms' = mkey <$> ms ∧ mt_name <$> ms' = mt_name <$> ms ∧
    Forall2 (λ m h, ring_is m (next fill) (None :: h)) ms' hs.
Proof.
  intros Hf. induction 1 as [|m h ms hs Hm _ (ms' & E & Hk & Hn & H2)]; cbn [clear_slots].
  { by exists []. }
  destruct (ring_advance m fill h Hf Hm) as (m' & Em & Hr & En & Et). rewrite Em, Ok_bind, E, Ok_bind.
  exists (m' :: ms'). split; [done|]. cbn. rewrite Hk, Hn, En. split_and!; [f_equal; unfold mkey; congruence|done|].
  by constructor.
Qed.

Lemma tracks_advance a t :
  tracks a t → ∃ a', artist_advance a = Ok a' ∧ tracks a' ((None ::.) <$> t) ∧ ar_fill a' = next (ar_fill a) ∧
    ar_voffset a' = ar_voffset a ∧ ar_tick a' = ar_tick a ∧ ar_w_name a' = ar_w_name a ∧ ar_total a' = ar_total a.
Proof.
  intros [Hp Hk Hr Hd Hn]. destruct Hp as [Hst Hf]. unfold artist_advance.
  assert ((if MAX_VALUES <=? ar_fill a + 1 then 0 else ar_fill a + 1) = next (ar_fill a)) as ->.
  { unfold next, MAX_VALUES. destruct (Z.leb_spec 256 (ar_fill a + 1)); zlia. }
  assert (Forall2 (λ m h, ring_is m (ar_fill a) h) (ar_metrics a) ((λ m, default [] (t !! mkey m)) <$> ar_metrics a)) as H2.
  { apply Forall2_fmap_r, Forall_Forall2_diag, Forall_forall. intros m Hm. destruct (Hr m Hm) as (h & Hl & Hri). cbn. by rewrite Hl. }
  destruct (clear_all _ _ _ Hf H2) as (ms' & E & Ek & En & H2'). rewrite E, Ok_bind. eexists. split; [done|].
  split_and!; cbn; [|done..|unfold ar_total; cbn; by rewrite <- (length_fmap mkey ms'), Ek, length_fmap].
  split; cbn [ar_metrics ar_fill ar_w_name ar_set_metrics set_fill].
  - split; cbn; [done|unfold next; zlia].
  - by rewrite Ek.
  - intros m' Hm'. apply list_elem_of_lookup in Hm' as [x Hx].
    destruct (Forall2_lookup_l _ _ _ _ _ H2' Hx) as (h & Hh & Hri). rewrite list_lookup_fmap in Hh.
    destruct (ar_metrics a !! x) as [m|] eqn:Ex; [|done]. cbn in Hh. injection Hh as <-.
    assert (mkey m' = mkey m) as Em.
    { assert ((mkey <$> ms') !! x = (mkey <$> ar_metrics a) !! x) as El by (by rewrite Ek).
      rewrite !list_lookup_fmap, Hx, Ex in El. cbn [fmap option_fmap option_map] in El; congruence. }
    destruct (Hr m) as (h & Hl & _); [by eapply list_elem_of_lookup_2|]. exists (None :: h).
    rewrite Em, lookup_fmap, Hl. rewrite Hl in Hri. done.
  - intros k Hki. rewrite Ek. apply Hd. rewrite lookup_fmap in Hki. destruct (t !! k); [by eexists|by destruct Hki].
  - assert (Forall (λ n, strlen n ≤ ar_w_name a) (mt_name <$> ms')) as Hn' by (rewrite En; by apply Forall_fmap).
    rewrite Forall_fmap in Hn'. exact Hn'.
Qed.

(** ** Messages and windows *)

Section board.
Context `{VL : VigorLaws} `{Pcre}.

(** What changes the board: a message, or the end of a window. *)
Inductive cevent := CMessage (p : pdu_t) | CWindow.

Definition cstep (o : console_options) (a : artist_t) (ev : cevent) : res artist_t :=
  match ev with CMessage p => s_ingest o p a | CWindow => artist_advance a end.

Fixpoint csteps (o : console_options) (a : artist_t) (evs : list cevent) : res artist_t :=
  match evs with [] => mret a | ev :: evs' => a ← cstep o a ev; csteps o a evs' end.

(** The specification: a message sets the value of the current window of its
    metric, which must be known or match the pattern. *)
Definition cspec (o : console_options) (t : board) (ev : cevent) : board :=
  match ev with
  | CWindow => (None ::.) <$> t
  | CMessage p =>
      match ingested (pdu_type p) with
      | None => t
      | Some (type, i) =>
          match pdu_string p 2, pdu_string p i with
          | Some n, Some v =>
              match t !! (type, n) with
              | Some h => <[(type, n) := note h v]> t
              | None => if pcre_exec (co_re o) (co_re_extra o) n =? 0 then <[(type, n) := note [] v]> t else t
              end
          | _, _ => t
          end
      end
  end.

(** A message that has the frame with its value. *)
Definition shaped (p : pdu_t) : Prop :=
  match ingested (pdu_type p) with Some (_, i) => i < pdu_size p | None => True end.

Lemma ingested_frame type c i : ingested type = Some (c, i) → 2 < i.
Proof using. unfold ingested. repeat case_match; intros [= _ <-]; lia. Qed.

Lemma ingested_types type x : ingested type = Some x → type = "RATE" ∨ type = "COUNTER" ∨ type = "SAMPLE".
Proof using.
  unfold ingested. destruct (streq type "RATE") eqn:E1; [left; by apply streq_eq|].
  destruct (streq type "COUNTER") eqn:E2; [right; left; by apply streq_eq|].
  destruct (streq type "SAMPLE") eqn:E3; [right; right; by apply streq_eq|done].
Qed.

Lemma tracks_ingest o a t p :
  tracks a t → shaped p →
  ∃ a', s_ingest o p a = Ok a' ∧ tracks a' (cspec o t (CMessage p)) ∧ ar_fill a' = ar_fill a ∧
    ar_voffset a' = ar_voffset a ∧ ar_tick a' = ar_tick a ∧ ar_total a ≤ ar_total a' ≤ ar_total a + 1 ∧
    (ar_w_name a' = ar_w_name a ∨ ∃ n, pdu_string p 2 = Some n ∧ ar_w_name a' = strlen n).
Proof using VL.
  intros Ht Hsh. unfold s_ingest, cspec, shaped in *. pose proof (tk_pointers _ _ Ht) as [_ Hf].
  destruct (ingested (pdu_type p)) as [[type i]|] eqn:Ei; [|exists a; split_and!; (done || lia || by left)].
  apply ingested_frame in Ei.
  destruct (pdu_string_Some p 2) as [n ->]; [lia|]. destruct (pdu_string_Some p i) as [v ->]; [lia|].
  destruct (find_spec (ar_metrics a) type n) as (r & Er & Hr). rewrite Er, Ok_bind. destruct r as [x|].
  - destruct Hr as (m & Hx & Hkey). rewrite (aget_Ok _ _ m) by (lia || by rewrite Nat2Z.id). rewrite Ok_bind.
    destruct (tk_rings _ _ Ht m) as (h & Hh & Hri); [by eapply list_elem_of_lookup_2|].
    destruct (ring_update m (ar_fill a) h v Hf Hri) as (m' & Em & Hri' & En & Et). rewrite Em, Ok_bind.
    rewrite <- Hkey, Hh. eexists. split; [done|]. split; [|split_and!; try (done || by left)].
    + eapply tracks_insert; [done|done| |done]. unfold mkey. congruence.
    + unfold ar_total. cbn. rewrite length_insert. lia.
    + unfold ar_total. cbn. rewrite length_insert. lia.
  - assert (t !! (type, n) = None) as ->.
    { apply eq_None_not_Some. intros Hs. by apply (tk_dom _ _ Ht) in Hs. }
    cbn [deref]. rewrite Ok_bind. destruct (pcre_exec _ _ n =? 0); [|exists a; split_and!; (done || lia || by left)].
    unfold s_insert_metric.
    destruct (ring_update (cmetric_new type n) (ar_fill a) [] v Hf (ring_new type n _)) as (m' & Em & Hri' & En & Et).
    cbn in En, Et. rewrite Em, Ok_bind. eexists. split; [done|].
    assert ((type, n) = mkey m') as Hkey by (unfold mkey; congruence). rewrite Hkey in Hr |- *.
    split; [rewrite <- En; by apply tracks_new|].
    destruct (ar_w_name _ <? strlen n); split_and!; try done; try (unfold ar_total; cbn; rewrite length_app; cbn [length]; lia).
    + right. by exists n.
    + by left.
Qed.

(** C18: the console keeps, for every metric that has been seen, the last
    value of each of the last 256 windows in a ring: a value replaces that of
    the current window, a value that is not a number changes nothing, and
    the end of a window starts an empty one in every ring. *)
Theorem console_refines o evs a t :
  tracks a t → Forall (λ ev, match ev with CMessage p => shaped p | CWindow => True end) evs →
  ∃ a', csteps o a evs = Ok a' ∧ tracks a' (foldl (cspec o) t evs).
Proof using VL.
  intros Ht Hevs. revert a t Ht. induction Hevs as [|ev evs Hev _ IH]; intros a t Ht; [by exists a|].
  cbn [csteps foldl]. destruct ev as [p|]; cbn [cstep].
  - destruct (tracks_ingest o a t p Ht Hev) as (a1 & E & H1 & _). rewrite E, Ok_bind. by apply IH.
  - destruct (tracks_advance a t Ht) as (a1 & E & H1 & _). rewrite E, Ok_bind. by apply IH.
Qed.
End board.

(** ** The wrap *)

Lemma spread_same v : spread v v = false.
Proof.
  unfold spread, lsub, SFsub. destruct v as [s|s| |s m e]; [by destruct s|by destruct s|done|].
  destruct s; cbn -[binary_normalize l_of_Z]; by rewrite ?Z.add_opp_diag_l, ?Z.sub_diag.
Qed.

(** A row without history: what was on the stack, and no graph. *)
Definition blank_row (e : console_env) (a : artist_t) (i : Z) (m : cmetric) : list draw :=
  let '(junk, u) := simplify (ce_junk e) in
  [MvPrint (1 + i) 0
     (" " +:+ str1 (mt_type m) +:+ "  " +:+ pad_right (ar_w_name a) (mt_name m) +:+ "  " +:+ fmt_6_2Lf junk
      +:+ " " +:+ str1 u +:+ "  " +:+ "" +:+ " ");
   ClearToEol].

Lemma row_blank e a i m : 0 ≤ ar_w_graph a → ar_fill a = 0 → row e a i m = blank_row e a i m.
Proof.
  intros Hw Hf. unfold row, blank_row. rewrite Hf, Z.min_r by lia. change (history m 0) with (@nil ldouble).
  cbn [last default reverse foldl]. change (reverse []) with (@nil ldouble). cbn [foldl].
  destruct (simplify (ce_junk e)) as [v u]. by rewrite spread_same.
Qed.

(** When the fill pointer passes the end of the rings, every row loses
    its graph and prints as the last value whatever was on the stack,
    although the rings still have the values of 255 windows: the start
    pointer stays where it is. *)
Theorem wrap_blanks_rows e a t :
  tracks a t → ar_fill a = 255 → 0 ≤ ce_width e - 40 - ar_w_name a < 2048 →
  ∃ a', artist_advance a = Ok a' ∧ tracks a' ((None ::.) <$> t) ∧
    ∀ i m, m ∈ ar_metrics a' → draw_row e (resized e a') i m = Ok (blank_row e (resized e a') i m).
Proof.
  intros Ht Hf Hw. destruct (tracks_advance a t Ht) as (a' & E & Ht' & Hf' & _ & _ & Hn & _).
  exists a'. split_and!; [done|done|]. intros i m Hm. rewrite Hf in Hf'. change (next 255) with 0 in Hf'.
  destruct (tk_rings _ _ Ht' m Hm) as (h & _ & Hri). rewrite draw_row_is.
  - f_equal. apply row_blank; cbn; [lia|done].
  - split; cbn; [apply (tk_pointers _ _ Ht')|lia].
  - apply Hri.
  - split; cbn; lia.
Qed.

(** ** Safety *)

Lemma tracks_same a a' t :
  ar_start a' = ar_start a → ar_fill a' = ar_fill a → ar_metrics a' = ar_metrics a → ar_w_name a' = ar_w_name a →
  tracks a t → tracks a' t.
Proof.
  intros E1 E2 E3 E4 [[Hs Hf] Hk Hr Hd Hn]. split; rewrite ?E3, ?E2, ?E4; try done.
  split; [by rewrite E1|by rewrite E2].
Qed.

Section safety.
Context `{VL : VigorLaws} `{Pcre}.
Variable o : console_options.
Variable longest : Z.

(** The terminal has room for the longest name, and for both status lines
    with every field at its longest ([status_fits], which also keeps per cent
    signs out of their middle). *)
Record roomy (e : console_env) : Prop := {
  rm_width : 40 + longest ≤ ce_width e < 2088;
  rm_height : 0 ≤ ce_height e < 2 ^ 31;
  rm_texts : c_texts e o;
  rm_formats : lacks NUL (co_status_top o) ∧ lacks NUL (co_status_bottom o);
  rm_top : status_fits e o (co_status_top o) = true;
  rm_bottom : status_fits e o (co_status_bottom o) = true;
}.

(** The invariant: the rings are consistent, the width of the names is that of
    a name, and no more rows are scrolled away than there are metrics (on a
    terminal of less than two lines, up to two more). *)
Record steady (a : artist_t) : Prop := {
  sd_tracks : ∃ t, tracks a t;
  sd_name : 0 ≤ ar_w_name a ≤ longest;
  sd_height : 0 ≤ ar_height a < 2 ^ 31;
  sd_voffset : 0 ≤ ar_voffset a ≤ ar_total a + 2;
  sd_empty : ar_total a = 0 → ar_voffset a = 0;
}.

(** Runs from a steady state end in one, with at most one metric more; there
    are fewer than [2 ^ 32] of them. *)
Definition keeps {A} (m : M artist_t draw A) : Prop :=
  ∀ a, steady a → ar_total a + 1 < 2 ^ 32 → wp False m (λ _ a', steady a' ∧ ar_total a' ≤ ar_total a + 1) a.

Lemma tracks_metrics a t : tracks a t → Forall cmetric_ok (ar_metrics a).
Proof using. intros Ht. apply Forall_forall. intros m Hm. destruct (tk_rings _ _ Ht m Hm) as (h & _ & Hri). apply Hri. Qed.

Lemma steady_shown e a : roomy e → steady a → ar_total a < 2 ^ 32 → shown (drawn e a).
Proof using.
  intros He [_ _ _ Hv H0] Ht. unfold shown, drawn, ar_total in *. cbn. rewrite length_drop. split_and!; (done || lia).
Qed.

Lemma steady_drawn e a : roomy e → steady a → steady (drawn e a).
Proof using.
  intros He [[t Ht] Hn _ Hv H0]. split; try done; [exists t; by apply (tracks_same a)|apply He].
Qed.

(** The status lines that follow the rows. *)
Lemma steady_status e a :
  roomy e → steady a → ar_total a < 2 ^ 32 →
  (∃ ds, s_statusline e o (co_status_top o) true (drawn e a) = Ok ds) ∧
  (∃ ds, s_statusline e o (co_status_bottom o) false (drawn e a) = Ok ds).
Proof using.
  intros He Hst Ht. pose proof (steady_shown e a He Hst Ht) as Hs. destruct He as [_ _ Htx [N1 N2] F1 F2].
  split; by apply status_drawn.
Qed.

Lemma steady_fits e a : roomy e → steady a → fits (resized e a).
Proof using.
  intros He [[t Ht] Hn _ _ _]. pose proof (rm_width _ He). pose proof (po_fill _ (tk_pointers _ _ Ht)). split; cbn; lia.
Qed.

Lemma redraw_keeps e b a :
  roomy e → steady a → ar_total a ≤ b → b < 2 ^ 32 → wp False (s_redraw e o) (λ _ a', steady a' ∧ ar_total a' ≤ b) a.
Proof using.
  intros He Hst Hb Hlt. destruct (steady_status e a He Hst) as [[top Etop] [bottom Ebot]]; [lia|].
  pose proof (sd_tracks _ Hst) as [t Ht]. unfold wp.
  rewrite (redraw_is e o a top bottom); [|apply Ht|by eapply tracks_metrics|by apply steady_fits|done|done].
  split; [by apply steady_drawn|done].
Qed.

(** The key that is handled at the end of a tick. *)
Lemma key_keeps e b a :
  roomy e → steady a → ar_total a ≤ b → b < 2 ^ 32 →
  wp False (match ce_key e with
     | KEY_UP => if 0 <? ar_voffset a then modify (set_voffset (ar_voffset a - 1)) ≫= λ _, s_redraw e o else mret ()
     | KEY_DOWN => if (u64 (ar_height a) <? ar_total a) && (ar_voffset a <? u64 (ar_total a - (ar_height a - 2)))
        then modify (set_voffset (ar_voffset a + 1)) ≫= λ _, s_redraw e o else mret ()
     | KEY_NONE => mret () end) (λ _ a', steady a' ∧ ar_total a' ≤ b) a.
Proof using.
  intros He Hst Hb Hlt. pose proof Hst as [[t Ht] Hn Hh Hv H0].
  assert (∀ v, 0 ≤ v ≤ ar_total a + 2 → (ar_total a = 0 → v = 0) → steady (set_voffset v a)) as Hset.
  { intros v ? ?. split; try done. exists t. by apply (tracks_same a). }
  destruct (ce_key e).
  - destruct (Z.ltb_spec 0 (ar_voffset a)); [|by apply wp_ret]. apply wp_bind, wp_modify, redraw_keeps; [done| |done|done].
    apply Hset; lia.
  - destruct ((u64 (ar_height a) <? ar_total a) && _) eqn:E; [|by apply wp_ret].
    apply andb_true_iff in E as [E1%Z.ltb_lt E2%Z.ltb_lt].
    rewrite u64_id in E1 by (split; lia). rewrite u64_id in E2 by (unfold is_u64; lia).
    apply wp_bind, wp_modify, redraw_keeps; [done| |done|done]. apply Hset; lia.
  - by apply wp_ret.
Qed.

Lemma advance_height a a' : artist_advance a = Ok a' → ar_height a' = ar_height a.
Proof using. unfold artist_advance. by intros (ms & _ & [= <-])%bind_Ok. Qed.

Lemma tock_keeps e : roomy e → co_window o ≠ 0 → keeps (artist_tock e o).
Proof using.
  intros He Hw a Hst Hlt. unfold artist_tock. rewrite (proj2 (Z.eqb_neq _ _)) by done.
  apply wp_bind, wp_get, wp_bind, wp_modify, wp_bind, wp_get. set (a1 := ar_set_tick _ a).
  assert (steady a1) as H1.
  { destruct Hst as [[t Ht] ? ? ? ?]. split; try done. exists t. by apply (tracks_same a). }
  change (ar_total a) with (ar_total a1) in *. clearbody a1. apply wp_bind.
  destruct (ar_tick a1 =? 0).
  - pose proof H1 as [[t Ht] Hn Hh Hv H0]. destruct (tracks_advance a1 t Ht) as (a2 & E & Ht2 & _ & Hv2 & _ & Hn2 & Hl2).
    pose proof (advance_height _ _ E) as Hh2.
    rewrite E. apply wp_bind, wp_lift; [intros ? [= <-]|done]. apply wp_bind, wp_modify.
    eapply wp_mono; [apply (redraw_keeps e (ar_total a1)); [done| |lia|lia]|].
    + split; rewrite ?Hn2, ?Hh2, ?Hv2, ?Hl2; try done. by exists ((None ::.) <$> t).
    + intros [] a3 [H3 Hle]. apply wp_bind, wp_get. apply key_keeps; (done || lia).
  - apply wp_ret, wp_bind, wp_get. apply key_keeps; (done || lia).
Qed.

(** A message of the right shape whose name is not too long. *)
Definition modest (p : pdu_t) : Prop := shaped p ∧ ∀ n, pdu_string p 2 = Some n → strlen n ≤ longest.

Lemma ingest_height p a a' : s_ingest o p a = Ok a' → ar_height a' = ar_height a.
Proof using.
  unfold s_ingest. destruct (ingested _) as [[type i]|]; [|by intros [= <-]].
  intros (found & _ & Hr)%bind_Ok. destruct found as [x|].
  - apply bind_Ok in Hr as (m & _ & Hr). by apply bind_Ok in Hr as (m' & _ & [= <-]).
  - apply bind_Ok in Hr as (n & _ & Hr). destruct (_ =? 0); [|by injection Hr as <-].
    unfold s_insert_metric in Hr. apply bind_Ok in Hr as (m & _ & [= <-]). by destruct (_ <? _).
Qed.

(** A message leaves a steady state. *)
Lemma steady_ingest p a :
  modest p → steady a →
  ∃ a', s_ingest o p a = Ok a' ∧ steady a' ∧ ar_total a' ≤ ar_total a + 1 ∧ ar_voffset a' = ar_voffset a ∧
    ∀ t, tracks a t → tracks a' (cspec o t (CMessage p)).
Proof using VL.
  intros [Hp Hlen] [[t Ht] Hn Hh Hv H0].
  destruct (tracks_ingest o a t p Ht Hp) as (a' & E & Ht' & _ & Hv' & _ & Hl & Hn').
  exists a'. split; [done|]. split; [|split_and!; [lia|done|]].
  - split; [by eexists| |by rewrite (ingest_height _ _ _ E)|lia|rewrite Hv'; intros; apply H0; pose proof (Zle_0_nat (length (ar_metrics a))); unfold ar_total in *; lia].
    destruct Hn' as [->|(n & En & ->)]; [done|]. specialize (Hlen n En). unfold strlen in *. lia.
  - intros t2 Ht2. destruct (tracks_ingest o a t2 p Ht2 Hp) as (a2 & E2 & H2 & _). congruence.
Qed.

Lemma broadcast_keeps e p : roomy e → modest p → keeps (on_broadcast e o p).
Proof using VL.
  intros He Hp a Hst Hlt. unfold on_broadcast. destruct (_ || _); [|apply wp_ret; split; [done|lia]].
  apply wp_bind, wp_get. destruct (steady_ingest p a Hp Hst) as (a' & E & Hst' & Hl & _).
  rewrite E. apply wp_bind, wp_lift; [intros ? [= <-]|done]. apply wp_bind, wp_modify, redraw_keeps; (done || lia).
Qed.

(** The bit of the mask that selects a type of message. *)
Definition type_mask (type : string) : Z :=
  if streq type "RATE" then MASK_RATE else if streq type "COUNTER" then MASK_COUNTER
  else if streq type "SAMPLE" then MASK_SAMPLE else 0.

(** C20: a metric that arrives, of a type that the mask of the command line
    selects, is recorded when it is known or its name matches the pattern
    ([cspec]), and the table is drawn again: a row for each metric from the
    first visible one on, as many as there are lines between the status
    lines, then the status lines.  A row shows a block for each of the last
    windows, in the order of time and as valid UTF-8, although it is built
    backwards byte by byte and reversed in place, with the last value, dots
    for the room that is left, and the extremes.  The terminal must be wide
    enough for the longest name and for both status lines with every field at
    its longest and narrower than 2088 columns, the middle of a status line
    must have no per cent sign, and there must be fewer than [2 ^ 32]
    metrics. *)
Theorem message_redraws e p a t :
  roomy e → modest p → steady a → tracks a t → ar_total a + 1 < 2 ^ 32 →
  Z.land (co_mask o) (type_mask (pdu_type p)) ≠ 0 →
  ∃ a' top bottom,
    _artist_reactor e o TSubscriber p a =
      Ok (TContinue, drawn e a',
          rows e (resized e a') 0 (take (Z.to_nat (ce_height e - 2)) (drop (Z.to_nat (ar_voffset a)) (ar_metrics a')))
          ++ top ++ bottom ++ [Refresh]) ∧
    tracks a' (cspec o t (CMessage p)) ∧
    s_statusline e o (co_status_top o) true (drawn e a') = Ok top ∧
    s_statusline e o (co_status_bottom o) false (drawn e a') = Ok bottom.
Proof using VL.
  intros He Hp Hst Ht Hlt Hmask. destruct (steady_ingest p a Hp Hst) as (a' & E & Hst' & Hl & Hv & Htr).
  destruct (steady_status e a' He Hst') as [[top Etop] [bottom Ebot]]; [lia|].
  exists a', top, bottom. split; [|by split; [apply Htr|]]. unfold _artist_reactor.
  erewrite M_run_bind; [by rewrite <- Hv; cbn; rewrite app_nil_r|].
  unfold on_broadcast.
  assert ((co_match o p MASK_STATE "STATE" || co_match o p MASK_TRANSITION "TRANSITION" || co_match o p MASK_EVENT "EVENT"
     || co_match o p MASK_RATE "RATE" || co_match o p MASK_COUNTER "COUNTER" || co_match o p MASK_SAMPLE "SAMPLE") = true) as ->.
  { unfold co_match, type_mask in *. rewrite !orb_true_iff.
    destruct (streq (pdu_type p) "RATE"); [apply Z.eqb_neq in Hmask as ->; auto|].
    destruct (streq (pdu_type p) "COUNTER"); [apply Z.eqb_neq in Hmask as ->; auto|].
    destruct (streq (pdu_type p) "SAMPLE"); [apply Z.eqb_neq in Hmask as ->; auto|]. by rewrite Z.land_0_r in Hmask. }
  mstep. rewrite E. mstep. pose proof (sd_tracks _ Hst') as [t' Ht'].
  apply redraw_is; [apply Ht'|by eapply tracks_metrics|by apply steady_fits|done|done].
Qed.

(** A message with the environment in which it is handled. *)
Fixpoint artist_run (l : list (console_env * tsocket * pdu_t)) : M artist_t draw bool :=
  match l with
  | [] => mret false
  | (e, s, p) :: l' =>
      _artist_reactor e o s p ≫= λ r, if thalts r then mret true else artist_run l'
  end.

(** C19: with a window that is not zero, on terminals that are wide enough for
    the longest name and for both status lines with every field at its longest
    (for the default formats, see [default_status_fits]) but narrower than
    2088 columns, with no per cent sign in the middle of a status line, no
    sequence of messages of the published shapes, ticks, keys and changes of
    the terminal's size makes the console
    read or write outside its arrays, print through a bad format or convert a
    number that does not fit, as long as there are fewer than [2 ^ 32]
    metrics; the pointers, the rings, the width of the names and the rows that
    are scrolled away stay consistent. *)
Theorem console_safe l a :
  co_window o ≠ 0 → steady a → ar_total a + Z.of_nat (length l) < 2 ^ 32 → Forall (λ x, roomy x.1.1 ∧ modest x.2) l →
  ∃ halted a' out, artist_run l a = Ok (halted, a', out) ∧ steady a'.
Proof using VL.
  intros Hw Hst Hlt Hl.
  assert (wp False (artist_run l) (λ _, steady) a) as Hwp.
  { revert a Hst Hlt. induction Hl as [|[[e s] p] l [He Hp] _ IH]; intros a Hst Hlt; cbn [artist_run]; [by apply wp_ret|].
    cbn [length] in Hlt.
    assert (∀ r a', steady a' ∧ ar_total a' ≤ ar_total a + 1 → wp False (if thalts r then mret true else artist_run l) (λ _, steady) a') as Hrest.
    { intros r a' [H' Hle]. destruct (thalts r); [by apply wp_ret|apply IH; (done || lia)]. }
    apply wp_bind. unfold _artist_reactor. destruct s; try (apply wp_ret, Hrest; split; [done|lia]).
    - apply wp_bind. eapply wp_mono; [apply tock_keeps; (done || lia)|]. intros [] a' H'. by apply wp_ret, Hrest.
    - apply wp_bind. eapply wp_mono; [apply broadcast_keeps; (done || lia)|]. intros [] a' H'. by apply wp_ret, Hrest. }
  unfold wp in Hwp. destruct (artist_run l a) as [[[h a'] out]|]; [by exists h, a', out|done].
Qed.
End safety.

(** ** Examples *)

Lemma tracks_empty : tracks artist_new ∅.
Proof.
  split; [by split|constructor| | |constructor].
  - intros m Hm. by apply not_elem_of_nil in Hm.
  - intros k [h Hh]. by rewrite lookup_empty in Hh.
Qed.

Module ConsoleExample.
Definition o : @console_options ref_pcre :=
  mk_console_options (H0 := ref_pcre) 600 DEFAULT_STATUS_TOP DEFAULT_STATUS_BOTTOM (Some "tcp://127.0.0.1:2997") None (Some "host")
    MASK_ALL_THE_THINGS "host" tt.
Definition e : console_env := mk_console_env 24 80 (l_of_Z 7) KEY_DOWN 4711 "0.2.17".
Definition p : string * list string := ("COUNTER", ["1999"; "host.logins"; "3"]).
Definition q : string * list string := ("SAMPLE", ["1999"; "host.load"; "2"; "1"; "3"; "4"; "2.5"; "1"]).
(** A console with one metric, in its last slot. *)
Definition a : artist_t := set_w_name 11 (ar_set_metrics [cmetric_new "C" "host.logins"] (set_fill 255 artist_new)).
Definition t : board := {[("C"%char, "host.logins") := []]}.
End ConsoleExample.

Lemma example_tracks : tracks ConsoleExample.a ConsoleExample.t.
Proof.
  split; cbn.
  - by split.
  - apply NoDup_singleton.
  - intros m Hm. apply list_elem_of_singleton in Hm as ->. exists []. split; [vm_compute; reflexivity|apply ring_new].
  - intros k Hk. apply list_elem_of_singleton. unfold ConsoleExample.t in Hk. apply lookup_singleton_is_Some in Hk. by rewrite <- Hk.
  - apply Forall_singleton. cbn. unfold strlen. cbn. lia.
Qed.

Lemma narrow_terminal_overflow_witness :
  s_redraw (H0 := ref_pcre) (mk_console_env 24 50 (l_of_Z 0) KEY_NONE 1 "0.2.17") ConsoleExample.o ConsoleExample.a = Fault OutOfBounds.
Proof.
  apply (narrow_terminal_overflow (H := ref_pcre) _ ConsoleExample.o ConsoleExample.a (cmetric_new "C" "host.logins") []).
  - by split.
  - apply Forall_singleton. by split.
  - reflexivity.
  - cbn. lia.
  - cbn. lia.
Defined.

Lemma console_refines_witness :
  ∃ a', csteps (V := ref_vigor) (H := ref_pcre) ConsoleExample.o artist_new
          [CMessage (V := ref_vigor) ConsoleExample.p; CWindow (V := ref_vigor); CMessage (V := ref_vigor) ConsoleExample.q;
           CMessage (V := ref_vigor) ConsoleExample.p] = Ok a' ∧
    tracks a' {[("C"%char, "host.logins") := [Some (l_of_Z 3); Some (l_of_Z 3)];
                ("S"%char, "host.load") := [Some (ldiv (l_of_Z 5) (l_of_Z 2))]]}.
Proof.
  destruct (console_refines (VL := ref_vigor_laws) (H := ref_pcre) ConsoleExample.o
    [CMessage (V := ref_vigor) ConsoleExample.p; CWindow (V := ref_vigor); CMessage (V := ref_vigor) ConsoleExample.q;
     CMessage (V := ref_vigor) ConsoleExample.p] artist_new ∅ tracks_empty) as (a' & E & Ht).
  - rewrite !Forall_cons, Forall_nil. split_and!; vm_compute; done.
  - exists a'. split; [exact E|]. assert (∀ t1 t2, t1 = t2 → tracks a' t1 → tracks a' t2) as Heq by (by intros ? ? ->).
    eapply Heq; [|exact Ht]. vm_compute. reflexivity.
Defined.

Lemma wrap_blanks_rows_witness :
  ∃ a', artist_advance ConsoleExample.a = Ok a' ∧
    ∀ m, m ∈ ar_metrics a' →
      draw_row ConsoleExample.e (resized ConsoleExample.e a') 0 m = Ok (blank_row ConsoleExample.e (resized ConsoleExample.e a') 0 m).
Proof.
  destruct (wrap_blanks_rows ConsoleExample.e ConsoleExample.a ConsoleExample.t example_tracks) as (a' & E & _ & Hrow);
    [reflexivity|cbn; lia|]. exists a'. split; [exact E|]. intros m Hm. by apply Hrow.
Defined.

(** The default status lines fit on a terminal of 80 columns. *)
Lemma example_roomy : roomy (H := ref_pcre) ConsoleExample.o 20 ConsoleExample.e.
Proof.
  assert (∀ z, (0 <=? z) && (z <? 2 ^ 31) = true → 0 ≤ z < 2 ^ 31) as Hz by lia.
  split; [cbn; lia|by apply Hz|split_and!; [done..|split; by vm_compute]|by split|done|done].
Qed.

Lemma example_steady : steady 20 artist_new.
Proof. split; [exists ∅; apply tracks_empty|by vm_compute..|done]. Qed.

Lemma example_modest : modest (V := ref_vigor) 20 ConsoleExample.p.
Proof. split; [done|]. by intros n [= <-]. Qed.

Lemma message_redraws_witness :
  ∃ a' out, _artist_reactor (H := ref_vigor) (H0 := ref_pcre) ConsoleExample.e ConsoleExample.o TSubscriber ConsoleExample.p artist_new
    = Ok (TContinue, a', out).
Proof.
  destruct (message_redraws (VL := ref_vigor_laws) (H := ref_pcre) ConsoleExample.o 20 ConsoleExample.e ConsoleExample.p artist_new ∅
    example_roomy example_modest example_steady tracks_empty) as (a' & top & bottom & E & _);
    [vm_compute; reflexivity|vm_compute; discriminate|]. eexists _, _. exact E.
Defined.

Lemma console_safe_witness :
  ∃ halted a' out, artist_run (V := ref_vigor) (H := ref_pcre) ConsoleExample.o
    [(ConsoleExample.e, TSubscriber, ConsoleExample.p); (ConsoleExample.e, TTock, ConsoleExample.p)] artist_new = Ok (halted, a', out).
Proof.
  destruct (console_safe (VL := ref_vigor_laws) (H := ref_pcre) ConsoleExample.o 20
    [(ConsoleExample.e, TSubscriber, ConsoleExample.p); (ConsoleExample.e, TTock, ConsoleExample.p)] artist_new)
    as (h & a' & out & E & _).
  - done.
  - apply example_steady.
  - vm_compute. reflexivity.
  - rewrite !Forall_cons, Forall_nil. split_and!; (apply example_roomy || apply example_modest || done).
  - exists h, a', out. exact E.
Defined.

(** The extremes are compared after each has been brought to its own unit:
    900 and 1500 are shown as 900 and 1.5 k, and their graph is flat. *)
Lemma units_hide_spread :
  spread (l_of_Z 900) (l_of_Z 1500) = true ∧
  spread (simplify (l_of_Z 900)).1 (simplify (l_of_Z 1500)).1 = false ∧ (simplify (l_of_Z 1500)).2 = "k"%char.
Proof. vm_compute. auto. Qed.
