(* ===== verification/Query.v ===== *)
(** * The query shell: src/bolo/cmd_query.c

    A loop that reads commands, sends each to the management port of the
    aggregator as a message, waits for the reply and prints it.  The pointers
    into the line are the strings they point to; the replies and the outcome
    of the calls to 0MQ are arguments. *)

From S2P Require Import Prelude CLib Vigor Bytes Data Binf Core.
From Stdlib Require Import Ascii.

(** ** Words *)

(** The first word of the line, and what is left after the character behind
    it. *)
Definition first_word (s : string) : string * string :=
  let b := skip_while not_space s in
  (take_while not_space s, match b with EmptyString => EmptyString | String _ c => c end).

(** A word is ended where [a] points, at its first blank, and [b] is moved to
    the next word: the string at [c] afterwards, and the one at [b]. *)
Definition next_word (c : string) : string * string :=
  (take_while not_space c, skip_space (skip_while not_space c)).

Definition QUERY_LINE : nat := Z.to_nat 8192.

(** The commands that are sent. *)
Inductive qcmd := Stat | SetKeys | GetKeys | DelKeys | SearchKeys | GetEvents | Dump.

Section query.
Context `{Vigor}.

Inductive qrequest :=
| QNothing                          (* a blank line or a comment *)
| QUsage (what : string)            (* a message on standard error *)
| QAsk (cmd : qcmd) (p : pdu_t).

(** The loop over the arguments of set.keys, get.keys and del.keys: [a]
    points to the terminator that has just been written when the argument is
    added to the message. *)
Fixpoint extend_words (fuel : nat) (p : pdu_t) (n : Z) (c : string) : pdu_t * Z :=
  match fuel with
  | O => (p, n)
  | S fuel' =>
      match c with
      | EmptyString => (p, n)
      | String _ _ => extend_words fuel' (pdu_extend p "") (n + 1) (next_word c).2
      end
  end.

Definition words_pdu (type : string) (c : string) : pdu_t * Z :=
  extend_words (S (String.length c)) (pdu_make type []) 0 c.

(** What a line asks for.  Of a usage message the first line is kept, and the
    warning that dump takes no arguments is left out. *)
Definition query_request (line : string) : qrequest :=
  let a := skip_space line in
  match a with
  | EmptyString => QNothing
  | String ch _ =>
      if ascii_dec ch "#" then QNothing
      else
        let '(a, c) := first_word a in
        let args := skip_space c in
        if strcaseeq a "stat" then
          if streq args "" then QUsage "missing state name to `stat' call"
          else let '(name, more) := next_word args in
               if negb (streq more "") then QUsage "too many arguments to `stat' call"
               else QAsk Stat (pdu_make "GET.STATE" [name])
        else if strcaseeq a "set.keys" then
          if streq args "" then QUsage "missing arguments to `set.keys' call"
          else let '(p, n) := words_pdu "SET.KEYS" args in
               if negb (Z.rem n 2 =? 0) then QUsage "odd number of arguments to `set.keys' call"
               else QAsk SetKeys p
        else if strcaseeq a "get.keys" then
          if streq args "" then QUsage "missing arguments to `get.keys' call"
          else QAsk GetKeys (words_pdu "GET.KEYS" args).1
        else if strcaseeq a "del.keys" then
          if streq args "" then QUsage "missing argument to `del.keys' call"
          else QAsk DelKeys (words_pdu "DEL.KEYS" args).1
        else if strcaseeq a "search.keys" then
          if streq args "" then QUsage "missing pattern argument to `search.keys' call"
          else let '(pattern, more) := next_word args in
               if negb (streq more "") then QUsage "too many arguments to `search.keys' call"
               else QAsk SearchKeys (pdu_make "SEARCH.KEYS" [pattern])
        else if strcaseeq a "get.events" then
          QAsk GetEvents (pdu_make "GET.EVENTS" [if streq c "" then "0" else take_while isdigit c])
        else if strcaseeq a "dump" then QAsk Dump (pdu_make "DUMP" [])
        else QUsage ("unrecognized command '" +:+ a +:+ "'")
  end.

(** ** Replies *)

(** What is printed, on the standard output or the error output, and whether
    the loop goes on. *)
Inductive qprint := Stdout (s : string) | Stderr (s : string).
Inductive qnext := QContinue | QReturn (rc : Z).

(** [for (i = from; i < size; i += step)]: what is printed for each index. *)
Fixpoint print_from (fuel : nat) (p : pdu_t) (i step : Z) (print : Z → res string) : res (list qprint) :=
  match fuel with
  | O => mret []
  | S fuel' =>
      if i <? pdu_size p then
        s ← print i;
        rest ← print_from fuel' p (i + step) step print;
        mret (Stdout s :: rest)
      else mret []
  end.

Definition text (p : pdu_t) (i : Z) (after : string) : res string :=
  s ← deref (pdu_string p i); mret (s +:+ after).

Definition reply_error (p : pdu_t) : res (list qprint * qnext) :=
  s ← deref (pdu_string p 1); mret ([Stderr ("error: " +:+ s)], QContinue).

Definition unknown_reply (p : pdu_t) : list qprint * qnext :=
  ([Stderr ("unknown response [" +:+ pdu_type p +:+ "]")], QReturn 4).

Definition query_reply (cmd : qcmd) (reply : option pdu_t) : res (list qprint * qnext) :=
  match reply with
  | None => mret ([Stderr "no response received"], QReturn 3)
  | Some p =>
      if streq (pdu_type p) "ERROR" then reply_error p
      else match cmd with
           | Stat =>
               if negb (streq (pdu_type p) "STATE") then mret (unknown_reply p)
               else
                 name ← text p 1 " "; ts ← text p 2 " "; stale ← text p 3 " ";
                 code ← text p 4 " "; summary ← text p 5 nl;
                 mret ([Stdout name; Stdout ts; Stdout stale; Stdout code; Stdout summary], QContinue)
           | SetKeys | DelKeys => mret ([], QContinue)
           | GetKeys =>
               out ← print_from (Z.to_nat (pdu_size p)) p 1 2
                       (λ i, a ← deref (pdu_string p i); b ← deref (pdu_string p (i + 1));
                             mret (a +:+ " = " +:+ b +:+ nl));
               mret (out, QContinue)
           | SearchKeys =>
               out ← print_from (Z.to_nat (pdu_size p)) p 1 1 (λ i, text p i nl);
               mret (out, QContinue)
           | GetEvents =>
               if negb (streq (pdu_type p) "EVENTS") then mret (unknown_reply p)
               else s ← text p 1 ""; mret ([Stdout s], QContinue)
           | Dump =>
               if negb (streq (pdu_type p) "DUMP") then mret (unknown_reply p)
               else s ← text p 1 ""; mret ([Stdout s], QContinue)
           end
  end.

(** ** The loop *)

(** The other end: the outcome of sending a message, and the reply. *)
Definition qserver : Type := pdu_t → Z * option pdu_t.

Definition query_line (srv : qserver) (line : string) : res (list qprint * qnext) :=
  match query_request line with
  | QNothing => mret ([], QContinue)
  | QUsage what => mret ([Stderr what], QContinue)
  | QAsk cmd p =>
      let '(rc, reply) := srv p in
      if negb (rc =? 0) then mret ([Stderr "failed to send"], QReturn 3)
      else query_reply cmd reply
  end.

Fixpoint query_loop (fuel : nat) (srv : qserver) (input : string) : res (list qprint * Z) :=
  match fuel with
  | O => mret ([], 0)
  | S fuel' =>
      match fgets QUERY_LINE input with
      | None => mret ([], 0)
      | Some (line, rest) =>
          '(out, next) ← query_line srv line;
          match next with
          | QReturn rc => mret (out, rc)
          | QContinue => '(more, rc) ← query_loop fuel' srv rest; mret (out ++ more, rc)
          end
      end
  end.

(** The options: the case of [-e] has no [break]. *)
Definition query_options (opts : list (ascii * string)) : option Z :=
  match opts with [] => None | _ :: _ => Some 1 end.

Definition cmd_query (opts : list (ascii * string)) (zmq : list bool) (srv : qserver) (input : string)
    : res (list qprint * Z) :=
  match query_options opts with
  | Some rc => mret ([Stderr "unhandled option flag"], rc)
  | None => if forallb id zmq then query_loop (S (String.length input)) srv input else mret ([], 3)
  end.
End query.
