(* ===== verification/QueryFacts.v ===== *)
(** * Theorems on the query shell

    The shell and the kernel together: what the shell prints for search.keys,
    get.events and dump, which commands are not answered, and what becomes of
    the arguments of the others. *)

From S2P Require Import Prelude CLib Vigor Bytes Data Binf Core CoreFacts Windowed Reactor ReactorFacts KernelFacts Query.
From Stdlib Require Import Ascii.

Section query.
Context `{VL : VigorLaws} `{Pcre}.

(** ** Requests *)

Lemma extend_words_frames fuel p n c :
  ∃ m, pdu_frames (extend_words fuel p n c).1 = pdu_frames p ++ replicate m "" ∧
       (extend_words fuel p n c).2 = n + Z.of_nat m ∧ (fuel ≠ 0%nat → c ≠ "" → m ≠ 0%nat).
Proof using VL.
  revert p n c. induction fuel as [|fuel IH]; intros p n c; cbn [extend_words].
  { exists 0%nat. cbn. rewrite app_nil_r. split_and!; [done|lia|done]. }
  destruct c as [|ch c]; [exists 0%nat; cbn; rewrite app_nil_r; split_and!; [done|lia|done]|].
  destruct (IH (pdu_extend p "") (n + 1) (next_word (String ch c)).2) as (m & E1 & E2 & _).
  exists (S m). rewrite E1, E2, frames_extend, <- app_assoc. split_and!; [done|lia|done].
Qed.

Lemma words_pdu_frames type c :
  c ≠ "" → ∃ m, m ≠ 0%nat ∧ pdu_frames (words_pdu type c).1 = type :: replicate m "" ∧ (words_pdu type c).2 = Z.of_nat m.
Proof using VL.
  intros Hc. unfold words_pdu. destruct (extend_words_frames (S (String.length c)) (pdu_make type []) 0 c) as (m & E1 & E2 & Hm).
  exists m. rewrite E1, E2, frames_make. split_and!; [by apply Hm|done|lia].
Qed.

(** The frames of the message of a command. *)
Definition request_of (cmd : qcmd) (fs : list string) : Prop :=
  match cmd with
  | Stat => ∃ name, fs = ["GET.STATE"; name]
  | SetKeys => ∃ m, m ≠ 0%nat ∧ fs = "SET.KEYS" :: replicate m ""
  | GetKeys => ∃ m, m ≠ 0%nat ∧ fs = "GET.KEYS" :: replicate m ""
  | DelKeys => ∃ m, m ≠ 0%nat ∧ fs = "DEL.KEYS" :: replicate m ""
  | SearchKeys => ∃ pattern, fs = ["SEARCH.KEYS"; pattern]
  | GetEvents => ∃ ts, fs = ["GET.EVENTS"; ts]
  | Dump => fs = ["DUMP"]
  end.

Lemma query_request_frames line cmd p : query_request line = QAsk cmd p → request_of cmd (pdu_frames p).
Proof using VL.
  unfold query_request. destruct (skip_space line) as [|ch s]; [done|]. destruct (ascii_dec ch "#"); [done|].
  destruct (first_word (String ch s)) as [a c]. set (args := skip_space c).
  destruct (strcaseeq a "stat").
  { destruct (streq args ""); [done|]. destruct (next_word args) as [name more]. destruct (negb _); [done|].
    intros [= <- <-]. exists name. apply frames_make. }
  destruct (strcaseeq a "set.keys").
  { destruct (streq args "") eqn:E; [done|]. apply streq_neq in E. destruct (words_pdu_frames "SET.KEYS" args E) as (m & Hm & Hf & _).
    destruct (words_pdu "SET.KEYS" args) as [p' cnt]. destruct (negb _); [done|]. intros [= <- <-]. by exists m. }
  destruct (strcaseeq a "get.keys").
  { destruct (streq args "") eqn:E; [done|]. apply streq_neq in E. destruct (words_pdu_frames "GET.KEYS" args E) as (m & Hm & Hf & _).
    intros [= <- <-]. by exists m. }
  destruct (strcaseeq a "del.keys").
  { destruct (streq args "") eqn:E; [done|]. apply streq_neq in E. destruct (words_pdu_frames "DEL.KEYS" args E) as (m & Hm & Hf & _).
    intros [= <- <-]. by exists m. }
  destruct (strcaseeq a "search.keys").
  { destruct (streq args ""); [done|]. destruct (next_word args) as [name more]. destruct (negb _); [done|].
    intros [= <- <-]. exists name. apply frames_make. }
  destruct (strcaseeq a "get.events"); [intros [= <- <-]; eexists; apply frames_make|].
  destruct (strcaseeq a "dump"); [|done]. intros [= <- <-]. apply frames_make.
Qed.

(** ** Replies *)

(** What is printed for the frames from [i] on, one by one. *)
Lemma print_from_frames fuel p i fs :
  0 ≤ i → drop (Z.to_nat i) (pdu_frames p) = fs → (length fs ≤ fuel)%nat →
  print_from fuel p i 1 (λ i, text p i nl) = Ok ((λ s, Stdout (s +:+ nl)) <$> fs).
Proof using VL.
  revert i fs. induction fuel as [|fuel IH]; intros i fs Hi Hd Hl; cbn [print_from]; [by destruct fs; [|cbn in Hl; lia]|].
  assert (length fs = length (pdu_frames p) - Z.to_nat i)%nat as Hlen by (by rewrite <- Hd, length_drop).
  destruct (Z.ltb_spec i (pdu_size p)) as [Hlt|Hge]; rewrite size_frames in *.
  - destruct fs as [|f fs]; [cbn in Hlen; lia|].
    assert (pdu_frames p !! Z.to_nat i = Some f) as Hf.
    { rewrite <- (Nat.add_0_r (Z.to_nat i)), <- lookup_drop, Hd. done. }
    assert (text p i nl = Ok (f +:+ nl)) as -> by (unfold text; by rewrite string_frames, Hf by done). rewrite Ok_bind.
    rewrite (IH (i + 1) fs); [done|lia| |cbn in Hl; lia].
    rewrite Z2Nat.inj_add by lia. change (Z.to_nat 1) with 1%nat.
    by rewrite <- drop_drop, Hd.
  - destruct fs as [|f fs]; [done|]. cbn in Hlen. lia.
Qed.

Lemma error_reply p cmd msg : query_reply cmd (Some (pdu_reply p "ERROR" [msg])) = Ok ([Stderr ("error: " +:+ msg)], QContinue).
Proof using VL.
  unfold query_reply, reply_error. rewrite (pdu_type_of _ _ _ (frames_reply _ _ _)), string_frames, frames_reply by lia. done.
Qed.

Lemma text_reply p cmd type data :
  (cmd, type) = (GetEvents, "EVENTS") ∨ (cmd, type) = (Dump, "DUMP") →
  query_reply cmd (Some (pdu_reply p type [data])) = Ok ([Stdout data], QContinue).
Proof using VL.
  intros Hc. rewrite <- (str_app_nil_r data) at 2. destruct Hc as [[= -> ->]|[= -> ->]]; unfold query_reply, text;
    by rewrite (pdu_type_of _ _ _ (frames_reply _ _ _)), string_frames, frames_reply by lia.
Qed.

Lemma keys_reply r ks :
  pdu_frames r = "KEYS" :: ks → query_reply SearchKeys (Some r) = Ok ((λ s, Stdout (s +:+ nl)) <$> ks, QContinue).
Proof using VL.
  intros Hr. unfold query_reply. rewrite (pdu_type_of _ _ _ Hr).
  change (streq "KEYS" "ERROR") with false. cbn iota.
  rewrite (print_from_frames _ r 1 ks); [done|lia|by rewrite Hr|]. rewrite size_frames, Hr. cbn [length]. lia.
Qed.

(** ** The shell and the kernel *)

(** Dispatch on a message whose number of frames is known. *)
Ltac dispatch Hp :=
  unfold _kernel_reactor, on_management;
  repeat match goal with |- context [_pdu_is ?p ?t ?lo ?hi] =>
    let b := fresh "b" in let E := fresh "E" in
    remember (_pdu_is p t lo hi) as b eqn:E; rewrite (pdu_is_frames _ _ _ _ _ _ Hp) in E; vm_compute in E; subst b; cbn iota
  end.

Lemma run_continue (m : M kernel_t output ()) k k' o :
  m k = Ok ((), k', o) → (m ≫= λ _, mret Continue) k = Ok (Continue, k', o).
Proof using. intros E. unfold mbind, M_bind. rewrite E. cbn. by rewrite app_nil_r. Qed.

(** The kernel sends one reply and stays as it is, and the shell prints
    [out] for the reply. *)
Definition replies (cmd : qcmd) (out : list qprint) (m : M kernel_t output ()) (k : kernel_t) : Prop :=
  ∃ reply, m k = Ok ((), k, [Send Management reply]) ∧ query_reply cmd (Some reply) = Ok (out, QContinue).

Lemma replies_send cmd out r k : query_reply cmd (Some r) = Ok (out, QContinue) → replies cmd out (send Management r) k.
Proof using. intros Hr. by exists r. Qed.

Lemma replies_get_db cmd out f k : replies cmd out (f (k_db k)) k → replies cmd out (get_db ≫= f) k.
Proof using. intros (r & E & Hr). exists r. split; [|done]. by rewrite get_db_bind. Qed.

Lemma replies_mapped cmd out t f k :
  strlen t mod page_size ≠ 0 → replies cmd out (f t) k → replies cmd out (lift (mapped_text t) ≫= f) k.
Proof using.
  intros Ht (r & E & Hr). exists r. split; [|done]. unfold mapped_text.
  rewrite (proj2 (Z.eqb_neq _ _) Ht). by rewrite M_lift_bind.
Qed.

(** ** Queries and their answers *)

(** The keys that match a pattern, the events from a time on, the states. *)
Inductive query := FindKeys (pattern : string) | ListEvents (since : option Z) | DumpStates.

Definition query_text (q : query) : string :=
  match q with
  | FindKeys pattern => "search.keys " +:+ pattern
  | ListEvents None => "get.events"
  | ListEvents (Some n) => "get.events " +:+ dec n
  | DumpStates => "dump"
  end.

(** The text that the kernel writes to a temporary file. *)
Definition events_text (since : Z) (k : kernel_t) : string :=
  dump_head +:+ String.concat "" (event_entry <$> filter (λ ev, since ≤ event_timestamp ev) (events (k_db k))).
Definition states_text (k : kernel_t) : string :=
  dump_head +:+ String.concat "" (dump_entry <$> for_each (states (k_db k))).

(** What the shell is to print: the matching keys, a line for each, or the
    text of the listing, or why there is none. *)
Definition listing (e : env) (errno text : string) : list qprint :=
  if negb (tmpfile_ok e) then [Stderr "error: Internal error"]
  else if negb (dump_ok e) then [Stderr ("error: " +:+ errno)]
  else [Stdout text].

Definition query_answer (e : env) (k : kernel_t) (q : query) : list qprint :=
  match q with
  | FindKeys pattern =>
      match pcre_compile pattern with
      | inl re => (λ key, Stdout (key +:+ nl)) <$>
                  filter (λ key, pcre_exec re (pcre_study re) key = 0) (for_each (k_keys k)).*1
      | inr err => [Stderr ("error: " +:+ err)]
      end
  | ListEvents since => listing e "Internal error" (events_text (default 0 since) k)
  | DumpStates => listing e (env_errno e) (states_text k)
  end.

(** A pattern without blanks that fits on a line; a time of 31 bits; a listing
    that does not fill its pages exactly (it would be read past its end). *)
Definition query_fine (k : kernel_t) (q : query) : Prop :=
  match q with
  | FindKeys pattern => pattern ≠ "" ∧ str_all not_space pattern = true ∧ (String.length pattern < Z.to_nat 8000)%nat
  | ListEvents since => 0 ≤ default 0 since < 2 ^ 31 ∧ strlen (events_text (default 0 since) k) mod page_size ≠ 0
  | DumpStates => strlen (states_text k) mod page_size ≠ 0
  end.

Definition query_cmd (q : query) : qcmd :=
  match q with FindKeys _ => SearchKeys | ListEvents _ => GetEvents | DumpStates => Dump end.

Definition query_frames (q : query) : list string :=
  match q with
  | FindKeys pattern => ["SEARCH.KEYS"; pattern]
  | ListEvents since => ["GET.EVENTS"; dec (default 0 since)]
  | DumpStates => ["DUMP"]
  end.

Lemma concat_cons_nil s (l : list string) : String.concat "" (s :: l) = s +:+ String.concat "" l.
Proof using. destruct l; [by rewrite str_app_nil_r|]. done. Qed.

(** The line of a command with its arguments. *)
Lemma request_line cmd args rest :
  str_all not_space cmd = true → head_char cmd ≠ "#"%char → cmd ≠ "" → args ≠ "" → isspace (head_char args) = false →
  skip_space (cmd +:+ " " +:+ args +:+ rest) = cmd +:+ " " +:+ args +:+ rest ∧
  first_word (cmd +:+ " " +:+ args +:+ rest) = (cmd, args +:+ rest) ∧ skip_space (args +:+ rest) = args +:+ rest.
Proof using.
  intros Hc Hh Hne Ha Hs. split_and!.
  - apply skip_while_head. destruct cmd as [|ch cmd]; [done|]. cbn [str_all] in Hc. apply andb_true_iff in Hc as [Hc _].
    unfold not_space in Hc. by apply negb_true_iff in Hc.
  - unfold first_word. f_equal.
    + rewrite take_while_app; [done|done|]. by left.
    + rewrite skip_while_app; [done|done|]. by left.
  - apply skip_while_head. by destruct args.
Qed.

Lemma not_space_head s : s ≠ "" → str_all not_space s = true → isspace (head_char s) = false.
Proof using. destruct s as [|c s]; [done|]. cbn [str_all]. intros _ [Hc _]%andb_true_iff. by apply negb_true_iff in Hc. Qed.

Lemma digit_not_space c : isdigit c = true → isspace c = false.
Proof using. unfold isdigit, isspace. lia. Qed.

(** The message that a query is sent as. *)
Lemma query_asks k q :
  query_fine k q → ∃ p, query_request (query_text q +:+ nl) = QAsk (query_cmd q) p ∧ pdu_frames p = query_frames q.
Proof using VL.
  destruct q as [pattern|[n|]|]; cbn [query_fine query_text query_cmd query_frames default from_option id].
  - intros (Hne & Hsp & _). pose proof (not_space_head _ Hne Hsp) as Hh.
    destruct (request_line "search.keys" pattern nl) as (E1 & E2 & E3); [done..|].
    change (("search.keys " +:+ pattern) +:+ nl) with ("search.keys" +:+ " " +:+ pattern +:+ nl).
    unfold query_request. rewrite E1. cbn [String.append "+:+"].
    change ("search.keys" +:+ " " +:+ pattern +:+ nl) with (String "s" ("earch.keys" +:+ " " +:+ pattern +:+ nl)) at 1. cbn iota.
    destruct (ascii_dec "s" "#"); [done|].
    change (String "s" ("earch.keys" +:+ " " +:+ pattern +:+ nl)) with ("search.keys" +:+ " " +:+ pattern +:+ nl).
    rewrite E2. cbn -[streq skip_space next_word]. rewrite E3.
    assert (streq (pattern +:+ nl) "" = false) as -> by (by destruct pattern).
    assert (next_word (pattern +:+ nl) = (pattern, "")) as ->.
    { unfold next_word. rewrite take_while_app, skip_while_app by (done || by left). done. }
    eexists. split; [reflexivity|]. apply frames_make.
  - intros [Hn _]. assert (dec n ≠ "") as Hne.
    { pose proof (dec_head_digit n "" ltac:(lia)) as Hd. rewrite str_app_nil_r in Hd. intros E. by rewrite E in Hd. }
    assert (isspace (head_char (dec n)) = false) as Hh.
    { apply digit_not_space. pose proof (dec_head_digit n "" ltac:(lia)) as Hd. by rewrite str_app_nil_r in Hd. }
    destruct (request_line "get.events" (dec n) nl) as (E1 & E2 & E3); [done..|].
    change (("get.events " +:+ dec n) +:+ nl) with ("get.events" +:+ " " +:+ dec n +:+ nl).
    unfold query_request. rewrite E1.
    change ("get.events" +:+ " " +:+ dec n +:+ nl) with (String "g" ("et.events" +:+ " " +:+ dec n +:+ nl)) at 1. cbn iota.
    destruct (ascii_dec "g" "#"); [done|].
    change (String "g" ("et.events" +:+ " " +:+ dec n +:+ nl)) with ("get.events" +:+ " " +:+ dec n +:+ nl).
    rewrite E2. cbn -[streq skip_space next_word dec take_while].
    assert (streq (dec n +:+ nl) "" = false) as -> by (by destruct (dec n)).
    rewrite take_while_app; [|apply dec_aux_digits; lia|by left]. eexists. split; [reflexivity|]. apply frames_make.
  - intros _. eexists. split; [reflexivity|]. rewrite frames_make. done.
  - intros _. eexists. split; [reflexivity|]. by rewrite frames_make.
Qed.

Lemma s32_strtol_dec n : 0 ≤ n < 2 ^ 31 → s32 (strtol (dec n)) = n.
Proof using.
  intros Hn. assert (dec n = fmt_i n) as -> by (unfold fmt_i; by rewrite (proj2 (Z.ltb_ge _ _)) by lia).
  rewrite strtol_fmt_i by (unfold is_s32; lia). apply s32_id. unfold is_s32. lia.
Qed.

(** The kernel answers it. *)
Lemma query_replied e k q p :
  query_fine k q → pdu_frames p = query_frames q →
  ∃ reply, _kernel_reactor e Management p k = Ok (Continue, k, [Send Management reply]) ∧
    query_reply (query_cmd q) (Some reply) = Ok (query_answer e k q, QContinue).
Proof using VL.
  intros Hq Hp. destruct q as [pattern|since|]; cbn [query_fine query_frames query_cmd query_answer] in *.
  - assert (∃ reply, mgmt_search_keys p k = Ok ((), k, [Send Management reply]) ∧
      query_reply SearchKeys (Some reply) = Ok (query_answer e k (FindKeys pattern), QContinue)) as (r & E & Hr).
    { unfold mgmt_search_keys, query_answer. erewrite frame_bind by (lia || by rewrite Hp). cbv beta.
      destruct (pcre_compile pattern) as [re|err]; [rewrite M_get_bind|]; eexists; (split; [reflexivity|]).
      - apply keys_reply. by rewrite frames_extend_all, frames_reply.
      - apply error_reply. }
    exists r. split; [|done]. dispatch Hp. by apply run_continue.
  - destruct Hq as [Hn Ht]. set (n := default 0 since) in *.
    assert (replies GetEvents (listing e "Internal error" (events_text n k)) (mgmt_get_events e p) k) as (r & E & Hr).
    { unfold mgmt_get_events, listing, replies. erewrite frame_bind by (lia || by rewrite Hp). cbv beta zeta.
      rewrite s32_strtol_dec by done. destruct (negb (tmpfile_ok e)); [apply replies_send, error_reply|]. apply replies_get_db.
      destruct (negb (dump_ok e)); [apply replies_send, error_reply|].
      apply replies_mapped; [exact Ht|]. apply replies_send, text_reply. by left. }
    exists r. split; [|done]. dispatch Hp. by apply run_continue.
  - assert (replies Dump (listing e (env_errno e) (states_text k)) (mgmt_dump e p) k) as (r & E & Hr).
    { unfold mgmt_dump, listing. destruct (negb (tmpfile_ok e)); [apply replies_send, error_reply|]. apply replies_get_db.
      destruct (negb (dump_ok e)); [apply replies_send, error_reply|].
      apply replies_mapped; [exact Hq|]. apply replies_send, text_reply. by right. }
    exists r. split; [|done]. dispatch Hp. by apply run_continue.
Qed.

(** The kernel as the server of the shell. *)
Definition kernel_server (e : env) (k : kernel_t) : qserver := λ p,
  match _kernel_reactor e Management p k with
  | Ok (_, _, [Send Management reply]) => (0, Some reply)
  | _ => (0, None)
  end.

Lemma query_line_answer e k q :
  query_fine k q → query_line (kernel_server e k) (query_text q +:+ nl) = Ok (query_answer e k q, QContinue).
Proof using VL.
  intros Hq. destruct (query_asks k q Hq) as (p & E & Hp). destruct (query_replied e k q p Hq Hp) as (r & Er & Hr).
  unfold query_line. rewrite E. unfold kernel_server. rewrite Er. exact Hr.
Qed.

(** A query fits on a line. *)
Lemma query_text_line k q :
  query_fine k q → lacks LF (query_text q) ∧ (S (String.length (query_text q)) < QUERY_LINE)%nat.
Proof using.
  unfold QUERY_LINE. destruct q as [pattern|[n|]|]; cbn [query_fine query_text default from_option id].
  - intros (_ & Hs & Hl). rewrite lacks_app, str_length_app. split; [split; [done|]|cbn [String.length]; lia].
    eapply str_all_imp; [|exact Hs]. intros c Hc. unfold is_not. destruct (Ascii.eqb_spec LF c) as [<-|]; done.
  - intros [Hn _]. rewrite lacks_app, str_length_app. split; [split; [done|]|].
    + eapply str_all_imp; [|apply dec_aux_digits; lia]. intros c Hc. unfold is_not. destruct (Ascii.eqb_spec LF c) as [<-|]; done.
    + assert (String.length (dec n) ≤ 31)%nat; [|cbn [String.length]; lia]. unfold dec.
      etrans; [apply dec_aux_length|]. assert (Z.log2 n ≤ 30); [|lia].
      destruct (decide (n = 0)) as [->|]; [done|]. apply Z.lt_succ_r. apply Z.log2_lt_pow2; lia.
  - intros _. split; [done|]. cbn. lia.
  - intros _. split; [done|]. cbn. lia.
Qed.

Lemma query_loop_answers fuel e k qs :
  Forall (query_fine k) qs → (length qs < fuel)%nat →
  query_loop fuel (kernel_server e k) (String.concat "" ((λ q, query_text q +:+ nl) <$> qs)) =
  Ok (concat (query_answer e k <$> qs), 0).
Proof using VL.
  intros Hqs. revert fuel. induction Hqs as [|q qs Hq Hqs IH]; intros [|fuel] Hf; cbn [length] in Hf; try lia; [done|].
  rewrite !fmap_cons. cbn [query_loop concat]. rewrite concat_cons_nil.
  destruct (query_text_line k q Hq) as [Hl Hn]. rewrite fgets_line by done.
  rewrite (query_line_answer e k q Hq), Ok_bind, IH by lia. done.
Qed.


(** stat and set.keys are never answered: the kernel does not know the type
    GET.STATE and takes keys on its other port only, so that it ignores the
    message. *)
Theorem query_unanswered line cmd p e k :
  query_request line = QAsk cmd p → cmd = Stat ∨ cmd = SetKeys →
  _kernel_reactor e Management p k = Ok (Continue, k, []).
Proof using VL.
  intros Hq Hcmd. pose proof (query_request_frames _ _ _ Hq) as Hp. destruct Hcmd as [->| ->]; cbn in Hp.
  - destruct Hp as [name Hp]. dispatch Hp. by mstep.
  - destruct Hp as (m & Hm & Hp). unfold _kernel_reactor, on_management. rewrite !(pdu_is_frames _ _ _ _ _ _ Hp).
    repeat match goal with |- context [streq "SET.KEYS" ?y] => change (streq "SET.KEYS" y) with false end.
    rewrite !andb_false_r. by mstep.
Qed.

(** ** Arguments *)

Lemma values_for_empty m n : (∀ v, m !! "" ≠ Some (Some v)) → values_for m (replicate n "") = [].
Proof using.
  intros Hm. unfold values_for. induction n as [|n IH]; [done|]. cbn [replicate fmap list_fmap concat]. rewrite IH.
  destruct (m !! "") as [[v|]|] eqn:E; [by destruct (Hm v)|done|done].
Qed.

(** The shell sends an empty string in place of each argument of
    get.keys, so that it prints nothing, whatever keys the aggregator
    has. *)
Theorem query_get_keys_prints_nothing args e k :
  args ≠ "" → isspace (head_char args) = false → (∀ v, k_keys k !! "" ≠ Some (Some v)) →
  query_line (kernel_server e k) ("get.keys " +:+ args) = Ok ([], QContinue).
Proof using VL.
  intros Ha Hs Hk.
  destruct (request_line "get.keys" args "") as (E1 & E2 & E3); [done|done|done|done|done|]. rewrite str_app_nil_r in *.
  assert (query_request ("get.keys " +:+ args) = QAsk GetKeys (words_pdu "GET.KEYS" args).1) as Hq.
  { change ("get.keys " +:+ args) with ("get.keys" +:+ " " +:+ args). unfold query_request. rewrite E1.
    change ("get.keys" +:+ " " +:+ args) with (String "g" ("et.keys" +:+ " " +:+ args)) at 1. cbn iota.
    destruct (ascii_dec "g" "#"); [done|].
    change (String "g" ("et.keys" +:+ " " +:+ args)) with ("get.keys" +:+ " " +:+ args). rewrite E2.
    change (strcaseeq "get.keys" "stat") with false. change (strcaseeq "get.keys" "set.keys") with false.
    change (strcaseeq "get.keys" "get.keys") with true. cbn iota. rewrite E3. apply streq_neq in Ha. by rewrite Ha. }
  pose proof (query_request_frames _ _ _ Hq) as (m & Hm & Hp). unfold query_line. rewrite Hq. unfold kernel_server.
  rewrite (get_keys_run e _ k _ Hp) by (by destruct m). rewrite values_for_empty by done.
  change (negb (0 =? 0)) with false. cbn iota. set (r := pdu_extend_all _ _).
  assert (pdu_frames r = ["VALUES"]) as Hr by (unfold r; by rewrite frames_extend_all, frames_reply).
  unfold query_reply. rewrite (pdu_type_of _ _ _ Hr), size_frames, Hr. change (streq "VALUES" "ERROR") with false. cbn iota.
  change (Z.to_nat (Z.of_nat (length ["VALUES"]))) with 1%nat. cbn [print_from]. rewrite size_frames, Hr. done.
Qed.
End query.

(** ** Examples *)

Module QueryExample.
Definition queries : list query := [FindKeys "ro"; DumpStates; ListEvents (Some 100); FindKeys "ro"].
Definition input : string :=
  "search.keys ro" +:+ nl +:+ "dump" +:+ nl +:+ "get.events 100" +:+ nl +:+ "search.keys ro" +:+ nl.
End QueryExample.


Lemma query_unanswered_witness :
  _kernel_reactor (H := ref_vigor) (H0 := ref_pcre) CoreExample.e Management (("GET.STATE", ["host.cpu"]) : @pdu_t ref_vigor) CoreExample.k
  = Ok (Continue, CoreExample.k, []).
Proof.
  apply (query_unanswered (VL := ref_vigor_laws) (H := ref_pcre) ("stat host.cpu" +:+ nl) Stat);
    [vm_compute; reflexivity|by left].
Defined.

Lemma query_get_keys_prints_nothing_witness :
  query_line (H := ref_vigor) (kernel_server (V := ref_vigor) (H := ref_pcre) CoreExample.e CoreExample.k) "get.keys role" = Ok ([], QContinue).
Proof.
  apply (query_get_keys_prints_nothing (VL := ref_vigor_laws) (H := ref_pcre) "role"); [done|reflexivity|].
  intros v E. vm_compute in E. discriminate E.
Defined.
