(* ===== verification/Tools.v ===== *)
(** * Command-line tools: src/bolo/main.c, cmd_send.c, cmd_forget.c, cmd_name.c, cmd_spy.c

    The options are the list of what [getopt_long] returns, with their
    arguments, and the arguments that follow them.  Printing is a list of
    strings; the outcome of the calls to 0MQ is an argument. *)

From S2P Require Import Prelude CLib Vigor Bytes Data Binf Core Reactor Name Pdu.
From Stdlib Require Import Ascii.

(** ** Choosing a command: src/bolo/main.c *)

Inductive command :=
| CmdHelp | CmdVersion | CmdAggregator | CmdCache | CmdForget | CmdName | CmdQuery | CmdSend | CmdSpy | CmdTail
| CmdInvalid.

(** The options before the command: whether help or the version are asked
    for, and what follows; [None] for another option. *)
Fixpoint main_options (args : list string) (help version : bool) : option (bool * bool * list string) :=
  match args with
  | [] => Some (help, version, [])
  | a :: rest =>
      if streq a "-h" || streq a "-?" || streq a "--help" then main_options rest true version
      else if streq a "-V" || streq a "--version" then main_options rest help true
      else if Ascii.eqb (head_char a) "-" then None
      else Some (help, version, args)
  end.

Definition command_of (name : string) : command :=
  if streq name "help" then CmdHelp
  else if streq name "version" then CmdVersion
  else if streq name "aggr" || streq name "aggregator" then CmdAggregator
  else if streq name "cache" then CmdCache
  else if streq name "forget" then CmdForget
  else if streq name "name" then CmdName
  else if streq name "query" then CmdQuery
  else if streq name "send" then CmdSend
  else if streq name "spy" then CmdSpy
  else if streq name "tail" then CmdTail
  else CmdInvalid.

(** [stack] is what the array [path] holds before [readlink] writes the bytes
    of the link to its start; there is no terminator in [link]. *)
Definition bolo_main (stack link : string) (args : list string) : res command :=
  path ← mem_write 0 (take_str 256 link) stack;
  path ← mem_string 0 path;
  if streq path "/usr/sbin/bolo" then mret CmdAggregator
  else
    mret match main_options args false false with
         | None => CmdInvalid
         | Some (true, _, _) => CmdHelp
         | Some (false, true, _) => CmdVersion
         | Some (false, false, []) => CmdHelp
         | Some (false, false, name :: _) => command_of name
         end.

(** ** Sending: src/bolo/cmd_send.c *)

Inductive send_type := TYPE_STREAM | TYPE_STATE | TYPE_COUNTER | TYPE_SAMPLE | TYPE_KEY | TYPE_EVENT | TYPE_RATE.

Definition send_type_of (arg : string) : option send_type :=
  if strcaseeq arg "state" then Some TYPE_STATE
  else if strcaseeq arg "counter" then Some TYPE_COUNTER
  else if strcaseeq arg "sample" then Some TYPE_SAMPLE
  else if strcaseeq arg "stream" then Some TYPE_STREAM
  else if strcaseeq arg "key" then Some TYPE_KEY
  else if strcaseeq arg "event" then Some TYPE_EVENT
  else if strcaseeq arg "rate" then Some TYPE_RATE
  else None.

Definition SEND_LINE : nat := Z.to_nat 8192.

Section send.
Context `{Vigor}.

(** The message on the command line: [None] when the arguments are wrong,
    [Some None] when the messages come from the standard input. *)
Definition send_message (now : Z) (type : send_type) (argv : list string) : res (option (option pdu_t)) :=
  match type with
  | TYPE_STATE => mret (Some <$> bolo_parse_state_pdu now argv None)
  | TYPE_COUNTER => mret (Some <$> bolo_parse_counter_pdu now argv None)
  | TYPE_SAMPLE => mret (Some <$> bolo_parse_sample_pdu now argv None)
  | TYPE_RATE => mret (Some <$> bolo_parse_rate_pdu now argv None)
  | TYPE_STREAM => mret (match argv with [] => Some None | _ => None end)
  | TYPE_KEY => mret (Some <$> bolo_parse_setkeys_pdu argv)
  | TYPE_EVENT => p ← bolo_parse_event_pdu now argv None; mret (option_map Some p)
  end.

Definition send_pdu (answer : pdu_t → Z) (p : pdu_t) : Z := if answer p =? 0 then 0 else 3.

(** The messages that are sent, and the exit code. *)
Fixpoint send_stream (now : Z) (answer : pdu_t → Z) (rc : Z) (lines : list string) : res (list pdu_t * Z) :=
  match lines with
  | [] => mret ([], rc)
  | line :: lines' =>
      p ← bolo_stream_pdu now (cut_last LF line);
      match p with
      | Some p =>
          if send_pdu answer p =? 0 then
            '(sent, rc) ← send_stream now answer 0 lines'; mret (p :: sent, rc)
          else mret ([p], send_pdu answer p)
      | None => send_stream now answer rc lines'
      end
  end.

(** [stack] is what the variable [rc] holds before it is set; [zmq] the
    outcome of the setup. *)
Definition cmd_send (now stack : Z) (zmq : bool) (answer : pdu_t → Z) (type : send_type) (argv : list string)
    (input : string) : res (list pdu_t * Z) :=
  m ← send_message now type argv;
  match m with
  | None => mret ([], 1)
  | Some m =>
      if negb zmq then mret ([], 3)
      else match m with
           | Some p => mret ([p], send_pdu answer p)
           | None => send_stream now answer stack (fgets_lines (String.length input) SEND_LINE input)
           end
  end.

(** ** Forgetting: src/bolo/cmd_forget.c *)

(** The types and the flag that the options give; [None] when one is
    invalid. *)
Fixpoint forget_options (opts : list (ascii * string)) (payload ignore : Z) : option (Z * Z) :=
  match opts with
  | [] => Some (payload, ignore)
  | (c, arg) :: opts' =>
      if ascii_dec c "e" then forget_options opts' payload ignore
      else if ascii_dec c "i" then forget_options opts' payload 1
      else if ascii_dec c "t" then
        if strcaseeq arg "all" then forget_options opts' (Z.lor payload PAYLOAD_ALL) ignore
        else if strcaseeq arg "state" then forget_options opts' (Z.lor payload PAYLOAD_STATE) ignore
        else if strcaseeq arg "counter" then forget_options opts' (Z.lor payload PAYLOAD_COUNTER) ignore
        else if strcaseeq arg "sample" then forget_options opts' (Z.lor payload PAYLOAD_SAMPLE) ignore
        else if strcaseeq arg "rate" then forget_options opts' (Z.lor payload PAYLOAD_RATE) ignore
        else None
      else None
  end.

(** The message, or the exit code.  [optind] is always larger than one here,
    so that the first argument is copied even when there is none. *)
Definition forget_message (opts : list (ascii * string)) (args : list string) : res (pdu_t + Z) :=
  match forget_options opts 0 0 with
  | None => mret (inr 1)
  | Some (payload, ignore) =>
      pattern ← deref (head args);
      mret (inl (bolo_forget_pdu (if payload =? 0 then PAYLOAD_ALL else payload) pattern ignore))
  end.

Definition cmd_forget (zmq : bool) (server : pdu_t → Z * option pdu_t) (opts : list (ascii * string)) (args : list string)
    : res (list string * Z) :=
  m ← forget_message opts args;
  match m with
  | inr rc => mret ([], rc)
  | inl p =>
      if negb zmq then mret ([], 3)
      else
        let '(rc, reply) := server p in
        if negb (rc =? 0) then mret ([], 3)
        else match reply with
             | None => mret ([], 3)
             | Some r =>
                 if streq (pdu_type r) "ERROR" then
                   msg ← deref (pdu_string r 1); mret (["error: " +:+ msg], 1)
                 else mret (["OK"], 0)
             end
  end.
End send.

(** ** Names: src/bolo/cmd_name.c *)

(** What is printed on the two outputs, and the exit code. *)
Record name_out := mk_name_out { no_out : list string; no_err : list string; no_rc : Z }.

Definition not_valid (s : string) : string := s +:+ ": not a valid qualified name".
Definition is_valid (n : option name_t) : bool := match n with Some _ => true | None => false end.
Definition name_usage : name_out := mk_name_out [] ["USAGE"] 1.

Definition name_match_cmd (a b : string) : res name_out :=
  na ← bolo_name_parse a;
  nb ← bolo_name_parse b;
  match na, nb with
  | Some x, Some y =>
      rc ← bolo_name_match x y;
      mret (if negb (rc =? 0) then mk_name_out ["no"] [] 2 else mk_name_out ["yes"] [] 0)
  | _, _ =>
      mret (mk_name_out [] ((if is_valid na then [] else [not_valid a]) ++ (if is_valid nb then [] else [not_valid b])) 1)
  end.

Fixpoint name_check_cmd (names : list string) : res name_out :=
  match names with
  | [] => mret (mk_name_out [] [] 0)
  | s :: names' =>
      n ← bolo_name_parse s;
      r ← name_check_cmd names';
      mret (mk_name_out ((if is_valid n then "valid" else "invalid") :: no_out r) (no_err r) 0)
  end.

Fixpoint name_fix_cmd (names : list string) : res name_out :=
  match names with
  | [] => mret (mk_name_out [] [] 0)
  | s :: names' =>
      n ← bolo_name_parse s;
      match n with
      | None => r ← name_fix_cmd names'; mret (mk_name_out (no_out r) (not_valid s :: no_err r) 0)
      | Some n =>
          t ← bolo_name_string n;
          r ← name_fix_cmd names';
          mret (mk_name_out (t :: no_out r) (no_err r) 0)
      end
  end.

(** The loops of concat, set and unset; [mem] is whether the allocations of
    [bolo_name_set] succeed. *)
Fixpoint name_concat_loop (mem : bool) (n : name_t) (names : list string) : res (name_t * list string) :=
  match names with
  | [] => mret (n, [])
  | s :: names' =>
      plus ← bolo_name_parse s;
      match plus with
      | None => '(n, err) ← name_concat_loop mem n names'; mret (n, not_valid s :: err)
      | Some plus =>
          let '(rc, n) := bolo_name_concat mem n plus in
          if negb (rc =? 0) then
            t ← bolo_name_string n;
            '(n, err) ← name_concat_loop mem n names';
            mret (n, (s +:+ ": failed to concat with " +:+ t) :: err)
          else name_concat_loop mem n names'
      end
  end.

Fixpoint name_set_loop (mem : bool) (n : name_t) (args : list string) : res (name_t * list string) :=
  match args with
  | key :: val :: args' =>
      let '(rc, n) := bolo_name_set mem n key (Some val) in
      if negb (rc =? 0) then
        t ← bolo_name_string n;
        '(n, err) ← name_set_loop mem n args';
        mret (n, (t +:+ ": failed to set key '" +:+ key +:+ "' to '" +:+ val +:+ "'") :: err)
      else name_set_loop mem n args'
  | _ => mret (n, [])
  end.

Fixpoint name_unset_loop (n : name_t) (keys : list string) : res (name_t * list string) :=
  match keys with
  | [] => mret (n, [])
  | key :: keys' =>
      let '(rc, n) := bolo_name_unset n key in
      if negb (rc =? 0) then
        t ← bolo_name_string n;
        '(n, err) ← name_unset_loop n keys';
        mret (n, (t +:+ ": failed to unset key '" +:+ key +:+ "'") :: err)
      else name_unset_loop n keys'
  end.

(** The first name is changed by a loop, and printed. *)
Definition name_edit_cmd (s : string) (loop : name_t → res (name_t * list string)) : res name_out :=
  n ← bolo_name_parse s;
  match n with
  | None => mret (mk_name_out [] [not_valid s] 1)
  | Some n =>
      '(n, err) ← loop n;
      t ← bolo_name_string n;
      mret (mk_name_out [t] err 0)
  end.

Definition cmd_name (mem : bool) (args : list string) : res name_out :=
  match args with
  | [] => mret name_usage
  | cmd :: rest =>
      if streq cmd "match" then match rest with [a; b] => name_match_cmd a b | _ => mret name_usage end
      else if streq cmd "check" then match rest with [] => mret name_usage | _ => name_check_cmd rest end
      else if streq cmd "fix" then match rest with [] => mret name_usage | _ => name_fix_cmd rest end
      else if streq cmd "concat" then
        match rest with
        | s :: _ :: _ => name_edit_cmd s (λ n, name_concat_loop mem n (tail rest))
        | _ => mret name_usage
        end
      else if streq cmd "set" then
        match rest with
        | s :: _ :: _ :: _ =>
            if Z.rem (Z.of_nat (length (tail rest))) 2 =? 0 then name_edit_cmd s (λ n, name_set_loop mem n (tail rest))
            else mret name_usage
        | _ => mret name_usage
        end
      else if streq cmd "unset" then
        match rest with
        | s :: _ :: _ => name_edit_cmd s (λ n, name_unset_loop n (tail rest))
        | _ => mret name_usage
        end
      else mret (mk_name_out [] ["Unrecognized command '" +:+ cmd +:+ "'"] 1)
  end.
