(* ===== verification/ToolsFacts.v ===== *)
(** * Theorems on the command-line tools

    The stream of bolo send reaches the aggregator line by line; bolo forget
    does to the kernel's tables what its options say; bolo name answers for each of its
    arguments. *)

From S2P Require Import Prelude CLib Vigor Bytes Data DataFacts Binf Core CoreFacts Windowed Reactor ReactorFacts KernelFacts Name NameFacts Pdu PduFacts Query QueryFacts Tools.
From Stdlib Require Import Ascii.

Section send.
Context `{VL : VigorLaws} `{Pcre}.

(** ** Sending *)

(** The messages of the lines. *)
Definition line_messages (now : Z) (lines : list string) : list pdu_t :=
  omap (λ l, match bolo_stream_pdu now (cut_last LF l) with Ok m => m | Fault _ => None end) lines.

Definition harmless (now : Z) (l : string) : Prop := ∃ m, bolo_stream_pdu now (cut_last LF l) = Ok m.

Lemma send_stream_all now rc lines :
  Forall (harmless now) lines →
  send_stream now (λ _, 0) rc lines =
    Ok (line_messages now lines, match line_messages now lines with [] => rc | _ => 0 end).
Proof using.
  intros Hl. revert rc. induction Hl as [|l lines [m Hm] _ IH]; intros rc; [done|].
  cbn [send_stream]. unfold line_messages. cbn [omap list_omap]. fold (line_messages now lines).
  rewrite Hm, Ok_bind. destruct m as [p|]; [|apply IH].
  change (send_pdu (λ _, 0) p =? 0) with true. cbn iota. rewrite IH, Ok_bind. by destruct (line_messages now lines).
Qed.

(** Bolo send submits the message of every line of its standard input
    that is a command, in their order, and skips the others; it exits with
    zero when there was one, and with whatever was on the stack when there
    was none. *)
Theorem send_submits_stream now stack input :
  Forall (harmless now) (fgets_lines (String.length input) SEND_LINE input) →
  let sent := line_messages now (fgets_lines (String.length input) SEND_LINE input) in
  cmd_send now stack true (λ _, 0) TYPE_STREAM [] input = Ok (sent, match sent with [] => stack | _ => 0 end).
Proof using. intros Hl sent. unfold cmd_send. cbn [send_message mbind res_bind mret res_ret negb]. by apply send_stream_all. Qed.

(** A failure to send ends the stream, and later lines are not looked at. *)
Theorem send_failure_stops now rc l lines p answer :
  bolo_stream_pdu now (cut_last LF l) = Ok (Some p) → answer p ≠ 0 →
  send_stream now answer rc (l :: lines) = Ok ([p], 3).
Proof using.
  intros Hp Ha. cbn [send_stream]. rewrite Hp, Ok_bind. unfold send_pdu. apply Z.eqb_neq in Ha. by rewrite Ha.
Qed.

(** ** Forgetting *)

(** The types that the command line names: all of them when it names none. *)
Definition type_args (opts : list (ascii * string)) : list string :=
  omap (λ o : ascii * string, if decide (o.1 = "t"%char) then Some o.2 else None) opts.

Definition chosen (opts : list (ascii * string)) (type : string) : bool :=
  bool_decide (type_args opts = []) || existsb (λ arg, strcaseeq arg type || strcaseeq arg "all") (type_args opts).

Definition ignoring (opts : list (ascii * string)) : bool := existsb (λ o, bool_decide (o.1 = "i"%char)) opts.

(** The bit of a type. *)
Inductive type_bit : string → Z → Prop :=
| state_bit : type_bit "state" PAYLOAD_STATE
| counter_bit : type_bit "counter" PAYLOAD_COUNTER
| sample_bit : type_bit "sample" PAYLOAD_SAMPLE
| rate_bit : type_bit "rate" PAYLOAD_RATE.

Lemma payload_lor p q t : 0 ≤ p → 0 ≤ q → 0 ≤ t → payload_is (Z.lor p q) t = payload_is p t || payload_is q t.
Proof using.
  intros Hp Hq Ht. unfold payload_is. rewrite Z.land_lor_distr_l.
  assert (0 ≤ Z.land p t) by (apply Z.land_nonneg; by left). assert (0 ≤ Z.land q t) by (apply Z.land_nonneg; by left).
  assert (0 ≤ Z.lor (Z.land p t) (Z.land q t)) by (by apply Z.lor_nonneg).
  pose proof (Z.lor_eq_0_iff (Z.land p t) (Z.land q t)) as Hz.
  destruct (Z.ltb_spec 0 (Z.land p t)), (Z.ltb_spec 0 (Z.land q t)), (Z.ltb_spec 0 (Z.lor (Z.land p t) (Z.land q t))); cbn; lia.
Qed.

(** What the options say, kept in 16 bits. *)
Record options_say (opts : list (ascii * string)) (p0 i0 payload ignore : Z) : Prop := {
  os_bits : ∀ type t, type_bit type t →
    payload_is payload t = payload_is p0 t || existsb (λ arg, strcaseeq arg type || strcaseeq arg "all") (type_args opts);
  os_width : 0 ≤ payload ∧ Z.land payload 65535 = payload;
  os_named : (payload = 0 ↔ p0 = 0 ∧ type_args opts = []);
  os_ignore : ignore = if ignoring opts then 1 else i0;
}.

(** One more type. *)
Lemma options_type opts arg bit p0 i0 payload ignore :
  0 < bit → Z.land bit 65535 = bit → 0 ≤ p0 → Z.land p0 65535 = p0 →
  (∀ type t, type_bit type t → payload_is bit t = strcaseeq arg type || strcaseeq arg "all") →
  options_say opts (Z.lor p0 bit) i0 payload ignore → options_say (("t"%char, arg) :: opts) p0 i0 payload ignore.
Proof using.
  intros Hb Hw Hp Hpw Hbit [H1 H2 H3 H4]. change (type_args (("t"%char, arg) :: opts)) with (arg :: type_args opts).
  split; [|done| |done].
  - intros type t Ht. rewrite (H1 type t Ht), payload_lor by (lia || by destruct Ht). cbn [existsb].
    rewrite (Hbit type t Ht). symmetry. apply orb_assoc.
  - rewrite H3, Z.lor_eq_0_iff. split; [lia|]. by intros [_ [=]].
Qed.

Lemma forget_options_say opts p0 i0 payload ignore :
  0 ≤ p0 → Z.land p0 65535 = p0 → forget_options opts p0 i0 = Some (payload, ignore) →
  options_say opts p0 i0 payload ignore.
Proof using.
  revert p0 i0. induction opts as [|[c arg] opts IH]; intros p0 i0 Hp Hw; cbn [forget_options].
  { intros [= <- <-]. split; [intros; by rewrite orb_false_r|done|tauto|done]. }
  destruct (ascii_dec c "e") as [->|He].
  { intros Ho. destruct (IH _ _ Hp Hw Ho) as [H1 H2 H3 H4]. by split. }
  destruct (ascii_dec c "i") as [->|Hi].
  { intros Ho. destruct (IH _ _ Hp Hw Ho) as [H1 H2 H3 H4]. split; try done. rewrite H4. cbn. by destruct (ignoring opts). }
  destruct (ascii_dec c "t") as [->|Ht]; [|done].
  assert (∀ bit, 0 < bit → Z.land bit 65535 = bit →
    (∀ type t, type_bit type t → payload_is bit t = strcaseeq arg type || strcaseeq arg "all") →
    forget_options opts (Z.lor p0 bit) i0 = Some (payload, ignore) →
    options_say (("t"%char, arg) :: opts) p0 i0 payload ignore) as Hone.
  { intros bit Hb Hbw Hbit Ho. apply (options_type _ _ bit); try done. apply IH; [| |done].
    - apply Z.lor_nonneg. lia.
    - by rewrite Z.land_lor_distr_l, Hw, Hbw. }
  unfold strcaseeq. unfold strcaseeq in Hone. generalize (str_map tolower arg) as l, Hone.
  intros l Hl.
  repeat match goal with |- context [String.eqb l ?x] =>
    let E := fresh "E" in destruct (String.eqb_spec l x) as [E|?];
    [rewrite E in Hl; apply Hl; [by vm_compute|by vm_compute|intros type t []; by vm_compute]|] end.
  done.
Qed.

(** The tables that a payload selects. *)
Lemma payload_chosen opts payload ignore type t :
  forget_options opts 0 0 = Some (payload, ignore) → type_bit type t →
  payload_is (u16 (strtoul (fmt_u (if payload =? 0 then PAYLOAD_ALL else payload)))) t = chosen opts type ∧
  negb (u8 (strtoul (fmt_u ignore)) =? 0) = ignoring opts.
Proof using.
  intros Ho Ht. destruct (forget_options_say opts 0 0 payload ignore) as [H1 [Hpos Hw] H3 H4]; [done|done|done|].
  assert (∀ x, 0 ≤ x → Z.land x 65535 = x → u16 (u32 x) = x) as Hid.
  { intros x Hx E. change 65535 with (Z.ones 16) in E. rewrite Z.land_ones in E by lia. unfold u16, u32. zlia. }
  rewrite !strtoul_fmt_u. split; [|rewrite H4; by destruct (ignoring opts)].
  unfold chosen. specialize (H1 type t Ht).
  assert (payload_is 0 t = false) as E0 by (by destruct Ht). rewrite E0 in H1. cbn [orb] in H1.
  destruct (Z.eqb_spec payload 0) as [->|Hne].
  - destruct H3 as [[_ ->] _]; [done|]. rewrite bool_decide_true by done. by destruct Ht.
  - rewrite bool_decide_false by tauto. cbn [orb]. by rewrite Hid, H1.
Qed.

(** C27: bolo forget, from its command line to the tables of the kernel.  A
    pattern that compiles is applied to exactly the tables that the options
    name (all four when they name none): with -i exactly the entries whose
    names match are flagged as ignored; without it exactly the matching ones
    that the loop over the table visits are removed (libvigor decides which
    entries a loop reaches while entries are taken out); every other entry and
    every other table stays as it is; and the program prints OK and exits
    with 0.  A pattern that does not compile changes nothing, and the program
    prints the error and exits with 1. *)
Theorem forget_agrees e k opts payload ignore pattern rest :
  forget_options opts 0 0 = Some (payload, ignore) →
  ∃ p, forget_message opts (pattern :: rest) = Ok (inl p) ∧
    match pcre_compile pattern with
    | inl re =>
        let hit n := pcre_exec re (pcre_study re) n =? 0 in
        let forget {A} (set_ignore : A → A) type (m m' : gmap string A) :=
          if chosen opts type then forgotten set_ignore hit (ignoring opts) m m' else m' = m in
        ∃ d, _kernel_reactor e Management p k =
               Ok (Continue, set_db d k, [Send Management (pdu_reply p "OK" [])]) ∧
          forget ignore_state "state" (states (k_db k)) (states d) ∧
          forget ignore_counter "counter" (counters (k_db k)) (counters d) ∧
          forget ignore_sample "sample" (samples (k_db k)) (samples d) ∧
          forget ignore_rate "rate" (rates (k_db k)) (rates d) ∧
          events d = events (k_db k) ∧ types d = types (k_db k) ∧ windows d = windows (k_db k) ∧
          cmd_forget true (kernel_server e k) opts (pattern :: rest) = Ok (["OK"], 0)
    | inr err =>
        _kernel_reactor e Management p k = Ok (Continue, k, [Send Management (pdu_reply p "ERROR" [err])]) ∧
        cmd_forget true (kernel_server e k) opts (pattern :: rest) = Ok (["error: " +:+ err], 1)
    end.
Proof using VL.
  intros Ho. set (p := bolo_forget_pdu (if payload =? 0 then PAYLOAD_ALL else payload) pattern ignore).
  assert (forget_message opts (pattern :: rest) = Ok (inl p)) as Hm by (unfold forget_message; by rewrite Ho).
  exists p. split; [done|].
  assert (pdu_frames p = ["FORGET"; fmt_u (if payload =? 0 then PAYLOAD_ALL else payload); pattern; fmt_u ignore]) as Hp
    by apply frames_built.
  assert (∀ r k', _kernel_reactor e Management p k = Ok (Continue, k', [Send Management r]) →
    cmd_forget true (kernel_server e k) opts (pattern :: rest) =
      (if streq (pdu_type r) "ERROR" then msg ← deref (pdu_string r 1); mret (["error: " +:+ msg], 1) else mret (["OK"], 0))) as Hcmd.
  { intros r k' Hr. unfold cmd_forget. rewrite Hm, Ok_bind. unfold kernel_server. by rewrite Hr. }
  pose proof (forget_spec e p k _ _ _ Hp) as Hk. cbv zeta in Hk.
  destruct (payload_chosen opts payload ignore _ _ Ho state_bit) as [E1 Ei].
  destruct (payload_chosen opts payload ignore _ _ Ho counter_bit) as [E2 _].
  destruct (payload_chosen opts payload ignore _ _ Ho sample_bit) as [E3 _].
  destruct (payload_chosen opts payload ignore _ _ Ho rate_bit) as [E4 _].
  rewrite E1, E2, E3, E4, Ei in Hk. destruct (pcre_compile pattern) as [re|err].
  - destruct Hk as (d & E & H1 & H2 & H3 & H4 & H5 & H6 & H7). exists d. split_and!; try done.
    rewrite (Hcmd _ _ E), (pdu_type_of _ _ _ (frames_reply _ _ _)). done.
  - split; [exact Hk|]. rewrite (Hcmd _ _ Hk), (pdu_type_of _ _ _ (frames_reply _ _ _)).
    rewrite string_frames, frames_reply by lia. done.
Qed.

(** Without a pattern the program copies a string that is not there. *)
Theorem forget_needs_pattern opts payload ignore :
  forget_options opts 0 0 = Some (payload, ignore) → forget_message opts [] = Fault NullPointer.
Proof using. intros Ho. unfold forget_message. by rewrite Ho. Qed.
End send.

(** ** Names *)

(** Each argument of bolo name fix is printed in its canonical form, or
    reported. *)
Lemma name_fix_total names :
  ∃ out err, name_fix_cmd names = Ok (mk_name_out out err 0) ∧ (length out + length err)%nat = length names.
Proof.
  induction names as [|s names (out & err & E & Hl)]; [by exists [], []|]. cbn [name_fix_cmd].
  pose proof (parse_ok s) as Hok. destruct (bolo_name_parse s) as [[n|]|] eqn:Ep; [| |done]; rewrite Ok_bind, E.
  - rewrite (name_string_run n) by (apply parse_wf in Ep; apply Ep). rewrite !Ok_bind. eexists _, _. split; [done|]. cbn. lia.
  - rewrite Ok_bind. eexists _, _. split; [done|]. cbn. lia.
Qed.

(** ** Choosing a command *)

(** The name of the program is not terminated: the aggregator is started by
    its name only when the byte behind it on the stack is zero. *)
Lemma main_path_unterminated :
  bolo_main (zeros 256) "/usr/sbin/bolo" [] = Ok CmdAggregator ∧
  bolo_main ("xxxxxxxxxxxxxxxxxxxx" +:+ zeros 236) "/usr/sbin/bolo" [] = Ok CmdHelp.
Proof. vm_compute. auto. Qed.

(** ** Examples *)

Module ToolsExample.
Definition input : string := "COUNTER 1996 host.logins 3" +:+ nl +:+ "what is this" +:+ nl +:+ "RATE 1997 host.bytes 12" +:+ nl.
Definition lines : list string := ["COUNTER 1996 host.logins 3" +:+ nl; "what is this" +:+ nl; "RATE 1997 host.bytes 12" +:+ nl].
End ToolsExample.

Lemma send_submits_stream_witness :
  cmd_send (H := ref_vigor) 2000 77 true (λ _, 0) TYPE_STREAM [] ToolsExample.input =
  Ok ([("COUNTER", ["1996"; "host.logins"; "3"]) : @pdu_t ref_vigor; ("RATE", ["1997"; "host.bytes"; "12"])], 0).
Proof.
  assert (fgets_lines (String.length ToolsExample.input) SEND_LINE ToolsExample.input = ToolsExample.lines) as Hl
    by (vm_compute; reflexivity).
  etrans; [apply (send_submits_stream (V := ref_vigor) 2000 77 ToolsExample.input)|rewrite Hl; vm_compute; reflexivity].
  rewrite Hl. unfold ToolsExample.lines.
  repeat (apply Forall_cons; split; [eexists; vm_compute; reflexivity|]). apply Forall_nil_2.
Defined.

Lemma send_failure_stops_witness :
  send_stream (H := ref_vigor) 2000 (λ _, -1) 0 ["COUNTER 1996 host.logins 3"; "RATE 1997 host.bytes 12"] =
  Ok ([("COUNTER", ["1996"; "host.logins"; "3"]) : @pdu_t ref_vigor], 3).
Proof. apply (send_failure_stops (V := ref_vigor)); [vm_compute; reflexivity|done]. Defined.

Lemma forget_agrees_witness :
  ∃ p d, forget_message (H := ref_vigor) [("t"%char, "state")] ["disk"] = Ok (inl p) ∧
    _kernel_reactor (H := ref_vigor) (H0 := ref_pcre) CoreExample.e Management p CoreExample.k =
      Ok (Continue, set_db (H0 := ref_pcre) d CoreExample.k, [Send Management (("OK", []) : @pdu_t ref_vigor)]) ∧
    states d !! "host.disk" = None ∧ states d !! "host.cpu" = Some CoreExample.cpu ∧
    cmd_forget (H := ref_vigor) true (kernel_server (V := ref_vigor) (H := ref_pcre) CoreExample.e CoreExample.k)
      [("t"%char, "state")] ["disk"] = Ok (["OK"], 0).
Proof.
  destruct (forget_agrees (VL := ref_vigor_laws) (H := ref_pcre) CoreExample.e CoreExample.k [("t"%char, "state")] 1 0 "disk" [])
    as (p & Hm & d & E & Hs & _ & _ & _ & _ & _ & _ & Hc); [reflexivity|].
  exists p, d. split; [exact Hm|]. split; [exact E|].
  vm_compute chosen in Hs. vm_compute ignoring in Hs. cbn iota in Hs. unfold forgotten in Hs.
  split; [rewrite Hs; vm_compute; reflexivity|]. split; [rewrite Hs; vm_compute; reflexivity|]. exact Hc.
Defined.

Lemma forget_needs_pattern_witness : forget_message (H := ref_vigor) [("i"%char, "")] [] = Fault NullPointer.
Proof. apply (forget_needs_pattern (V := ref_vigor) [("i"%char, "")] 0 1). reflexivity. Defined.
