(* ===== verification/Spy.v ===== *)
(** * Printing a save file: src/bolo/cmd_spy.c

    The tables of the database are boxed under the names of their entries,
    the names are sorted, and the entries are printed.  What [strings_sort] of
    libvigor does is a parameter. *)

From S2P Require Import Prelude CLib Vigor Bytes Data Binf Core.
From Stdlib Require Import Ascii.

Inductive spy_format := FORMAT_PLAIN | FORMAT_YAML.

(** [STATUS[status]] *)
Definition STATUS : list string := ["OK"; "WARNING"; "CRITICAL"; "UNKNOWN"].
Definition status_name (s : Z) : res string :=
  match STATUS !! Z.to_nat s with Some t => Ok t | None => Fault OutOfBounds end.

Inductive boxed_t :=
| BOXED_STATE (s : state_t)
| BOXED_COUNTER (c : counter_t)
| BOXED_RATE (r : rate_t)
| BOXED_SAMPLE (s : sample_t double).

(** The space that a box needs, and what the allocator gives for the size of
    a pointer, which is what the code asks for. *)
Definition sizeof_boxed_t : Z := 16.

Definition spy_lines (l : list string) : string := String.concat "" ((λ s, s +:+ nl) <$> l).

Definition spy_state (f : spy_format) (s : state_t) : res string :=
  status ← status_name (state_status s);
  mret match f with
  | FORMAT_YAML => spy_lines
      [state_name s +:+ ":";
       "  type:      state";
       "  status:    " +:+ status;
       "  code:      " +:+ fmt_u (state_status s);
       "  stale:     " +:+ (if negb (state_stale s =? 0) then "yes" else "no");
       "  freshness: " +:+ fmt_i (type_freshness (state_type s));
       "  last_seen: " +:+ fmt_i (state_last_seen s);
       "  expiry:    " +:+ fmt_i (state_expiry s);
       "  summary: |-"; "    " +:+ state_summary s;
       ""]
  | FORMAT_PLAIN => spy_lines
      ["state :: " +:+ state_name s;
       "  [" +:+ fmt_u (state_status s) +:+ "] " +:+ (if negb (state_stale s =? 0) then "(stale) " else "") +:+ status
         +:+ " - " +:+ state_summary s;
       "  last seen " +:+ fmt_i (state_last_seen s) +:+ " / expires " +:+ fmt_i (state_expiry s);
       "  freshness " +:+ fmt_i (type_freshness (state_type s));
       ""]
  end.

(** The maximum of the YAML output is the minimum. *)
Definition spy_sample (f : spy_format) (s : sample_t double) : string :=
  match f with
  | FORMAT_YAML => spy_lines
      [sample_name s +:+ ":";
       "  type:      sample";
       "  n:         " +:+ fmt_lu (sample_n s);
       "  min:       " +:+ fmt_e (sample_min s);
       "  max:       " +:+ fmt_e (sample_min s);
       "  mean:      " +:+ fmt_e (sample_mean s);
       "  sum:       " +:+ fmt_e (sample_sum s);
       "  var:       " +:+ fmt_e (sample_var s);
       "  window:    " +:+ fmt_i (window_time (sample_window s));
       "  last_seen: " +:+ fmt_i (sample_last_seen s);
       ""]
  | FORMAT_PLAIN => spy_lines
      ["sample :: " +:+ sample_name s;
       "  n=" +:+ fmt_lu (sample_n s) +:+ " min=" +:+ fmt_e (sample_min s) +:+ " max=" +:+ fmt_e (sample_max s)
         +:+ " sum=" +:+ fmt_e (sample_sum s) +:+ " mean=" +:+ fmt_e (sample_mean s) +:+ " var=" +:+ fmt_e (sample_var s);
       "  window " +:+ fmt_i (window_time (sample_window s));
       "  last seen " +:+ fmt_i (sample_last_seen s);
       ""]
  end.

Definition spy_counter (f : spy_format) (c : counter_t) : string :=
  match f with
  | FORMAT_YAML => spy_lines
      [counter_name c +:+ ":";
       "  type:      counter";
       "  value:     " +:+ fmt_lu (counter_value c);
       "  window:    " +:+ fmt_i (window_time (counter_window c));
       "  last_seen: " +:+ fmt_i (counter_last_seen c);
       ""]
  | FORMAT_PLAIN => spy_lines
      ["counter :: " +:+ counter_name c +:+ " = " +:+ fmt_lu (counter_value c);
       "  window " +:+ fmt_i (window_time (counter_window c));
       "  last seen " +:+ fmt_i (counter_last_seen c);
       ""]
  end.

Definition spy_rate (f : spy_format) (r : rate_t) : string :=
  match f with
  | FORMAT_YAML => spy_lines
      [rate_name r +:+ ":";
       "  type:        rate";
       "  first_value: " +:+ fmt_lu (rate_first r);
       "  last_value:  " +:+ fmt_lu (rate_last r);
       "  window:      " +:+ fmt_i (window_time (rate_window r));
       "  first_seen:  " +:+ fmt_i (rate_first_seen r);
       "  last_seen:   " +:+ fmt_i (rate_last_seen r);
       ""]
  | FORMAT_PLAIN => spy_lines
      ["rate :: " +:+ rate_name r +:+ " ( " +:+ fmt_lu (rate_first r) +:+ " : " +:+ fmt_lu (rate_last r) +:+ " )";
       "  window " +:+ fmt_i (window_time (rate_window r));
       "  first seen " +:+ fmt_i (rate_first_seen r) +:+ " / last seen " +:+ fmt_i (rate_last_seen r);
       ""]
  end.

Definition spy_box (f : spy_format) (b : boxed_t) : res string :=
  match b with
  | BOXED_STATE s => spy_state f s
  | BOXED_SAMPLE s => mret (spy_sample f s)
  | BOXED_COUNTER c => mret (spy_counter f c)
  | BOXED_RATE r => mret (spy_rate f r)
  end.

(** ** The program *)

Section spy.
Context `{Vigor} `{Pcre}.
Variable strings_sort : list string → list string.

(** The names and their boxes, in the order in which they are added. *)
Definition boxes (d : db_t) : list (string * boxed_t) :=
  ((λ kv, (state_name kv.2 +:+ " (state)", BOXED_STATE kv.2)) <$> for_each (states d)) ++
  ((λ kv, (counter_name kv.2 +:+ " (counter)", BOXED_COUNTER kv.2)) <$> for_each (counters d)) ++
  ((λ kv, (rate_name kv.2 +:+ " (rate)", BOXED_RATE kv.2)) <$> for_each (rates d)) ++
  ((λ kv, (sample_name kv.2 +:+ " (sample)", BOXED_SAMPLE kv.2)) <$> for_each (samples d)).

(** The index and the list of names; [usable] is the size of the block that
    the allocator gives for the size of a pointer. *)
Fixpoint box_all (usable : Z) (l : list (string * boxed_t)) (index : gmap string boxed_t)
    : res (gmap string boxed_t * list string) :=
  match l with
  | [] => mret (index, [])
  | (key, b) :: l' =>
      if usable <? sizeof_boxed_t then Fault OutOfBounds
      else '(index, keys) ← box_all usable l' (<[key := b]> index); mret (index, key :: keys)
  end.

Fixpoint spy_print (f : spy_format) (index : gmap string boxed_t) (keys : list string) : res string :=
  match keys with
  | [] => mret EmptyString
  | key :: keys' =>
      b ← deref (index !! key);
      t ← spy_box f b;
      rest ← spy_print f index keys';
      mret (t +:+ rest)
  end.

(** From the outcome of [configure] and [binf_read] on: what is printed, and
    the exit code. *)
Definition cmd_spy (usable : Z) (f : spy_format) (configured restored : bool) (d : db_t) : res (string * Z) :=
  if negb (configured && restored) then mret ("", 2)
  else
    '(index, keys) ← box_all usable (boxes d) ∅;
    t ← spy_print f index (strings_sort keys);
    mret (t, 0).
End spy.
