(* ===== verification/SpyFacts.v ===== *)
(** * Theorems on the printing of save files

    Every entry is printed once, in the order of the names; states that were
    reported with a code above three make the program read outside its table
    of names. *)

From S2P Require Import Prelude CLib Vigor Bytes Data DataFacts Binf BinfFacts Core CoreFacts Spy.
From Stdlib Require Import Ascii.

Section spy.
Context `{VL : VigorLaws} `{Pcre}.

(** ** The names of the boxes *)

(** The entries are filed under their names. *)
Record named (d : db_t) : Prop := {
  nd_states : map_Forall (λ n s, state_name s = n) (states d);
  nd_counters : map_Forall (λ n c, counter_name c = n) (counters d);
  nd_rates : map_Forall (λ n r, rate_name r = n) (rates d);
  nd_samples : map_Forall (λ n s, sample_name s = n) (samples d);
}.

(** A name with its type. *)
Definition tagged (type name : string) : string := name +:+ " (" +:+ type +:+ ")".

Lemma tagged_split type name : lacks "(" type → cut_last "(" (tagged type name) = name +:+ " " ∧ after_last "(" (tagged type name) = type +:+ ")".
Proof using.
  intros Ht. assert (lacks "(" (type +:+ ")")) as Hl by (apply lacks_app; split; done).
  assert (tagged type name = (name +:+ " ") +:+ str1 "(" +:+ type +:+ ")") as ->.
  { unfold tagged. rewrite str_app_assoc. done. }
  split; [by apply cut_last_mid|by apply after_last_mid].
Qed.

Lemma tagged_inj t1 t2 n1 n2 : lacks "(" t1 → lacks "(" t2 → tagged t1 n1 = tagged t2 n2 → t1 +:+ ")" = t2 +:+ ")" ∧ n1 = n2.
Proof using.
  intros H1 H2 E. destruct (tagged_split t1 n1 H1) as [Hc1 Ha1]. destruct (tagged_split t2 n2 H2) as [Hc2 Ha2].
  rewrite E in Hc1, Ha1. split; [congruence|]. assert (n1 +:+ " " = n2 +:+ " ") as En by congruence.
  apply (f_equal (cut_last " ")) in En. by rewrite !(cut_last_end " ") in En.
Qed.

(** The boxes of one table. *)
Lemma table_keys {A} (name : A → string) (box : A → boxed_t) type (m : gmap string A) :
  map_Forall (λ n v, name v = n) m →
  ((λ kv, (tagged type (name kv.2), box kv.2)) <$> for_each m).*1 = tagged type <$> (for_each m).*1.
Proof using VL.
  intros Hm. rewrite <- !list_fmap_compose. apply list_fmap_ext. intros i [k v] Hi. cbn. f_equal. apply Hm.
  apply elem_of_for_each. by eapply list_elem_of_lookup_2.
Qed.

Lemma boxes_tagged d :
  boxes d =
    ((λ kv, (tagged "state" (state_name kv.2), BOXED_STATE kv.2)) <$> for_each (states d)) ++
    ((λ kv, (tagged "counter" (counter_name kv.2), BOXED_COUNTER kv.2)) <$> for_each (counters d)) ++
    ((λ kv, (tagged "rate" (rate_name kv.2), BOXED_RATE kv.2)) <$> for_each (rates d)) ++
    ((λ kv, (tagged "sample" (sample_name kv.2), BOXED_SAMPLE kv.2)) <$> for_each (samples d)).
Proof using. done. Qed.

Lemma tagged_NoDup type (l : list string) : lacks "(" type → NoDup l → NoDup (tagged type <$> l).
Proof using.
  intros Ht. apply NoDup_fmap_2_strong. intros x y _ _ E. by apply tagged_inj in E as [_ ->].
Qed.

Lemma tagged_disjoint t1 t2 (l1 l2 : list string) (x : string) :
  lacks "(" t1 → lacks "(" t2 → t1 +:+ ")" ≠ t2 +:+ ")" → x ∈ tagged t1 <$> l1 → x ∉ tagged t2 <$> l2.
Proof using.
  intros H1 H2 Hne (n1 & -> & _)%list_elem_of_fmap (n2 & E & _)%list_elem_of_fmap.
  by apply tagged_inj in E as [E _].
Qed.

Lemma boxes_NoDup d : named d → NoDup (boxes d).*1.
Proof using VL.
  intros [H1 H2 H3 H4]. rewrite boxes_tagged, !fmap_app.
  rewrite (table_keys state_name), (table_keys counter_name), (table_keys rate_name), (table_keys sample_name) by done.
  assert (∀ type A (m : gmap string A), lacks "(" type → NoDup (tagged type <$> (for_each m).*1)) as Hnd.
  { intros. apply tagged_NoDup; [done|apply for_each_NoDup]. }
  apply NoDup_app; split_and!; [by apply Hnd| |apply NoDup_app; split_and!; [by apply Hnd| |
    apply NoDup_app; split_and!; [by apply Hnd| |by apply Hnd]]]; intros x Hx; rewrite ?elem_of_app.
  - intros [Hy|[Hy|Hy]]; revert Hy; (eapply tagged_disjoint; [| | |exact Hx]; done).
  - intros [Hy|Hy]; revert Hy; (eapply tagged_disjoint; [| | |exact Hx]; done).
  - eapply tagged_disjoint; [| | |exact Hx]; done.
Qed.

(** ** Printing *)

Lemma box_all_index usable l index :
  16 ≤ usable → NoDup l.*1 →
  ∃ index', box_all usable l index = Ok (index', l.*1) ∧
    (∀ k b, (k, b) ∈ l → index' !! k = Some b) ∧ (∀ k, k ∉ l.*1 → index' !! k = index !! k).
Proof using.
  intros Hu. revert index. induction l as [|[k b] l IH]; intros index Hnd; cbn [box_all].
  { exists index. split_and!; [done| |done]. intros k b Hin. by apply not_elem_of_nil in Hin. }
  cbn in Hnd. apply NoDup_cons in Hnd as [Hk Hnd]. rewrite (proj2 (Z.ltb_ge _ _)) by (unfold sizeof_boxed_t; lia).
  destruct (IH (<[k := b]> index) Hnd) as (index' & E & Hin & Hout). rewrite E, Ok_bind. exists index'.
  split_and!; [done| |].
  - intros k' b' [[= -> ->]|H']%elem_of_cons; [|by apply Hin]. rewrite Hout by done. apply lookup_insert_eq.
  - intros k' [Hne Hk']%not_elem_of_cons. rewrite Hout by done. by apply lookup_insert_ne.
Qed.

(** Boxes that can be printed: the code of a state has a name. *)
Definition printable (b : boxed_t) : Prop := match b with BOXED_STATE s => 0 ≤ state_status s ≤ 3 | _ => True end.

Lemma box_text f b : printable b → ∃ t, spy_box f b = Ok t.
Proof using.
  destruct b as [s|c|r|s]; cbn [spy_box printable]; intros Hb; try by eexists.
  unfold spy_state, status_name.
  destruct (lookup_lt_is_Some_2 STATUS (Z.to_nat (state_status s))) as [t ->]; [cbn; lia|]. by eexists.
Qed.

(** The texts of the entries, one after the other. *)
Fixpoint texts (f : spy_format) (l : list (string * boxed_t)) : res string :=
  match l with [] => mret "" | (_, b) :: l' => t ← spy_box f b; rest ← texts f l'; mret (t +:+ rest) end.

Lemma spy_print_texts f index l :
  (∀ k b, (k, b) ∈ l → index !! k = Some b) → spy_print f index l.*1 = texts f l.
Proof using.
  induction l as [|[k b] l IH]; intros Hl; [done|]. cbn [fmap list_fmap spy_print texts fst].
  rewrite (Hl k b) by left. cbn [deref]. rewrite Ok_bind, IH; [done|]. intros k' b' H'. apply Hl. by right.
Qed.

Lemma texts_some f l : Forall (λ kb, printable kb.2) l → ∃ t, texts f l = Ok t.
Proof using.
  induction 1 as [|[k b] l Hb _ (rest & Hr)]; [by exists ""|]. cbn [texts].
  destruct (box_text f b Hb) as [t ->]. rewrite Ok_bind, Hr, Ok_bind. by eexists.
Qed.

Section sorted.
Variable strings_sort : list string → list string.
Hypothesis sort_perm : ∀ l, strings_sort l ≡ₚ l.
Hypothesis sort_sorted : ∀ l, StronglySorted String.le (strings_sort l).

(** A permutation of the names comes from one of the boxes. *)
Lemma sorted_boxes (l : list (string * boxed_t)) : ∃ l', l' ≡ₚ l ∧ l'.*1 = strings_sort l.*1.
Proof using sort_perm.
  destruct (Permutation_map_inv fst (l1 := strings_sort l.*1) l) as (l' & E & Hp); [apply sort_perm|]. exists l'. by split.
Qed.

(** When the allocator gives enough room for a box, every state, counter,
    rate and sample of the save file is printed exactly once, in the
    alphabetical order of the names with their types. *)
Theorem spy_prints_all usable f d :
  16 ≤ usable → named d → Forall (λ kb, printable kb.2) (boxes d) →
  ∃ l t, l ≡ₚ boxes d ∧ StronglySorted String.le l.*1 ∧ texts f l = Ok t ∧
    cmd_spy strings_sort usable f true true d = Ok (t, 0).
Proof using VL sort_perm sort_sorted.
  intros Hu Hd Hp. destruct (sorted_boxes (boxes d)) as (l & Hl & Hs).
  destruct (texts_some f l) as [t Ht]; [by rewrite Hl|]. exists l, t.
  split_and!; [done|rewrite Hs; apply sort_sorted|done|]. unfold cmd_spy. cbn [andb negb].
  destruct (box_all_index usable (boxes d) ∅ Hu (boxes_NoDup d Hd)) as (index & E & Hin & _). rewrite E, Ok_bind.
  rewrite <- Hs, spy_print_texts, Ht; [done|]. intros k b Hkb. apply Hin. by rewrite <- Hl.
Qed.
End sorted.

(** A state whose code is larger than three, which the aggregator
    accepts, saves and prints as UNKNOWN, makes the program read past its
    table of names. *)
Theorem spy_unknown_code f s : 3 < state_status s → spy_box f (BOXED_STATE s) = Fault OutOfBounds.
Proof using.
  intros Hs. cbn [spy_box]. unfold spy_state, status_name. rewrite lookup_ge_None_2; [done|]. cbn. lia.
Qed.
End spy.

(** Two samples that differ in their maximum only are printed alike. *)
Lemma spy_yaml_no_max w n ts c mn mx mx' sm me me' va va' ig :
  spy_sample FORMAT_YAML (mk_sample w n ts c mn mx sm me me' va va' ig) =
  spy_sample FORMAT_YAML (mk_sample w n ts c mn mx' sm me me' va va' ig).
Proof. done. Qed.

(** ** Examples *)

Definition sort_strings (l : list string) : list string := merge_sort String.le l.

Lemma spy_prints_all_witness :
  ∃ l t, texts FORMAT_PLAIN l = Ok t ∧ StronglySorted String.le l.*1 ∧
    cmd_spy (H := ref_vigor) (H0 := ref_pcre) sort_strings 24 FORMAT_PLAIN true true CoreExample.db = Ok (t, 0).
Proof.
  destruct (spy_prints_all (VL := ref_vigor_laws) (H := ref_pcre) sort_strings
    (merge_sort_Permutation String.le) (StronglySorted_merge_sort String.le) 24 FORMAT_PLAIN CoreExample.db)
    as (l & t & _ & Hs & Ht & E).
  - lia.
  - split; apply map_Forall_to_list; vm_compute map_to_list; repeat (apply Forall_cons; split; [reflexivity|]); apply Forall_nil_2.
  - vm_compute boxes. repeat (apply Forall_cons; split; [cbn; (done || lia)|]); apply Forall_nil_2.
  - exists l, t. split; [exact Ht|]. split; [exact Hs|exact E].
Defined.

Lemma spy_unknown_code_witness :
  spy_box FORMAT_PLAIN (BOXED_STATE (mk_state Example1.local "host.cpu" 990 1290 7 "odd" 0 0)) = Fault OutOfBounds.
Proof. apply spy_unknown_code. cbn. lia. Defined.
