(* ===== verification/Options.v ===== *)
(** * Command lines

    The options of the programs that stay: the loop over [getopt_long] in
    [main] of src/bolo2meta, bolo2rrd, bolo2influxdb, bolo2pg, bolo2log,
    bolo2redis, bolo2sqlite, bolo2slack, bolo2console, opentsdb2bolo and
    dbolo, and in src/bolo/cmd_cache.c and cmd_tail.c.

    A command line is the list of what [getopt_long] returns: a letter and
    its argument.  The texts that help and version print are left out; they
    end the program with code 0, an unknown letter with code 1. *)

From S2P Require Import Prelude CLib Vigor Sinks.
From Stdlib Require Import Ascii SpecFloat.

(** The loop, over the body of its [switch]: new options, or an exit code. *)
Fixpoint getopts {O} (on : ascii → string → O → O + Z) (opts : list (ascii * string)) (o : O) : O + Z :=
  match opts with
  | [] => inl o
  | (c, arg) :: opts' => match on c arg o with inl o' => getopts on opts' o' | inr rc => inr rc end
  end.

Definition is_letter (c d : ascii) : bool := Ascii.eqb c d.

(** ** What the programs have in common *)

Record base_options := mk_base {
  bo_endpoint : string;
  bo_verbose : Z;
  bo_daemonize : bool;
  bo_pidfile : string;
  bo_user : string;
  bo_group : string;
}.

Definition default_base (endpoint pidfile : string) : base_options :=
  mk_base endpoint 0 true pidfile "root" "root".

Definition base_option (c : ascii) (arg : string) (b : base_options) : option base_options :=
  let 'mk_base e v d p u g := b in
  if is_letter c "v" then Some (mk_base e (v + 1) d p u g)
  else if is_letter c "e" then Some (mk_base arg v d p u g)
  else if is_letter c "F" then Some (mk_base e v false p u g)
  else if is_letter c "p" then Some (mk_base e v d arg u g)
  else if is_letter c "u" then Some (mk_base e v d p arg g)
  else if is_letter c "g" then Some (mk_base e v d p u arg)
  else None.

(** [-h], [-?] and [-V]. *)
Definition is_info (c : ascii) : bool := is_letter c "h" || is_letter c "?" || is_letter c "V".

(** A [switch] with the common letters and letters of its own. *)
Definition with_base {O} (base : O → base_options) (set_base : base_options → O → O)
    (own : ascii → string → O → option O) (c : ascii) (arg : string) (o : O) : O + Z :=
  if is_info c then inr 0
  else match base_option c arg (base o) with
       | Some b => inl (set_base b o)
       | None => match own c arg o with Some o' => inl o' | None => inr 1 end
       end.

(** [OPTIONS.x = strtoll(optarg, NULL, 10)] with an [int] *)
Definition int_arg (arg : string) : Z := s32 (strtol arg).

(** ** bolo2meta *)

Record meta_options := mk_meta_options {
  mo_base : base_options;
  mo_submit_to : string;
  mo_prefix : option string;
}.

Definition meta_defaults : meta_options :=
  mk_meta_options (default_base "tcp://127.0.0.1:2997" "/var/run/bolo2meta.pid") "tcp://127.0.0.1:2999" None.

Definition meta_own (c : ascii) (arg : string) (o : meta_options) : option meta_options :=
  if is_letter c "S" then Some (mk_meta_options (mo_base o) arg (mo_prefix o))
  else if is_letter c "P" then Some (mk_meta_options (mo_base o) (mo_submit_to o) (Some arg))
  else None.

Definition meta_getopt (opts : list (ascii * string)) : meta_options + Z :=
  getopts (with_base mo_base (λ b o, mk_meta_options b (mo_submit_to o) (mo_prefix o)) meta_own) opts meta_defaults.

(** ** bolo2rrd *)

Record rrd_options := mk_rrd_options {
  ro_base : base_options;
  ro_root : string;
  ro_mapfile : option string;
  ro_cached : option string;
  ro_updaters : Z;
  ro_creators : Z;
  ro_submit_to : string;
  ro_prefix : option string;
  ro_schedule : Z;
}.

Definition rrd_defaults : rrd_options :=
  mk_rrd_options (default_base "tcp://127.0.0.1:2997" "/var/run/bolo2rrd.pid") "/var/lib/bolo/rrd" None None 8 2
    "tcp://127.0.0.1:2999" None 60.

Definition rrd_own (c : ascii) (arg : string) (o : rrd_options) : option rrd_options :=
  let 'mk_rrd_options b r m C U n sub P s := o in
  if is_letter c "r" then Some (mk_rrd_options b arg m C U n sub P s)
  else if is_letter c "H" then Some (mk_rrd_options b r (Some arg) C U n sub P s)
  else if is_letter c "C" then Some (mk_rrd_options b r m (Some arg) U n sub P s)
  else if is_letter c "U" then Some (mk_rrd_options b r m C (int_arg arg) n sub P s)
  else if is_letter c "c" then Some (mk_rrd_options b r m C U (int_arg arg) sub P s)
  else if is_letter c "s" then Some (mk_rrd_options b r m C U n sub P (int_arg arg))
  else if is_letter c "S" then Some (mk_rrd_options b r m C U n arg P s)
  else if is_letter c "P" then Some (mk_rrd_options b r m C U n sub (Some arg) s)
  else None.

Definition rrd_set_base (b : base_options) (o : rrd_options) : rrd_options :=
  mk_rrd_options b (ro_root o) (ro_mapfile o) (ro_cached o) (ro_updaters o) (ro_creators o) (ro_submit_to o)
    (ro_prefix o) (ro_schedule o).

Definition rrd_getopt (opts : list (ascii * string)) : rrd_options + Z :=
  getopts (with_base ro_base rrd_set_base rrd_own) opts rrd_defaults.

(** ** bolo2influxdb *)

Record influx_options := mk_influx_options {
  io_base : base_options;
  io_influxdb : option string;
  io_submit_to : string;
  io_prefix : option string;
}.

Definition influx_defaults : influx_options :=
  mk_influx_options (default_base "tcp://127.0.0.1:2997" "/var/run/bolo2influxdb.pid") None
    "tcp://127.0.0.1:2999" None.

Definition influx_own (c : ascii) (arg : string) (o : influx_options) : option influx_options :=
  let 'mk_influx_options b i sub P := o in
  if is_letter c "H" then Some (mk_influx_options b (Some arg) sub P)
  else if is_letter c "S" then Some (mk_influx_options b i arg P)
  else if is_letter c "P" then Some (mk_influx_options b i sub (Some arg))
  else None.

Definition influx_getopt (opts : list (ascii * string)) : influx_options + Z :=
  getopts (with_base io_base (λ b o, mk_influx_options b (io_influxdb o) (io_submit_to o) (io_prefix o)) influx_own)
    opts influx_defaults.

(** ** bolo2pg *)

Record pg_options := mk_pg_options {
  po_base : base_options;
  po_database : string;
  po_host : string;
  po_port : string;
  po_creds : option string;
  po_inserters : Z;
  po_submit_to : string;
  po_prefix : option string;
}.

Definition pg_defaults : pg_options :=
  mk_pg_options (default_base "tcp://127.0.0.1:2997" "/var/run/bolo2pg.pid") "bolo" "localhost" "5432" None 8
    "tcp://127.0.0.1:2999" None.

Definition pg_own (c : ascii) (arg : string) (o : pg_options) : option pg_options :=
  let 'mk_pg_options b d H p C k sub n := o in
  if is_letter c "C" then Some (mk_pg_options b d H p (Some arg) k sub n)
  else if is_letter c "d" then Some (mk_pg_options b arg H p C k sub n)
  else if is_letter c "H" then Some (mk_pg_options b d arg p C k sub n)
  else if is_letter c "P" then Some (mk_pg_options b d H arg C k sub n)
  else if is_letter c "n" then Some (mk_pg_options b d H p C k sub (Some arg))
  else if is_letter c "I" then Some (mk_pg_options b d H p C (int_arg arg) sub n)
  else if is_letter c "S" then Some (mk_pg_options b d H p C k arg n)
  else None.

Definition pg_set_base (b : base_options) (o : pg_options) : pg_options :=
  mk_pg_options b (po_database o) (po_host o) (po_port o) (po_creds o) (po_inserters o) (po_submit_to o) (po_prefix o).

Definition pg_getopt (opts : list (ascii * string)) : pg_options + Z :=
  getopts (with_base po_base pg_set_base pg_own) opts pg_defaults.

(** ** bolo2log

    [log_level_number] of libvigor turns the name of a level into its
    number. *)

Definition LOG_ALERT : Z := 1.

Record bolo2log_options := mk_bolo2log_options {
  lgo_base : base_options;
  lgo_type : log_type;
  lgo_logfile : option string;
  lgo_facility : string;
  lgo_match : string;
  lgo_ident : string;
  lgo_level : Z;
  lgo_all : bool;
}.

Definition log_defaults : bolo2log_options :=
  mk_bolo2log_options (default_base "tcp://127.0.0.1:2997" "/var/run/bolo2log..pid") TYPE_SYSLOG None "daemon" "."
    "bolo2log" LOG_ALERT false.

Definition log_own (log_level_number : string → Z) (c : ascii) (arg : string) (o : bolo2log_options)
    : option bolo2log_options :=
  let 'mk_bolo2log_options b t L fac m k l A := o in
  if is_letter c "L" then Some (mk_bolo2log_options b TYPE_FILE (Some arg) fac m k l A)
  else if is_letter c "S" then Some (mk_bolo2log_options b TYPE_SYSLOG L arg m k l A)
  else if is_letter c "m" then Some (mk_bolo2log_options b t L fac arg k l A)
  else if is_letter c "I" then Some (mk_bolo2log_options b TYPE_SYSLOG L fac m arg l A)
  else if is_letter c "l" then Some (mk_bolo2log_options b TYPE_SYSLOG L fac m k (log_level_number arg) A)
  else if is_letter c "A" then Some (mk_bolo2log_options b t L fac m k l true)
  else None.

Definition log_set_base (b : base_options) (o : bolo2log_options) : bolo2log_options :=
  mk_bolo2log_options b (lgo_type o) (lgo_logfile o) (lgo_facility o) (lgo_match o) (lgo_ident o) (lgo_level o)
    (lgo_all o).

Definition log_getopt (log_level_number : string → Z) (opts : list (ascii * string)) : bolo2log_options + Z :=
  getopts (with_base lgo_base log_set_base (log_own log_level_number)) opts log_defaults.

(** ** bolo2redis *)

Record redis_options := mk_redis_options {
  rdo_base : base_options;
  rdo_host : string;
  rdo_port : Z;
}.

Definition redis_defaults : redis_options :=
  mk_redis_options (default_base "tcp://127.0.0.1:2997" "/var/run/bolo2redis.pid") "127.0.0.1" 6379.

Definition redis_own (c : ascii) (arg : string) (o : redis_options) : option redis_options :=
  if is_letter c "H" then Some (mk_redis_options (rdo_base o) arg (rdo_port o))
  else if is_letter c "P" then Some (mk_redis_options (rdo_base o) (rdo_host o) (atoi arg))
  else None.

Definition redis_getopt (opts : list (ascii * string)) : redis_options + Z :=
  getopts (with_base rdo_base (λ b o, mk_redis_options b (rdo_host o) (rdo_port o)) redis_own) opts redis_defaults.

(** ** bolo2sqlite *)

Record sqlite_options := mk_sqlite_options {
  sqo_base : base_options;
  sqo_database : string;
}.

Definition sqlite_getopt (opts : list (ascii * string)) : sqlite_options + Z :=
  getopts (with_base sqo_base (λ b o, mk_sqlite_options b (sqo_database o))
             (λ c arg o, if is_letter c "d" then Some (mk_sqlite_options (sqo_base o) arg) else None))
    opts (mk_sqlite_options (default_base "tcp://127.0.0.1:2997" "/var/run/bolo2sqlite.pid") "bolo").

(** ** bolo2slack *)

Record bolo2slack_options := mk_bolo2slack_options {
  slo_base : base_options;
  slo_match : string;
  slo_webhook : option string;
  slo_channel : option string;
  slo_username : string;
  slo_avatar : string;
}.

Definition slack_defaults : bolo2slack_options :=
  mk_bolo2slack_options (default_base "tcp://127.0.0.1:2997" "/var/run/bolo2slack.pid") "." None None "bolo"
    ":robot_face:".

Definition slack_own (c : ascii) (arg : string) (o : bolo2slack_options) : option bolo2slack_options :=
  let 'mk_bolo2slack_options b m w ch n av := o in
  if is_letter c "m" then Some (mk_bolo2slack_options b arg w ch n av)
  else if is_letter c "U" then Some (mk_bolo2slack_options b m (Some arg) ch n av)
  else if is_letter c "C" then Some (mk_bolo2slack_options b m w (Some arg) n av)
  else if is_letter c "N" then Some (mk_bolo2slack_options b m w ch arg av)
  else if is_letter c "A" then Some (mk_bolo2slack_options b m w ch n arg)
  else None.

Definition slack_set_base (b : base_options) (o : bolo2slack_options) : bolo2slack_options :=
  mk_bolo2slack_options b (slo_match o) (slo_webhook o) (slo_channel o) (slo_username o) (slo_avatar o).

Definition slack_getopt (opts : list (ascii * string)) : bolo2slack_options + Z :=
  getopts (with_base slo_base slack_set_base slack_own) opts slack_defaults.

(** ** bolo2console and bolo tail

    The masks of the two are the same ([tail_flag]). *)

Definition is_mask_flag (c : ascii) : bool :=
  is_letter c "T" || is_letter c "R" || is_letter c "A" || is_letter c "C" || is_letter c "E" || is_letter c "S".

(** [strtol], with whether the whole text was a number. *)
Definition whole_int (arg : string) : option Z :=
  if streq (strtoul_end arg).2 "" then Some (s32 (strtol arg)) else None.

Record bolo2console_options := mk_bolo2console_options {
  cno_verbose : Z;
  cno_endpoint : string;
  cno_pattern : string;
  cno_message : option string;
  cno_window : Z;
  cno_mask : Z;
}.

Definition console_defaults : bolo2console_options :=
  mk_bolo2console_options 0 "tcp://127.0.0.1:2997" "." None 60 0.

Definition console_option (c : ascii) (arg : string) (o : bolo2console_options) : bolo2console_options + Z :=
  let 'mk_bolo2console_options v e m u w k := o in
  if is_info c then inr 0
  else if is_letter c "v" then inl (mk_bolo2console_options (v + 1) e m u w k)
  else if is_letter c "e" then inl (mk_bolo2console_options v arg m u w k)
  else if is_letter c "m" then inl (mk_bolo2console_options v e arg u w k)
  else if is_letter c "u" then inl (mk_bolo2console_options v e m (Some arg) w k)
  else if is_letter c "w" then
    match whole_int arg with
    | Some w => inl (mk_bolo2console_options v e m u w k)
    | None => inr 1
    end
  else if is_mask_flag c then inl (mk_bolo2console_options v e m u w (tail_flag c k))
  else inr 1.

Definition console_getopt (opts : list (ascii * string)) : bolo2console_options + Z :=
  getopts console_option opts console_defaults.

Record cmd_tail_options := mk_cmd_tail_options {
  tlo_verbose : Z;
  tlo_endpoint : string;
  tlo_match : string;
  tlo_mask : Z;
}.

Definition tail_option (c : ascii) (arg : string) (o : cmd_tail_options) : cmd_tail_options + Z :=
  let 'mk_cmd_tail_options v e m k := o in
  if is_info c then inr 0
  else if is_letter c "v" then inl (mk_cmd_tail_options (v + 1) e m k)
  else if is_letter c "e" then inl (mk_cmd_tail_options v arg m k)
  else if is_letter c "m" then inl (mk_cmd_tail_options v e arg k)
  else if is_mask_flag c then inl (mk_cmd_tail_options v e m (tail_flag c k))
  else inr 1.

Definition tail_getopt (opts : list (ascii * string)) : cmd_tail_options + Z :=
  getopts tail_option opts (mk_cmd_tail_options 0 "tcp://127.0.0.1:2997" "." 0).

(** ** opentsdb2bolo

    There is no endpoint to subscribe to, and no [-e]; the prefix is not
    used. *)

Record otsdb_options := mk_otsdb_options {
  oto_base : base_options;
  oto_submit_to : string;
  oto_listen : string;
  oto_maxconn : Z;
}.

Definition otsdb_defaults : otsdb_options :=
  mk_otsdb_options (default_base "" "/var/run/opentsdb2bolo.pid") "tcp://127.0.0.1:2999" "*:13321" 1024.

Definition otsdb_own (c : ascii) (arg : string) (o : otsdb_options) : option otsdb_options :=
  let 'mk_otsdb_options b sub l m := o in
  if is_letter c "l" then Some (mk_otsdb_options b sub arg m)
  else if is_letter c "S" then Some (mk_otsdb_options b arg l m)
  else if is_letter c "P" then Some o
  else if is_letter c "m" then Some (mk_otsdb_options b sub l (int_arg arg))
  else None.

Definition otsdb_option (c : ascii) (arg : string) (o : otsdb_options) : otsdb_options + Z :=
  if is_letter c "e" then inr 1
  else with_base oto_base (λ b o, mk_otsdb_options b (oto_submit_to o) (oto_listen o) (oto_maxconn o)) otsdb_own
         c arg o.

Definition otsdb_getopt (opts : list (ascii * string)) : otsdb_options + Z :=
  getopts otsdb_option opts otsdb_defaults.

(** ** bolo cache

    Neither [-h] nor [-V]; [-S] and [-P] are taken from the command line and
    then refused. *)

Record cache_options := mk_cache_options {
  cao_base : base_options;
  cao_listen : string;
  cao_broadcast : string;
}.

Definition cache_option (c : ascii) (arg : string) (o : cache_options) : cache_options + Z :=
  match base_option c arg (cao_base o) with
  | Some b => inl (mk_cache_options b (cao_listen o) (cao_broadcast o))
  | None =>
      if is_letter c "l" then inl (mk_cache_options (cao_base o) arg (cao_broadcast o))
      else if is_letter c "B" then inl (mk_cache_options (cao_base o) (cao_listen o) arg)
      else inr 1
  end.

Definition cache_getopt (opts : list (ascii * string)) : cache_options + Z :=
  getopts cache_option opts
    (mk_cache_options (default_base "tcp://127.0.0.1:2997" "/var/run/bolo/cache.pid") "tcp://127.0.0.1:2898"
       "tcp://127.0.0.1:2897").

(** ** dbolo *)

Record agent_options := mk_agent_options {
  ago_base : base_options;
  ago_commands : string;
  ago_splay : spec_float;
  ago_beacon : option string;
  ago_timeout : Z;                (* uint64_t *)
  ago_reconnects : Z;
}.

(** [strtof] with its end pointer *)
Definition strtof : string → spec_float * string := scan_float (f_of_decimal 24 128 40 (-50)).

Definition DEFAULT_AGENT_FILE : string := "/etc/dbolo.conf".

Definition agent_defaults : agent_options :=
  mk_agent_options (default_base "tcp://127.0.0.1:2999" "/var/run/dbolo.pid") DEFAULT_AGENT_FILE
    (S754_finite false 8388608 (-24)) None 300000 8.

Definition agent_option (c : ascii) (arg : string) (o : agent_options) : agent_options + Z :=
  let 'mk_agent_options b cmds s bc t r := o in
  if is_letter c "h" || is_letter c "?" then inr 0
  else match base_option c arg b with
  | Some b => inl (mk_agent_options b cmds s bc t r)
  | None =>
      if is_letter c "q" then
        inl (mk_agent_options (mk_base (bo_endpoint b) 0 (bo_daemonize b) (bo_pidfile b) (bo_user b) (bo_group b))
               cmds s bc t r)
      else if is_letter c "c" then inl (mk_agent_options b arg s bc t r)
      else if is_letter c "s" then
        let '(v, a) := strtof arg in
        if streq a "" then inl (mk_agent_options b cmds v bc t r) else inr 1
      else if is_letter c "b" then inl (mk_agent_options b cmds s (Some arg) t r)
      else if is_letter c "r" then inl (mk_agent_options b cmds s bc t (s32 (2 * atoi arg)))
      else if is_letter c "t" then inl (mk_agent_options b cmds s bc (u64 (atoi arg)) r)
      else inr 1
  end.

Definition agent_getopt (opts : list (ascii * string)) : agent_options + Z :=
  getopts agent_option opts agent_defaults.
