(* ===== verification/Programs.v ===== *)
(** * Programs

    The [main] of every subscriber, of the OpenTSDB receiver and of the
    agent, and the commands cache and tail: from the command line to the
    running threads or to the loop that receives messages.  What the
    operating system and the libraries answer is collected in records. *)

From S2P Require Import Prelude CLib Vigor Bytes Data Binf Core Config Pdu Subscriber Startup Threads Cache.
From S2P Require Import Meta Rrd Pg Influx Slack Sqlite Sinks Console Agent OpenTSDB Options.
From Stdlib Require Import Ascii SpecFloat.

(** ** The start of a process *)

Definition LOG_EMERG : Z := 0.
Definition LOG_ERR : Z := 3.
Definition LOG_INFO : Z := 6.

(** [log_open] and [log_level]: the identity, the facility and the level. *)
Record log_setup := mk_log_setup {
  ls_ident : string;
  ls_facility : string;
  ls_level : Z;
}.

Definition setup_log (ident facility : string) (b : base_options) : log_setup :=
  if bo_daemonize b then mk_log_setup ident facility (LOG_ERR + bo_verbose b)
  else mk_log_setup ident "console" (LOG_INFO + bo_verbose b).

(** A program that may exit with a code on the way. *)
Definition prog (A : Type) : Type := res (A + Z).

#[export] Instance prog_ret : MRet prog := λ A a, Ok (inl a).
#[export] Instance prog_bind : MBind prog := λ A B f m,
  match m with
  | Ok (inl a) => f a
  | Ok (inr rc) => Ok (inr rc)
  | Fault e => Fault e
  end.

Definition exit {A} (rc : Z) : prog A := Ok (inr rc).
Definition require (ok : bool) (rc : Z) : prog () := if ok then mret () else exit rc.
Definition options {O} (o : O + Z) : prog O := Ok o.
Definition calls {A} (m : res A) : prog A := match m with Ok a => Ok (inl a) | Fault e => Fault e end.

(** [daemonize] is only called without [-F]. *)
Definition detached (b : base_options) (daemonize : Z) : bool := negb (bo_daemonize b) || (daemonize =? 0).

(** A pool of threads, which is only started up to the first failure. *)
Definition pool (n : Z) (start : nat → Z) : bool :=
  forallb (λ i, start i =? 0) (seq 0 (Z.to_nat n)).

Section programs.
Context `{Vigor} `{Pcre}.

(** ** The machinery of a subscriber

    The answers while the context is made and the threads of
    bolo_subscriber.c are started; [pb_sent] says which messages could be
    sent to the monitor. *)
Record plumbing := mk_plumbing {
  pb_fqdn : string;
  pb_daemonize : Z;
  pb_context : bool;
  pb_sigmask : Z;
  pb_monitor : monitor_wiring;
  pb_scheduler : (bool * Z * Z) * (bool * Z) * Z;
  pb_connect : bool * Z;
  pb_sent : list bool;
  pb_supervisor : bool * Z * list (Z * Z);
}.

(** A subscriber at work: its log, its monitor and the messages that are
    already on the way to it, where it submits, how often it ticks (in
    milliseconds), where it listens, and the threads of its own. *)
Record subscriber_t (T : Type) := mk_subscriber {
  sb_log : log_setup;
  sb_monitor : monitor_t;
  sb_inits : list pdu_t;
  sb_submit_to : string;
  sb_tick : Z;
  sb_endpoint : string;
  sb_threads : T;
}.
Arguments mk_subscriber {T} _ _ _ _ _ _ _.
Arguments sb_log {T} _.
Arguments sb_monitor {T} _.
Arguments sb_inits {T} _.
Arguments sb_submit_to {T} _.
Arguments sb_tick {T} _.
Arguments sb_endpoint {T} _.
Arguments sb_threads {T} _.

Definition scheduler_rc (w : plumbing) : Z :=
  let '(control, tick, pthread) := pb_scheduler w in bolo_subscriber_scheduler_thread control tick pthread.

(** From [bolo_subscriber_init] to [bolo_subscriber_metrics], whose failure
    is only logged: the monitor and the messages that are sent to it. *)
Definition spin_up (w : plumbing) (prefix : string) (metrics : list (string * string))
    : prog (monitor_t * list pdu_t) :=
  _ ← require (bolo_subscriber_init (pb_sigmask w) =? 0) 2;
  match bolo_subscriber_monitor_thread prefix (pb_monitor w) with
  | (_, Some mon) =>
      _ ← require (scheduler_rc w =? 0) 2;
      let rc := bolo_subscriber_connect_monitor (pb_connect w).1 (pb_connect w).2 in
      mret (mon, (bolo_subscriber_metrics rc metrics (pb_sent w)).1)
  | (_, None) => exit 2
  end.

Definition prefix_or (w : plumbing) (prefix : option string) (me : string) : string :=
  match prefix with Some p => p | None => pb_fqdn w +:+ ":sys:" +:+ me end.

(** The exit code, once the supervisor has returned; [None] while the
    program runs. *)
Definition supervised (w : plumbing) : option Z :=
  let '(socket, bind, waits) := pb_supervisor w in
  match bolo_subscriber_supervisor socket bind waits with Some _ => Some 0 | None => None end.

(** ** bolo2meta *)

Definition meta_metrics : list (string * string) :=
  [("COUNT", "counter"); ("COUNT", "bogon.counter"); ("COUNT", "sample"); ("COUNT", "bogon.sample");
   ("COUNT", "rate"); ("COUNT", "bogon.rate"); ("COUNT", "state"); ("COUNT", "bogon.state");
   ("COUNT", "transition"); ("COUNT", "bogon.transition"); ("COUNT", "event"); ("COUNT", "bogon.event");
   ("COUNT", "bogon.unknown")].

Definition meta_main (opts : list (ascii * string)) (w : plumbing) (d : meta_wiring) : prog (subscriber_t ()) :=
  o ← options (meta_getopt opts);
  let b := mo_base o in
  _ ← require (detached b (pb_daemonize w)) 3;
  _ ← require (pb_context w) 1;
  '(mon, inits) ← spin_up w (prefix_or w (mo_prefix o) "bolo") meta_metrics;
  _ ← require (meta_dispatcher_thread d =? 0) 2;
  mret (mk_subscriber (setup_log "bolo2meta" "daemon" b) mon inits (mo_submit_to o) (5 * 1000) (bo_endpoint b) ()).

(** ** bolo2rrd *)

(** The definitions of the archives: the lines of a file, joined. *)
Definition RRA_DEFAULT : string :=
  "RRA:AVERAGE:0.5:1:14400 RRA:MIN:0.5:1:14400 RRA:MAX:0.5:1:14400 RRA:AVERAGE:0.5:60:24 RRA:MIN:0.5:60:24 RRA:MAX:0.5:60:24".

Definition RRA_FILE : string := "/usr/lib/bolo/bolo2rrd/rra.def".

Definition s_rradefs (file : option string) : string :=
  match file with
  | None => RRA_DEFAULT
  | Some text =>
      strings_join ((λ l, cut_last LF (cstr l)) <$> fgets_lines (String.length text) BUFFER_SIZE text) " "
  end.

Definition rrd_metrics : list (string * string) :=
  [("COUNT", "create.ops"); ("COUNT", "update.ops"); ("COUNT", "create.errors"); ("COUNT", "update.errors");
   ("COUNT", "create.misdirects"); ("COUNT", "update.misdirects");
   ("SAMPLE", "dispatch.time.s"); ("SAMPLE", "create.time.s"); ("SAMPLE", "update.time.s")].

(** The dispatcher, the archives for the creators, the numbers of creators
    and updaters and the address of the cache daemon. *)
Record rrd_threads := mk_rrd_threads {
  rt_dispatcher : rdispatcher;
  rt_rras : string;
  rt_creators : nat;
  rt_updaters : nat;
  rt_cached : option string;
}.

Record rrd_env := mk_rrd_env {
  re_stat : string → bool;        (* stat() finds the path *)
  re_files : string → option string;
  re_dispatcher : rrd_wiring;
  re_creators : nat → rrd_wiring;
  re_updaters : nat → rrd_wiring;
}.

(** [OPTIONS.mapfile], which depends on the root. *)
Definition rrd_mapfile (o : rrd_options) : string :=
  match ro_mapfile o with Some f => f | None => ro_root o +:+ "/map" end.

Definition rrd_main (opts : list (ascii * string)) (w : plumbing) (e : rrd_env) : prog (subscriber_t rrd_threads) :=
  o ← options (rrd_getopt opts);
  let b := ro_base o in
  _ ← require (re_stat e (ro_root o)) 1;
  _ ← require (detached b (pb_daemonize w)) 3;
  _ ← require (pb_context w) 1;
  '(mon, inits) ← spin_up w (prefix_or w (ro_prefix o) "bolo2rrd") rrd_metrics;
  '(rc, d) ← calls (rrd_dispatcher_thread (ro_root o) (rrd_mapfile o) (re_files e (rrd_mapfile o)) (re_dispatcher e));
  match d with
  | None => exit 2
  | Some d =>
      let rras := s_rradefs (re_files e RRA_FILE) in
      _ ← require (pool (ro_creators o) (λ i, creator_thread (re_creators e i))) 2;
      _ ← require (pool (ro_updaters o) (λ i, updater_thread (re_updaters e i))) 2;
      mret (mk_subscriber (setup_log "bolo2rrd" "daemon" b) mon inits (ro_submit_to o) (s32 (ro_schedule o * 1000))
              (bo_endpoint b)
              (mk_rrd_threads d rras (Z.to_nat (ro_creators o)) (Z.to_nat (ro_updaters o)) (ro_cached o)))
  end.

(** ** bolo2influxdb *)

Definition influx_metrics : list (string * string) := [("SAMPLE", "dispatch.time.s")].

(** [stack] is what the uninitialised port holds ([influx_address]); the
    thread's state is the address the datagrams go to. *)
Definition influx_main (opts : list (ascii * string)) (w : plumbing) (stack : Z) (d : influx_wiring)
    : prog (subscriber_t (string * Z)) :=
  o ← options (influx_getopt opts);
  let b := io_base o in
  match io_influxdb o with
  | None => exit 1
  | Some influxdb =>
      _ ← require (detached b (pb_daemonize w)) 3;
      _ ← require (pb_context w) 1;
      '(mon, inits) ← spin_up w (prefix_or w (io_prefix o) "bolo2influxdb") influx_metrics;
      match influx_dispatcher_thread stack influxdb d with
      | (_, Some addr) =>
          mret (mk_subscriber (setup_log "bolo2influxdb" "daemon" b) mon inits (io_submit_to o) (60 * 1000)
                  (bo_endpoint b) addr)
      | (_, None) => exit 2
      end
  end.

(** ** bolo2pg *)

Record pg_env := mk_pg_env {
  pe_files : string → option string;
  pe_reconciler : pg_wiring;
  pe_dispatcher : pg_wiring;
  pe_inserters : nat → pg_wiring;
}.

(** The dispatcher, the number of inserters and the database that these and
    the reconciler are connected to. *)
Record pg_threads := mk_pg_threads {
  pt_dispatcher : pg_dispatcher;
  pt_inserters : nat;
  pt_dsn : string;
}.

(** The credentials are only read when a file is given; without them the
    connection is made without a user. *)
Definition pg_creds (e : pg_env) (creds : option string) : prog (option (string * string)) :=
  match creds with
  | None => mret None
  | Some path =>
      let '(rc, c) := s_read_creds (pe_files e path) in
      _ ← require (rc =? 0) 1;
      mret c
  end.

Definition pg_main (opts : list (ascii * string)) (w : plumbing) (e : pg_env) : prog (subscriber_t pg_threads) :=
  o ← options (pg_getopt opts);
  let b := po_base o in
  _ ← require (detached b (pb_daemonize w)) 3;
  _ ← require (pb_context w) 1;
  creds ← pg_creds e (po_creds o);
  let dsn := pg_dsn (po_host o) (po_port o) (po_database o) creds in
  '(mon, inits) ← spin_up w (prefix_or w (po_prefix o) "bolo2pg") pg_metrics;
  _ ← require (reconciler_thread (pe_reconciler e) =? 0) 2;
  match pg_dispatcher_thread (pe_dispatcher e) with
  | (_, None) => exit 2
  | (_, Some d) =>
      _ ← require (pool (po_inserters o) (λ i, inserter_thread (pe_inserters e i))) 2;
      mret (mk_subscriber (setup_log "bolo2pg" "daemon" b) mon inits (po_submit_to o) (5 * 1000) (bo_endpoint b)
              (mk_pg_threads d (Z.to_nat (po_inserters o)) dsn))
  end.

(** ** bolo cache *)

(** No monitor and no scheduler: the dispatcher, and where it listens and
    broadcasts. *)
Record cache_t := mk_cache {
  ca_log : log_setup;
  ca_dispatcher : dispatcher_t;
  ca_endpoint : string;
  ca_listen : string;
  ca_broadcast : string;
}.

Definition cmd_cache (opts : list (ascii * string)) (w : plumbing) (d : dispatcher_wiring) : prog cache_t :=
  o ← options (cache_getopt opts);
  let b := cao_base o in
  _ ← require (detached b (pb_daemonize w)) 3;
  _ ← require (pb_context w) 1;
  _ ← require (bolo_subscriber_init (pb_sigmask w) =? 0) 2;
  match dispatcher_thread d with
  | (_, Some t) => mret (mk_cache (setup_log "bolo-cache" "daemon" b) t (bo_endpoint b) (cao_listen o) (cao_broadcast o))
  | (_, None) => exit 2
  end.

(** ** Programs on a terminal *)

(** The level is only raised when asked for. *)
Definition terminal_log (me : string) (verbose : Z) : log_setup :=
  mk_log_setup me "console" (if verbose =? 0 then LOG_EMERG else LOG_INFO + verbose).

(** [pcre_compile] and [pcre_study] of the pattern to match. *)
Definition compiled (pattern : string) : prog (pcre * pcre_extra) :=
  match pcre_compile pattern with
  | inl re => mret (re, pcre_study re)
  | inr _ => exit 1
  end.

Definition any_mask (mask : Z) : Z := if mask =? 0 then MASK_ALL_THE_THINGS else mask.

(** [getenv] *)
Definition console_main (opts : list (ascii * string)) (getenv : string → option string) (w : plumbing)
    (d : artist_wiring) : prog (log_setup * console_options) :=
  o ← options (console_getopt opts);
  '(re, extra) ← compiled (cno_pattern o);
  _ ← require (pb_context w) 3;
  _ ← require (bolo_subscriber_init (pb_sigmask w) =? 0) 2;
  _ ← require (scheduler_rc w =? 0) 2;
  _ ← require (artist_thread d =? 0) 2;
  mret (terminal_log "bolo2console" (cno_verbose o),
        mk_console_options (s32 (cno_window o * (1000 / 100)))
          (default DEFAULT_STATUS_TOP (getenv "BOLO_CONSOLE_TITLE"))
          (default DEFAULT_STATUS_BOTTOM (getenv "BOLO_CONSOLE_STATUS"))
          (Some (cno_endpoint o)) (cno_message o) (Some (cno_pattern o)) (any_mask (cno_mask o)) re extra).

(** ** Programs that receive in a loop

    The context, the socket, its filter and its connection, in this order;
    any failure ends the program with code 3. *)
Definition sub_socket (context socket : bool) (setsockopt connect : Z) : prog () :=
  _ ← require context 3;
  _ ← require socket 3;
  _ ← require (setsockopt =? 0) 3;
  require (connect =? 0) 3.

Record sub_env := mk_sub_env {
  se_daemonize : Z;
  se_context : bool;
  se_socket : bool;
  se_setsockopt : Z;
  se_connect : Z;
}.

Definition open_sub (e : sub_env) : prog () :=
  sub_socket (se_context e) (se_socket e) (se_setsockopt e) (se_connect e).

Definition tail_main (opts : list (ascii * string)) (e : sub_env) : prog (log_setup * tail_options) :=
  o ← options (tail_getopt opts);
  '(re, extra) ← compiled (tlo_match o);
  _ ← open_sub e;
  mret (terminal_log "bolo" (tlo_verbose o), mk_tail_options (any_mask (tlo_mask o)) re extra).

(** What the loop prints, for the messages that came in before a signal. *)
Fixpoint tail_loop (o : tail_options) (ps : list pdu_t) : res string :=
  match ps with
  | [] => mret EmptyString
  | p :: ps' => s ← tail_receive o p; rest ← tail_loop o ps'; mret (s +:+ rest)
  end.

(** The log: [fopen] answers which file was opened, [signal] whether the
    handler could be installed.  The state is that of [log_loop]. *)
Definition log_main (log_level_number : string → Z) (opts : list (ascii * string)) (signal : bool)
    (fopen : string → option nat) (e : sub_env) : prog (log_setup * log_options * log_state) :=
  o ← options (log_getopt log_level_number opts);
  let b := lgo_base o in
  _ ← require (detached b (se_daemonize e)) 3;
  _ ← require signal 1;
  fd ← match lgo_type o with
       | TYPE_FILE =>
           path ← calls (deref (lgo_logfile o));
           match fopen path with Some fd => mret (Some fd) | None => exit 1 end
       | TYPE_SYSLOG => mret None
       end;
  '(re, extra) ← compiled (lgo_match o);
  _ ← open_sub e;
  mret (setup_log (lgo_ident o) (lgo_facility o) b, mk_log_options (lgo_type o) (lgo_all o) re extra,
        mk_log_state false fd).

(** Redis: [redis_err] as in [redis_connect]. *)
Definition redis_main (opts : list (ascii * string)) (e : sub_env) (redis_err : string → Z → option Z)
    : prog (log_setup * redis_options) :=
  o ← options (redis_getopt opts);
  let b := rdo_base o in
  _ ← require (detached b (se_daemonize e)) 3;
  _ ← open_sub e;
  ok ← calls (redis_connect (redis_err (rdo_host o) (rdo_port o)));
  _ ← require ok 3;
  mret (setup_log "bolo2redis" "daemon" b, o).

Definition sqlite_main (opts : list (ascii * string)) (e : sub_env) : prog (log_setup * string) :=
  o ← options (sqlite_getopt opts);
  let b := sqo_base o in
  _ ← require (detached b (se_daemonize e)) 3;
  _ ← open_sub e;
  mret (setup_log "bolo2sqlite" "daemon" b, sqo_database o).

Definition slack_main (opts : list (ascii * string)) (curl : bool) (e : sub_env)
    : prog (log_setup * slack_options) :=
  o ← options (slack_getopt opts);
  let b := slo_base o in
  match slo_channel o, slo_webhook o with
  | Some channel, Some webhook =>
      _ ← require (detached b (se_daemonize e)) 3;
      '(re, extra) ← compiled (slo_match o);
      _ ← require curl 3;
      _ ← open_sub e;
      mret (setup_log "bolo2slack" "daemon" b,
            mk_slack_options re extra webhook (slo_avatar o) (slo_username o) channel)
  | _, _ => exit 1
  end.

(** ** opentsdb2bolo *)

Record otsdb_env := mk_otsdb_env {
  oe_daemonize : Z;
  oe_calloc : Z → bool;           (* memory for that many clients *)
  oe_context : bool;
  oe_socket : bool;
  oe_connect : Z;
  oe_listen : string → listen_answers;
  oe_epoll_create : Z;
  oe_epoll_ctl : Z;
}.

Definition otsdb_main (opts : list (ascii * string)) (e : otsdb_env) : prog (log_setup * list client_t) :=
  o ← options (otsdb_getopt opts);
  let b := oto_base o in
  _ ← require (detached b (oe_daemonize e)) 3;
  _ ← require (oe_calloc e (oto_maxconn o)) 1;
  _ ← require (oe_context e) 1;
  _ ← require (oe_socket e) 1;
  _ ← require (oe_connect e =? 0) 1;
  _ ← require (0 <=? s_listen (oe_listen e (oto_listen o)) (oto_listen o)) 1;
  _ ← require (0 <=? oe_epoll_create e) 1;
  _ ← require (negb (oe_epoll_ctl e =? -1)) 1;
  mret (setup_log "opentsdb2bolo" "daemon" b, replicate (Z.to_nat (oto_maxconn o)) new_client).

(** What [epoll_wait] reports: a connection to accept, with the answers of
    [accept] and [epoll_ctl], or data for a descriptor, [None] when [read]
    fails. *)
Inductive otsdb_event :=
| Acceptable (acceptfd epoll : Z)
| Readable (fd : Z) (data : option string).

Definition otsdb_react (ev : otsdb_event) (cs : list client_t) : res (list pdu_t * (list client_t + Z)) :=
  match ev with
  | Acceptable fd epoll => mret ([], inl (on_accept fd epoll cs))
  | Readable fd (Some data) => '(cs, o) ← on_readable fd data cs; mret (o, inl cs)
  | Readable fd None => mret ([], if existsb (λ c, cl_fd c =? fd) cs then inr 1 else inl cs)
  end.

Fixpoint otsdb_events (evs : list otsdb_event) (cs : list client_t) : res (list pdu_t * (list client_t + Z)) :=
  match evs with
  | [] => mret ([], inl cs)
  | ev :: evs' =>
      '(o, r) ← otsdb_react ev cs;
      match r with
      | inr rc => mret (o, inr rc)
      | inl cs => '(o', r) ← otsdb_events evs' cs; mret (o ++ o', r)
      end
  end.

(** The rounds of the loop, [None] when [epoll_wait] fails: what was sent,
    and the clients or the exit code. *)
Fixpoint otsdb_loop (rounds : list (option (list otsdb_event))) (cs : list client_t)
    : res (list pdu_t * (list client_t + Z)) :=
  match rounds with
  | [] => mret ([], inl cs)
  | None :: _ => mret ([], inr 1)
  | Some evs :: rounds' =>
      '(o, r) ← otsdb_events evs cs;
      match r with
      | inr rc => mret (o, inr rc)
      | inl cs => '(o', r) ← otsdb_loop rounds' cs; mret (o ++ o', r)
      end
  end.

(** ** dbolo *)

Section agent_main.
Context `{Heartbeat}.

Record agent_env := mk_agent_env {
  ae_daemon : Z;
  ae_zmq : bool;
  ae_ms : Z;                      (* time_ms *)
  ae_time_s : Z;
  ae_rands : list Z;
  ae_files : string → option string;
  ae_epoll : Z;
  ae_hb_init : Z → Z → hb_t;      (* the interval and the longest one *)
  ae_beacon : beacon_answers;
}.

Definition agent_log (b : base_options) : log_setup :=
  mk_log_setup "dbolo" (if bo_daemonize b then "daemon" else "console") (LOG_ERR + bo_verbose b).

(** The agent before its first turn, what it has done so far, and the limit
    of reconnections. *)
Definition agent_main (opts : list (ascii * string)) (e : agent_env)
    : prog (log_setup * agent_t * list action * Z) :=
  o ← options (agent_getopt opts);
  let b := ago_base o in
  _ ← require (detached b (ae_daemon e)) 3;
  _ ← require (ae_zmq e) 3;
  let '(sock, acts) := s_reconnect (ae_ms e) (s_socket AGENT_SOCKET_LIFETIME_MS) in
  '(rc, cmds) ← calls (s_parse (ae_time_s e) (ago_splay o) (ae_rands e) (ae_files e (ago_commands o)) []);
  _ ← require (rc =? 0) 1;
  _ ← require (0 <=? ae_epoll e) 1;
  let beacon :=
    match ago_beacon o with
    | None => None
    | Some _ =>
        let bs := beacon_socket (ae_ms e) (ae_hb_init e (ago_timeout o / 5) (ago_timeout o)) in
        let '(_, bfd) := beacon_connect (ae_beacon e) (b_bfd bs) in
        Some (mk_bsocket bfd (b_reconnects bs) (b_expires bs) (b_hb bs))
    end in
  mret (agent_log b, mk_agent sock beacon cmds,
        acts ++ match beacon with Some _ => [Subscribe] | None => [] end, ago_reconnects o).
End agent_main.
End programs.

Arguments mk_subscriber {_ T} _ _ _ _ _ _ _.
Arguments sb_log {_ T} _.
Arguments sb_monitor {_ T} _.
Arguments sb_inits {_ T} _.
Arguments sb_submit_to {_ T} _.
Arguments sb_tick {_ T} _.
Arguments sb_endpoint {_ T} _.
Arguments sb_threads {_ T} _.
