(* ===== verification/ProgramsFacts.v ===== *)
(** * Theorems on the programs

    From the command line to what a program does: what bolo2meta reports
    about the messages the aggregator publishes, that every metric bolo2rrd
    updates is one it has announced, and what the aggregator's command
    leaves running. *)

From S2P Require Import Prelude CLib Vigor Bytes Data DataFacts Binf Core CoreFacts Config Pdu Subscriber SubscriberFacts.
From S2P Require Import Reactor ReactorFacts KernelFacts Safety LexFacts ConfigFacts Startup StartupFacts Dump Threads Cache CacheFacts Meta Published Rrd Pg Influx Slack Sqlite Sinks Console Agent OpenTSDB.
From S2P Require Import Options Programs.
From Stdlib Require Import Ascii.

(** ** Exits *)

Lemma prog_bind_inl {A B} (m : prog A) (f : A → prog B) b :
  m ≫= f = Ok (inl b) → ∃ a, m = Ok (inl a) ∧ f a = Ok (inl b).
Proof. destruct m as [[a|rc]|]; [|done..]. eauto. Qed.

Lemma require_inl ok rc (u : ()) : require ok rc = Ok (inl u) → ok = true.
Proof. by destruct ok. Qed.

(** Splits the hypothesis that a program got past its next step. *)
Ltac prog_step E :=
  let a := fresh "a" in let Ea := fresh "Ea" in
  apply prog_bind_inl in E as (a & Ea & E).

(** ** Announcing metrics *)

Section announce.
Context `{VL : VigorLaws}.

Definition metric_code (type : string) : Z :=
  if streq type "SAMPLE" then METRIC_TYPE_SAMPLE else METRIC_TYPE_COUNT.

(** What an announcement does to the table of metrics. *)
Definition announce (m : gmap string metric_t) (tn : string * string) : gmap string metric_t :=
  match m !! tn.2 with Some _ => m | None => <[tn.2 := new_metric (metric_code tn.1)]> m end.

Definition known_type (tn : string * string) : bool := streq tn.1 "COUNT" || streq tn.1 "SAMPLE".

Definition init_pdu (tn : string * string) : pdu_t := pdu_make "INIT" [tn.1; tn.2].

Lemma init_run r tn mon :
  known_type tn = true →
  on_input r (init_pdu tn) mon = Ok ((), set_metrics (announce (mon_metrics mon) tn) mon, []).
Proof using VL.
  destruct tn as [type name]. unfold known_type, init_pdu. cbn [fst snd]. intros Ht.
  assert (pdu_frames (pdu_make "INIT" [type; name]) = ["INIT"; type; name]) as Hf by apply frames_make.
  unfold on_input. rewrite (pdu_type_of _ _ _ Hf), size_frames, Hf. cbn [length streq].
  change (streq "INIT" "INIT" && (Z.of_nat 3 =? 3)) with true. cbn iota. unfold input_init.
  rewrite !string_frames, Hf by lia. cbn [lookup list_lookup].
  assert (∀ t, (_metric (H := V) name t ≫= λ _, mret ()) mon =
    Ok ((), set_metrics (match mon_metrics mon !! name with Some _ => mon_metrics mon
                         | None => <[name := new_metric t]> (mon_metrics mon) end) mon, [])) as Hm.
  { intros t. unfold _metric. mstep. destruct (mon_metrics mon !! name) eqn:E; mstep.
    - by destruct mon.
    - unfold put_metric. mstep. done. }
  change (Z.to_nat 1) with 1%nat. change (Z.to_nat 2) with 2%nat. cbn. mstep. mstep.
  unfold announce, metric_code. cbn [fst snd].
  destruct (streq type "SAMPLE") eqn:E1; [apply Hm|]. rewrite orb_false_r in Ht. rewrite Ht. apply Hm.
Qed.

Lemma inits_run args l mon :
  forallb known_type args = true → l.*2 = init_pdu <$> args →
  on_inputs l mon = Ok ((), set_metrics (foldl announce (mon_metrics mon) args) mon, []).
Proof using VL.
  revert l mon. induction args as [|tn args IH]; intros [|[r p] l] mon Ht Hl; try done.
  - by destruct mon.
  - cbn [forallb] in Ht. apply andb_prop in Ht as [Ht1 Ht2].
    cbn [fmap list_fmap] in Hl. injection Hl as Hp Hl. cbn [snd] in Hp. subst p.
    unfold on_inputs. cbn [for_each_m]. cbn [fst snd].
    rewrite (M_run_bind _ _ _ _ _ _ (init_run r tn mon Ht1)). fold (on_inputs l).
    rewrite (IH l _ Ht2 Hl). by destruct mon.
Qed.

Lemma announce_ok m tn : monitor_ok 0 (mk_monitor "" m) → monitor_ok 0 (mk_monitor "" (announce m tn)).
Proof.
  unfold monitor_ok, announce. cbn [mon_metrics]. intros Hm. destruct (m !! tn.2); [done|].
  apply map_Forall_insert_2; [|done]. apply metric_ok_reset; [lia|]. cbn [metric_type]. unfold metric_code.
  case_match; [by right|by left].
Qed.

Lemma announced_ok args m :
  monitor_ok 0 (mk_monitor "" m) → monitor_ok 0 (mk_monitor "" (foldl announce m args)).
Proof. revert m. induction args as [|tn args IH]; intros m Hm; [done|]. by apply IH, announce_ok. Qed.

(** What [bolo_subscriber_metrics] sends, when the monitor can be reached. *)
Lemma metrics_sent args sent : (bolo_subscriber_metrics 0 args sent).1 = init_pdu <$> args.
Proof.
  unfold bolo_subscriber_metrics. change (0 =? 0) with true. cbn iota. generalize 0 at 1. revert sent.
  induction args as [|[t n] args IH]; intros sent rc; [done|]. cbn [init_loop].
  specialize (IH (tail sent) (if default true (head sent) then rc else rc - 1)).
  destruct (init_loop _ _ _) as [ps rc']. cbn [fst] in *. by rewrite IH.
Qed.

(** The monitor starts without metrics, and the announcements are on the way
    to it. *)
Lemma spin_up_inl w prefix metrics mon inits :
  spin_up w prefix metrics = Ok (inl (mon, inits)) →
  bolo_subscriber_connect_monitor (pb_connect w).1 (pb_connect w).2 = 0 →
  mon = mk_monitor prefix ∅ ∧ inits = init_pdu <$> metrics.
Proof.
  unfold spin_up. intros E Hc. prog_step E.
  destruct (bolo_subscriber_monitor_thread prefix (pb_monitor w)) as [rc [m|]] eqn:Em; [|done].
  prog_step E. injection E as <- <-. rewrite Hc, metrics_sent. split; [|done].
  unfold bolo_subscriber_monitor_thread in Em. destruct (mw_control _) as [[? ?] ?], (mw_tock _) as [[? ?] ?].
  injection Em as _ Em. case_match; [by injection Em as <-|done].
Qed.

(** ** Counting what is published *)

Lemma count_incr_make name x : count_incr name (pdu_make "COUNT" [x]) = if decide (x = name) then 1 else 0.
Proof using VL.
  assert (pdu_frames (pdu_make "COUNT" [x]) = ["COUNT"; x]) as Hf by apply frames_make.
  unfold count_incr. rewrite (pdu_type_of _ _ _ Hf), size_frames, !string_frames, Hf by lia.
  change (streq "COUNT" "COUNT" && (2 <=? Z.of_nat (length ["COUNT"; x]))) with true. cbn [andb].
  change (Z.to_nat 1) with 1%nat. change (Z.to_nat 2) with 2%nat. cbn [lookup list_lookup].
  destruct (decide (x = name)) as [->|Hne].
  - by rewrite bool_decide_true.
  - rewrite bool_decide_false; [done|congruence].
Qed.

(** What bolo2meta sends to its monitor for the messages of the aggregator. *)
Definition meta_counts (ps : list pdu_t) : list pdu_t :=
  ps ≫= λ p, [pdu_make "COUNT" [meta_metric p]; pdu_make "COUNT" ["total"]].

Lemma meta_handles ps :
  handle_all chalts meta_reactor ((CSubscriber,.) <$> ps) () = Ok (false, (), meta_counts ps).
Proof.
  induction ps as [|p ps IH]; [done|]. cbn [fmap list_fmap handle_all].
  erewrite M_run_bind by reflexivity. cbn [chalts]. rewrite IH. done.
Qed.

Lemma total_incr_snd name l : total_incr name l = foldr (λ p t, count_incr name p + t) 0 l.*2.
Proof. unfold total_incr. induction l as [|x l IH]; [done|]. cbn. by rewrite IH. Qed.

Lemma meta_total name l ps :
  name ≠ "total" → l.*2 = meta_counts ps →
  total_incr name l = Z.of_nat (length (filter (λ p, meta_metric p = name) ps)).
Proof using VL.
  intros Hn Hl. rewrite total_incr_snd, Hl. clear l Hl. induction ps as [|p ps IH]; [done|].
  unfold meta_counts. cbn [mbind list_bind app foldr]. fold (meta_counts ps). rewrite IH, !count_incr_make.
  rewrite (decide_False (P := "total" = name)) by congruence.
  rewrite filter_cons. destruct (decide (meta_metric p = name)); cbn [length]; lia.
Qed.

(** The counts after the announcements, at the next tick. *)
Lemma announced_submitted metrics prefix name now r p (l1 l2 : list (Z * pdu_t)) :
  forallb known_type metrics = true → l1.*2 = init_pdu <$> metrics →
  foldl announce ∅ metrics !! name = Some (new_metric METRIC_TYPE_COUNT) →
  Z.of_nat (length l2) < 2 ^ 31 → Forall (λ rp, 0 ≤ rp.1 ≤ RAND_MAX) l2 →
  ∃ mon1 o1 mon2 o2 q,
    on_inputs (l1 ++ l2) (mk_monitor prefix ∅) = Ok ((), mon1, o1) ∧
    _monitor_reactor now r MTock p mon1 = Ok (MContinue, mon2, o2) ∧ q ∈ o2 ∧
    pdu_frames q = ["COUNTER"; fmt_i now; prefix +:+ ":" +:+ name; fmt_u (total_incr name l2)].
Proof using VL.
  intros Ht Hl1 Hm Hlen Hr. set (mon := mk_monitor prefix ∅).
  pose proof (inits_run metrics l1 mon Ht Hl1) as E1.
  assert (monitor_ok 0 (set_metrics (foldl announce ∅ metrics) mon)) as Hok
    by apply (announced_ok metrics ∅ (map_Forall_empty _)).
  destruct (counts_submitted now r p name l2 0 _ (new_metric METRIC_TYPE_COUNT) Hok)
    as (mon1 & o1 & mon2 & o2 & q & E2 & E3 & Hq & Hf & _); [lia|lia|exact Hr|exact Hm|reflexivity|].
  eexists mon1, _, mon2, o2, q. split_and!; [|done..].
  unfold on_inputs in *. rewrite for_each_m_app, (M_run_bind _ _ _ _ _ _ E1). cbn [mon_metrics mon]. by rewrite E2.
Qed.

(** A message that is counted under an announced name. *)
Lemma meta_announced name :
  ("COUNT", name) ∈ meta_metrics →
  name ≠ "total" ∧ foldl announce ∅ meta_metrics !! name = Some (new_metric METRIC_TYPE_COUNT).
Proof.
  intros Hn. repeat (apply elem_of_cons in Hn as [[= ->]|Hn]; [split; [done|vm_compute; reflexivity]|]).
  by apply elem_of_nil in Hn.
Qed.

(** C17: bolo2meta, as its command line starts it, reports what the
    aggregator publishes: once the monitor has read the announcements and
    what the dispatcher sends for the messages [ps], its next tick submits
    under every announced name the number of these messages that are of that
    kind. *)
Theorem meta_reports opts w d s (ps : list pdu_t) name now r p :
  meta_main opts w d = Ok (inl s) →
  bolo_subscriber_connect_monitor (pb_connect w).1 (pb_connect w).2 = 0 →
  ("COUNT", name) ∈ meta_metrics →
  ∃ msgs, handle_all chalts meta_reactor ((CSubscriber,.) <$> ps) () = Ok (false, (), msgs) ∧
    ∀ l, l.*2 = sb_inits s ++ msgs → Z.of_nat (length l) < 2 ^ 31 → Forall (λ rp, 0 ≤ rp.1 ≤ RAND_MAX) l →
    ∃ mon1 o1 mon2 o2 q,
      on_inputs l (sb_monitor s) = Ok ((), mon1, o1) ∧
      _monitor_reactor now r MTock p mon1 = Ok (MContinue, mon2, o2) ∧ q ∈ o2 ∧
      pdu_frames q = ["COUNTER"; fmt_i now; mon_prefix (sb_monitor s) +:+ ":" +:+ name;
                      fmt_u (Z.of_nat (length (filter (λ p, meta_metric p = name) ps)))].
Proof using VL.
  intros E Hc Hname. exists (meta_counts ps). split; [apply meta_handles|]. intros l Hl Hlen Hr.
  unfold meta_main in E. prog_step E. prog_step E. prog_step E. prog_step E. destruct a2 as [mon inits].
  apply spin_up_inl in Ea2 as [-> ->]; [|done]. prog_step E. injection E as <-. cbn [sb_inits sb_monitor] in *.
  apply fmap_app_inv in Hl as (l1 & l2 & Hl1 & Hl2 & ->). apply Forall_app in Hr as [_ Hr].
  destruct (meta_announced name Hname) as [Hn Hm]. rewrite length_app in Hlen.
  rewrite <- (meta_total name l2 ps Hn (eq_sym Hl2)).
  apply (announced_submitted meta_metrics); [reflexivity|done|exact Hm|lia|done].
Qed.
End announce.

(** ** The metrics of bolo2rrd *)

Section rrd_announced.
Context `{VL : VigorLaws} `{Sha1}.

(** A message to the monitor is about a metric that [main] has announced,
    with its type. *)
Definition announced (metrics : list (string * string)) (q : pdu_t) : Prop :=
  ∃ tn fs, tn ∈ metrics ∧ pdu_frames q = tn.1 :: tn.2 :: fs.

Definition rrd_fine (a : raction) : Prop :=
  match a with ToMonitor q => announced rrd_metrics q | _ => True end.

Lemma count_fine name : ("COUNT", name) ∈ rrd_metrics → rrd_fine (ToMonitor (pdu_make "COUNT" [name])).
Proof using VL. intros Hn. eexists ("COUNT", name), []. split; [done|]. apply frames_make. Qed.

Lemma perf_fine name spent : ("SAMPLE", name) ∈ rrd_metrics → rrd_fine (ToMonitor (perf name spent)).
Proof using VL.
  intros Hn. eexists ("SAMPLE", name), _. split; [done|]. unfold perf. rewrite frames_extend, frames_make. reflexivity.
Qed.

Ltac fine :=
  repeat first [progress emits_step
               | apply emits_emit; first [exact I | apply count_fine | apply perf_fine];
                 apply (bool_decide_unpack _); vm_compute; exact I].

(** The threads of bolo2rrd only update metrics that [main] has announced
    to the monitor, each with its type, whatever they receive and whatever
    the system answers; so every one of them is reported from the start. *)
Theorem rrd_announces s p present opened spent rras now rc enoent :
  emits rrd_fine (rrd_dispatcher_reactor present opened spent s p) ∧
  emits rrd_fine (_creator_reactor present rras now spent rc s p) ∧
  emits rrd_fine (_updater_reactor present enoent spent rc s p).
Proof using VL.
  split_and!.
  - unfold rrd_dispatcher_reactor, on_metric, metric_file. fine.
  - unfold _creator_reactor, on_create. fine.
  - unfold _updater_reactor, on_update. destruct enoent; fine.
Qed.
End rrd_announced.

(** ** The aggregator's command *)

Section aggregator.
Context `{VL : VigorLaws} `{Pcre}.

(** An aggregator that runs was booted from the file its command line
    names, without a request to dump it. *)
Lemma aggregator_boots fuel now opts files sf e k rc :
  cmd_aggregator fuel now opts files sf e = Ok (AggrRan k rc) →
  ∃ o kf, aggr_getopt opts (mk_aggr_options DEFAULT_CONFIG_FILE false false) = inl o ∧ ao_dump_config o = false ∧
    boot fuel now (files (ao_config_file o)) sf kf (ae_wiring e) = Ok (Some (inr k)).
Proof.
  unfold cmd_aggregator, boot. destruct (aggr_getopt _ _) as [o|]; [|done].
  destruct (configure _ _ _ _) as [[rc'|] s] eqn:Ec; [|done]. intros E.
  destruct (negb (rc' =? 0)) eqn:E0; [done|]. destruct (ao_dump_config o) eqn:Ed; [done|].
  do 3 (case_match; [done|]). apply bind_Ok in E as ([rc2 k2] & E1 & E).
  exists o, (cfg_keysfile (srv_config s) ≫= files). split_and!; [done..|]. rewrite Ec, E0, E1, Ok_bind.
  destruct (negb (rc2 =? 0)); [done|]. case_match; [done|]. by injection E as <-.
Qed.

(** C1: an aggregator that runs is safe: whatever its command line, if the
    file it names is accepted with windows that are positive, then whatever
    the save file and the keys file hold, every state the kernel reaches
    satisfies its invariant, and no message that is not one of the listed
    exceptions can make it fault. *)
Theorem aggregator_safe fuel now opts files sf e k rc o k' :
  cmd_aggregator fuel now opts files sf e = Ok (AggrRan k rc) →
  (∀ ao s, aggr_getopt opts (mk_aggr_options DEFAULT_CONFIG_FILE false false) = inl ao →
    configure fuel now (files (ao_config_file ao)) default_server = (Some 0, s) → positive_windows (srv_db s)) →
  kernel_run k o k' →
  wf_kernel k' ∧
  ∀ e s p, benign e s p k' → ∃ r k'' o', _kernel_reactor e s p k' = Ok (r, k'', o').
Proof using VL.
  intros (ao & kf & Eo & _ & E)%aggregator_boots Hw Hrun. eapply booted_safe; [exact E| |exact Hrun].
  intros s. by apply Hw.
Qed.
End aggregator.

(** ** Flags *)

(** The letters of [bolo tail] and of the console select what is shown. *)
Lemma mask_flag_tail c v e m k :
  is_mask_flag c = true → tail_option c "" (mk_cmd_tail_options v e m k) = inl (mk_cmd_tail_options v e m (tail_flag c k)).
Proof.
  intros Hc. unfold tail_option. rewrite Hc. unfold is_mask_flag, is_letter in Hc.
  repeat (apply orb_prop in Hc as [Hc|Hc]); apply Ascii.eqb_eq in Hc as ->; reflexivity.
Qed.

Lemma tail_flags flags v e m k :
  forallb is_mask_flag flags = true →
  getopts tail_option ((λ c, (c, "")) <$> flags) (mk_cmd_tail_options v e m k)
  = inl (mk_cmd_tail_options v e m (foldl (λ k c, tail_flag c k) k flags)).
Proof.
  revert k. induction flags as [|c flags IH]; intros k Hf; [done|]. cbn [forallb] in Hf. apply andb_prop in Hf as [Hc Hf].
  rewrite fmap_cons. cbn [getopts]. rewrite mask_flag_tail by done. by rewrite IH.
Qed.

(** With flags only, the program starts with the mask that [tail_prints] is
    about. *)
Theorem tail_starts `{Pcre} flags re :
  forallb is_mask_flag flags = true → pcre_compile "." = inl re →
  tail_main ((λ c, (c, "")) <$> flags) (mk_sub_env 0 true true 0 0)
  = Ok (inl (mk_log_setup "bolo" "console" LOG_EMERG, mk_tail_options (tail_mask flags) re (pcre_study re))).
Proof.
  intros Hf Hre. unfold tail_main, tail_getopt. rewrite tail_flags by done.
  cbn [options mbind prog_bind tlo_match]. unfold compiled. rewrite Hre. reflexivity.
Qed.

(** ** Witnesses *)

Module ProgExample.
Definition w : plumbing :=
  mk_plumbing "db1" 0 true 0
    (mk_monitor_wiring (true, 0, 0) (true, 0, 0) (true, 0) (true, 0) true 0 0 0)
    ((true, 0, 0), (true, 0), 0) (true, 0) [] (true, 0, [(0, SIGTERM)]).
Definition d : meta_wiring := mk_meta_wiring (true, 0, 0) (true, 0) (true, 0, 0) true 0 0 0.
Definition s : subscriber_t (H := ref_vigor) () :=
  mk_subscriber (H := ref_vigor) (mk_log_setup "bolo2meta" "console" 7) (mk_monitor "db1:sys:bolo" ∅)
    (init_pdu (V := ref_vigor) <$> meta_metrics) "tcp://127.0.0.1:2999" 5000 "tcp://core:2997" ().
Definition state : @pdu_t ref_vigor := ("STATE", ["host.disk"; "1995"; "fresh"; "OK"; "fine"]).
Definition files (path : string) : option string :=
  if streq path "/etc/bolo.conf" then Some BootExample.conf else None.
Definition e : aggr_env (H := ref_vigor) :=
  mk_aggr_env (H := ref_vigor) true 0 0 BootExample.wired 0 None.
End ProgExample.

Lemma meta_reports_witness :
  ∃ msgs, handle_all (H := ref_vigor) chalts (meta_reactor (H := ref_vigor)) [(CSubscriber, ProgExample.state)] ()
          = Ok (false, (), msgs) ∧
    ∀ l, l.*2 = sb_inits ProgExample.s ++ msgs → Z.of_nat (length l) < 2 ^ 31 → Forall (λ rp, 0 ≤ rp.1 ≤ RAND_MAX) l →
    ∃ mon1 o1 mon2 o2 q,
      on_inputs (V := ref_vigor) l (sb_monitor ProgExample.s) = Ok ((), mon1, o1) ∧
      _monitor_reactor (H := ref_vigor) 2000 0 MTock ProgExample.state mon1 = Ok (MContinue, mon2, o2) ∧ q ∈ o2 ∧
      pdu_frames q = ["COUNTER"; fmt_i 2000; "db1:sys:bolo:state";
                      fmt_u (Z.of_nat (length (filter (λ p, meta_metric p = "state") [ProgExample.state])))].
Proof.
  apply (meta_reports (VL := ref_vigor_laws) [("F"%char, ""); ("v"%char, ""); ("e"%char, "tcp://core:2997")]
           ProgExample.w ProgExample.d ProgExample.s [ProgExample.state] "state" 2000 0 ProgExample.state).
  - vm_compute. reflexivity.
  - reflexivity.
  - apply (bool_decide_unpack _). vm_compute. exact I.
Defined.

Lemma aggregator_safe_witness :
  wf_kernel (H := ref_pcre) BootExample.kernel ∧
  ∀ e s p, benign (V := ref_vigor) (H := ref_pcre) e s p BootExample.kernel →
    ∃ r k'' o', _kernel_reactor (H := ref_vigor) (H0 := ref_pcre) e s p BootExample.kernel = Ok (r, k'', o').
Proof.
  apply (aggregator_safe (VL := ref_vigor_laws) (H := ref_pcre) 60 1000 [("F"%char, "")] ProgExample.files None
           ProgExample.e BootExample.kernel None []).
  - vm_compute. reflexivity.
  - intros ao s Ho E. injection Ho as <-.
    change (BootExample.configured = (Some 0, s)) in E.
    assert (s = BootExample.configured.2) as -> by (by rewrite E). exact example_positive.
  - apply run_nil.
Defined.

Lemma tail_starts_witness :
  tail_main (H0 := ref_pcre) [("T"%char, ""); ("E"%char, "")] (mk_sub_env 0 true true 0 0)
  = Ok (inl (mk_log_setup "bolo" "console" LOG_EMERG,
             mk_tail_options (H0 := ref_pcre) (Z.lor MASK_TRANSITION MASK_EVENT) "." (pcre_study (Pcre := ref_pcre) "."))).
Proof. apply (tail_starts (H := ref_pcre) ["T"; "E"]%char); reflexivity. Defined.
