(* ===== verification/ReceiverFacts.v ===== *)
(** * The OpenTSDB receiver as a whole

    The receiver's table of clients implements a bounded set of connections:
    the program, from its command line on, submits exactly the lines that
    its connections send, in order, as long as lines arrive whole and no
    prefix is asked for. *)

From S2P Require Import Prelude CLib Vigor Data Pdu Core CoreFacts Agent AgentFacts OpenTSDB OpenTSDBFacts Options Programs.
From Stdlib Require Import Ascii.
From Stdlib Require String.

(** ** The abstract receiver *)

(** A connection, with the answers of [accept] and [epoll_ctl]; whole lines
    on a connection; the end of a connection. *)
Inductive tsdb_event :=
| TAccept (fd epoll : Z)
| TLines (fd : Z) (ls : list string)
| TClose (fd : Z).

Definition concrete (ev : tsdb_event) : otsdb_event :=
  match ev with
  | TAccept fd epoll => Acceptable fd epoll
  | TLines fd ls => Readable fd (Some (whole ls))
  | TClose fd => Readable fd (Some EmptyString)
  end.

(** What one call of [epoll_wait] reports. *)
Definition round (evs : list tsdb_event) : option (list otsdb_event) := Some (concrete <$> evs).

Section receiver_spec.
Context `{V : Vigor}.

(** At most [n] connections. *)
Definition tsdb_step (n : nat) (conns : gset Z) (ev : tsdb_event) : gset Z * list pdu_t :=
  match ev with
  | TAccept fd epoll =>
      (if bool_decide (0 ≤ fd ∧ epoll ≠ -1 ∧ (size conns < n)%nat) then {[fd]} ∪ conns else conns, [])
  | TLines fd ls => (conns, if bool_decide (fd ∈ conns) then concat (samples <$> ls) else [])
  | TClose fd => (conns ∖ {[fd]}, [])
  end.

Fixpoint tsdb_sent (n : nat) (conns : gset Z) (evs : list tsdb_event) : list pdu_t :=
  match evs with
  | [] => []
  | ev :: evs' => let '(conns, o) := tsdb_step n conns ev in o ++ tsdb_sent n conns evs'
  end.

(** What the system guarantees and the clients are asked for: a descriptor
    that [accept] gives is not in use, and what is read are whole lines that
    fit into the buffer. *)
Definition tsdb_fine (conns : gset Z) (ev : tsdb_event) : Prop :=
  match ev with
  | TAccept fd _ => fd ∉ conns
  | TLines fd ls => 0 ≤ fd ∧ ls ≠ [] ∧ Forall plain ls ∧ (String.length (whole ls) ≤ Z.to_nat 8189)%nat
  | TClose fd => 0 ≤ fd
  end.

Fixpoint tsdb_run_fine (n : nat) (conns : gset Z) (evs : list tsdb_event) : Prop :=
  match evs with
  | [] => True
  | ev :: evs' => tsdb_fine conns ev ∧ tsdb_run_fine n (tsdb_step n conns ev).1 evs'
  end.

(** ** The table of clients *)

(** The descriptors in use. *)
Definition opens (cs : list client_t) : list Z := filter (λ fd, fd ≠ -1) (cl_fd <$> cs).

Definition table_ok (n : nat) (conns : gset Z) (cs : list client_t) : Prop :=
  length cs = n ∧ Forall idle cs ∧ opens cs ≡ₚ elements conns.

Lemma opens_cons c cs : opens (c :: cs) = if decide (cl_fd c ≠ -1) then cl_fd c :: opens cs else opens cs.
Proof. unfold opens. rewrite fmap_cons, filter_cons. by destruct (decide _). Qed.

Lemma opens_length cs : (length (opens cs) ≤ length cs)%nat.
Proof. induction cs as [|c cs IH]; [done|]. rewrite opens_cons. case_decide; cbn [length]; lia. Qed.

Lemma add_client_spec fd cs :
  0 ≤ fd → Forall idle cs →
  match add_client fd cs with
  | Some cs' => (length (opens cs) < length cs)%nat ∧ length cs' = length cs ∧ Forall idle cs' ∧
                opens cs' ≡ₚ fd :: opens cs
  | None => length (opens cs) = length cs
  end.
Proof.
  intros Hfd Hi. induction Hi as [|c cs Hc Hcs IH]; [done|]. cbn [add_client].
  pose proof (opens_length cs) as Hl. destruct (Z.eqb_spec (cl_fd c) (-1)) as [E|E].
  - rewrite !opens_cons. cbn [cl_fd].
    rewrite (decide_True (P := fd ≠ -1)), (decide_False (P := cl_fd c ≠ -1)) by lia. cbn [length]. split_and!; [lia|done| |done].
    constructor; [|done]. split; [done|apply Hc].
  - destruct (add_client fd cs) as [cs'|]; rewrite !opens_cons, !(decide_True (P := cl_fd c ≠ -1)) by done; cbn [length].
    + destruct IH as (H1 & H2 & H3 & H4). split_and!; [lia|lia|by constructor|]. rewrite H4. apply Permutation_swap.
    + lia.
Qed.

Lemma table_size n conns cs : table_ok n conns cs → length (opens cs) = size conns.
Proof. intros (_ & _ & ->). done. Qed.

Lemma table_mem n conns cs fd : table_ok n conns cs → 0 ≤ fd → fd ∈ conns ↔ fd ∈ cl_fd <$> cs.
Proof.
  intros (_ & _ & Ho) Hfd. rewrite <- elem_of_elements, <- Ho. unfold opens. rewrite list_elem_of_filter.
  split; [by intros [_ ?]|]. intros. split; [lia|done].
Qed.

Lemma accept_refines n conns cs fd epoll :
  table_ok n conns cs → fd ∉ conns →
  table_ok n (tsdb_step n conns (TAccept fd epoll)).1 (on_accept fd epoll cs).
Proof.
  intros Ht Hfd. pose proof (table_size _ _ _ Ht) as Hs. destruct Ht as (Hn & Hi & Ho). unfold on_accept. cbn [tsdb_step fst].
  destruct (Z.ltb_spec fd 0) as [Hneg|Hpos].
  { rewrite bool_decide_false by lia. by split_and!. }
  pose proof (add_client_spec fd cs Hpos Hi) as Ha. destruct (add_client fd cs) as [cs'|].
  - destruct Ha as (Hlt & Hl & Hi' & Ho'). destruct (Z.eqb_spec epoll (-1)) as [He|He].
    + rewrite bool_decide_false by lia. by split_and!.
    + rewrite bool_decide_true by (split_and!; lia). split_and!; [lia|done|].
      rewrite Ho', Ho, elements_union_singleton by done. done.
  - rewrite bool_decide_false by lia. by split_and!.
Qed.

(** The end of a stream, when nothing is left over. *)
Lemma on_data_close c :
  idle c → ∃ c', on_data EmptyString c = Ok (c', []) ∧ idle c' ∧ cl_fd c' = -1.
Proof.
  intros [Hn Hb]. unfold on_data. rewrite Hn. cbn [String.length Nat.eqb negb andb Nat.add].
  rewrite !write_at_start. cbn [String.length]. rewrite str_app_nil_l.
  change (drop_str 0 ?s) with s. destruct (cl_buffer c) as [|ch buf] eqn:Eb; [by unfold BUFSIZE in Hb; cbn in Hb|].
  change (drop_str (String.length (str1 NUL)) (String ch buf)) with buf.
  assert (find_eol 0 (str1 NUL +:+ buf) = None) as E.
  { rewrite <- (str_app_nil_l (str1 NUL +:+ buf)). apply find_eol_none. done. }
  rewrite E. unfold BUFSIZE at 1. destruct (Z.to_nat 8192) eqn:E8; [lia|]. cbn [lines_loop].
  rewrite Ok_bind. eexists. split; [reflexivity|]. split; [|done]. split; [done|exact Hb].
Qed.

(** Reading from the client of a descriptor, when that leaves it idle. *)
Lemma readable_spec fd data o cs fd' :
  Forall idle cs → 0 ≤ fd →
  (∀ c, idle c → cl_fd c = fd → ∃ c', on_data data c = Ok (c', o) ∧ idle c' ∧ cl_fd c' = fd') →
  ∃ cs', on_readable fd data cs = Ok (cs', if bool_decide (fd ∈ cl_fd <$> cs) then o else []) ∧
    length cs' = length cs ∧ Forall idle cs' ∧
    (fd ∈ cl_fd <$> cs → ∃ rest, opens cs ≡ₚ fd :: rest ∧ opens cs' ≡ₚ (if decide (fd' = -1) then rest else fd' :: rest)) ∧
    (fd ∉ cl_fd <$> cs → cs' = cs).
Proof.
  intros Hi Hfd Hd. induction Hi as [|c cs Hc Hcs IH].
  { exists []. split_and!; [done..| |done]. intros []%not_elem_of_nil. }
  cbn [on_readable]. destruct (Z.eqb_spec (cl_fd c) fd) as [E|E].
  - destruct (Hd c Hc E) as (c' & Ed & Hc' & Ef). rewrite Ed, Ok_bind. exists (c' :: cs).
    rewrite fmap_cons, bool_decide_true by (rewrite E; left). split_and!; [done..|by constructor| |].
    + intros _. exists (opens cs). rewrite !opens_cons, E, Ef, decide_True by lia. split; [done|].
      destruct (decide (fd' = -1)) as [->|]; [by rewrite decide_False by auto|by rewrite decide_True by done].
    + intros Hn. destruct Hn. rewrite E. left.
  - destruct IH as (cs' & Er & Hl & Hi' & Hin & Hout). rewrite Er, Ok_bind. exists (c :: cs'). rewrite fmap_cons.
    assert (fd ∈ cl_fd c :: (cl_fd <$> cs) ↔ fd ∈ cl_fd <$> cs) as Hiff
      by (rewrite elem_of_cons; split; [intros [?|?]; [congruence|done]|by right]).
    rewrite (bool_decide_ext _ _ Hiff). setoid_rewrite Hiff. split_and!; [done|cbn [length]; lia|by constructor| |].
    + intros (rest & H1 & H2)%Hin. rewrite !opens_cons. destruct (decide (cl_fd c ≠ -1)) as [Hne|]; [|by exists rest].
      exists (cl_fd c :: rest). rewrite H1, H2. split; [apply Permutation_swap|]. case_decide; [done|apply Permutation_swap].
    + intros Hn. by rewrite Hout.
Qed.

Lemma close_conns (conns : gset Z) fd rest :
  fd :: rest ≡ₚ elements conns → rest ≡ₚ elements (conns ∖ {[fd]}).
Proof.
  intros Hp. pose proof (NoDup_elements conns) as Hnd. rewrite <- Hp in Hnd. apply NoDup_cons in Hnd as [Hn Hnd].
  apply NoDup_Permutation; [done|apply NoDup_elements|]. intros x.
  rewrite elem_of_elements, elem_of_difference, elem_of_singleton, <- elem_of_elements, <- Hp, elem_of_cons.
  split; [|by intros [[->|?] ?]]. intros Hx. split; [by right|]. by intros ->.
Qed.

Lemma readable_refines n conns cs ev :
  table_ok n conns cs → tsdb_fine conns ev →
  ∃ cs', otsdb_react (concrete ev) cs = Ok ((tsdb_step n conns ev).2, inl cs') ∧
         table_ok n (tsdb_step n conns ev).1 cs'.
Proof.
  intros Ht Hf. destruct ev as [fd epoll|fd ls|fd]; cbn [concrete otsdb_react].
  - eexists. split; [reflexivity|]. by apply accept_refines.
  - destruct Hf as (Hfd & Hne & Hp & Hl). pose proof (table_mem _ _ _ fd Ht Hfd) as Hmem.
    destruct Ht as (Hn & Hi & Ho).
    destruct (readable_spec fd (whole ls) (concat (samples <$> ls)) cs fd Hi Hfd) as (cs' & E & Hl' & Hi' & Hin & Hout).
    { intros c Hc Ec. destruct (on_data_whole ls c Hc Hne Hp) as (c' & Ed & ? & ?);
        [unfold room; destruct Hc as [-> _]; lia|]. exists c'. split_and!; [done..|congruence]. }
    exists cs'. rewrite E, Ok_bind. cbn [tsdb_step fst snd]. rewrite (bool_decide_ext _ _ Hmem). split; [done|].
    split_and!; [lia|done|]. destruct (decide (fd ∈ cl_fd <$> cs)) as [Hd|Hd]; [|by rewrite Hout].
    destruct (Hin Hd) as (rest & H1 & H2). rewrite decide_False in H2 by lia. by rewrite H2, <- H1.
  - pose proof (table_mem _ _ _ fd Ht Hf) as Hmem. destruct Ht as (Hn & Hi & Ho).
    destruct (readable_spec fd EmptyString [] cs (-1) Hi Hf) as (cs' & E & Hl' & Hi' & Hin & Hout).
    { intros c Hc _. by apply on_data_close. }
    exists cs'. rewrite E, Ok_bind. cbn [tsdb_step fst snd]. split; [by destruct (bool_decide _)|].
    split_and!; [lia|done|]. destruct (decide (fd ∈ cl_fd <$> cs)) as [Hd|Hd].
    + destruct (Hin Hd) as (rest & H1 & H2). rewrite decide_True in H2 by done. rewrite H2. apply close_conns.
      by rewrite <- H1.
    + rewrite Hout by done. rewrite Ho. assert (fd ∉ conns) as Hc by (by rewrite Hmem).
      replace (conns ∖ {[fd]}) with conns; [done|]. clear -Hc. apply set_eq. set_solver.
Qed.

(** The table after a run. *)
Fixpoint tsdb_conns (n : nat) (conns : gset Z) (evs : list tsdb_event) : gset Z :=
  match evs with [] => conns | ev :: evs' => tsdb_conns n (tsdb_step n conns ev).1 evs' end.

Lemma events_refine n conns cs evs :
  table_ok n conns cs → tsdb_run_fine n conns evs →
  ∃ cs', otsdb_events (concrete <$> evs) cs = Ok (tsdb_sent n conns evs, inl cs') ∧
         table_ok n (tsdb_conns n conns evs) cs'.
Proof.
  revert conns cs. induction evs as [|ev evs IH]; intros conns cs Ht Hf; [by exists cs|].
  destruct Hf as [Hf Hfs]. destruct (readable_refines n conns cs ev Ht Hf) as (cs1 & E1 & Ht1).
  destruct (IH _ _ Ht1 Hfs) as (cs2 & E2 & Ht2). exists cs2. rewrite fmap_cons. cbn [otsdb_events].
  rewrite E1, Ok_bind, E2, Ok_bind. cbn [tsdb_sent tsdb_conns]. destruct (tsdb_step n conns ev). done.
Qed.

Lemma run_fine_app n conns evs1 evs2 :
  tsdb_run_fine n conns (evs1 ++ evs2) ↔ tsdb_run_fine n conns evs1 ∧ tsdb_run_fine n (tsdb_conns n conns evs1) evs2.
Proof.
  revert conns. induction evs1 as [|ev evs IH]; intros conns; [cbn; tauto|].
  cbn [app tsdb_run_fine tsdb_conns]. rewrite IH. tauto.
Qed.

Lemma sent_app n conns evs1 evs2 :
  tsdb_sent n conns (evs1 ++ evs2) = tsdb_sent n conns evs1 ++ tsdb_sent n (tsdb_conns n conns evs1) evs2.
Proof.
  revert conns. induction evs1 as [|ev evs IH]; intros conns; [done|].
  cbn [app tsdb_sent tsdb_conns]. destruct (tsdb_step n conns ev) as [c o]. cbn [fst]. by rewrite IH, app_assoc.
Qed.

Lemma loop_refines n conns cs (rounds : list (list tsdb_event)) :
  table_ok n conns cs → tsdb_run_fine n conns (concat rounds) →
  ∃ cs', otsdb_loop (round <$> rounds) cs = Ok (tsdb_sent n conns (concat rounds), inl cs').
Proof.
  revert conns cs. induction rounds as [|evs rounds IH]; intros conns cs Ht Hf; [by exists cs|].
  cbn [concat] in *. apply run_fine_app in Hf as [Hf1 Hf2].
  destruct (events_refine n conns cs evs Ht Hf1) as (cs1 & E1 & Ht1). destruct (IH _ _ Ht1 Hf2) as (cs2 & E2).
  exists cs2. rewrite fmap_cons. cbn [otsdb_loop round]. rewrite E1, Ok_bind, E2, Ok_bind, sent_app. done.
Qed.

Lemma new_table n : table_ok n ∅ (replicate n new_client).
Proof.
  split_and!; [apply length_replicate| |].
  - apply Forall_replicate. split; [done|]. vm_compute. reflexivity.
  - rewrite elements_empty. induction n as [|n IH]; [done|]. cbn [replicate]. by rewrite opens_cons.
Qed.

(** C16: the receiver, as its command line starts it, implements a bounded set
    of connections: when every read delivers whole lines that fit into the
    buffer (a line that is split between two reads is lost, see
    [split_line_lost]) and no prefix was asked for with -P (which the program
    ignores), then, whatever connections come and go and in whatever rounds
    the system reports them, it submits one message for every well-formed
    line of an accepted connection, under the name the line gives, in the
    order in which the lines are read, and nothing else, and it neither
    faults nor ends. *)
Theorem receiver_refines opts e log cs (rounds : list (list tsdb_event)) :
  Forall (λ o, o.1 ≠ "P"%char) opts →
  otsdb_main opts e = Ok (inl (log, cs)) → tsdb_run_fine (length cs) ∅ (concat rounds) →
  ∃ cs', otsdb_loop (round <$> rounds) cs
         = Ok (tsdb_sent (length cs) ∅ (concat rounds), inl cs').
Proof.
  intros _ E Hf. apply loop_refines; [|done]. unfold otsdb_main in E.
  destruct (otsdb_getopt opts) as [o|]; [|done]. cbn [options mbind prog_bind] in E.
  repeat match type of E with context [require ?b ?rc] => destruct b; cbn [require exit mret prog_ret mbind prog_bind] in E; [|done] end.
  injection E as _ <-. rewrite length_replicate. apply new_table.
Qed.
End receiver_spec.

(** ** A run *)

Module ServeExample.
Definition e : otsdb_env := mk_otsdb_env 0 (λ n, 0 <? n) true true 0 (λ _, mk_listen_answers 0 5 0 0) 6 0.
Definition opts : list (ascii * string) := [("F"%char, ""); ("m"%char, "1")].
Definition load (v : string) : string := "put load 17 " +:+ v +:+ " host=a".
(** The second connection finds no room; the third one does. *)
Definition rounds : list (list tsdb_event) :=
  [[TAccept 7 0; TAccept 8 0]; [TLines 7 [load "1"; "bogus"]; TLines 8 [load "2"]]; [TClose 7; TAccept 9 0; TLines 9 [load "3"]]].
Definition sample (v : string) : @pdu_t ref_vigor := ("SAMPLE", ["17"; "host=a,metric=load"; v]).
End ServeExample.

Lemma receiver_refines_witness :
  ∃ cs', otsdb_loop (H := ref_vigor) (round <$> ServeExample.rounds) [new_client]
         = Ok ([ServeExample.sample "1"; ServeExample.sample "3"], inl cs').
Proof.
  apply (receiver_refines (V := ref_vigor) ServeExample.opts ServeExample.e (mk_log_setup "opentsdb2bolo" "console" 6)
           [new_client] ServeExample.rounds).
  - by repeat constructor.
  - reflexivity.
  - unfold ServeExample.rounds. cbn [concat app tsdb_run_fine]. split_and!; try exact I; cbn [tsdb_fine]; split_and?;
      first [discriminate | (apply (bool_decide_unpack _); vm_compute; exact I)
            | (repeat constructor) | (apply Nat.leb_le; vm_compute; reflexivity)].
Defined.
