(* ===== verification/Nsca.v ===== *)
(** * The NSCA client: src/bolo_nsca/main.c

    bolo_nsca reads records from its standard input, as send_nsca does
    (fields between tabs, an ETB at the end), and submits each as a message
    of type SUBMIT, waiting for the answer before it goes on.

    The array [line] of 8192 bytes is a block of memory whose first contents
    are an argument, since the code does not set them. *)

From S2P Require Import Prelude CLib Vigor Data Pdu Options Programs.
From Stdlib Require Import Ascii.

Definition ETB : ascii := chr 23.
Definition LINE : Z := 8192.

Definition is_end (c : ascii) : bool := is_letter c NUL || is_letter c ETB.
Definition is_stop (c : ascii) : bool := is_end c || is_letter c TAB.

(** The loops over the characters of a field: where one stops, and at what. *)
Definition scan_to (stop : ascii → bool) (p : Z) (mem : string) : res (Z * ascii) :=
  let m := drop_str (Z.to_nat p) mem in
  match skip_while (λ c, negb (stop c)) m with
  | String c _ => Ok (p + strlen (take_while (λ c, negb (stop c)) m), c)
  | EmptyString => Fault OutOfBounds
  end.

Inductive record_t :=
| Malformed
| Submission (name code msg : string).

(** The newline at the end of the message; for an empty message the byte
    before it is looked at, which is the terminator of another field. *)
Definition nsca_chomp (at_msg : Z) (mem : string) : res string :=
  msg ← mem_string at_msg mem;
  if Ascii.eqb (head_char (drop_str (String.length msg - 1) msg)) LF
  then mem_write (at_msg + strlen msg - 1) (str1 NUL) mem else mret mem.

Definition nsca_fields (name : string) (at_code at_msg p : Z) (mem : string) : res (record_t * Z * string) :=
  mem ← nsca_chomp at_msg mem;
  code ← mem_string at_code mem;
  msg ← mem_string at_msg mem;
  mret (Submission name code msg, p, mem).

(** One record at the start of the memory; [p] is where the scan ended. *)
Definition nsca_record (mem : string) : res (record_t * Z * string) :=
  '(p, c) ← scan_to is_stop 0 mem;
  if is_end c then mret (Malformed, p, mem) else
  mem ← mem_write p (str1 NUL) mem;
  let f1 := p + 1 in
  '(p, c) ← scan_to is_stop f1 mem;
  if is_end c then mret (Malformed, p, mem) else
  mem ← mem_write p (str1 NUL) mem;
  let f2 := p + 1 in
  '(p, c) ← scan_to is_stop f2 mem;
  if is_letter c NUL then mret (Malformed, p, mem) else
  mem ← mem_write p (str1 NUL) mem;
  if is_letter c ETB then
    name ← mem_string 0 mem;
    nsca_fields name f1 f2 p mem
  else
    let f3 := p + 1 in
    '(p, c) ← scan_to is_end f3 mem;
    if is_letter c NUL then mret (Malformed, p, mem) else
    mem ← mem_write p (str1 NUL) mem;
    host ← mem_string 0 mem;
    service ← mem_string f1 mem;
    nsca_fields (host +:+ ":" +:+ service) f2 f3 p mem.

(** The macro CONSUME moves what follows the record to the start; the bytes
    at the end stay. *)
Definition consume (p : Z) (mem : string) : string :=
  drop_str (Z.to_nat (p + 1)) mem +:+ drop_str (Z.to_nat (LINE - (p + 1))) mem.

(** How the loop ends: an exit code, or waiting for an answer (until the
    alarm ends the process) or for input. *)
Inductive nsca_end := NExit (rc : Z) | NWaiting | NReading.

Section nsca.
Context `{Vigor}.

(** What becomes of a message that is sent. *)
Inductive nsca_answer :=
| SendFails
| NoReply
| Reply (a : pdu_t).

(** The answers of [read], [None] for an error; the next bytes are stored at
    [offset], which CONSUME sets to the place where the record ended. *)
Fixpoint nsca_loop (reads : list (option string)) (answers : list nsca_answer) (mem : string) (offset : Z)
    : res (list pdu_t * nsca_end) :=
  match reads with
  | [] => mret ([], NReading)
  | None :: _ => mret ([], NExit 0)
  | Some data :: reads' =>
      mem ← mem_write offset data mem;
      if streq data "" && is_end (head_char mem) then mret ([], NExit 0) else
      '(r, p, mem) ← nsca_record mem;
      match r with
      | Malformed => nsca_loop reads' answers (consume p mem) p
      | Submission name code msg =>
          if streq name "" then mret ([], NExit 2)
          else if streq msg "" then mret ([], NExit 2)
          else
            let q := pdu_make "SUBMIT" [name; fmt_u (status_of code); msg] in
            match answers with
            | [] => mret ([q], NWaiting)
            | SendFails :: _ => mret ([], NExit 3)
            | NoReply :: _ => mret ([q], NExit 4)
            | Reply a :: answers' =>
                if streq (pdu_type a) "OK" then
                  '(o, e) ← nsca_loop reads' answers' (consume p mem) p;
                  mret (q :: o, e)
                else mret ([q], NExit 4)
            end
      end
  end.

(** The options: [-h] and [-?] are taken and do nothing. *)
Definition nsca_option (c : ascii) (arg : string) (o : Z * string) : (Z * string) + Z :=
  let '(verbose, endpoint) := o in
  if is_letter c "h" || is_letter c "?" then inl o
  else if is_letter c "v" then inl (verbose + 1, endpoint)
  else if is_letter c "e" then inl (verbose, arg)
  else inr 1.

(** [stack] is what the memory of [line] holds. *)
Definition nsca_main (opts : list (ascii * string)) (context socket : bool) (connect : Z)
    (stack : string) (reads : list (option string)) (answers : list nsca_answer) : prog (list pdu_t * nsca_end) :=
  _ ← options (getopts nsca_option opts (0, "tcp://127.0.0.1:2999"));
  _ ← require context 3;
  _ ← require socket 3;
  _ ← require (connect =? 0) 3;
  calls (nsca_loop reads answers stack 0).
End nsca.
