(* ===== verification/NscaFacts.v ===== *)
(** * Theorems on the NSCA client

    Records that arrive in one piece are submitted, in order, each after the
    one before it was answered; the aggregator does not answer them; what
    arrives later is lost. *)

From S2P Require Import Prelude CLib Vigor Data Core CoreFacts Pdu Reactor ReactorFacts Options Programs Nsca.
From Stdlib Require Import Ascii.

(** ** Memory *)

Definition field (s : string) : Prop := str_all (λ c, negb (is_stop c)) s = true.
Definition text (s : string) : Prop := str_all (λ c, negb (is_end c)) s = true.

Lemma to_nat_strlen s : Z.to_nat (strlen s) = String.length s.
Proof. unfold strlen. lia. Qed.

Lemma scan_to_app stop pre s c rest :
  str_all (λ c, negb (stop c)) s = true → stop c = true →
  scan_to stop (strlen pre) (pre +:+ s +:+ String c rest) = Ok (strlen (pre +:+ s), c).
Proof.
  intros Hs Hc. unfold scan_to. rewrite to_nat_strlen, drop_str_app.
  rewrite skip_while_app, take_while_app by (try done; left; cbn; by rewrite Hc). by rewrite strlen_app.
Qed.

(** A field between what precedes it and the rest, with its terminator. *)
Definition closed (pre s : string) : string := pre +:+ s +:+ str1 NUL.

Lemma closed_len pre s : strlen (pre +:+ s) + 1 = strlen (closed pre s).
Proof. unfold closed. rewrite !strlen_app. change (strlen (str1 NUL)) with 1. lia. Qed.

Lemma write_closed pre s c rest :
  mem_write (strlen (pre +:+ s)) (str1 NUL) (pre +:+ s +:+ String c rest) = Ok (closed pre s +:+ rest).
Proof.
  rewrite <- (str_app_assoc pre s). rewrite mem_write_app by (cbn; lia).
  unfold closed. rewrite !str_app_assoc. done.
Qed.

Lemma mem_string_app pre s rest :
  lacks NUL s → mem_string (strlen pre) (closed pre s +:+ rest) = Ok s.
Proof.
  intros Hs. unfold mem_string, closed. rewrite !str_app_assoc.
  change (str1 NUL +:+ rest) with (String NUL rest). rewrite to_nat_strlen, drop_str_app.
  assert (has_char NUL (s +:+ String NUL rest) = true) as ->.
  { clear. induction s as [|c s IH]; [done|]. rewrite str_app_cons. cbn [has_char]. rewrite IH. apply orb_true_r. }
  unfold cstr. rewrite take_while_app; [done|done|by left].
Qed.

Lemma field_is_text s : field s → text s.
Proof.
  unfold field, text, is_stop. intros Hs. eapply str_all_imp; [|exact Hs]. intros c. cbn beta.
  destruct (is_end c); [done|done].
Qed.

Lemma text_lacks s : text s → lacks NUL s.
Proof.
  unfold text, lacks. intros Hs. eapply str_all_imp; [|exact Hs]. intros c. cbn beta. unfold is_end, is_letter, is_not.
  rewrite Ascii.eqb_sym. by destruct (Ascii.eqb NUL c).
Qed.

(** ** A record *)

(** The message without a newline at its end. *)
Definition chomped (msg : string) : string :=
  if Ascii.eqb (head_char (drop_str (String.length msg - 1) msg)) LF then take_str (String.length msg - 1) msg else msg.

Lemma chomp_app pre msg rest :
  lacks NUL msg → ∃ mem, nsca_chomp (strlen pre) (closed pre msg +:+ rest) = Ok mem ∧
    String.length mem = String.length (closed pre msg +:+ rest) ∧
    ∃ rest', mem = closed pre (chomped msg) +:+ rest' ∧ drop_str (String.length (closed pre msg)) mem = rest.
Proof.
  intros Hm. unfold nsca_chomp, chomped. rewrite mem_string_app by done. rewrite Ok_bind.
  destruct (Ascii.eqb _ _) eqn:E.
  2: { eexists. split; [done|]. split; [done|]. exists rest. split; [done|]. apply drop_str_app. }
  set (body := take_str (String.length msg - 1) msg).
  assert (msg = body +:+ nl) as Hmsg.
  { apply Ascii.eqb_eq in E. unfold body. rewrite <- (take_drop_str (String.length msg - 1) msg) at 1. f_equal.
    destruct (drop_str (String.length msg - 1) msg) as [|c t] eqn:Ed; [done|]. cbn in E. subst c.
    pose proof (drop_str_length (String.length msg - 1) msg) as Hl. rewrite Ed in Hl.
    destruct t; [done|]. cbn [String.length] in Hl. lia. }
  clearbody body. subst msg. exists (closed pre body +:+ str1 NUL +:+ rest).
  assert (strlen pre + strlen (body +:+ nl) - 1 = strlen (pre +:+ body)) as ->
    by (rewrite !strlen_app; change (strlen nl) with 1; lia).
  assert (closed pre (body +:+ nl) +:+ rest = pre +:+ body +:+ String LF (str1 NUL +:+ rest)) as ->
    by (unfold closed; rewrite !str_app_assoc; done).
  split; [apply write_closed|]. split.
  { unfold closed. rewrite !str_length_app. cbn [String.length str1]. rewrite str_length_app. cbn [String.length str1]. lia. }
  exists (str1 NUL +:+ rest). split; [done|].
  assert (String.length (closed pre (body +:+ nl)) = String.length (closed pre body +:+ str1 NUL)) as ->
    by (unfold closed; rewrite !str_length_app; cbn [String.length str1 nl]; lia).
  rewrite <- str_app_assoc. apply drop_str_app.
Qed.

Lemma chomped_lacks msg : lacks NUL msg → lacks NUL (chomped msg).
Proof.
  unfold chomped. intros Hm. destruct (Ascii.eqb _ _); [|done].
  rewrite <- (take_drop_str (String.length msg - 1) msg) in Hm. apply lacks_app in Hm. apply Hm.
Qed.

(** What a monitoring plugin hands over: the result of a service or of a
    host. *)
Inductive nsca_input :=
| Service (host service code msg : string)
| Host (name code msg : string).

Definition input_fine (i : nsca_input) : Prop :=
  match i with
  | Service host service code msg => field host ∧ field service ∧ field code ∧ text msg
  | Host name code msg => name ≠ "" ∧ field name ∧ field code ∧ field msg
  end.

Definition input_name (i : nsca_input) : string :=
  match i with Service host service _ _ => host +:+ ":" +:+ service | Host name _ _ => name end.
Definition input_code (i : nsca_input) : string := match i with Service _ _ c _ | Host _ c _ => c end.
Definition input_msg (i : nsca_input) : string := match i with Service _ _ _ m | Host _ _ m => m end.

Definition tab : string := str1 TAB.
Definition input_text (i : nsca_input) : string :=
  match i with
  | Service host service code msg => host +:+ tab +:+ service +:+ tab +:+ code +:+ tab +:+ msg +:+ str1 ETB
  | Host name code msg => name +:+ tab +:+ code +:+ tab +:+ msg +:+ str1 ETB
  end.

Lemma tab_cons s : tab +:+ s = String TAB s.
Proof. done. Qed.

Lemma closed_assoc pre s rest : closed pre s +:+ rest = pre +:+ s +:+ String NUL rest.
Proof. unfold closed. rewrite !str_app_assoc. done. Qed.

Lemma fields_run name pre code msg p rest :
  lacks NUL code → lacks NUL msg →
  ∃ mem, nsca_fields name (strlen pre) (strlen (closed pre code)) p (closed (closed pre code) msg +:+ rest)
         = Ok (Submission name code (chomped msg), p, mem) ∧
    String.length mem = String.length (closed (closed pre code) msg +:+ rest) ∧
    drop_str (String.length (closed (closed pre code) msg)) mem = rest.
Proof.
  intros Hc Hm. destruct (chomp_app (closed pre code) msg rest Hm) as (mem & E & Hl & rest' & Hmem & Hd).
  exists mem. split; [|done]. unfold nsca_fields. rewrite E, Ok_bind, Hmem.
  rewrite (closed_assoc (closed pre code)), mem_string_app by done. rewrite Ok_bind.
  rewrite <- (closed_assoc (closed pre code)), mem_string_app by (by apply chomped_lacks). done.
Qed.

(** The first fields of a record, each taken up to the tab. *)
Lemma first_field s rest :
  field s → scan_to is_stop 0 (s +:+ String TAB rest) = Ok (strlen s, TAB) ∧
  mem_write (strlen s) (str1 NUL) (s +:+ String TAB rest) = Ok (closed "" s +:+ rest).
Proof.
  intros Hs. split.
  - apply (scan_to_app is_stop "" s TAB rest); done.
  - apply (write_closed "" s TAB rest).
Qed.

Lemma next_field stop pre s c rest :
  str_all (λ c, negb (stop c)) s = true → stop c = true →
  scan_to stop (strlen pre) (pre +:+ s +:+ String c rest) = Ok (strlen (pre +:+ s), c) ∧
  mem_write (strlen (pre +:+ s)) (str1 NUL) (pre +:+ s +:+ String c rest) = Ok (closed pre s +:+ rest) ∧
  strlen (pre +:+ s) + 1 = strlen (closed pre s).
Proof. intros. split_and!; [by apply scan_to_app|apply write_closed|apply closed_len]. Qed.

(** What the scan of a record gives. *)
Definition scanned (i : nsca_input) (rest : string) : Prop :=
  ∃ mem, nsca_record (input_text i +:+ rest)
         = Ok (Submission (input_name i) (input_code i) (chomped (input_msg i)), strlen (input_text i) - 1, mem) ∧
    String.length mem = String.length (input_text i +:+ rest) ∧
    drop_str (String.length (input_text i)) mem = rest.

Lemma service_run host service code msg rest :
  input_fine (Service host service code msg) → scanned (Service host service code msg) rest.
Proof.
  unfold scanned. cbn [input_fine input_text input_name input_code input_msg].
  intros (Hh & Hs & Hc & Hm).
  destruct (first_field host (service +:+ String TAB (code +:+ String TAB (msg +:+ String ETB rest))) Hh) as [A1 A2].
  destruct (next_field is_stop (closed "" host) service TAB (code +:+ String TAB (msg +:+ String ETB rest)) Hs eq_refl)
    as (B1 & B2 & B3).
  destruct (next_field is_stop (closed (closed "" host) service) code TAB (msg +:+ String ETB rest) Hc eq_refl)
    as (C1 & C2 & C3).
  set (pre := closed (closed "" host) service) in *.
  destruct (next_field is_end (closed pre code) msg ETB rest Hm eq_refl) as (D1 & D2 & D3).
  destruct (fields_run (host +:+ ":" +:+ service) pre code msg (strlen (closed pre code +:+ msg)) rest)
    as (mem & E & Hl & Hd); [by apply text_lacks, field_is_text|by apply text_lacks|].
  assert (closed "" host = host +:+ str1 NUL) as Hcl by done.
  assert (String.length (closed (closed pre code) msg)
          = String.length (host +:+ tab +:+ service +:+ tab +:+ code +:+ tab +:+ msg +:+ str1 ETB)) as Hlen.
  { subst pre. unfold closed. rewrite !str_length_app. cbn [String.length str1 tab]. lia. }
  exists mem. split_and!; [|rewrite Hl, !(str_length_app _ rest); lia|by rewrite <- Hlen].
  match goal with |- _ = Ok (_, ?p, _) => replace p with (strlen (closed pre code +:+ msg)) end.
  2: { unfold strlen in D3 |- *. rewrite <- Hlen. lia. }
  rewrite !str_app_assoc, !tab_cons. change (str1 ETB +:+ rest) with (String ETB rest).
  unfold nsca_record. rewrite A1, Ok_bind. cbn iota beta. change (is_end TAB) with false. cbn iota.
  rewrite A2, Ok_bind.
  assert (strlen host + 1 = strlen (closed "" host)) as -> by (rewrite <- closed_len; by rewrite str_app_nil_l).
  rewrite B1, Ok_bind. cbn iota beta. change (is_end TAB) with false. cbn iota. rewrite B2, Ok_bind, B3.
  rewrite C1, Ok_bind. cbn iota beta. change (is_letter TAB NUL) with false. change (is_letter TAB ETB) with false.
  cbn iota. rewrite C2, Ok_bind, C3, D1, Ok_bind. cbn iota beta. change (is_letter ETB NUL) with false. cbn iota.
  rewrite D2, Ok_bind.
  assert (mem_string 0 (closed (closed pre code) msg +:+ rest) = Ok host) as ->.
  { rewrite !closed_assoc. subst pre. rewrite closed_assoc. apply (mem_string_app "").
    by apply text_lacks, field_is_text. }
  assert (mem_string (strlen (closed "" host)) (closed (closed pre code) msg +:+ rest) = Ok service) as ->.
  { rewrite !closed_assoc. subst pre. apply mem_string_app. by apply text_lacks, field_is_text. }
  by rewrite !Ok_bind, E.
Qed.

Lemma host_run name code msg rest : input_fine (Host name code msg) → scanned (Host name code msg) rest.
Proof.
  unfold scanned. cbn [input_fine input_text input_name input_code input_msg].
  intros (Hne & Hn & Hc & Hm).
  destruct (first_field name (code +:+ String TAB (msg +:+ String ETB rest)) Hn) as [A1 A2].
  destruct (next_field is_stop (closed "" name) code TAB (msg +:+ String ETB rest) Hc eq_refl) as (B1 & B2 & B3).
  set (pre := closed "" name) in *.
  destruct (next_field is_stop (closed pre code) msg ETB rest Hm eq_refl) as (D1 & D2 & D3).
  destruct (fields_run name pre code msg (strlen (closed pre code +:+ msg)) rest)
    as (mem & E & Hl & Hd); [by apply text_lacks, field_is_text..|].
  assert (String.length (closed (closed pre code) msg)
          = String.length (name +:+ tab +:+ code +:+ tab +:+ msg +:+ str1 ETB)) as Hlen.
  { subst pre. unfold closed. rewrite !str_length_app. cbn [String.length str1 tab]. lia. }
  exists mem. split_and!; [|rewrite Hl, !(str_length_app _ rest); lia|by rewrite <- Hlen].
  match goal with |- _ = Ok (_, ?p, _) => replace p with (strlen (closed pre code +:+ msg)) end.
  2: { unfold strlen in D3 |- *. rewrite <- Hlen. lia. }
  rewrite !str_app_assoc, !tab_cons. change (str1 ETB +:+ rest) with (String ETB rest).
  unfold nsca_record. rewrite A1, Ok_bind. cbn iota beta. change (is_end TAB) with false. cbn iota.
  rewrite A2, Ok_bind.
  assert (strlen name + 1 = strlen pre) as -> by (subst pre; rewrite <- closed_len; by rewrite str_app_nil_l).
  rewrite B1, Ok_bind. cbn iota beta. change (is_end TAB) with false. cbn iota. rewrite B2, Ok_bind, B3.
  rewrite D1, Ok_bind. cbn iota beta. change (is_letter ETB NUL) with false. change (is_letter ETB ETB) with true.
  cbn iota. rewrite D2, Ok_bind.
  assert (mem_string 0 (closed (closed pre code) msg +:+ rest) = Ok name) as ->.
  { rewrite !closed_assoc. subst pre. apply (mem_string_app ""). by apply text_lacks, field_is_text. }
  by rewrite !Ok_bind, E.
Qed.

Lemma record_run i rest : input_fine i → scanned i rest.
Proof. destruct i; [apply service_run|apply host_run]. Qed.

(** ** The loop *)

Definition records (l : list nsca_input) : string := String.concat "" (input_text <$> l).

Lemma records_cons i l : records (i :: l) = input_text i +:+ records l.
Proof. unfold records. by rewrite fmap_cons, str_concat_cons. Qed.

(** The message must not be empty. *)
Definition submittable (i : nsca_input) : Prop := input_fine i ∧ chomped (input_msg i) ≠ "".

Lemma head_not_end i rest : input_fine i → is_end (head_char (input_text i +:+ rest)) = false.
Proof.
  assert (∀ s t, field s → is_end (head_char (s +:+ tab +:+ t)) = false) as Hf.
  { intros [|c s] t Hs; [done|]. change (head_char _) with c. unfold field in Hs. cbn [str_all] in Hs. apply andb_prop in Hs as [Hc _].
    unfold is_stop in Hc. by destruct (is_end c). }
  destruct i as [host service code msg|name code msg]; cbn [input_fine input_text]; rewrite !str_app_assoc.
  - intros (Hh & _). by apply Hf.
  - intros (_ & Hn & _). by apply Hf.
Qed.

Section loop.
Context `{VL : VigorLaws}.

Definition submission_of (i : nsca_input) : pdu_t :=
  pdu_make "SUBMIT" [input_name i; fmt_u (status_of (input_code i)); chomped (input_msg i)].

Lemma mem_write_nothing offset mem : 0 ≤ offset ≤ strlen mem → mem_write offset "" mem = Ok mem.
Proof.
  intros Ho. unfold mem_write. change (strlen "") with 0. rewrite Z.add_0_r.
  destruct (Z.leb_spec 0 offset), (Z.leb_spec offset (strlen mem)); try lia. cbn [andb String.length].
  by rewrite Nat.add_0_r, str_app_nil_l, take_drop_str.
Qed.

Lemma name_not_empty i : input_fine i → streq (input_name i) "" = false.
Proof.
  destruct i as [host service ? ?|name ? ?]; cbn; [|by intros (? & _); apply streq_neq].
  intros _. apply streq_neq. by destruct host.
Qed.

(** A record at the start of the memory is read whole, and leaves the records
    after it there. *)
Lemma turn_record i l junk :
  input_fine i → strlen (records (i :: l) +:+ String NUL junk) = LINE →
  ∃ p mem junk', nsca_record (records (i :: l) +:+ String NUL junk)
      = Ok (Submission (input_name i) (input_code i) (chomped (input_msg i)), p, mem) ∧
    0 ≤ p ≤ LINE ∧ consume p mem = records l +:+ String NUL junk' ∧ strlen (records l +:+ String NUL junk') = LINE.
Proof.
  intros Hi Hlen. rewrite records_cons, str_app_assoc in Hlen |- *.
  destruct (record_run i (records l +:+ String NUL junk) Hi) as (mem & E & Hl & Hd).
  set (p := strlen (input_text i) - 1) in *.
  assert (Z.to_nat (p + 1) = String.length (input_text i)) as Hp by (subst p; unfold strlen; lia).
  assert (Z.of_nat (String.length mem) = LINE) as Hmem by (rewrite Hl; exact Hlen).
  assert (0 < strlen (input_text i) ≤ LINE) as Hr.
  { rewrite strlen_app in Hlen. pose proof (strlen_nonneg (records l +:+ String NUL junk)).
    split; [|lia]. destruct i; cbn [input_text]; rewrite !strlen_app; change (strlen (str1 ETB)) with 1;
      repeat match goal with |- context [strlen ?s] => first [lia | pose proof (strlen_nonneg s); generalize dependent (strlen s); intros] end; lia. }
  exists p, mem, (junk +:+ drop_str (Z.to_nat (LINE - (p + 1))) mem).
  assert (consume p mem = records l +:+ String NUL (junk +:+ drop_str (Z.to_nat (LINE - (p + 1))) mem)) as Hcons.
  { unfold consume. rewrite Hp, Hd, str_app_assoc. done. }
  split_and!; [done|subst p; lia..|done|].
  rewrite <- Hcons. unfold consume, strlen. rewrite str_length_app, !drop_str_length. subst p. unfold LINE in *.
  unfold strlen in *. lia.
Qed.

(** One turn over such a record: the submission is sent, and the turns go on
    when it is answered with OK. *)
Lemma turn_run i l junk data m reads answers offset :
  submittable i → strlen (records (i :: l) +:+ String NUL junk) = LINE →
  mem_write offset data m = Ok (records (i :: l) +:+ String NUL junk) →
  ∃ junk' off, 0 ≤ off ≤ LINE ∧ strlen (records l +:+ String NUL junk') = LINE ∧
    nsca_loop (Some data :: reads) answers m offset =
      match answers with
      | [] => Ok ([submission_of i], NWaiting)
      | SendFails :: _ => Ok ([], NExit 3)
      | NoReply :: _ => Ok ([submission_of i], NExit 4)
      | Reply a :: answers' =>
          if streq (pdu_type a) "OK"
          then '(o, e) ← nsca_loop reads answers' (records l +:+ String NUL junk') off; mret (submission_of i :: o, e)
          else Ok ([submission_of i], NExit 4)
      end.
Proof.
  intros [Hi Hm] Hlen Hw. destruct (turn_record i l junk Hi Hlen) as (p & mem & junk' & E & Hp & Hc & Hlen').
  exists junk', p. split_and!; [lia..|done|]. cbn [nsca_loop].
  assert (is_end (head_char (records (i :: l) +:+ String NUL junk)) = false) as He
    by (rewrite records_cons, str_app_assoc; by apply head_not_end).
  rewrite Hw, Ok_bind, He, andb_false_r, E, Ok_bind. apply streq_neq in Hm. rewrite (name_not_empty i), Hm, Hc by done. done.
Qed.

(** What is sent of [l] when the first [n] messages are answered with OK and
    no other answer comes, and how that ends. *)
Definition sent_of (n : nat) (l : list nsca_input) : list pdu_t * nsca_end :=
  (submission_of <$> take (S n) l, if decide (n < length l)%nat then NWaiting else NExit 0).

Lemma sent_of_cons n i l : sent_of (S n) (i :: l) = (submission_of i :: (sent_of n l).1, (sent_of n l).2).
Proof. unfold sent_of. cbn [take fmap list_fmap length fst snd]. f_equal. by repeat case_decide; try lia. Qed.

(** Everything is in the memory after the first [read], and the input has
    ended. *)
Lemma records_loop l answers : ∀ junk data m offset,
  Forall submittable l → Forall (λ a, pdu_type a = "OK") answers → (length answers ≤ length l)%nat →
  strlen (records l +:+ String NUL junk) = LINE → mem_write offset data m = Ok (records l +:+ String NUL junk) →
  (l = [] → data = "") →
  nsca_loop (Some data :: replicate (length l) (Some "")) (Reply <$> answers) m offset = Ok (sent_of (length answers) l).
Proof using.
  revert answers. induction l as [|i l IH]; intros answers junk data m offset Hl Ha Hn Hlen Hw Hd.
  - destruct answers; [|cbn in Hn; lia]. rewrite Hd in Hw |- * by done. cbn [length replicate nsca_loop]. by rewrite Hw.
  - apply Forall_cons in Hl as [Hi Hl].
    destruct (turn_run i l junk data m (replicate (S (length l)) (Some "")) (Reply <$> answers) offset Hi Hlen Hw)
      as (junk' & off & Hoff & Hlen' & E).
    change (replicate (length (i :: l)) (Some "")) with (replicate (S (length l)) (Some "")). rewrite E. clear E.
    destruct answers as [|a answers]; [done|]. apply Forall_cons in Ha as [Ha Has]. rewrite fmap_cons, Ha.
    change (streq "OK" "OK") with true. cbn iota. cbn [length] in Hn |- *.
    change (replicate (S (length l)) (Some "")) with (Some "" :: replicate (length l) (Some "")).
    rewrite (IH answers junk' "" (records l +:+ String NUL junk') off), sent_of_cons;
      [done|done|done|lia|done| |done]. apply mem_write_nothing. by rewrite Hlen'.
Qed.

(** C38: records that arrive in one piece, with a zero byte behind them, are
    submitted in order, each with its name, its status and its message
    without the newline, one at a time: a record is submitted only when
    every one before it was answered with OK.  When all are answered the
    program ends with success; when only the first [n] are, record [n + 1] is
    the last to be sent and the program waits for its answer.  With [n = 0],
    as with an aggregator that answers no submission, that is the first. *)
Theorem nsca_submits opts o l stack junk answers :
  getopts nsca_option opts (0, "tcp://127.0.0.1:2999") = inl o →
  Forall submittable l → Forall (λ a, pdu_type a = "OK") answers → (length answers ≤ length l)%nat →
  strlen stack = LINE → drop_str (String.length (records l)) stack = String NUL junk →
  nsca_main opts true true 0 stack (Some (records l) :: replicate (length l) (Some "")) (Reply <$> answers)
  = Ok (inl (submission_of <$> take (S (length answers)) l,
             if decide (length answers < length l)%nat then NWaiting else NExit 0)).
Proof using.
  intros Ho Hl Ha Hn Hs Hd. unfold nsca_main. rewrite Ho. cbn [options mbind prog_bind require mret prog_ret Z.eqb].
  assert (mem_write 0 (records l) stack = Ok (records l +:+ String NUL junk)) as Hw.
  { rewrite <- Hd. rewrite <- (str_app_nil_l stack) at 1. apply (mem_write_app "").
    pose proof (drop_str_length (String.length (records l)) stack) as H. rewrite Hd in H. cbn [String.length] in H. lia. }
  assert (strlen (records l +:+ String NUL junk) = LINE) as Hlen.
  { rewrite <- Hs. unfold strlen. by rewrite (mem_write_length _ _ _ _ Hw). }
  pose proof (records_loop l answers junk (records l) stack 0 Hl Ha Hn Hlen Hw ltac:(by intros ->)) as E.
  change (calls (nsca_loop (Some (records l) :: replicate (length l) (Some "")) (Reply <$> answers) stack 0)
          = Ok (inl (sent_of (length answers) l))).
  by rewrite E.
Qed.
End loop.

(** ** With the aggregator *)

Section unanswered.
Context `{VL : VigorLaws} `{Pcre}.

(** Everything the client sends. *)
Lemma loop_sends reads answers mem offset o e :
  nsca_loop reads answers mem offset = Ok (o, e) → Forall (λ q, ∃ fs, pdu_frames q = "SUBMIT" :: fs) o.
Proof using VL.
  revert answers mem offset o e. induction reads as [|[data|] reads IH]; intros answers mem offset o e E.
  - injection E as <- _. constructor.
  - cbn [nsca_loop] in E. apply bind_Ok in E as (mem1 & _ & E).
    destruct (_ && _); [injection E as <- _; constructor|]. apply bind_Ok in E as ([[r p] mem2] & _ & E).
    destruct r as [|name code msg]; [by eapply IH|].
    do 2 (case_match; [injection E as <- _; constructor|]).
    assert (∃ fs, pdu_frames (pdu_make "SUBMIT" [name; fmt_u (status_of code); msg]) = "SUBMIT" :: fs) as Hq
      by (eexists; apply frames_make).
    destruct answers as [|[| |a] answers]; try (injection E as <- _; repeat constructor; done).
    case_match; [|injection E as <- _; repeat constructor; done].
    apply bind_Ok in E as ([o' e'] & E1 & E). injection E as <- _. constructor; [done|]. by eapply IH.
  - injection E as <- _. constructor.
Qed.

(** The aggregator ignores whatever bolo_nsca sends: the message neither
    changes the kernel nor is it answered, so that bolo_nsca waits until its
    alarm ends it. *)
Theorem nsca_unanswered reads answers mem offset o e q env k :
  nsca_loop reads answers mem offset = Ok (o, e) → q ∈ o →
  _kernel_reactor env Listener q k = Ok (Continue, k, []).
Proof using VL.
  intros E Hq. apply loop_sends in E. rewrite Forall_forall in E. destruct (E q Hq) as [fs Hf].
  unfold _kernel_reactor, on_listener. rewrite !(pdu_is_frames _ _ _ _ _ _ Hf).
  repeat match goal with |- context [streq "SUBMIT" ?y] => change (streq "SUBMIT" y) with false end.
  rewrite !andb_false_r, ?andb_false_l. by mstep.
Qed.
End unanswered.

(** ** Examples *)

Module NscaExample.
Definition disk : nsca_input := Service "db1" "disk" "2" ("full" +:+ nl).
Definition ping : nsca_input := Host "db1" "ok" "alive".
Definition ok : @pdu_t ref_vigor := ("OK", []).
Definition stack : string := zeros (Z.to_nat LINE).
Definition submit (name code msg : string) : @pdu_t ref_vigor := ("SUBMIT", [name; code; msg]).
End NscaExample.

Lemma nsca_submits_witness :
  let run answers :=
    nsca_main (H := ref_vigor) [] true true 0 NscaExample.stack
      [Some (records [NscaExample.disk; NscaExample.ping]); Some ""; Some ""] (Reply <$> answers) in
  run [NscaExample.ok; NscaExample.ok]
    = Ok (inl ([NscaExample.submit "db1:disk" "2" "full"; NscaExample.submit "db1" "0" "alive"], NExit 0)) ∧
  run [] = Ok (inl ([NscaExample.submit "db1:disk" "2" "full"], NWaiting)).
Proof.
  assert (∀ answers, Forall (λ a, pdu_type (Vigor := ref_vigor) a = "OK") answers → (length answers ≤ 2)%nat →
    nsca_main (H := ref_vigor) [] true true 0 NscaExample.stack
      [Some (records [NscaExample.disk; NscaExample.ping]); Some ""; Some ""] (Reply <$> answers)
    = Ok (inl (submission_of <$> take (S (length answers)) [NscaExample.disk; NscaExample.ping],
               if decide (length answers < 2)%nat then NWaiting else NExit 0))) as Hrun.
  { intros answers Ha Hn.
    apply (nsca_submits (V := ref_vigor) [] (0, "tcp://127.0.0.1:2999") [NscaExample.disk; NscaExample.ping]
             NscaExample.stack (zeros (Z.to_nat LINE - 31)) answers).
    - reflexivity.
    - repeat constructor; done.
    - exact Ha.
    - exact Hn.
    - unfold strlen, NscaExample.stack. by rewrite zeros_length.
    - vm_compute. reflexivity. }
  cbv zeta. split.
  - apply (Hrun [NscaExample.ok; NscaExample.ok]); [repeat constructor|cbn; lia].
  - apply (Hrun []); [constructor|cbn; lia].
Defined.

Lemma nsca_unanswered_witness :
  _kernel_reactor (H := ref_vigor) (H0 := ref_pcre) CoreExample.e Listener (NscaExample.submit "db1" "0" "alive") CoreExample.k
  = Ok (Continue, CoreExample.k, []).
Proof.
  apply (nsca_unanswered (VL := ref_vigor_laws) (H := ref_pcre) [Some (records [NscaExample.ping])] []
           NscaExample.stack 0 [NscaExample.submit "db1" "0" "alive"] NWaiting).
  - vm_compute. reflexivity.
  - left.
Defined.

(** A record that comes with a later [read] is stored behind the place where
    the one before it ended, and never found: only the first is submitted. *)
Example nsca_second_read_lost :
  nsca_loop (H := ref_vigor) [Some (input_text NscaExample.disk); Some (input_text NscaExample.ping); Some ""]
    [Reply NscaExample.ok; Reply NscaExample.ok] NscaExample.stack 0
  = Ok ([NscaExample.submit "db1:disk" "2" "full"], NExit 0).
Proof. vm_compute. reflexivity. Qed.
