(* ===== verification/Tsdp.v ===== *)
(** * libtsdp: include/tsdp.h and tsdp/

    A library for a binary protocol.  Its structures are modelled with their
    memory: frames are cells of a heap, and what [malloc] leaves
    uninitialised is an argument. *)

From S2P Require Import Prelude CLib.

(** ** Constants *)

Definition TSDP_VERSION : Z := 1.

Definition TSDP_OP_HEARTBEAT : Z := 0.
Definition TSDP_OP_SUBMIT : Z := 0x01.
Definition TSDP_OP_BROADCAST : Z := 0x02.
Definition TSDP_OP_FORGET : Z := 0x03.
Definition TSDP_OP_REPLAY : Z := 0x04.
Definition TSDP_OP_SUBSCRIBER : Z := 0x05.
Definition TSDP_BIGGEST_OPCODE : Z := TSDP_OP_SUBSCRIBER.
Definition TSDP_RESERVED_OP : Z := 0xfa.

Definition TSDP_TYPE_NIL : Z := 0.
Definition TSDP_TYPE_UINT : Z := 0x01.
Definition TSDP_TYPE_FLOAT : Z := 0x02.
Definition TSDP_TYPE_STRING : Z := 0x03.
Definition TSDP_TYPE_TSTAMP : Z := 0x04.
Definition TSDP_RESERVED_TYPE : Z := 0xfb.

Definition TSDP_E2SMALL : Z := 1.
Definition TSDP_EEARLYFF : Z := 2.
Definition TSDP_ENOFF : Z := 3.
Definition TSDP_EBADTYPE : Z := 4.
Definition TSDP_BIGGEST_ERROR : Z := TSDP_EBADTYPE.
Definition EINVAL : Z := 22.

Definition __tsdp_valid_opcode (x : Z) : bool := Z.land x TSDP_RESERVED_OP =? 0.
Definition __tsdp_valid_type (x : Z) : bool := Z.land x TSDP_RESERVED_TYPE =? 0.

(** ** Memory *)

(** A pointer to a frame: null, to a cell, or uninitialised. *)
Inductive ptr := Null | At (a : positive) | Wild.

Record tframe := mk_tframe {
  tf_type : Z;
  tf_size : Z;
  tf_data : option (list Z);     (* [None]: the pointer is uninitialised *)
  tf_next : ptr;
}.

Record tsdp_t := mk_tsdp {
  ts_version : Z;
  ts_opcode : Z;
  ts_flags : Z;
  ts_payloads : Z;
  ts_frames : ptr;
  ts_nframes : Z;
  ts_octets : Z;
}.

Definition theap : Type := gmap positive tframe.

(** The frame at a pointer; a cell that is not allocated cannot be read. *)
Definition frame_at (h : theap) (p : ptr) : res tframe :=
  match p with
  | Null => Fault NullPointer
  | Wild => Fault OutOfBounds
  | At a => match h !! a with Some f => Ok f | None => Fault OutOfBounds end
  end.

Definition next_addr (h : theap) : positive := fresh (dom h : gset positive).

(** ** Fields *)

Definition set_version (v : Z) (p : tsdp_t) : tsdp_t :=
  mk_tsdp v (ts_opcode p) (ts_flags p) (ts_payloads p) (ts_frames p) (ts_nframes p) (ts_octets p).
Definition set_opcode (v : Z) (p : tsdp_t) : tsdp_t :=
  mk_tsdp (ts_version p) v (ts_flags p) (ts_payloads p) (ts_frames p) (ts_nframes p) (ts_octets p).
Definition set_flags (v : Z) (p : tsdp_t) : tsdp_t :=
  mk_tsdp (ts_version p) (ts_opcode p) v (ts_payloads p) (ts_frames p) (ts_nframes p) (ts_octets p).
Definition set_payloads (v : Z) (p : tsdp_t) : tsdp_t :=
  mk_tsdp (ts_version p) (ts_opcode p) (ts_flags p) v (ts_frames p) (ts_nframes p) (ts_octets p).
Definition set_frames (v : ptr) (n : Z) (p : tsdp_t) : tsdp_t :=
  mk_tsdp (ts_version p) (ts_opcode p) (ts_flags p) (ts_payloads p) v n (ts_octets p).
Definition set_octets (v : Z) (p : tsdp_t) : tsdp_t :=
  mk_tsdp (ts_version p) (ts_opcode p) (ts_flags p) (ts_payloads p) (ts_frames p) (ts_nframes p) v.

(** [out] is whether the caller passes a place for the result, [junk] what
    [malloc] finds there: the frames and the two counters keep it. *)
Definition tsdp_create (out : bool) (junk : tsdp_t) (version opcode : Z) : Z * option tsdp_t :=
  if negb out || negb (version =? TSDP_VERSION) || negb (__tsdp_valid_opcode opcode) then (- EINVAL, None)
  else (0, Some (set_flags 0 (set_payloads 0 (set_opcode opcode (set_version version junk))))).

(** The setters, for a pointer that may be null. *)
Definition tsdp_set (ok : bool) (f : tsdp_t → tsdp_t) (p : option tsdp_t) : Z * option tsdp_t :=
  match p with
  | None => (- EINVAL, None)
  | Some p => if ok then (0, Some (f p)) else (- EINVAL, Some p)
  end.
Definition tsdp_set_version (p : option tsdp_t) (v : Z) : Z * option tsdp_t :=
  tsdp_set (v =? TSDP_VERSION) (set_version v) p.
Definition tsdp_set_opcode (p : option tsdp_t) (v : Z) : Z * option tsdp_t :=
  tsdp_set (__tsdp_valid_opcode v) (set_opcode v) p.
Definition tsdp_set_flags (p : option tsdp_t) (v : Z) : Z * option tsdp_t :=
  tsdp_set (v =? Z.land v 0xff) (set_flags (Z.land v 0xff)) p.
Definition tsdp_set_payloads (p : option tsdp_t) (v : Z) : Z * option tsdp_t :=
  tsdp_set (v =? Z.land v 0xffff) (set_payloads (Z.land v 0xffff)) p.

Definition tsdp_get (f : tsdp_t → Z) (p : option tsdp_t) : Z :=
  match p with None => - EINVAL | Some p => f p end.
Definition tsdp_get_version : option tsdp_t → Z := tsdp_get ts_version.
Definition tsdp_get_opcode : option tsdp_t → Z := tsdp_get ts_opcode.
Definition tsdp_get_flags : option tsdp_t → Z := tsdp_get ts_flags.
Definition tsdp_get_payloads : option tsdp_t → Z := tsdp_get ts_payloads.
Definition tsdp_get_size : option tsdp_t → Z := tsdp_get ts_nframes.

(** ** Frames *)

Fixpoint nth_loop (h : theap) (n : nat) (p : ptr) : res ptr :=
  match n, p with
  | O, _ | _, Null => Ok p
  | S n', _ => f ← frame_at h p; nth_loop h n' (tf_next f)
  end.
Definition _nthframe (h : theap) (p : tsdp_t) (n : Z) : res ptr := nth_loop h (Z.to_nat n) (ts_frames p).

(** A field of the [n]-th frame, or the error. *)
Definition with_frame {A} (h : theap) (p : option tsdp_t) (n : Z) (ok : bool) (f : tframe → res (A + Z)) : res (A + Z) :=
  match p with
  | None => Ok (inr (- EINVAL))
  | Some p =>
      if (ts_nframes p <? n) || negb ok then Ok (inr (- EINVAL))
      else
        q ← _nthframe h p n;
        match q with
        | Null => Ok (inr (- EINVAL))
        | _ => fr ← frame_at h q; f fr
        end
  end.

Definition tsdp_get_frame_type (h : theap) (p : option tsdp_t) (n : Z) : res (Z + Z) :=
  with_frame h p n true (λ f, Ok (inl (tf_type f))).
Definition tsdp_get_frame_size (h : theap) (p : option tsdp_t) (n : Z) : res (Z + Z) :=
  with_frame h p n true (λ f, Ok (inl (tf_size f))).

(** [memcpy] of [n] octets from [data]. *)
Definition copy_octets (n : Z) (data : list Z) : res (list Z) :=
  if (0 <=? n) && (n <=? Z.of_nat (length data)) then Ok (take (Z.to_nat n) data) else Fault OutOfBounds.

(** The copy of the data; [out]: both result pointers are given. *)
Definition tsdp_get_frame_value (h : theap) (p : option tsdp_t) (n type : Z) (out : bool) : res (list Z + Z) :=
  with_frame h p n (out && __tsdp_valid_type type) (λ f,
    if negb (tf_type f =? type) then Ok (inr (- TSDP_EBADTYPE))
    else match tf_data f with
         | None => Fault OutOfBounds
         | Some data => d ← copy_octets (tf_size f) data; Ok (inl d)
         end).

(** The loop that looks for the end of the list, from frame to frame: [None]
    when the list has no end. *)
Fixpoint drop_frames (fuel : nat) (h : theap) (p : ptr) : option (res ()) :=
  match p with
  | Null => Some (Ok ())
  | _ =>
      match fuel with
      | O => None
      | S fuel' =>
          match frame_at h p with
          | Ok f => drop_frames fuel' h (tf_next f)
          | Fault e => Some (Fault e)
          end
      end
  end.

(** The loop moves the head of the list itself, so that the new frame is the
    only one left; its [next] is what [malloc] finds ([junk]). *)
Definition tsdp_extend (junk : tframe) (h : theap) (p : tsdp_t) (type : Z) (data : list Z) (len : Z)
    : option (res (Z * theap * tsdp_t)) :=
  match drop_frames (S (size h)) h (ts_frames p) with
  | None => None
  | Some (Fault e) => Some (Fault e)
  | Some (Ok _) =>
      Some (d ← copy_octets len data;
            let a := next_addr h in
            Ok (0, <[a := mk_tframe type len (Some d) (tf_next junk)]> h, set_frames (At a) (s32 (ts_nframes p + 1)) p))
  end.

(** Every frame is freed; an uninitialised data pointer cannot be. *)
Fixpoint free_frames (fuel : nat) (h : theap) (p : ptr) : res theap :=
  match p with
  | Null => Ok h
  | _ =>
      match fuel with
      | O => Fault BadFree
      | S fuel' =>
          f ← frame_at h p;
          match tf_data f, p with
          | Some _, At a => free_frames fuel' (delete a h) (tf_next f)
          | _, _ => Fault BadFree
          end
      end
  end.
Definition tsdp_destroy (h : theap) (p : option tsdp_t) : res (Z * theap) :=
  match p with
  | None => Ok (0, h)
  | Some p => h ← free_frames (S (size h)) h (ts_frames p); Ok (0, h)
  end.

(** ** Packing *)

(** The values that [tsdp_pack] assigns for the header, in order: the [i]-th
    goes through [*buf[i]], not to the [i]-th octet of one buffer (see
    [put_cells]). *)
Definition pack_header (p : tsdp_t) : list Z :=
  [Z.lor (Z.shiftl (Z.land (ts_version p) 0xf) 4) (Z.land (ts_opcode p) 0xf);
   Z.land (ts_flags p) 0xff;
   Z.shiftr (Z.land (ts_payloads p) 0xff00) 8;
   Z.land (ts_payloads p) 0x00ff].

Definition pack_frame_header (f : tframe) : list Z :=
  [Z.lor (Z.lor (Z.shiftl (Z.land (tf_type f) 0x7) 4) (match tf_next f with Null => 0 | _ => 0x8 end))
     (Z.shiftr (Z.land (tf_size f) 0xf00) 8);
   Z.land (tf_size f) 0x0ff].

(** [*buf[i++] = b]: the first octet of what the [i]-th pointer of the
    caller's array points to.  [cells] are those octets. *)
Fixpoint put_cells (cells : list Z) (i : Z) (bs : list Z) : res (list Z * Z) :=
  match bs with
  | [] => Ok (cells, i)
  | b :: bs' =>
      if i <? Z.of_nat (length cells) then put_cells (<[Z.to_nat i := b]> cells) (i + 1) bs' else Fault OutOfBounds
  end.

(** The loop over the frames, which never moves to the next one. *)
Fixpoint pack_loop (fuel : nat) (octets : Z) (f : tframe) (cells : list Z) (i : Z) : option (res (Z * list Z)) :=
  match fuel with
  | O => None
  | S fuel' =>
      if u64 octets <? u64 (i + 2 + tf_size f) then Some (Ok (- TSDP_E2SMALL, []))
      else
        match ('(cells, i) ← put_cells cells i (pack_frame_header f);
               data ← match tf_data f with Some d => Ok d | None => Fault OutOfBounds end;
               d ← copy_octets (u64 (tf_size f)) data;
               put_cells cells i d) with
        | Fault e => Some (Fault e)
        | Ok (cells, i) => pack_loop fuel' octets f cells i
        end
  end.

(** [given]: none of the three arguments is null; [cells]: what the pointers
    of the caller's array point to, of which the first is replaced. *)
Definition tsdp_pack (given : bool) (h : theap) (p : tsdp_t) (cells : list Z) : option (res (Z * list Z)) :=
  if negb given then Some (Ok (- EINVAL, cells))
  else if ts_octets p <? 4 then Some (Ok (- TSDP_E2SMALL, cells))
  else
    match put_cells (match cells with [] => [] | _ :: r => 0 :: r end) 0 (pack_header p) with
    | Fault e => Some (Fault e)
    | Ok (cells, i) =>
        match ts_frames p with
        | Null => Some (Ok (0, cells))
        | q =>
            match frame_at h q with
            | Fault e => Some (Fault e)
            | Ok f => pack_loop (S (Z.to_nat (ts_octets p))) (ts_octets p) f cells i
            end
        end
    end.

(** ** Unpacking *)

(** The octets that [malloc] is asked for, the size of a frame, and where the
    last field of a PDU ends. *)
Definition sizeof_frame : Z := 24.
Definition octets_end : Z := 32.

(** An error after the PDU was allocated: it is destroyed. *)
Definition give_back (h : theap) (p : tsdp_t) (rc : Z) : res (Z * option tsdp_t * theap) :=
  '(_, h) ← tsdp_destroy h (Some p); Ok (rc, None, h).

(** [*next = frame]: the head of the list, or the link of the last frame. *)
Definition link (last : option positive) (a : positive) (h : theap) (p : tsdp_t) : theap * tsdp_t :=
  match last with
  | None => (h, set_frames (At a) (ts_nframes p) p)
  | Some l => (alter (λ f, mk_tframe (tf_type f) (tf_size f) (tf_data f) (At a)) l h, p)
  end.

Definition octet (buf : list Z) (i : Z) : res Z :=
  match buf !! Z.to_nat i with Some b => Ok b | None => Fault OutOfBounds end.

(** The loop over the frames; [junk a] is what [malloc] finds at [a]. *)
Fixpoint unpack_loop (fuel : nat) (junk : positive → tframe) (buf : list Z) (h : theap) (p : tsdp_t)
    (last : option positive) (i : Z) : res (Z * option tsdp_t * theap) :=
  let len := Z.of_nat (length buf) in
  match fuel with
  | O => Ok (0, Some p, h)
  | S fuel' =>
      if negb (i <? len) then Ok (0, Some p, h)
      else
        b ← octet buf i;
        let final := negb (Z.land b 0x80 =? 0) in
        let type := Z.land (Z.shiftr b 4) 0x3 in
        let size := Z.shiftl (Z.land b 0x0f) 8 in
        let i := i + 1 in
        if len <=? i then give_back h p (- TSDP_E2SMALL)
        else
          b ← octet buf i;
          let size := size + b in
          let i := i + 1 in
          if len <=? i + size then give_back h p (- TSDP_E2SMALL)
          else if 0 <? size then Fault OutOfBounds   (* frame->data was never set *)
          else
            let a := next_addr h in
            let h := <[a := mk_tframe type size None (tf_next (junk a))]> h in
            let '(h, p) := link last a h p in
            let p := set_frames (ts_frames p) (s32 (ts_nframes p + 1)) p in
            if final then
              if i <? len then give_back h p (- TSDP_EEARLYFF) else unpack_loop fuel' junk buf h p (Some a) i
            else if i =? len then give_back h p (- TSDP_ENOFF)
            else unpack_loop fuel' junk buf h p (Some a) i
  end.

(** A setter that fails ends the function. *)
Definition or_give_back (h : theap) (p : tsdp_t) (r : Z * option tsdp_t) (k : tsdp_t → res (Z * option tsdp_t * theap))
    : res (Z * option tsdp_t * theap) :=
  match r with
  | (0, Some p') => k p'
  | (rc, _) => give_back h p rc
  end.

(** The body of [tsdp_unpack], had it asked [malloc] for [alloc] octets. *)
Definition unpack_with (alloc : Z) (junk : tsdp_t) (fjunk : positive → tframe) (h : theap) (given : bool) (buf : list Z)
    : res (Z * option tsdp_t * theap) :=
  let len := Z.of_nat (length buf) in
  if negb given || (len =? 0) then Ok (- EINVAL, None, h)
  else if len <? 4 then Ok (- TSDP_E2SMALL, None, h)
  else if alloc <? octets_end then Fault OutOfBounds   (* the store to octets *)
  else
    let p := set_octets len junk in
    b0 ← octet buf 0; b1 ← octet buf 1; b2 ← octet buf 2; b3 ← octet buf 3;
    or_give_back h p (tsdp_set_version (Some p) (Z.land (Z.shiftr b0 4) 0xf)) (λ p,
    or_give_back h p (tsdp_set_opcode (Some p) (Z.land b0 0xf)) (λ p,
    or_give_back h p (tsdp_set_flags (Some p) b1) (λ p,
    or_give_back h p (tsdp_set_payloads (Some p) (Z.lor (Z.shiftl b2 8) b3)) (λ p,
    unpack_loop (length buf) fjunk buf h p None 4)))).

(** The function asks for the size of a frame. *)
Definition tsdp_unpack : tsdp_t → (positive → tframe) → theap → bool → list Z → res (Z * option tsdp_t * theap) :=
  unpack_with sizeof_frame.

(** ** Texts *)

Definition __tsdp_errors : list string :=
  ["Success!"; "Buffer too size for requested operation"; "Early final frame found"; "No final frame found";
   "Frame type mismatch"].
Definition tsdp_error_str (error : Z) : res string :=
  if (error <? 0) || (TSDP_BIGGEST_ERROR <? error) then Ok "(uh-oh, that error number is out-of-bounds...)"
  else match __tsdp_errors !! Z.to_nat error with Some s => Ok s | None => Fault OutOfBounds end.

Definition __tsdp_opcodes : list string := ["HEARTBEAT"; "SUBMIT"; "BROADCAST"; "FORGET"; "REPLAY"; "SUBSCRIBER"].
Definition tsdp_opcode_str (opcode : Z) : res string :=
  if (opcode <? 0) || (TSDP_BIGGEST_OPCODE <? opcode) then Ok "<unknown>"
  else match __tsdp_opcodes !! Z.to_nat opcode with Some s => Ok s | None => Fault OutOfBounds end.
