(* ===== verification/TsdpFacts.v ===== *)
(** * Theorems on libtsdp

    The setters and getters keep what they are given.  Two opcodes of the
    protocol are refused, [tsdp_unpack] writes outside of its block for every
    buffer that is long enough, a list of frames only ever holds the last one,
    and no PDU with frames can be packed. *)

From S2P Require Import Prelude CLib Tsdp.

(** ** Opcodes and types *)

(** The opcodes that are accepted are four of the six. *)
Theorem valid_opcodes x : 0 ≤ x < 256 → __tsdp_valid_opcode x = true ↔ x ∈ [0; 1; 4; 5].
Proof.
  intros Hx. assert (forallb (λ n, Bool.eqb (__tsdp_valid_opcode (Z.of_nat n)) (bool_decide (Z.of_nat n ∈ [0; 1; 4; 5]))) (seq 0 256) = true) as Hall
    by (vm_compute; reflexivity).
  rewrite forallb_forall in Hall. specialize (Hall (Z.to_nat x)). rewrite in_seq, Z2Nat.id in Hall by lia.
  specialize (Hall ltac:(lia)). apply Bool.eqb_prop in Hall. rewrite Hall. apply bool_decide_eq_true.
Qed.

Lemma valid_opcodes_witness : __tsdp_valid_opcode TSDP_OP_FORGET = true ↔ TSDP_OP_FORGET ∈ [0; 1; 4; 5].
Proof. apply valid_opcodes. unfold TSDP_OP_FORGET. lia. Defined.

(** The frames that hold numbers and strings cannot be read: their types
    are refused. *)
Theorem types_refused h p n type out :
  type ∈ [TSDP_TYPE_UINT; TSDP_TYPE_FLOAT; TSDP_TYPE_STRING] → tsdp_get_frame_value h p n type out = Ok (inr (- EINVAL)).
Proof.
  intros Ht. assert (__tsdp_valid_type type = false) as E.
  { rewrite !elem_of_cons in Ht. destruct Ht as [->|[->|[->|?%elem_of_nil]]]; done. }
  unfold tsdp_get_frame_value, with_frame. rewrite E, andb_false_r. destruct p as [p|]; [|done]. by rewrite orb_true_r.
Qed.

Lemma types_refused_witness :
  tsdp_get_frame_value {[1%positive := mk_tframe TSDP_TYPE_STRING 2 (Some [104; 105]) Null]}
    (Some (mk_tsdp 1 1 0 1 (At 1) 1 8)) 0 TSDP_TYPE_STRING true = Ok (inr (- EINVAL)).
Proof. apply types_refused. by right; right; left. Defined.

(** ** Fields *)

Lemma land_ff v : v = Z.land v 0xff ↔ 0 ≤ v < 256.
Proof. change 0xff with (Z.ones 8). rewrite Z.land_ones by lia. split; [intros ->; zlia|intros; by rewrite Z.mod_small]. Qed.

Lemma land_ffff v : v = Z.land v 0xffff ↔ 0 ≤ v < 65536.
Proof. change 0xffff with (Z.ones 16). rewrite Z.land_ones by lia. split; [intros ->; zlia|intros; by rewrite Z.mod_small]. Qed.

(** A value that is set is read back and nothing else changes; a value
    that does not fit its field is refused and changes nothing. *)
Theorem set_get_fields p v :
  (let '(rc, q) := tsdp_set_flags (Some p) v in
   if (0 <=? v) && (v <? 256) then rc = 0 ∧ q = Some (set_flags v p) ∧ tsdp_get_flags q = v
   else rc = - EINVAL ∧ q = Some p) ∧
  (let '(rc, q) := tsdp_set_payloads (Some p) v in
   if (0 <=? v) && (v <? 65536) then rc = 0 ∧ q = Some (set_payloads v p) ∧ tsdp_get_payloads q = v
   else rc = - EINVAL ∧ q = Some p).
Proof.
  unfold tsdp_set_flags, tsdp_set_payloads, tsdp_set. split.
  - destruct (Z.eqb_spec v (Z.land v 0xff)) as [E|E].
    + rewrite <- E. apply land_ff in E. destruct (Z.leb_spec 0 v), (Z.ltb_spec v 256); try lia. done.
    + rewrite land_ff in E. destruct (Z.leb_spec 0 v), (Z.ltb_spec v 256); try done. lia.
  - destruct (Z.eqb_spec v (Z.land v 0xffff)) as [E|E].
    + rewrite <- E. apply land_ffff in E. destruct (Z.leb_spec 0 v), (Z.ltb_spec v 65536); try lia. done.
    + rewrite land_ffff in E. destruct (Z.leb_spec 0 v), (Z.ltb_spec v 65536); try done. lia.
Qed.

(** ** The header *)

(** A PDU whose header can be sent. *)
Record header_ok (p : tsdp_t) : Prop := {
  ho_version : ts_version p = TSDP_VERSION;
  ho_opcode : ts_opcode p ∈ [TSDP_OP_HEARTBEAT; TSDP_OP_SUBMIT; TSDP_OP_REPLAY; TSDP_OP_SUBSCRIBER];
  ho_flags : 0 ≤ ts_flags p < 256;
  ho_payloads : 0 ≤ ts_payloads p < 65536;
}.

Lemma payload_octets v :
  0 ≤ v < 65536 → Z.lor (Z.shiftl (Z.shiftr (Z.land v 0xff00) 8) 8) (Z.land v 0x00ff) = v.
Proof.
  intros Hv. change 0xff00 with (Z.shiftl (Z.ones 8) 8). change 0xff with (Z.ones 8).
  rewrite Z.shiftr_land, Z.shiftr_shiftl_l, Z.sub_diag, Z.shiftl_0_r by lia.
  rewrite !Z.land_ones, Z.shiftr_div_pow2 by lia. rewrite (Z.mod_small (v / 2 ^ 8)) by (change (2 ^ 8) with 256; zlia).
  apply Z.bits_inj'. intros n Hn. rewrite Z.lor_spec, Z.shiftl_spec by lia.
  destruct (decide (n < 8)) as [Hlt|Hge].
  - rewrite Z.testbit_neg_r, Z.mod_pow2_bits_low by lia. done.
  - rewrite Z.mod_pow2_bits_high, orb_false_r, Z.div_pow2_bits by lia. f_equal. lia.
Qed.

Lemma first_octet p :
  header_ok p →
  let b := Z.lor (Z.shiftl (Z.land (ts_version p) 0xf) 4) (Z.land (ts_opcode p) 0xf) in
  Z.land (Z.shiftr b 4) 0xf = ts_version p ∧ Z.land b 0xf = ts_opcode p.
Proof.
  intros Hp. rewrite (ho_version p Hp). pose proof (ho_opcode p Hp) as Ho. rewrite !elem_of_cons in Ho.
  destruct Ho as [->|[->|[->|[->|?%elem_of_nil]]]]; done.
Qed.

(** The four values of the header would give the header back to the body of
    [tsdp_unpack], were it given a block that a PDU fits in; the function
    itself asks for less ([unpack_overflows]). *)
Theorem header_roundtrip alloc p junk fjunk h :
  header_ok p → octets_end ≤ alloc →
  unpack_with alloc junk fjunk h true (pack_header p) =
    Ok (0, Some (mk_tsdp (ts_version p) (ts_opcode p) (ts_flags p) (ts_payloads p) (ts_frames junk) (ts_nframes junk) 4), h).
Proof.
  intros Hp Ha. destruct (first_octet p Hp) as [E1 E2]. cbv zeta in E1, E2.
  assert (Z.land (ts_flags p) 0xff = ts_flags p) as Ef by (symmetry; apply land_ff, (ho_flags p Hp)).
  pose proof (payload_octets _ (ho_payloads p Hp)) as Ep.
  assert (Z.land (ts_payloads p) 0xffff = ts_payloads p) as Ep' by (symmetry; apply land_ffff, (ho_payloads p Hp)).
  assert (__tsdp_valid_opcode (ts_opcode p) = true) as Eo.
  { pose proof (ho_opcode p Hp) as Ho. rewrite !elem_of_cons in Ho. destruct Ho as [->|[->|[->|[->|?%elem_of_nil]]]]; done. }
  unfold unpack_with. rewrite (proj2 (Z.ltb_ge alloc octets_end)) by lia.
  change (octet (pack_header p) 0) with (Ok (Z.lor (Z.shiftl (Z.land (ts_version p) 0xf) 4) (Z.land (ts_opcode p) 0xf))).
  change (octet (pack_header p) 1) with (Ok (Z.land (ts_flags p) 0xff)).
  change (octet (pack_header p) 2) with (Ok (Z.shiftr (Z.land (ts_payloads p) 0xff00) 8)).
  change (octet (pack_header p) 3) with (Ok (Z.land (ts_payloads p) 0x00ff)).
  rewrite !Ok_bind, E1, E2, Ef, Ep. change (length (pack_header p)) with 4%nat.
  unfold tsdp_set_version, tsdp_set_opcode, tsdp_set_flags, tsdp_set_payloads, tsdp_set, or_give_back.
  rewrite (ho_version p Hp), Eo, Ef, Ep', !Z.eqb_refl. reflexivity.
Qed.

Lemma header_roundtrip_witness :
  unpack_with 32 (mk_tsdp 0 0 0 0 Null 0 0) (λ _, mk_tframe 0 0 None Null) ∅ true (pack_header (mk_tsdp 1 4 0x81 0x1234 Null 0 4)) =
    Ok (0, Some (mk_tsdp 1 4 0x81 0x1234 Null 0 4), ∅).
Proof.
  apply (header_roundtrip 32 (mk_tsdp 1 4 0x81 0x1234 Null 0 4)); [constructor; cbn; [done|by right; right; left|lia|lia]|done].
Defined.

(** As the function is written, the block is that of a frame: every buffer
    that is long enough makes it write outside of it. *)
Theorem unpack_overflows junk fjunk h buf :
  4 ≤ Z.of_nat (length buf) → tsdp_unpack junk fjunk h true buf = Fault OutOfBounds.
Proof.
  intros Hl. unfold tsdp_unpack, unpack_with. rewrite (proj2 (Z.eqb_neq _ 0)), (proj2 (Z.ltb_ge _ 4)) by lia. done.
Qed.

Lemma unpack_overflows_witness :
  tsdp_unpack (mk_tsdp 0 0 0 0 Null 0 0) (λ _, mk_tframe 0 0 None Null) ∅ true [0x11; 0; 0; 1] = Fault OutOfBounds.
Proof. apply unpack_overflows. cbn. lia. Defined.

(** ** Lists of frames *)

(** The cells of a list of frames. *)
Inductive chain (h : theap) : ptr → list positive → Prop :=
| chain_nil : chain h Null []
| chain_cons a f as_ : h !! a = Some f → chain h (tf_next f) as_ → chain h (At a) (a :: as_).

Lemma chain_drop h p as_ : chain h p as_ → ∀ fuel, (length as_ ≤ fuel)%nat → drop_frames fuel h p = Some (Ok ()).
Proof.
  induction 1 as [|a f as_ Ha _ IH]; intros fuel Hf; [by destruct fuel|].
  destruct fuel as [|fuel]; cbn [length] in Hf; [lia|]. cbn [drop_frames frame_at]. rewrite Ha. apply IH. lia.
Qed.

Lemma chain_size h p as_ : chain h p as_ → NoDup as_ → (length as_ ≤ size h)%nat.
Proof.
  intros Hc Hnd. assert ((list_to_set as_ : gset positive) ⊆ dom h) as Hsub.
  { intros a. rewrite elem_of_list_to_set. clear Hnd. induction Hc as [|b f as_ Hb _ IH]; [by intros ?%elem_of_nil|].
    intros [->|Hin]%elem_of_cons; [by apply elem_of_dom|by apply IH]. }
  apply subseteq_size in Hsub. rewrite size_list_to_set in Hsub by done.
  etransitivity; [exact Hsub|]. apply Nat.eq_le_incl, size_dom.
Qed.

(** A PDU only ever has the frame that was added last: the loop that
    looks for the end of the list moves the head of the list, and the earlier
    frames are lost although they are still counted. *)
Theorem extend_keeps_last junk h p as_ type data len :
  chain h (ts_frames p) as_ → NoDup as_ → 0 ≤ len ≤ Z.of_nat (length data) → tf_next junk = Null →
  ∃ h' p', tsdp_extend junk h p type data len = Some (Ok (0, h', p')) ∧
    ts_nframes p' = s32 (ts_nframes p + 1) ∧
    ∃ a, chain h' (ts_frames p') [a] ∧ h' !! a = Some (mk_tframe type len (Some (take (Z.to_nat len) data)) Null) ∧
         a ∉ as_.
Proof.
  intros Hc Hnd Hlen Hj. unfold tsdp_extend. rewrite (chain_drop _ _ _ Hc) by (pose proof (chain_size _ _ _ Hc Hnd); lia).
  unfold copy_octets. rewrite (proj2 (Z.leb_le 0 len)), (proj2 (Z.leb_le len _)) by lia. cbn [andb]. rewrite Ok_bind, Hj.
  eexists _, _. split; [done|]. split; [done|]. exists (next_addr h). split_and!.
  - eapply chain_cons; [apply lookup_insert_eq|]. constructor.
  - apply lookup_insert_eq.
  - assert (next_addr h ∉ (dom h : gset positive)) as Hfresh by exact (is_fresh (dom h : gset positive)). intros Hin. apply Hfresh. clear - Hc Hin.
    induction Hc as [|b f as_ Hb _ IH]; [by apply elem_of_nil in Hin|].
    apply elem_of_cons in Hin as [E|Hin]; [rewrite E; by apply elem_of_dom|by apply IH].
Qed.

Lemma extend_keeps_last_witness :
  ∃ h' p', tsdp_extend (mk_tframe 0 0 None Null) {[1%positive := mk_tframe 4 1 (Some [7]) Null]} (mk_tsdp 1 1 0 1 (At 1) 1 0) 4 [8; 9] 2
             = Some (Ok (0, h', p')) ∧ ts_nframes p' = 2 ∧ ∃ a, chain h' (ts_frames p') [a].
Proof.
  destruct (extend_keeps_last (mk_tframe 0 0 None Null) {[1%positive := mk_tframe 4 1 (Some [7]) Null]} (mk_tsdp 1 1 0 1 (At 1) 1 0)
    [1%positive] 4 [8; 9] 2) as (h' & p' & E & En & a & Hc & _);
    [by eapply chain_cons; [reflexivity|constructor]|apply NoDup_singleton|cbn; lia|done|].
  exists h', p'. split; [exact E|]. split; [exact En|by exists a].
Defined.

(** ** Frames cannot be exchanged *)

Lemma pack_loop_fails fuel octets f cells i rc cells' :
  pack_loop fuel octets f cells i = Some (Ok (rc, cells')) → rc = - TSDP_E2SMALL.
Proof.
  revert cells i. induction fuel as [|fuel IH]; intros cells i; cbn [pack_loop]; [done|].
  destruct (_ <? _); [by intros [= <- _]|]. destruct (_ ≫= _) as [[c j]|e]; [apply IH|done].
Qed.

Lemma put_cells_pos cells i bs cells' j : put_cells cells i bs = Ok (cells', j) → j = i + Z.of_nat (length bs).
Proof.
  revert cells i. induction bs as [|b bs IH]; intros cells i; cbn [put_cells length]; [intros [= <- <-]; lia|].
  destruct (_ <? _); [|done]. intros ->%IH. lia.
Qed.

Lemma pack_loop_ends fuel octets f cells i :
  is_s32 octets → is_s32 (tf_size f) → 0 ≤ tf_size f → 0 ≤ i ≤ octets → octets - i < Z.of_nat fuel →
  pack_loop fuel octets f cells i ≠ None.
Proof.
  unfold is_s32. intros Ho Hs Hs0. revert cells i. induction fuel as [|fuel IH]; intros cells i Hi Hf; [lia|]. cbn [pack_loop].
  destruct (Z.ltb_spec (u64 octets) (u64 (i + 2 + tf_size f))) as [|Hle]; [done|].
  rewrite (u64_id octets), (u64_id (i + 2 + tf_size f)) in Hle by (unfold is_u64; lia).
  destruct (put_cells cells i (pack_frame_header f)) as [[c j]|e] eqn:E1; [|done]. rewrite Ok_bind.
  apply put_cells_pos in E1. change (length (pack_frame_header f)) with 2%nat in E1.
  destruct (tf_data f) as [d|]; [|done]. rewrite Ok_bind. unfold copy_octets. rewrite (u64_id (tf_size f)) by (unfold is_u64; lia).
  destruct ((0 <=? tf_size f) && (tf_size f <=? Z.of_nat (length d))) eqn:E2; [|done]. rewrite Ok_bind.
  apply andb_prop in E2 as [_ E2%Z.leb_le].
  destruct (put_cells c j _) as [[c' j']|e] eqn:E3; [|done]. apply put_cells_pos in E3. rewrite length_take in E3.
  apply IH; lia.
Qed.

(** A PDU with frames cannot be packed: the function ends, but with an
    error or outside of the caller's memory, since it never moves to the next
    frame; and a caller with one buffer, as the interface asks for, sees it
    write through the pointer behind it whether there are frames or not. *)
Theorem pack_fails h p f cells :
  frame_at h (ts_frames p) = Ok f → is_s32 (ts_octets p) → is_s32 (tf_size f) → 0 ≤ tf_size f → 4 ≤ ts_octets p →
  (∃ r, tsdp_pack true h p cells = Some r ∧ ∀ cells', r ≠ Ok (0, cells')) ∧
  (∀ b, tsdp_pack true h p [b] = Some (Fault OutOfBounds)).
Proof.
  intros Hf Ho Hs Hs0 H4. unfold tsdp_pack. cbn [negb]. rewrite (proj2 (Z.ltb_ge (ts_octets p) 4)) by lia. split; [|done].
  destruct (put_cells _ 0 (pack_header p)) as [[c i]|e] eqn:E; [|by eexists].
  apply put_cells_pos in E. change (length (pack_header p)) with 4%nat in E.
  assert (∃ r, pack_loop (S (Z.to_nat (ts_octets p))) (ts_octets p) f c i = Some r ∧ ∀ cells', r ≠ Ok (0, cells')) as (r & Er & Hr).
  { destruct (pack_loop (S (Z.to_nat (ts_octets p))) (ts_octets p) f c i) as [r|] eqn:El.
    - exists r. split; [done|]. intros c' ->. by apply pack_loop_fails in El.
    - exfalso. eapply pack_loop_ends; [exact Ho|exact Hs|done| | |exact El]; lia. }
  exists r. split; [|done]. destruct (ts_frames p); [done|..]; by rewrite Hf.
Qed.

Lemma pack_fails_witness :
  (∀ b, tsdp_pack true {[1%positive := mk_tframe 4 1 (Some [7]) Null]} (mk_tsdp 1 1 0 1 (At 1) 1 7) [b] = Some (Fault OutOfBounds)).
Proof.
  apply (pack_fails {[1%positive := mk_tframe 4 1 (Some [7]) Null]} (mk_tsdp 1 1 0 1 (At 1) 1 7) (mk_tframe 4 1 (Some [7]) Null) []);
    [reflexivity|unfold is_s32; cbn; lia|unfold is_s32; cbn; lia|cbn; lia|cbn; lia].
Defined.

Lemma give_back_none h p rc r q h' : give_back h p rc = Ok (r, q, h') → q = None.
Proof. unfold give_back. destruct (tsdp_destroy h (Some p)) as [[? ?]|]; [|done]. by intros [= <- <- <-]. Qed.

(** The loop never reaches the end of a buffer. *)
Lemma unpack_loop_fails fuel junk buf h p last i rc q h' :
  Forall is_u8 buf → 0 ≤ i < Z.of_nat (length buf) → Z.of_nat (length buf) - i ≤ Z.of_nat fuel →
  unpack_loop fuel junk buf h p last i = Ok (rc, q, h') → q = None.
Proof.
  intros Hb. revert h p last i. induction fuel as [|fuel IH]; intros h p last i Hi Hf; [lia|]. cbn [unpack_loop].
  rewrite (proj2 (Z.ltb_lt i _)) by lia. cbn [negb]. destruct (octet buf i) as [b|]; [|done]. rewrite Ok_bind. cbv zeta.
  destruct (Z.leb_spec (Z.of_nat (length buf)) (i + 1)) as [|H1]; [apply give_back_none|].
  unfold octet. destruct (buf !! Z.to_nat (i + 1)) as [b'|] eqn:E; [|done]. rewrite Ok_bind.
  eapply Forall_lookup_1 in E; [|exact Hb]. unfold is_u8 in E.
  assert (0 ≤ Z.shiftl (Z.land b 15) 8) as Hsh by (apply Z.shiftl_nonneg, Z.land_nonneg; right; lia).
  set (sz := Z.shiftl (Z.land b 15) 8 + b') in *.
  destruct (Z.leb_spec (Z.of_nat (length buf)) (i + 1 + 1 + sz)) as [|H2]; [apply give_back_none|].
  destruct (Z.ltb_spec 0 sz) as [|H3]; [done|]. destruct (link _ _ _ _) as [h1 p1]. destruct (negb _).
  - rewrite (proj2 (Z.ltb_lt (i + 1 + 1) _)) by lia. apply give_back_none.
  - destruct (Z.eqb_spec (i + 1 + 1) (Z.of_nat (length buf))); [apply give_back_none|]. apply IH; lia.
Qed.

Lemma or_give_back_none h p r k rc q h' :
  (∀ p', k p' = Ok (rc, q, h') → q = None) → or_give_back h p r k = Ok (rc, q, h') → q = None.
Proof.
  intros Hk. unfold or_give_back. destruct r as [z o]. destruct z, o; first [apply Hk|apply give_back_none].
Qed.

(** No buffer that holds a frame would be unpacked, however much memory were
    asked for:
    a frame that ends the buffer is taken for one that is cut off, and a
    final frame that does not end it is refused. *)
Theorem unpack_refuses_frames alloc junk fjunk h buf rc q h' :
  Forall is_u8 buf → 4 < Z.of_nat (length buf) →
  unpack_with alloc junk fjunk h true buf = Ok (rc, q, h') → q = None.
Proof.
  intros Hb Hl. unfold unpack_with. rewrite (proj2 (Z.eqb_neq _ 0)), (proj2 (Z.ltb_ge _ 4)) by lia. cbn [negb orb].
  destruct (alloc <? octets_end); [done|].
  destruct (octet buf 0); [|done]. destruct (octet buf 1); [|done]. destruct (octet buf 2); [|done]. destruct (octet buf 3); [|done].
  rewrite !Ok_bind. repeat (apply or_give_back_none; intros ?). apply unpack_loop_fails; [done|lia|lia].
Qed.

Lemma unpack_refuses_frames_witness :
  ∃ rc h', unpack_with 32 (mk_tsdp 0 0 0 0 Null 0 0) (λ _, mk_tframe 0 0 None Null) ∅ true [0x11; 0; 0; 1; 0xc0; 0]
    = Ok (rc, None, h').
Proof.
  destruct (unpack_with 32 (mk_tsdp 0 0 0 0 Null 0 0) (λ _, mk_tframe 0 0 None Null) ∅ true [0x11; 0; 0; 1; 0xc0; 0])
    as [[[rc q] h']|e] eqn:E; [|vm_compute in E; discriminate E].
  exists rc, h'. rewrite (unpack_refuses_frames _ _ _ _ [0x11; 0; 0; 1; 0xc0; 0] _ _ _ ltac:(repeat (apply Forall_cons; split; [unfold is_u8; lia|]); apply Forall_nil_2) ltac:(cbn; lia) E).
  reflexivity.
Defined.
